(* ===== verification/_CoqProject ===== *)
-Q . S2P
Prelude.v
RustText.v
Utf8Lossy.v
RustFmt.v
Errors.v
Identifier.v
LogCodec.v
Effects.v
FileSystem.v
LogFiles.v
LogTailer.v
LogFollower.v
FollowPortable.v
FollowHandle.v
LogPipeline.v
LogRetention.v
LogStop.v
World.v
DemoDaemon.v
Loops.v
Bridge.v
ContainerSpec.v
Inspect.v
ClientState.v
Task.v
Create.v
Alloc.v
ClientApi.v
UntilExit.v
Layers.v
Clone.v
Snapshot.v
CloneRace.v
Exec.v
ExecFiles.v
Readiness.v
PortForward.v
Connect.v
ClientMethods.v
Footprint.v
ClientInv.v
Registry.v
Names.v
StartDelete.v
Lifecycle.v
UnitTests.v
ScenarioTests.v
Examples.v
IntegrationTests.v
DockerExample.v
