(* ===== verification/Prelude.v ===== *)
(** * containerd-manager: a verification development

    The crate under [src/src/] drives containers through containerd's gRPC
    API: it creates, starts, stops and deletes them, gives them bridge
    addresses and host ports, runs commands and health checks in them, clones
    and snapshots their file systems, and keeps their output as a log of
    time-stamped records.  This library is a shallow embedding of it, with the
    theorems that make its parts correct.

    ** How the program is modelled

    - Rust's [Result] is [result] (below), [Option] is [option], [u8] .. [u64]
      and [usize] are [N] with the width written out where it matters, byte
      slices are [list byte], strings are [string] (bytes), [HashMap] and
      [DashMap] are [gmap], [Duration] is a number of nanoseconds.
    - Stateful code is state passing in the monad [ST] (file Effects), with
      [x ←? m; k] for [m?].  Three states are used: a file system with a
      schedule of faults and of other writers' actions (FileSystem) for the
      log code, that file system with a stream's or a follower's own state, and
      the world of a client (World) for everything that talks to containerd.
    - containerd is not modelled.  It is a parameter, class [World.Env]: a state
      of its own and one function per kind of interaction, which may move that
      state in any way, so other clients act between any two requests.  What
      some code needs of it is stated as a hypothesis or a class:
      [Layers.Snapshotter] for the snapshot service, [Layers.Undisturbed] for
      the proviso that nobody else changes its layers meanwhile (containerd's
      garbage collector included), [ContainerSpec.Libs] and
      [Create.lawful_libs] for [oci-spec], [serde_json] and SHA-256,
      [Bridge.lawful_choose] for the random choice, [Lifecycle.TaskService] for
      the task service, [Registry.Registry] for the container service,
      [FollowHandle.Mpsc] for tokio's bounded channel, [CloneRace.Reliable] for
      a snapshotter that refuses only what it must, [PortForward.Tcp] for
      tokio's streams, [LogFollower.Inodes] for what a platform tells about a
      file, [DockerExample.Docker] for bollard.
      DemoDaemon is a concrete daemon at which the witnesses apply the theorems.
    - [async] code runs in the order written.  Where it is cut or interleaved
      the model says so: [Exec] runs under a deadline that can drop it at any
      await; [Alloc] interleaves any number of creations and [CloneRace] any
      number of clones of one source, request by request; [Names] cuts
      creations after the check of the name and [StartDelete] a start and a
      deletion at the awaits around the client's maps; [LogPipeline] takes the
      writers, the passes of the tailer and the polls of the follower in any
      order, each pass and each poll in one piece, [UntilExit] the task and the
      watcher as well, [FollowHandle] the follower and its receiver; FileSystem lets other processes act before
      each operation; the [select!] loops (tailer,
      follower, forwarder, watcher) take the branch that fired as an argument.
    - Logging ([tracing]) is left out.

    ** The files, and the source they model

    - RustText, Utf8Lossy, RustFmt, Effects: the parts of Rust's [core] and
      [std] the crate uses (numbers and UTF-8 as text, [from_utf8_lossy],
      [Debug] of durations), and the monad.
    - Errors: [error.rs] with its [Display], [StatusExt] and [map_image_status] of [util.rs].
    - Identifier: [validate_identifier] of [util.rs], [ContainerId] of
      [types.rs].
    - LogCodec, LogFiles, LogFollower: [logs.rs] (record codec; paths and bulk
      reader; [follow_loop]).  LogTailer: [log_tailer.rs].  FileSystem is the
      file system they run on.  FollowHandle: the handle and the channel of
      [follow_logs].  LogPipeline: writers, tailer and follower together;
      LogRetention: what the bulk reader then finds; LogStop: what it finds
      after the tailer's last passes.  FollowPortable: the follower on a
      platform without inodes.  UntilExit: [container_logs_stream_until_exit]
      of [client.rs], with the container and its task.
    - World: [Client] and [ns_req] of [client.rs], the requests and the state
      all clones of a client share.  Loops: [poll_until] of [util.rs], and the
      lemmas about traces and time that the polling code shares.
    - Bridge: the pure parts of [bridge.rs] and the port labels of
      [port_forward.rs] and [container.rs].  Alloc: [ALLOC_LOCK] as a step
      relation.
    - ContainerSpec, Create: [container.rs] (spec; metadata, creation) and
      [alloc_bridge_ip], [pick_free_port] of [bridge.rs].
    - Inspect: [inspect.rs], [list.rs], the records of [types.rs].
    - ClientState, ClientApi: [client.rs], with [start_port_forward] and the
      tailer's start and stop.  ClientMethods: its other public methods and the
      type of all calls; Footprint, ClientInv: what holds of every history of
      calls.  Task: [task.rs]; Lifecycle: what it promises over a task's states.
    - Registry: the container service's contract, and what deletion does under
      it.  Names: [create_container_with_id] and [resolve_name] as the keepers
      of the names.  StartDelete: a start that races with a deletion.
    - Layers, Clone, Snapshot: the snapshotter's contract; [clone.rs] and
      [snapshot_util.rs]; [snapshot.rs].  CloneRace: clones that race.
    - Exec, ExecFiles: [exec.rs].  Readiness: [readiness.rs].  PortForward: the accept loop
      of [port_forward.rs] and the task of a connection.  Connect: [connect.rs], [image.rs].
    - UnitTests, ScenarioTests: the assertions of the [mod tests] of the crate.
      IntegrationTests: the programs of [src/tests/integration.rs].
      Examples: the programs of [src/examples/] that use the library;
      DockerExample: the one that uses bollard instead.

    A definition has the name of the function it translates.  Where one
    function of the source is long its stages are definitions of their own
    ([prepare_for], [bridge_config_for], [build_container], [register] of
    [create_container_with_id]), composed by the one that has its name.

    ** What the theorems show

    - Logs.  Encoding and parsing round-trip; decoding does not depend on how
      the bytes are cut; a truncated record is kept, not skipped.  The tailer
      conserves the bytes of the raw streams, rotates at the threshold and loses
      only the oldest file, gives up only after 50 failing passes.  The
      follower delivers each record once and in order, across a rotation at a
      record boundary too.  The bulk reader returns the filtered history.
      The three together refine a queue of lines per stream, and everything a
      container prints is delivered; a tailer started anew repeats the output.
      What the bulk reader shows is the newest of it: nothing is lost while
      less than thirty megabytes are newer.  When the tailer is stopped the
      whole output is published, up to a last line without a newline, which
      never is.  The stream that ends with the task delivers the output if the
      tailer had its passes in time, and can miss the last of it otherwise,
      with the exact intervals of the loops.
      A stopped stream hands over the whole log through its bounded channel.
      Without inodes the follower is as good until the first rotation.
      Also proved: what a failed read or append, an append during a read and a
      record that straddles a rotation cost.
    - Containers.  What a creation registers, what a failed one leaves behind,
      and that an inspection reports what was created, ports included.
      Identifiers that pass the validator follow containerd's grammar and are
      safe in a shell script and in a path.  Port labels round-trip.
      Interleaved creations get distinct addresses within a namespace.
      Names stay unique through every history of calls, a created container is
      found by its name, and a deletion undoes a creation, but for a layer
      whose removal the daemon refused; creations that overlap may share a
      name, and a start that is late leaves its tailer.
    - Tasks.  Which signals [stop_container] sends and how it waits for them; what a successful
      deletion means; that deletion is idempotent; that the waits answer; that
      starting records a start time exactly on success.  Over the states
      of a task's life the operations refine their abstract specification.
    - Snapshots.  Under the snapshotter's contract, what cloning, snapshotting,
      restoring, resetting and deleting do to the layers, on success and on
      each failure, as long as no one else (garbage collection included)
      changes them meanwhile; what an undo leaves when the daemon refuses it is
      stated too.  Clones that race get their layers on one base, and the crate
      never asks for the removal of a base unless the daemon says that it
      carries the label of a managed snapshot.
    - Exec and readiness.  The order of an execution's requests, what it
      returns of the command's output, that it leaves no files, the text a
      caller reads, the truth of the answers of [wait_ready] and
      [probe_health].
    - Client state.  Every call keeps the client's maps well typed and stays
      within its namespace and container.  Keys of different containers differ,
      deleting a container removes its tailer, its forwards and, when it
      succeeds, its start time; the log watcher
      gives up after a known time.
    - Tests and examples.  The crate's unit tests hold of the model, its
      integration tests and its examples of the model on the demonstration
      daemon.

    ** Fuel

    Decoders take the length of the input as fuel; the lemmas show that more
    changes nothing.  A polling loop takes the number of rounds that fit in its
    time limit ([Loops.rounds_within]), and the theorems show that it answers
    within it; where the pace comes from outside, a hypothesis is that the
    pause between rounds is positive.  Requests and sleeps take durations, so
    the operations of the crate never turn the clock back ([Loops.later]).  The watcher's loop has no
    limit of its own: its fuel is an argument, and the theorem about it says
    how many rounds it takes.  Loops that only end by an outside event (tailer,
    follower, forwarder) run over a list of rounds.

    ** What is not modelled

    What tokio copies between the two ends of a port forward, the HTTP exchange
    of an example, the tonic channel and the protobuf encoding, what a shell
    makes of a hook script (the script's text is modelled).  Of the
    integration tests, five that look at what a process printed or at the
    bytes of a socket, and those of [colima_profiles.rs], which start virtual
    machines; of the unit tests, three that only test serde or prost.
    [LogTailer]'s [Drop], which aborts the background task
    when the last clone of a client goes.
    A [tokio] file operation is over when its await is; [append_batch] does not
    flush, so on a real disk its last write may still be under way then.
    Iterating over a [HashMap] follows [map_to_list]; no theorem depends on
    that order except that each key comes once.
    Containerd's garbage collection, which may take layers no container, child
    or label refers to: the crate takes no lease and sets no label against it.

    What is left has no logic of the crate (the libraries it calls, derived
    code, tracing) or would need a finer cut: a deletion request by request
    against every other call on the container, of which StartDelete has the
    case that leaves something behind. *)

From Stdlib Require Export NArith ZArith Lia Strings.Byte.
From stdpp Require Export base tactics option list gmap strings sorting.

#[global] Open Scope N_scope.
#[global] Open Scope nat_scope.
#[global] Set Default Goal Selector "!".

(** ** Rust's [Result]

    The error type is a parameter so that the same type serves the crate's
    [Result<T>] and the [Result<Response, Status>] of the gRPC stubs. *)
Inductive result (E A : Type) : Type :=
| Ok (a : A)
| Err (e : E).
Arguments Ok {E A} a.
Arguments Err {E A} e.

Definition is_ok {E A} (r : result E A) : bool :=
  match r with Ok _ => true | Err _ => false end.

(** [Result::map_err]. *)
Definition map_err {E F A} (f : E -> F) (r : result E A) : result F A :=
  match r with Ok a => Ok a | Err e => Err (f e) end.

(** [Option::ok_or]. *)
Definition ok_or {E A} (e : E) (o : option A) : result E A :=
  match o with Some a => Ok a | None => Err e end.

(** [Result::ok]. *)
Definition ok {E A} (r : result E A) : option A :=
  match r with Ok a => Some a | Err _ => None end.

#[export] Instance result_eq_dec {E A} `{EqDecision E, EqDecision A} :
  EqDecision (result E A).
Proof. solve_decision. Defined.

(** The [?] operator on a pure [Result]. *)
Definition try_bind {E A B} (r : result E A) (k : A -> result E B) : result E B :=
  match r with Ok a => k a | Err e => Err e end.

(** [Iterator::collect] into a [Result]: the first error, if any. *)
Fixpoint collect_results {E A} (l : list (result E A)) : result E (list A) :=
  match l with
  | [] => Ok []
  | Ok a :: l => match collect_results l with Ok r => Ok (a :: r) | Err e => Err e end
  | Err e :: _ => Err e
  end.

Declare Scope rust_scope.
Delimit Scope rust_scope with rust.
Notation "'let?' x ':=' r 'in' k" := (try_bind r (fun x => k))
  (at level 10, x pattern, r at level 100, k at level 200,
   format "'[v' 'let?'  x  ':='  r  'in' '/' k ']'") : rust_scope.
#[global] Open Scope rust_scope.

(** ** Automation

    [simp_eqs] turns boolean tests into propositions and cleans the context;
    [crush] closes the goals that only need that and linear arithmetic. *)
Create HintDb cm discriminated.
Create Rewrite HintDb cm.

Ltac bool_props :=
  repeat match goal with
  | H : andb _ _ = true |- _ => apply andb_true_iff in H as [? ?]
  | H : orb _ _ = false |- _ => apply orb_false_iff in H as [? ?]
  | H : negb _ = true |- _ => apply negb_true_iff in H
  | H : negb _ = false |- _ => apply negb_false_iff in H
  | H : N.leb _ _ = true |- _ => apply N.leb_le in H
  | H : N.leb _ _ = false |- _ => apply N.leb_gt in H
  | H : N.ltb _ _ = true |- _ => apply N.ltb_lt in H
  | H : N.ltb _ _ = false |- _ => apply N.ltb_ge in H
  | H : N.eqb _ _ = true |- _ => apply N.eqb_eq in H
  | H : N.eqb _ _ = false |- _ => apply N.eqb_neq in H
  | H : Z.leb _ _ = true |- _ => apply Z.leb_le in H
  | H : Z.leb _ _ = false |- _ => apply Z.leb_gt in H
  | H : Z.ltb _ _ = true |- _ => apply Z.ltb_lt in H
  | H : Z.ltb _ _ = false |- _ => apply Z.ltb_ge in H
  | H : Nat.leb _ _ = true |- _ => apply Nat.leb_le in H
  | H : Nat.leb _ _ = false |- _ => apply Nat.leb_gt in H
  | H : Nat.ltb _ _ = true |- _ => apply Nat.ltb_lt in H
  | H : Nat.ltb _ _ = false |- _ => apply Nat.ltb_ge in H
  | H : Nat.eqb _ _ = true |- _ => apply Nat.eqb_eq in H
  | H : Nat.eqb _ _ = false |- _ => apply Nat.eqb_neq in H
  | H : bool_decide _ = true |- _ => apply bool_decide_eq_true in H
  | H : bool_decide _ = false |- _ => apply bool_decide_eq_false in H
  end.

Ltac simp_eqs := bool_props; simplify_eq/=; bool_props.

(** Case analysis on every [match] scrutinee of the goal, innermost last. *)
Ltac split_match :=
  match goal with
  | |- context [match ?x with _ => _ end] =>
      lazymatch x with
      | context [match _ with _ => _ end] => fail
      | _ => destruct x eqn:?
      end
  end.

Ltac split_match_in H :=
  match type of H with
  | context [match ?x with _ => _ end] =>
      lazymatch x with
      | context [match _ with _ => _ end] => fail
      | _ => destruct x eqn:?
      end
  end.

Ltac crush := repeat (simp_eqs; try split_match); try done; try lia; eauto with cm.

(** ** Bytes and slices *)

Abbreviation bytes := (list Byte.byte).

#[export] Instance byte_eq_dec : EqDecision Byte.byte := Byte.byte_eq_dec.

(** [len as u64]. *)
Definition blen {A} (l : list A) : N := N.of_nat (length l).

(** [iter().position(p)]. *)
Fixpoint position {A} (p : A -> bool) (l : list A) : option nat :=
  match l with
  | [] => None
  | x :: l => if p x then Some 0 else S <$> position p l
  end.

Definition byte_is (c b : Byte.byte) : bool := Byte.eqb b c.

Definition SPACE : Byte.byte := " "%byte.
Definition NL : Byte.byte := x0a.

Lemma byte_is_true c b : byte_is c b = true <-> b = c.
Proof.
  unfold byte_is. split; [apply Byte.byte_dec_bl|apply Byte.byte_dec_lb].
Qed.

Lemma byte_is_refl c : byte_is c c = true.
Proof. by apply byte_is_true. Qed.

Lemma byte_is_false c b : byte_is c b = false <-> b <> c.
Proof. rewrite <-not_true_iff_false, byte_is_true. done. Qed.

(** ** Generic list lemmas *)
Section list_lemmas.
Context {A : Type}.
Implicit Types (p : A -> bool) (l k : list A).

(** Every element before the found position fails the test. *)
Lemma position_app_l p l k :
  Forall (fun x => p x = false) l ->
  position p (l ++ k) = (fun i => length l + i) <$> position p k.
Proof.
  induction 1 as [|x l Hx _ IH]; simpl; [by destruct (position p k)|].
  rewrite Hx, IH. by destruct (position p k).
Qed.

Lemma position_none p l : position p l = None <-> Forall (fun x => p x = false) l.
Proof.
  induction l as [|x l IH]; simpl; [done|].
  destruct (p x) eqn:E.
  - split; [done|]. inversion 1; congruence.
  - rewrite fmap_None, IH. split; [by constructor|by inversion 1].
Qed.

Lemma position_some p l i :
  position p l = Some i ->
  exists l1 x l2, l = l1 ++ x :: l2 /\ length l1 = i /\ p x = true /\
    Forall (fun y => p y = false) l1.
Proof.
  revert i. induction l as [|x l IH]; intros i; simpl; [done|].
  destruct (p x) eqn:E.
  - intros [= <-]. by exists [], x, l.
  - destruct (position p l) as [j|] eqn:Hj; simpl; [|done].
    intros [= <-]. destruct (IH _ eq_refl) as (l1 & y & l2 & -> & <- & ? & ?).
    exists (x :: l1), y, l2. split_and!; auto.
Qed.

Lemma position_lt p l i : position p l = Some i -> i < length l.
Proof.
  intros (l1 & x & l2 & -> & <- & _)%position_some. rewrite length_app. simpl. lia.
Qed.

Lemma blen_app l k : blen (l ++ k) = (blen l + blen k)%N.
Proof. unfold blen. rewrite length_app. lia. Qed.

Lemma blen_nil : blen (@nil A) = 0%N.
Proof. done. Qed.

Lemma blen_cons x l : blen (x :: l) = (1 + blen l)%N.
Proof. unfold blen. simpl. lia. Qed.

Lemma to_nat_blen l : N.to_nat (blen l) = length l.
Proof. apply Nat2N.id. Qed.

Lemma take_app_exact l k n : n = length l -> take n (l ++ k) = l.
Proof. intros ->. apply take_app_length. Qed.

Lemma drop_app_exact l k n : n = length l -> drop n (l ++ k) = k.
Proof. intros ->. apply drop_app_length. Qed.

End list_lemmas.

#[export] Hint Rewrite @length_app @blen_app @blen_cons @blen_nil : cm.
