(* ===== verification/RustText.v ===== *)
(** * Text: the parts of Rust's [core::str], [core::num] and [core::fmt] the
    crate uses

    Rust strings are byte sequences; they are modelled by [string] (one
    [ascii] per byte) and byte slices by [list byte].  The file has unsigned
    number printing in bases 10 and 16, [str::parse] for unsigned types,
    UTF-8 validation, [split_once], [strip_prefix], [join], with the print /
    parse round trip that the log codec and the port labels rest on. *)

From S2P Require Import Prelude.
From Stdlib Require Import Ascii.

(** ** Machine widths *)
Definition U8_MAX : N := 255.
Definition U16_MAX : N := 65535.
Definition U32_MAX : N := 4294967295.
Definition I32_MAX : N := 2147483647.
Definition U64_MAX : N := 18446744073709551615.

Definition str_bytes (s : string) : bytes := String.list_byte_of_string s.
Definition bytes_str (b : bytes) : string := String.string_of_list_byte b.

Lemma str_bytes_str b : str_bytes (bytes_str b) = b.
Proof. apply String.list_byte_of_string_of_list_byte. Qed.

Lemma bytes_str_bytes s : bytes_str (str_bytes s) = s.
Proof. apply String.string_of_list_byte_of_string. Qed.

Lemma str_bytes_inj s t : str_bytes s = str_bytes t -> s = t.
Proof. intros H. by rewrite <-(bytes_str_bytes s), H, bytes_str_bytes. Qed.

Lemma str_bytes_app s t : str_bytes (s +:+ t) = str_bytes s ++ str_bytes t.
Proof.
  unfold str_bytes, String.list_byte_of_string.
  induction s as [|c s IH]; simpl; [done|]. by rewrite IH.
Qed.

(** ** Printing unsigned integers *)
Definition digit_char (d : N) : Byte.byte :=
  default x30 (Byte.of_N (if (d <? 10)%N then 48 + d else 87 + d)%N).

(** Most significant digit first; [fuel] bounds the number of digits. *)
Fixpoint radix_digits (base : N) (fuel : nat) (n : N) : bytes :=
  match fuel with
  | O => []
  | S fuel =>
      (if (n / base =? 0)%N then [] else radix_digits base fuel (n / base)%N)
        ++ [digit_char (n mod base)%N]
  end.

(** [u64::to_string] and [{}]. *)
Definition dec_bytes (n : N) : bytes := radix_digits 10 (S (N.to_nat (N.size n))) n.
Definition dec_string (n : N) : string := bytes_str (dec_bytes n).

(** [{:0wx}]: lower-case hexadecimal, zero-padded to [w] digits. *)
Definition hex_padded (w : nat) (n : N) : bytes :=
  let ds := radix_digits 16 (S (N.to_nat (N.size n))) n in
  replicate (w - length ds) x30 ++ ds.

(** ** [str::parse] for unsigned types

    An optional leading [+], at least one digit, no other character, and no
    overflow of the target type. *)
Definition digit_val (b : Byte.byte) : option N :=
  let v := Byte.to_N b in
  if ((48 <=? v) && (v <=? 57))%N then Some (v - 48)%N else None.

Fixpoint parse_digits (acc : N) (l : bytes) : option N :=
  match l with
  | [] => Some acc
  | b :: l => d ← digit_val b; parse_digits (acc * 10 + d)%N l
  end.

Definition PLUS : Byte.byte := "+"%byte.

Definition parse_uint (max : N) (l : bytes) : option N :=
  let ds := match l with
            | b :: l' => if byte_is PLUS b then l' else l
            | [] => []
            end in
  match ds with
  | [] => None
  | _ => n ← parse_digits 0 ds; if (n <=? max)%N then Some n else None
  end.

Definition parse_u64 : bytes -> option N := parse_uint U64_MAX.
Definition parse_u16 (s : string) : option N := parse_uint U16_MAX (str_bytes s).
Definition parse_u8 (s : string) : option N := parse_uint U8_MAX (str_bytes s).

(** ** UTF-8 validation ([core::str::from_utf8])

    The well-formed byte sequences of the Unicode standard (table 3-7). *)
Definition in_range (lo hi : N) (b : Byte.byte) : bool :=
  ((lo <=? Byte.to_N b) && (Byte.to_N b <=? hi))%N.

Definition is_cont : Byte.byte -> bool := in_range 128 191.

Fixpoint utf8_valid (l : bytes) : bool :=
  match l with
  | [] => true
  | b :: l1 =>
      if in_range 0 127 b then utf8_valid l1
      else match l1 with
      | [] => false
      | c :: l2 =>
          if in_range 194 223 b then is_cont c && utf8_valid l2
          else match l2 with
          | [] => false
          | d :: l3 =>
              if in_range 224 239 b then
                (if in_range 224 224 b then in_range 160 191 c
                 else if in_range 237 237 b then in_range 128 159 c
                 else is_cont c) && is_cont d && utf8_valid l3
              else match l3 with
              | [] => false
              | e :: l4 =>
                  in_range 240 244 b &&
                  (if in_range 240 240 b then in_range 144 191 c
                   else if in_range 244 244 b then in_range 128 143 c
                   else is_cont c) && is_cont d && is_cont e && utf8_valid l4
              end
          end
      end
  end.

Definition from_utf8 (l : bytes) : option bytes :=
  if utf8_valid l then Some l else None.

(** ** String slicing *)

(** [str::split_once(c)]: around the first occurrence. *)
Fixpoint split_once (c : ascii) (s : string) : option (string * string) :=
  match s with
  | EmptyString => None
  | String a s =>
      if Ascii.eqb a c then Some (EmptyString, s)
      else (fun p => (String a p.1, p.2)) <$> split_once c s
  end.

(** [str::strip_prefix]. *)
Fixpoint strip_prefix (p s : string) : option string :=
  match p, s with
  | EmptyString, s => Some s
  | String a p, String b s => if Ascii.eqb a b then strip_prefix p s else None
  | String _ _, EmptyString => None
  end.

(** [str::starts_with]. *)
Definition starts_with (p s : string) : bool :=
  match strip_prefix p s with Some _ => true | None => false end.

(** [slice::join]. *)
Fixpoint join (sep : string) (l : list string) : string :=
  match l with
  | [] => ""
  | [s] => s
  | s :: l => s +:+ sep +:+ join sep l
  end.

(** The double quote character, for text that contains it. *)
Definition DQ : string := String (ascii_of_nat 34) EmptyString.

(** * Lemmas *)

(** ** Digits *)
Definition is_digit (b : Byte.byte) : bool :=
  match digit_val b with Some _ => true | None => false end.

Lemma digit_val_char d : (d < 10)%N -> digit_val (digit_char d) = Some d.
Proof.
  intros H. assert (Hd : In d [0;1;2;3;4;5;6;7;8;9]%N) by (simpl; lia).
  repeat (destruct Hd as [<-|Hd]; [done|]). done.
Qed.

Lemma digit_val_range b d :
  digit_val b = Some d -> Byte.to_N b = (48 + d)%N /\ (d < 10)%N.
Proof.
  unfold digit_val.
  destruct ((48 <=? Byte.to_N b) && (Byte.to_N b <=? 57))%N eqn:E; [|done].
  intros [= <-]. bool_props. lia.
Qed.

Lemma is_digit_not b c :
  is_digit b = true -> is_digit c = false -> byte_is c b = false.
Proof. intros Hb Hc. apply byte_is_false. intros ->. congruence. Qed.

Lemma digit_ascii b : is_digit b = true -> in_range 0 127 b = true.
Proof.
  unfold is_digit, in_range. destruct (digit_val b) eqn:E; [|done].
  apply digit_val_range in E as [-> ?]. intros _.
  apply andb_true_iff; split; apply N.leb_le; lia.
Qed.

Lemma digits_utf8 l : Forall (fun b => is_digit b = true) l -> utf8_valid l = true.
Proof. induction 1 as [|b l Hb _ IH]; simpl; [done|]. by rewrite digit_ascii. Qed.

(** ** Printing, then parsing *)
Lemma parse_digits_app a l k :
  parse_digits a (l ++ k) = v ← parse_digits a l; parse_digits v k.
Proof.
  revert a. induction l as [|b l IH]; intros a; simpl; [done|].
  destruct (digit_val b); simpl; auto.
Qed.

(** The printer's fuel is enough: the digits it produces parse back to [n]. *)
Lemma radix10_parse f n :
  (n < 2 ^ N.of_nat f)%N -> parse_digits 0 (radix_digits 10 (S f) n) = Some n.
Proof.
  revert n. induction f as [|f IH]; intros n Hn.
  - assert (n = 0%N) as -> by (simpl in Hn; lia). done.
  - change (radix_digits 10 (S (S f)) n) with
      ((if (n / 10 =? 0)%N then [] else radix_digits 10 (S f) (n / 10)%N)
        ++ [digit_char (n mod 10)%N]).
    rewrite parse_digits_app.
    assert (Hmod : (n mod 10 < 10)%N) by (apply N.mod_lt; lia).
    assert (Hdiv : n = (n / 10 * 10 + n mod 10)%N)
      by (rewrite N.mul_comm; apply N.Div0.div_mod).
    destruct (N.eqb_spec (n / 10) 0) as [E|E].
    + simpl. rewrite digit_val_char by done. simpl. f_equal. lia.
    + rewrite IH.
      * simpl. rewrite digit_val_char by done. simpl. f_equal. lia.
      * rewrite Nat2N.inj_succ, N.pow_succ_r' in Hn.
        apply N.Div0.div_lt_upper_bound; nia.
Qed.

Lemma dec_bytes_parse n : parse_digits 0 (dec_bytes n) = Some n.
Proof. apply radix10_parse. rewrite N2Nat.id. apply N.size_gt. Qed.

Lemma dec_bytes_digits n : Forall (fun b => is_digit b = true) (dec_bytes n).
Proof.
  unfold dec_bytes. generalize (S (N.to_nat (N.size n))) as f.
  intros f. revert n. induction f as [|f IH]; intros n; simpl; [constructor|].
  apply Forall_app. split; [destruct (n / 10 =? 0)%N; auto|].
  constructor; [|constructor]. unfold is_digit.
  rewrite digit_val_char; [done|]. apply N.mod_lt. lia.
Qed.

Lemma dec_bytes_nonempty n : dec_bytes n <> [].
Proof. unfold dec_bytes. simpl. by intros [_ ?]%app_nil. Qed.

(** Printing then parsing an in-range value gives it back. *)
Lemma parse_uint_dec max n : (n <= max)%N -> parse_uint max (dec_bytes n) = Some n.
Proof.
  intros Hn. unfold parse_uint.
  pose proof (dec_bytes_digits n) as Hd. pose proof (dec_bytes_parse n) as Hp.
  destruct (dec_bytes n) as [|b l] eqn:E; [by apply dec_bytes_nonempty in E|].
  assert (byte_is PLUS b = false) as ->.
  { apply is_digit_not; [|done]. by inversion Hd. }
  rewrite Hp. simpl. by rewrite (proj2 (N.leb_le _ _) Hn).
Qed.

Lemma parse_uint_range max l n : parse_uint max l = Some n -> (n <= max)%N.
Proof.
  unfold parse_uint. generalize (match l with
    | [] => [] | b :: l' => if byte_is PLUS b then l' else l end) as ds.
  intros [|b ds]; [done|]. intros (v & _ & H)%bind_Some.
  split_match_in H; simp_eqs; lia.
Qed.

Lemma parse_u16_dec n : (n <= U16_MAX)%N -> parse_u16 (dec_string n) = Some n.
Proof.
  intros ?. unfold parse_u16, dec_string. rewrite str_bytes_str. by apply parse_uint_dec.
Qed.

Lemma dec_string_inj n m : dec_string n = dec_string m -> n = m.
Proof.
  intros H. apply (f_equal str_bytes) in H. unfold dec_string in H.
  rewrite !str_bytes_str in H. pose proof (dec_bytes_parse n) as Hn.
  rewrite H, dec_bytes_parse in Hn. congruence.
Qed.

(** A number below [base ^ k] has at most [k] digits. *)
Lemma radix_digits_length base f n k :
  (2 <= base)%N -> (n < base ^ N.of_nat (S k))%N ->
  length (radix_digits base f n) <= S k.
Proof.
  intros Hb. revert n k. induction f as [|f IH]; intros n k Hn; simpl; [lia|].
  rewrite length_app. simpl.
  destruct (N.eqb_spec (n / base) 0) as [E|E]; simpl; [lia|].
  destruct k as [|k].
  - exfalso. apply E. apply N.div_small. by rewrite N.pow_1_r in Hn.
  - rewrite Nat2N.inj_succ, N.pow_succ_r' in Hn.
    assert (length (radix_digits base f (n / base)) <= S k); [|lia].
    apply IH. by apply N.Div0.div_lt_upper_bound.
Qed.

Lemma hex_padded_exact w n :
  (n < 16 ^ N.of_nat (S w))%N -> length (hex_padded (S w) n) = S w.
Proof.
  intros Hn. unfold hex_padded. rewrite length_app, length_replicate.
  pose proof (radix_digits_length 16 (S (N.to_nat (N.size n))) n w ltac:(lia) Hn). lia.
Qed.

(** ** Slicing *)
Lemma strip_prefix_app p s : strip_prefix p (p +:+ s) = Some s.
Proof. induction p as [|a p IH]; simpl; [done|]. by rewrite Ascii.eqb_refl. Qed.

Lemma strip_prefix_some p s t : strip_prefix p s = Some t -> s = p +:+ t.
Proof.
  revert s. induction p as [|a p IH]; intros s; simpl; [by intros [= ->]|].
  destruct s as [|b s]; [done|].
  destruct (Ascii.eqb_spec a b) as [->|]; [|done].
  intros ->%IH. done.
Qed.

Lemma starts_with_iff p s : starts_with p s = true <-> exists t, s = p +:+ t.
Proof.
  unfold starts_with. split.
  - destruct (strip_prefix p s) eqn:E; [|done]. intros _.
    eauto using strip_prefix_some.
  - intros [t ->]. by rewrite strip_prefix_app.
Qed.

(** A string whose first half has no [c] splits there. *)
Fixpoint str_has (c : ascii) (s : string) : bool :=
  match s with
  | EmptyString => false
  | String a s => Ascii.eqb a c || str_has c s
  end.

Lemma split_once_app c k v :
  str_has c k = false -> split_once c (k +:+ String c v) = Some (k, v).
Proof.
  induction k as [|a k IH]; simpl; [by rewrite Ascii.eqb_refl|].
  intros [-> ?]%orb_false_iff. by rewrite IH.
Qed.

Lemma split_once_some c s k v :
  split_once c s = Some (k, v) -> s = k +:+ String c v /\ str_has c k = false.
Proof.
  revert k v. induction s as [|a s IH]; intros k v; simpl; [done|].
  destruct (Ascii.eqb_spec a c) as [->|Hac].
  - intros [= <- <-]. done.
  - destruct (split_once c s) as [[k' v']|]; simpl; [|done].
    intros [= <- <-]. destruct (IH _ _ eq_refl) as [-> ?]. split; [done|].
    simpl. by rewrite (proj2 (Ascii.eqb_neq _ _) Hac).
Qed.

Lemma split_once_none c s : split_once c s = None <-> str_has c s = false.
Proof.
  induction s as [|a s IH]; simpl; [done|].
  destruct (Ascii.eqb a c); simpl; [done|].
  rewrite fmap_None. done.
Qed.

Lemma str_app_assoc a b c : (a +:+ b) +:+ c = a +:+ b +:+ c.
Proof. induction a as [|x a IH]; [done|]. change (String x ((a +:+ b) +:+ c) = String x (a +:+ b +:+ c)). by rewrite IH. Qed.

Lemma str_app_nil_r a : a +:+ "" = a.
Proof. induction a as [|x a IH]; [done|]. change (String x (a +:+ "") = String x a). by rewrite IH. Qed.

Lemma str_length_app a b : String.length (a +:+ b) = String.length a + String.length b.
Proof. induction a as [|x a IH]; [done|]. change (S (String.length (a +:+ b)) = S (String.length a + String.length b)). by rewrite IH. Qed.
