(* ===== verification/Utf8Lossy.v ===== *)
(** * [String::from_utf8_lossy]

    The conversion of [alloc::string] that the crate uses to show what a
    command printed: characters are kept, every maximal piece that cannot be
    continued to a character becomes U+FFFD.  [utf8_first] is a round of
    [core::str::Utf8Chunks]. *)

From S2P Require Import Prelude RustText.

(** U+FFFD in UTF-8. *)
Definition REPLACEMENT : bytes := [xef; xbf; xbd].

(** [safe_get(i)] satisfies [p]; 0 past the end never does. *)
Definition next_is (p : Byte.byte -> bool) (l : bytes) (i : nat) : bool :=
  match l !! i with Some b => p b | None => false end.

(** What may come second after a first byte of three or four. *)
Definition second_of_3 (b : Byte.byte) : Byte.byte -> bool :=
  if in_range 224 224 b then in_range 160 191
  else if in_range 237 237 b then in_range 128 159 else is_cont.
Definition second_of_4 (b : Byte.byte) : Byte.byte -> bool :=
  if in_range 240 240 b then in_range 144 191
  else if in_range 244 244 b then in_range 128 143 else is_cont.

(** How many bytes the next piece has, and whether it is a character. *)
Definition utf8_first (l : bytes) : nat * bool :=
  match l with
  | [] => (0, true)
  | b :: _ =>
      if in_range 0 127 b then (1, true)
      else if in_range 194 223 b then
        if next_is is_cont l 1 then (2, true) else (1, false)
      else if in_range 224 239 b then
        if negb (next_is (second_of_3 b) l 1) then (1, false)
        else if next_is is_cont l 2 then (3, true) else (2, false)
      else if in_range 240 244 b then
        if negb (next_is (second_of_4 b) l 1) then (1, false)
        else if negb (next_is is_cont l 2) then (2, false)
        else if next_is is_cont l 3 then (4, true) else (3, false)
      else (1, false)
  end.

(** [fuel] starts at the length; every round takes a byte at least. *)
Fixpoint lossy (fuel : nat) (l : bytes) : bytes :=
  match fuel, l with
  | S fuel, _ :: _ =>
      let '(n, ok) := utf8_first l in
      (if ok then take n l else REPLACEMENT) ++ lossy fuel (drop n l)
  | _, _ => []
  end.

Definition from_utf8_lossy (l : bytes) : bytes := lossy (length l) l.

(** * Lemmas *)
Lemma first_range b l :
  1 <= (utf8_first (b :: l)).1 <= 4 /\
  ((utf8_first (b :: l)).2 = true -> (utf8_first (b :: l)).1 <= length (b :: l)) /\
  ((utf8_first (b :: l)).2 = false -> (utf8_first (b :: l)).1 <= 3).
Proof.
  unfold utf8_first, next_is. cbn [lookup list_lookup].
  destruct l as [|c [|d [|e l]]]; cbn [lookup list_lookup length]; repeat case_match; cbn; lia.
Qed.

Lemma lossy_fuel f f' l : length l <= f -> length l <= f' -> lossy f l = lossy f' l.
Proof.
  revert f' l. induction f as [|f IH]; intros [|f'] [|b l] Hf Hf'; cbn in Hf, Hf'; try lia; try done.
  cbn [lossy]. pose proof (first_range b l) as (Hr & _).
  destruct (utf8_first (b :: l)) as [n ok]. cbn in Hr. f_equal.
  apply IH; rewrite length_drop; cbn; lia.
Qed.

(** The equation of the conversion. *)
Lemma lossy_step b l :
  from_utf8_lossy (b :: l) =
    let '(n, ok) := utf8_first (b :: l) in
    (if ok then take n (b :: l) else REPLACEMENT) ++ from_utf8_lossy (drop n (b :: l)).
Proof.
  unfold from_utf8_lossy at 1. cbn [length lossy]. pose proof (first_range b l) as (Hr & _).
  destruct (utf8_first (b :: l)) as [n ok]. cbn in Hr.
  f_equal. apply lossy_fuel; rewrite length_drop; cbn; lia.
Qed.

Ltac if_cases := repeat (cbn [negb andb];
  match goal with
  | |- context [in_range ?lo ?hi ?b] => destruct (in_range lo hi b)
  | |- context [is_cont ?b] => destruct (is_cont b)
  end).

(** Well-formedness a character at a time. *)
Lemma valid_step b l :
  utf8_valid (b :: l) =
    let '(n, ok) := utf8_first (b :: l) in ok && utf8_valid (drop n (b :: l)).
Proof.
  cbn [utf8_valid]. unfold utf8_first, next_is, second_of_3, second_of_4.
  destruct (in_range 0 127 b); [done|].
  destruct l as [|c l]; cbn [lookup list_lookup]; [by if_cases|].
  destruct (in_range 194 223 b); [by destruct (is_cont c)|].
  destruct l as [|d l]; cbn [lookup list_lookup]; [by if_cases|].
  destruct (in_range 224 239 b); [by if_cases|].
  destruct l as [|e l]; cbn [lookup list_lookup]; [by if_cases|].
  destruct (in_range 240 244 b); [|done]. by if_cases.
Qed.

(** Only the bytes of the character decide that it is one. *)
Lemma first_char b l n r :
  utf8_first (b :: l) = (n, true) ->
  utf8_first (take n (b :: l) ++ r) = (n, true) /\ drop n (take n (b :: l) ++ r) = r.
Proof.
  intros H. assert (Hn : n <= length (b :: l)).
  { pose proof (first_range b l) as (_ & Hr & _). rewrite H in Hr. by apply Hr. }
  split.
  2:{ rewrite drop_app_le, drop_ge; [done| |]; rewrite length_take; lia. }
  assert (Hx : forall i, i < n -> (take n (b :: l) ++ r) !! i = (b :: l) !! i).
  { intros i Hi. rewrite lookup_app_l by (rewrite length_take; lia). by rewrite lookup_take_lt. }
  destruct n as [|n]; [unfold utf8_first in H; repeat case_match; done|].
  cbn [take app]. cbn [take app] in Hx. unfold utf8_first, next_is in *.
  destruct (in_range 0 127 b); [done|].
  destruct (in_range 194 223 b).
  { destruct ((b :: l) !! 1) eqn:E1; [|done]. destruct (is_cont b0) eqn:E2; [|done].
    injection H as <-. by rewrite Hx, E1, E2 by lia. }
  destruct (in_range 224 239 b).
  { destruct ((b :: l) !! 1) eqn:E1; [|done]. destruct (second_of_3 b b0) eqn:E2; [|done].
    destruct ((b :: l) !! 2) eqn:E3; [|done]. destruct (is_cont b1) eqn:E4; [|done].
    injection H as <-. by rewrite !Hx, E1, E2, E3, E4 by lia. }
  destruct (in_range 240 244 b); [|done].
  destruct ((b :: l) !! 1) eqn:E1; [|done]. destruct (second_of_4 b b0) eqn:E2; [|done].
  destruct ((b :: l) !! 2) eqn:E3; [|done]. destruct (is_cont b1) eqn:E4; [|done].
  destruct ((b :: l) !! 3) eqn:E5; [|done]. destruct (is_cont b2) eqn:E6; [|done].
  injection H as <-. by rewrite !Hx, E1, E2, E3, E4, E5, E6 by lia.
Qed.

(** A character cut short is one piece. *)
Lemma first_cut b l n k :
  utf8_first (b :: l) = (n, true) -> 0 < k < n -> utf8_first (take k (b :: l)) = (k, false).
Proof.
  intros H Hk. unfold utf8_first, next_is in H. destruct k as [|k]; [lia|].
  cbn [take]. unfold utf8_first, next_is.
  destruct (in_range 0 127 b); [injection H as <-; lia|].
  destruct (in_range 194 223 b).
  { destruct ((b :: l) !! 1) eqn:E1; [|done]. destruct (is_cont b0) eqn:E2; [|done].
    injection H as <-. assert (k = 0) as -> by lia. done. }
  destruct l as [|c l]; [by if_cases|]. destruct l as [|d l]; [by if_cases; cbn in H; repeat case_match|].
  cbn [lookup list_lookup] in H.
  destruct (in_range 224 239 b).
  { destruct (second_of_3 b c) eqn:E2; [|done]. destruct (is_cont d) eqn:E4; [|done].
    injection H as <-. destruct k as [|[|k]]; [done| |lia]. cbn. by rewrite E2. }
  destruct (in_range 240 244 b); [|done]. destruct (second_of_4 b c) eqn:E2; [|done].
  destruct (is_cont d) eqn:E4; [|done]. destruct l as [|e l]; [done|].
  cbn [lookup list_lookup negb] in H. destruct (is_cont e) eqn:E6; [|done]. injection H as <-.
  destruct k as [|[|[|k]]]; [done| | |lia]; cbn; by rewrite ?E2, ?E4.
Qed.

Lemma valid_char b l n r :
  utf8_first (b :: l) = (n, true) -> utf8_valid (take n (b :: l) ++ r) = utf8_valid r.
Proof.
  intros H. destruct (first_char b l n r H) as [H1 H2].
  destruct (take n (b :: l) ++ r) as [|c m] eqn:E.
  - apply app_nil in E as [_ ->]. done.
  - rewrite valid_step, H1. cbn [andb]. by rewrite H2.
Qed.

(** ** What the text is *)

(** Well-formed bytes are kept as they are. *)
Lemma lossy_valid l : utf8_valid l = true -> from_utf8_lossy l = l.
Proof.
  induction l as [l IH] using (induction_ltof1 _ length). intros H.
  destruct l as [|b l]; [done|]. rewrite valid_step in H. rewrite lossy_step.
  pose proof (first_range b l) as (Hr & _). destruct (utf8_first (b :: l)) as [n []]; [|done].
  cbn in Hr, H. rewrite IH; [apply take_drop| |done]. unfold ltof. rewrite length_drop. cbn. lia.
Qed.

(** The result is always well-formed. *)
Lemma lossy_is_valid l : utf8_valid (from_utf8_lossy l) = true.
Proof.
  induction l as [l IH] using (induction_ltof1 _ length).
  destruct l as [|b l]; [done|]. rewrite lossy_step.
  pose proof (first_range b l) as (Hr & _). destruct (utf8_first (b :: l)) as [n ok] eqn:E.
  cbn in Hr. assert (Hd : utf8_valid (from_utf8_lossy (drop n (b :: l))) = true).
  { apply IH. unfold ltof. rewrite length_drop. cbn. lia. }
  destruct ok; [|exact Hd]. by rewrite (valid_char b l n).
Qed.

(** At most three bytes for each. *)
Lemma lossy_length l : length (from_utf8_lossy l) <= 3 * length l.
Proof.
  induction l as [l IH] using (induction_ltof1 _ length).
  destruct l as [|b l]; [done|]. rewrite lossy_step.
  pose proof (first_range b l) as (Hr & Ht & _). destruct (utf8_first (b :: l)) as [n ok] eqn:E.
  cbn in Hr, Ht. assert (Hd : length (from_utf8_lossy (drop n (b :: l))) <= 3 * (length (b :: l) - n)).
  { rewrite <-length_drop. apply IH. unfold ltof. rewrite length_drop. cbn. lia. }
  rewrite length_app. cbn [length] in *. destruct ok; cbn [REPLACEMENT length].
  - rewrite length_take. cbn [length]. specialize (Ht eq_refl). lia.
  - destruct (Nat.le_gt_cases n (S (length l))); [lia|].
    enough (length (from_utf8_lossy (drop n (b :: l))) = 0) by lia.
    by rewrite drop_ge by (cbn; lia).
Qed.

(** Well-formed bytes that are cut anywhere: all characters before the cut,
    then U+FFFD for the one that was cut, if one was. *)
Lemma lossy_cut l k :
  utf8_valid l = true ->
  exists p r, take k l = p ++ r /\ utf8_valid p = true /\ length r <= 3 /\
    from_utf8_lossy (take k l) = p ++ match r with [] => [] | _ => REPLACEMENT end.
Proof.
  revert k. induction l as [l IH] using (induction_ltof1 _ length). intros k H.
  destruct l as [|b l]; [exists [], []; rewrite take_nil; split_and!; done || (cbn; lia)|].
  destruct k as [|k]; [exists [], []; split_and!; done || (cbn; lia)|].
  rewrite valid_step in H. pose proof (first_range b l) as (Hr & Ht & _).
  destruct (utf8_first (b :: l)) as [n []] eqn:E; [|done]. cbn in Hr, H. specialize (Ht eq_refl). cbn in Ht.
  destruct (Nat.lt_ge_cases (S k) n) as [Hk|Hk].
  - pose proof (first_cut b l n (S k) E ltac:(lia)) as Hc.
    exists [], (take (S k) (b :: l)). split_and!; [done|done|rewrite length_take; lia|].
    cbn [take] in *. rewrite lossy_step, Hc. rewrite drop_ge; [done|]. cbn. rewrite length_take. lia.
  - destruct (IH (drop n (b :: l))) with (k := S k - n) as (p & r & Hp & Hv & Hl & Hx); [|done|].
    { unfold ltof. rewrite length_drop. cbn. lia. }
    exists (take n (b :: l) ++ p), r.
    assert (Et : take (S k) (b :: l) = take n (b :: l) ++ take (S k - n) (drop n (b :: l))).
    { rewrite <-(take_drop n (b :: l)) at 1. rewrite take_app. rewrite length_take_le by (cbn; lia).
      by rewrite take_take, Nat.min_r by lia. }
    destruct (first_char b l n (take (S k - n) (drop n (b :: l))) E) as [E1 E2].
    split_and!; [by rewrite Et, Hp, <-app_assoc|by rewrite (valid_char b l n)|done|].
    rewrite <-app_assoc, <-Hx, Et.
    destruct (take n (b :: l) ++ take (S k - n) (drop n (b :: l))) as [|c m] eqn:Ec.
    + destruct n; [lia|]. discriminate Ec.
    + rewrite lossy_step, E1, E2, <-Ec. f_equal. rewrite take_app_le, take_take, Nat.min_id; [done|].
      rewrite length_take. cbn. lia.
Qed.
