(* ===== verification/RustFmt.v ===== *)
(** * Formatting: the [Debug] forms that appear in the crate's messages

    [{:?}] of [Duration], [str] and of a byte cast to [char].  Durations are
    nanosecond counts ([N]).  Non-ASCII characters of a [str] are kept as they
    are: the escape tables of [core::unicode] decide only unprintable ones. *)

From S2P Require Import Prelude RustText.
From Stdlib Require Import Ascii.

(** ** Durations *)
Abbreviation Duration := N.

Definition NANOS_PER_SEC : N := 1000000000.
Definition NANOS_PER_MILLI : N := 1000000.

Definition from_secs (s : N) : Duration := (s * NANOS_PER_SEC)%N.
Definition from_millis (m : N) : Duration := (m * NANOS_PER_MILLI)%N.
Definition as_millis (d : Duration) : N := (d / NANOS_PER_MILLI)%N.

(** [Duration::saturating_sub]. *)
Definition saturating_sub (a b : Duration) : Duration := (a - b)%N.

(** The fractional digits, most significant first, without trailing zeros. *)
Fixpoint frac_digits (fuel : nat) (frac div : N) : bytes :=
  match fuel with
  | O => []
  | S fuel =>
      if (frac =? 0)%N then []
      else digit_char (frac / div)%N :: frac_digits fuel (frac mod div)%N (div / 10)%N
  end.

Definition fmt_decimal (int frac div : N) (unit : string) : string :=
  let ds := frac_digits 9 frac div in
  dec_string int +:+
  (match ds with [] => "" | _ => "." +:+ bytes_str ds end) +:+ unit.

Definition debug_duration (d : Duration) : string :=
  let secs := (d / NANOS_PER_SEC)%N in
  let nanos := (d mod NANOS_PER_SEC)%N in
  if (0 <? secs)%N then fmt_decimal secs nanos 100000000 "s"
  else if (1000000 <=? nanos)%N
    then fmt_decimal (nanos / 1000000)%N (nanos mod 1000000)%N 100000 "ms"
  else if (1000 <=? nanos)%N
    then fmt_decimal (nanos / 1000)%N (nanos mod 1000)%N 100
           (String (ascii_of_N 194) (String (ascii_of_N 181) "s"))
  else fmt_decimal nanos 0 1 "ns".

(** ** Characters and strings *)
Definition unicode_escape (v : N) : string :=
  "\u{" +:+ bytes_str (radix_digits 16 (S (N.to_nat (N.size v))) v) +:+ "}".

(** [char::escape_debug] for code points below 256, [quote] being the
    delimiter to escape. *)
Definition escape_latin1 (quote : N) (v : N) : string :=
  if (v =? 0)%N then "\0"
  else if (v =? 9)%N then "\t"
  else if (v =? 10)%N then "\n"
  else if (v =? 13)%N then "\r"
  else if (v =? 92)%N then "\\"
  else if (v =? quote)%N then String (ascii_of_N 92) (String (ascii_of_N quote) "")
  else if ((v <? 32) || ((127 <=? v) && (v <? 160)) || (v =? 173))%N
    then unicode_escape v
  else if (v <? 128)%N then String (ascii_of_N v) ""
  else String (ascii_of_N (192 + v / 64)%N) (String (ascii_of_N (128 + v mod 64)%N) "").

(** [{:?}] of [b as char]. *)
Definition debug_byte_char (b : Byte.byte) : string :=
  "'" +:+ escape_latin1 39 (Byte.to_N b) +:+ "'".

Fixpoint escape_str (s : string) : string :=
  match s with
  | EmptyString => ""
  | String a s =>
      (if (N_of_ascii a <? 128)%N then escape_latin1 34 (N_of_ascii a)
       else String a "") +:+ escape_str s
  end.

(** [{:?}] of a [str]. *)
Definition debug_str (s : string) : string := DQ +:+ escape_str s +:+ DQ.

Example debug_duration_s : debug_duration (from_millis 1500) = "1.5s".
Proof. reflexivity. Qed.

Example debug_duration_ms : debug_duration (from_millis 100) = "100ms".
Proof. reflexivity. Qed.

Example debug_duration_zero : debug_duration 0 = "0ns".
Proof. reflexivity. Qed.
