(* ===== verification/Errors.v ===== *)
(** * The crate's error type and the gRPC status it wraps

    [Code] and [Status] are [tonic]'s status codes and status value; [Error] is
    [src/error.rs]; [into_crate_error] and [map_image_status] are the
    conversions of [src/util.rs]. *)

From S2P Require Import Prelude.

(** [tonic::Code]. *)
Inductive Code : Type :=
| CodeOk | Cancelled | Unknown | CodeInvalidArgument | DeadlineExceeded
| NotFound | AlreadyExists | PermissionDenied | CodeResourceExhausted
| FailedPrecondition | Aborted | OutOfRange | Unimplemented | Internal
| Unavailable | DataLoss | Unauthenticated.

#[export] Instance Code_eq_dec : EqDecision Code.
Proof. solve_decision. Defined.

(** [tonic::Status]: the code and the message. *)
Record Status : Type := mkStatus { code : Code; message : string }.

#[export] Instance Status_eq_dec : EqDecision Status.
Proof. solve_decision. Defined.

(** The [std::io::ErrorKind]s the crate tests, the rest in one constructor. *)
Inductive ErrorKind : Type :=
| KindNotFound | KindConnectionRefused | KindInvalidInput | KindOther (os : N).

#[export] Instance ErrorKind_eq_dec : EqDecision ErrorKind.
Proof. solve_decision. Defined.

Inductive Error : Type :=
| SocketNotFound (path : list string)
| ConnectionRefused (path : list string)
| Transport (msg : string)
| Containerd (op : string) (source : Status)
| Io (context : string) (source : ErrorKind)
| ImageNotFound (image : string)
| ContainerAlreadyExists (name : string)
| ContainerNotFound (id : string)
| TaskAlreadyExists (id : string)
| TaskNotFound (id : string)
| TaskExited (msg : string)
| SnapshotAlreadyExists (name : string)
| SnapshotNotFound (name : string)
| SnapshotNotManaged (name : string)
| StatePoisoned (what : string)
| Timeout (msg : string)
| PortForward (msg : string)
| InvalidArgument (msg : string)
| ResourceExhausted (msg : string)
| NotImplemented.

#[export] Instance Error_eq_dec : EqDecision Error.
Proof. solve_decision. Defined.

Abbreviation Result := (result Error).

(** [StatusExt::into_crate_error]. *)
Definition into_crate_error (s : Status) (op : string) : Error := Containerd op s.

Definition map_image_status (op image : string) (s : Status) : Error :=
  if decide (code s = NotFound) then ImageNotFound image else into_crate_error s op.

(** [Display], as [thiserror] derives it; [display] is [Path::display].  The
    [#[source]] of an error is not part of its text. *)
Definition error_text (display : list string -> string) (e : Error) : string :=
  match e with
  | SocketNotFound p => "containerd socket not found at '" +:+ display p +:+
      "'. Is containerd running? (hint: start Colima or set CONTAINERD_SOCKET)"
  | ConnectionRefused p => "connection refused to containerd socket at '" +:+ display p +:+
      "'. Is containerd running?"
  | Transport _ => "transport error"
  | Containerd op _ => "containerd " +:+ op +:+ " failed"
  | Io context _ => "io error: " +:+ context
  | ImageNotFound s => "image not found: " +:+ s
  | ContainerAlreadyExists s => "container already exists: " +:+ s
  | ContainerNotFound s => "container not found: " +:+ s
  | TaskAlreadyExists s => "task already exists for container: " +:+ s
  | TaskNotFound s => "task not found: " +:+ s
  | TaskExited s => "task exited before becoming ready: " +:+ s
  | SnapshotAlreadyExists s => "snapshot already exists: " +:+ s
  | SnapshotNotFound s => "snapshot not found: " +:+ s
  | SnapshotNotManaged name =>
      "snapshot '" +:+ name +:+ "' was not created by containerd-manager (missing managed label)"
  | StatePoisoned s => "internal client state poisoned: " +:+ s
  | Timeout s => "timeout: " +:+ s
  | PortForward s => "port forwarding error: " +:+ s
  | InvalidArgument s => "invalid argument: " +:+ s
  | ResourceExhausted s => "resource exhausted: " +:+ s
  | NotImplemented => "not implemented"
  end.
