(* ===== verification/Identifier.v ===== *)
(** * Identifiers: [util::validate_identifier] and [types::ContainerId]

    The validator is translated as written (early returns, then the scan of
    the inner bytes).  Its reference is containerd's own grammar
    [alnum+ (sep alnum+)*], stated as the inductive predicate [Identifier];
    the two are connected by a two-state automaton. *)

From S2P Require Import Prelude RustText RustFmt Errors.

(** ** The validator *)
Definition MAX_IDENTIFIER_LEN : nat := 76.

(** [u8::is_ascii_alphanumeric]. *)
Definition is_alnum (b : Byte.byte) : bool :=
  in_range 48 57 b || in_range 65 90 b || in_range 97 122 b.

Definition is_sep (b : Byte.byte) : bool :=
  byte_is "."%byte b || byte_is "_"%byte b || byte_is "-"%byte b.

(** The loop over the inner bytes, [prev_sep] being its mutable flag. *)
Fixpoint scan_inner (id : string) (prev_sep : bool) (l : bytes) : Result unit :=
  match l with
  | [] => Ok tt
  | b :: l =>
      if is_alnum b then scan_inner id false l
      else if is_sep b then
        if prev_sep then
          Err (InvalidArgument
            ("identifier contains consecutive separators: " +:+ debug_str id))
        else scan_inner id true l
      else Err (InvalidArgument
        ("identifier contains invalid character " +:+ debug_byte_char b +:+ ": "
           +:+ debug_str id))
  end.

Definition validate_identifier (id : string) : Result unit :=
  let bs := str_bytes id in
  match head bs, last bs with
  | Some first, Some final =>
      if MAX_IDENTIFIER_LEN <? length bs then
        Err (InvalidArgument
          ("identifier exceeds " +:+ dec_string (N.of_nat MAX_IDENTIFIER_LEN) +:+
           " characters: " +:+ debug_str id))
      else if negb (is_alnum first) || negb (is_alnum final) then
        Err (InvalidArgument
          ("identifier must start and end with an alphanumeric: " +:+ debug_str id))
      else if length bs <=? 2 then Ok tt
      else scan_inner id false (take (length bs - 2) (drop 1 bs))
  | _, _ => Err (InvalidArgument "identifier must not be empty")
  end.

(** ** [ContainerId]

    [uuid] stands for [uuid::Uuid::new_v4().simple().to_string()]. *)
Record ContainerId : Type := mkContainerId { as_str : string }.

#[export] Instance ContainerId_eq_dec : EqDecision ContainerId.
Proof. solve_decision. Defined.

Definition generate (uuid : string) : ContainerId := mkContainerId uuid.

Definition from_existing (id : string) : Result ContainerId :=
  let? _ := validate_identifier id in Ok (mkContainerId id).

(** The simple format of a UUID: 32 lower-case hexadecimal digits. *)
Definition is_hex_lower (b : Byte.byte) : bool := in_range 48 57 b || in_range 97 102 b.

Definition simple_uuid (s : string) : Prop :=
  length (str_bytes s) = 32 /\ Forall (fun b => is_hex_lower b = true) (str_bytes s).

(** ** The grammar *)
Inductive Identifier : bytes -> Prop :=
| id_word w :
    w <> [] -> Forall (fun b => is_alnum b = true) w -> Identifier w
| id_more w s rest :
    w <> [] -> Forall (fun b => is_alnum b = true) w -> is_sep s = true ->
    Identifier rest -> Identifier (w ++ s :: rest).

(** The automaton: [after_sep] is true at the start and after a separator. *)
Fixpoint accepts (after_sep : bool) (l : bytes) : bool :=
  match l with
  | [] => negb after_sep
  | b :: l =>
      if is_alnum b then accepts false l
      else is_sep b && negb after_sep && accepts true l
  end.

Section grammar.

Lemma sep_not_alnum b : is_sep b = true -> is_alnum b = false.
Proof.
  unfold is_sep. rewrite !orb_true_iff, !byte_is_true.
  by intros [[-> | ->] | ->].
Qed.

Lemma accepts_word w l :
  w <> [] -> Forall (fun b => is_alnum b = true) w ->
  forall p, accepts p (w ++ l) = accepts false l.
Proof.
  intros Hne Hw. induction Hw as [|b w Hb Hw IH]; [done|]. intros p. simpl.
  rewrite Hb. destruct w as [|c w]; [done|]. by apply IH.
Qed.

Lemma Identifier_accepts l : Identifier l -> accepts true l = true.
Proof.
  induction 1 as [w Hne Hw|w s rest Hne Hw Hs _ IH].
  - rewrite <-(app_nil_r w). by rewrite accepts_word.
  - rewrite accepts_word by done. simpl. by rewrite sep_not_alnum, Hs.
Qed.

(** An accepted suffix extends any non-empty word of alphanumerics. *)
Lemma accepts_Identifier l :
  (accepts true l = true -> Identifier l) /\
  (forall w, w <> [] -> Forall (fun b => is_alnum b = true) w ->
     accepts false l = true -> Identifier (w ++ l)).
Proof.
  induction l as [|b l [IHt IHf]]; simpl.
  - split; [done|]. intros w ? ? _. rewrite app_nil_r. by constructor.
  - destruct (is_alnum b) eqn:Hb.
    + split.
      * intros H. apply (IHf [b]); [done|by constructor|done].
      * intros w Hne Hw H. rewrite cons_middle, app_assoc.
        apply IHf; [by destruct w|apply Forall_app; by repeat constructor|done].
    + split; [rewrite andb_false_r; simpl; done|]. rewrite andb_true_r.
      intros w Hne Hw [Hs Hl]%andb_true_iff. apply id_more; auto.
Qed.

Lemma Identifier_iff l : Identifier l <-> accepts true l = true.
Proof. split; [apply Identifier_accepts|apply accepts_Identifier]. Qed.

End grammar.

(** ** The validator against the automaton *)
Section validator.

Lemma scan_inner_ok id p l z :
  is_alnum z = true ->
  scan_inner id p l = Ok tt <-> accepts p (l ++ [z]) = true.
Proof.
  intros Hz. revert p. induction l as [|b l IH]; intros p; simpl.
  - rewrite Hz. done.
  - destruct (is_alnum b); [apply IH|]. destruct (is_sep b); simpl; [|done].
    destruct p; simpl; [done|apply IH].
Qed.

Lemma scan_inner_err id p l e :
  scan_inner id p l = Err e -> exists m, e = InvalidArgument m.
Proof.
  revert p. induction l as [|b l IH]; intros p; simpl; [done|].
  destruct (is_alnum b); [apply IH|]. destruct (is_sep b); [|intros [= <-]; eauto].
  destruct p; [intros [= <-]; eauto|apply IH].
Qed.

(** A word that ends in a byte other than an alphanumeric is rejected. *)
Lemma accepts_last p l z : is_alnum z = false -> accepts p (l ++ [z]) = false.
Proof.
  intros Hz. revert p. induction l as [|b l IH]; intros p; simpl.
  - rewrite Hz. by rewrite andb_false_r.
  - destruct (is_alnum b); [apply IH|]. rewrite IH. by rewrite andb_false_r.
Qed.

Lemma last_two (b : Byte.byte) l : exists c, last (b :: l) = Some c.
Proof. revert b. induction l as [|c l IH]; intros b; [by eexists|]. apply (IH c). Qed.

Lemma inner_slice (a z : Byte.byte) l :
  take (length (a :: l ++ [z]) - 2) (drop 1 (a :: l ++ [z])) = l.
Proof.
  simpl. rewrite length_app. simpl. apply take_app_exact. lia.
Qed.

(** The branches of [validate_identifier] on the three shapes of its input. *)
Lemma validate_empty id :
  str_bytes id = [] ->
  validate_identifier id = Err (InvalidArgument "identifier must not be empty").
Proof. intros E. unfold validate_identifier. by rewrite E. Qed.

Lemma validate_single id a :
  str_bytes id = [a] ->
  validate_identifier id =
    if is_alnum a then Ok tt
    else Err (InvalidArgument
      ("identifier must start and end with an alphanumeric: " +:+ debug_str id)).
Proof. intros E. unfold validate_identifier. rewrite E. simpl. by destruct (is_alnum a). Qed.

Lemma validate_long id a l z :
  str_bytes id = a :: l ++ [z] ->
  length (str_bytes id) <= MAX_IDENTIFIER_LEN ->
  validate_identifier id =
    if is_alnum a && is_alnum z then scan_inner id false l
    else Err (InvalidArgument
      ("identifier must start and end with an alphanumeric: " +:+ debug_str id)).
Proof.
  intros E Hlen. unfold validate_identifier. rewrite E in *.
  change (last (a :: l ++ [z])) with (last ((a :: l) ++ [z])). rewrite last_snoc.
  change (head (a :: l ++ [z])) with (Some a).
  assert ((MAX_IDENTIFIER_LEN <? length (a :: l ++ [z])) = false) as ->
    by (apply Nat.ltb_ge; exact Hlen).
  rewrite <-negb_andb. destruct (is_alnum a && is_alnum z); [|done]. simpl negb.
  rewrite inner_slice. destruct (Nat.leb_spec (length (a :: l ++ [z])) 2) as [H2|]; [|done].
  destruct l; [done|]. simpl in H2. rewrite length_app in H2. simpl in H2. lia.
Qed.

Lemma validate_too_long id :
  MAX_IDENTIFIER_LEN < length (str_bytes id) ->
  exists m, validate_identifier id = Err (InvalidArgument m).
Proof.
  intros H. unfold validate_identifier. destruct (str_bytes id) as [|b l] eqn:E; [simpl in H; lia|].
  destruct (last_two b l) as [c ->]. simpl head. rewrite (proj2 (Nat.ltb_lt _ _) H).
  eauto.
Qed.

Lemma validate_cases (id : string) :
  (validate_identifier id = Ok tt /\ accepts true (str_bytes id) = true /\
     length (str_bytes id) <= MAX_IDENTIFIER_LEN) \/
  ((exists m, validate_identifier id = Err (InvalidArgument m)) /\
     (accepts true (str_bytes id) = false \/ MAX_IDENTIFIER_LEN < length (str_bytes id))).
Proof.
  destruct (Nat.lt_ge_cases MAX_IDENTIFIER_LEN (length (str_bytes id))) as [Hl|Hl];
    [right; split; [by apply validate_too_long|by right]|].
  destruct (str_bytes id) as [|a l'] eqn:E.
  { right. rewrite validate_empty by done. eauto. }
  destruct l' as [|z l _] using rev_ind.
  { rewrite (validate_single id a) by done. simpl. destruct (is_alnum a); [by left|].
    right. rewrite andb_false_r. eauto. }
  rewrite (validate_long id a l z) by (rewrite ?E; done).
  change (a :: l ++ [z]) with ((a :: l) ++ [z]).
  destruct (is_alnum z) eqn:Hz; [|right; rewrite andb_false_r, accepts_last by done; eauto].
  rewrite andb_true_r. simpl. destruct (is_alnum a) eqn:Ha; [|right; rewrite andb_false_r; eauto].
  destruct (accepts false (l ++ [z])) eqn:Hacc.
  - left. by rewrite (proj2 (scan_inner_ok id false l z Hz)).
  - right. split; [|by left]. destruct (scan_inner id false l) as [[]|e] eqn:Hs.
    + apply (scan_inner_ok id false l z Hz) in Hs. congruence.
    + apply scan_inner_err in Hs as [m ->]. eauto.
Qed.

(** An accepted byte is an alphanumeric or one of the three separators. *)
Definition ident_byte (b : Byte.byte) : bool := is_alnum b || is_sep b.

Lemma accepts_bytes p l : accepts p l = true -> Forall (fun b => ident_byte b = true) l.
Proof.
  revert p. induction l as [|b l IH]; intros p; simpl; [constructor|].
  unfold ident_byte at 1. destruct (is_alnum b) eqn:Hb.
  - intros H. constructor; [|by eapply IH]. unfold ident_byte. by rewrite Hb.
  - intros [[Hs _]%andb_true_iff H]%andb_true_iff. constructor; [|by eapply IH].
    unfold ident_byte. by rewrite Hs, orb_true_r.
Qed.

Lemma validate_ok_accepts id :
  validate_identifier id = Ok tt -> accepts true (str_bytes id) = true.
Proof. intros H. destruct (validate_cases id) as [(_ & ? & _)|[[m Hm] _]]; congruence. Qed.

End validator.

(** * Properties *)

(** C37. [validate_identifier] decides containerd's identifier grammar: it
    returns [Ok] exactly on the byte strings of the form
    [alnum+ (sep alnum+)*] with at most 76 bytes, and on every other input it
    returns an [InvalidArgument] error (no other error, no panic). *)
Theorem validate_identifier_grammar (id : string) :
  (validate_identifier id = Ok tt <->
     Identifier (str_bytes id) /\ length (str_bytes id) <= MAX_IDENTIFIER_LEN) /\
  (validate_identifier id <> Ok tt ->
     exists m, validate_identifier id = Err (InvalidArgument m)).
Proof.
  rewrite Identifier_iff.
  destruct (validate_cases id) as [(H & Ha & Hl)|[[m Hm] [Ha|Hl]]].
  - rewrite H. split; [split; auto|done].
  - rewrite Hm. split; [|eauto]. split; [done|]. intros [??]. congruence.
  - rewrite Hm. split; [|eauto]. split; [done|]. intros [??]. lia.
Qed.

(** The characters with a meaning for the shell or for path resolution. *)
Definition shell_meta : list Byte.byte :=
  (str_bytes "/$;`'&|<>(){}[]*?!#~%^=\ " ++ [x22; x0a; x0d; x09; x00])%list.

(** A validated identifier is safe to interpolate in a shell script and
    to use as one path component: it has no character of [shell_meta] (no
    slash, quote, dollar, backtick, blank or control byte) and is neither
    [.] nor [..]. *)
Theorem validated_identifier_safe (id : string) :
  validate_identifier id = Ok tt ->
  (forall b, b ∈ str_bytes id -> b ∉ shell_meta) /\ id <> "." /\ id <> "..".
Proof.
  intros H%validate_ok_accepts. split_and!; [|by intros ->|by intros ->].
  intros b Hb Hm. apply accepts_bytes in H.
  rewrite Forall_forall in H. specialize (H b Hb). revert H.
  unfold shell_meta in Hm. rewrite list_elem_of_In in Hm.
  assert (Hall : forallb (fun b => negb (ident_byte b)) shell_meta = true) by reflexivity.
  rewrite forallb_forall in Hall. specialize (Hall b Hm).
  destruct (ident_byte b); done.
Qed.

Lemma validated_identifier_safe_witness :
  validate_identifier "my-container.1" = Ok tt /\
  (forall b, b ∈ str_bytes "my-container.1" -> b ∉ shell_meta) /\
  "my-container.1" <> "." /\ "my-container.1" <> "..".
Proof.
  split; [reflexivity|]. apply (validated_identifier_safe "my-container.1").
  reflexivity.
Defined.

(** Every identifier minted by [ContainerId::generate] is one that
    [ContainerId::from_existing] accepts and returns unchanged, so a generated
    id survives the round trip through a containerd record. *)
Theorem generate_from_existing (uuid : string) :
  simple_uuid uuid ->
  from_existing (as_str (generate uuid)) = Ok (generate uuid).
Proof.
  intros [Hlen Hhex]. unfold from_existing, generate. simpl.
  assert (accepts true (str_bytes uuid) = true) as Ha.
  { apply Identifier_iff, id_word.
    - intros E. by rewrite E in Hlen.
    - eapply Forall_impl; [exact Hhex|]. intros b. simpl.
      unfold is_hex_lower, is_alnum, in_range. rewrite !orb_true_iff.
      intros [H|H]; bool_props; [left; left|right];
        apply andb_true_iff; split; apply N.leb_le; lia. }
  destruct (validate_cases uuid) as [(-> & _ & _)|[_ [Ha'|Hl]]]; [done|congruence|].
  unfold MAX_IDENTIFIER_LEN in Hl. lia.
Qed.

Lemma generate_from_existing_witness :
  simple_uuid "0123456789abcdef0123456789abcdef" /\
  from_existing (as_str (generate "0123456789abcdef0123456789abcdef")) =
    Ok (generate "0123456789abcdef0123456789abcdef").
Proof.
  assert (H : simple_uuid "0123456789abcdef0123456789abcdef")
    by (split; [reflexivity|repeat constructor]).
  split; [exact H|]. apply (generate_from_existing _ H).
Defined.
