(* ===== verification/LogCodec.v ===== *)
(** * The events-log record codec ([src/logs.rs])

    Records are [<unix_ms> <o|e> <len> <data>\n].  The file models the encoder,
    the decoder with its three outcomes, the resynchronisation after a
    malformed record and the parser of a whole file, and proves the round
    trip, that a truncated record is never mistaken for a malformed one, and
    that decoding does not depend on how the byte stream is cut into chunks
    (the fact the follower rests on).

    Time stamps are nanoseconds since the Unix epoch (a [Z]: a [SystemTime]
    may lie before it).  [usize] and [u64] are both 64 bits wide. *)

From S2P Require Import Prelude RustText RustFmt.

(** ** Data *)
Inductive LogStream : Type := Stdout | Stderr.

#[export] Instance LogStream_eq_dec : EqDecision LogStream.
Proof. solve_decision. Defined.

Abbreviation SystemTime := Z.

Record LogEntry : Type := mkLogEntry {
  stream : LogStream;
  timestamp : SystemTime;
  data : bytes
}.

#[export] Instance LogEntry_eq_dec : EqDecision LogEntry.
Proof. solve_decision. Defined.

Definition MAX_RECORD_BYTES : N := 16 * 1024 * 1024.

(** ** Encoding *)

(** [timestamp.duration_since(UNIX_EPOCH)] in milliseconds, saturated to
    [u64], and 0 for a time before the epoch. *)
Definition unix_ms (ts : SystemTime) : N :=
  if (ts <? 0)%Z then 0%N
  else let ms := as_millis (Z.to_N ts) in
       if (ms <=? U64_MAX)%N then ms else U64_MAX.

Definition stream_char (s : LogStream) : Byte.byte :=
  match s with Stdout => "o"%byte | Stderr => "e"%byte end.

Definition encode_record_into
    (buf : bytes) (ts : SystemTime) (s : LogStream) (d : bytes) : bytes :=
  buf ++ dec_bytes (unix_ms ts) ++ [SPACE] ++ [stream_char s] ++ [SPACE]
      ++ dec_bytes (blen d) ++ [SPACE] ++ d ++ [NL].

Definition encode_event (e : LogEntry) : bytes :=
  encode_record_into [] (timestamp e) (stream e) (data e).

(** ** Decoding *)
Inductive Decoded : Type :=
| DRecord (entry : LogEntry) (consumed : nat)
| NeedMore
| Malformed.

(** [UNIX_EPOCH + Duration::from_millis(ms)]. *)
Definition epoch_plus_millis (ms : N) : SystemTime := Z.of_N (from_millis ms).

Definition decode_event_with_len (s : bytes) : Decoded :=
  match position (byte_is SPACE) s with
  | None => NeedMore
  | Some space1 =>
  match from_utf8 (take space1 s) with
  | None => Malformed
  | Some ms_str =>
  match parse_u64 ms_str with
  | None => Malformed
  | Some ms =>
  let after_ms := drop (space1 + 1) s in
  match head after_ms with
  | None => NeedMore
  | Some c =>
  if length after_ms <? 2 then NeedMore
  else if negb (bool_decide (after_ms !! 1 = Some SPACE)) then Malformed
  else
  match (if byte_is "o"%byte c then Some Stdout
         else if byte_is "e"%byte c then Some Stderr else None) with
  | None => Malformed
  | Some strm =>
  let after_stream := drop 2 after_ms in
  match position (byte_is SPACE) after_stream with
  | None => NeedMore
  | Some space2 =>
  match from_utf8 (take space2 after_stream) with
  | None => Malformed
  | Some len_str =>
  match parse_u64 len_str with
  | None => Malformed
  | Some len =>
  if (MAX_RECORD_BYTES <? len)%N then Malformed
  else
  let data_abs_start := space1 + 1 + 2 + space2 + 1 in
  if (blen s <? N.of_nat data_abs_start + len + 1)%N then NeedMore
  else
  let data_abs_end := data_abs_start + N.to_nat len in
  if negb (bool_decide (s !! data_abs_end = Some NL)) then Malformed
  else
  DRecord
    (mkLogEntry strm (epoch_plus_millis ms)
       (take (N.to_nat len) (drop data_abs_start s)))
    (data_abs_end + 1)
  end end end end end end end end.

(** Bytes to skip to the start of the next line, if the line ends in [buf]. *)
Definition resync_offset (buf : bytes) : option nat :=
  (fun i => i + 1) <$> position (byte_is NL) buf.

(** The decode loop from the cursor on: the entries it emits and the bytes
    left at the cursor when it stops.  Each round consumes at least one byte,
    so [fuel] never runs out when it starts at the length of the buffer. *)
Fixpoint decode_loop (fuel : nat) (s : bytes) : list LogEntry * bytes :=
  match fuel, s with
  | O, _ | _, [] => ([], s)
  | S fuel, _ =>
      match decode_event_with_len s with
      | DRecord entry consumed =>
          let r := decode_loop fuel (drop consumed s) in (entry :: r.1, r.2)
      | NeedMore => ([], s)
      | Malformed =>
          match resync_offset s with
          | Some skip => decode_loop fuel (drop skip s)
          | None => ([], s)
          end
      end
  end.

Definition decode_all (s : bytes) : list LogEntry * bytes := decode_loop (length s) s.

Definition parse_events_file (s : bytes) : list LogEntry := (decode_all s).1.

Example decode_hello :
  decode_event_with_len (encode_event (mkLogEntry Stdout 1500000000 (str_bytes "hi"))) =
  DRecord (mkLogEntry Stdout 1500000000 (str_bytes "hi")) 12.
Proof. vm_compute. reflexivity. Qed.

Example decode_oversize :
  decode_event_with_len (str_bytes "1 o 16777217 payload") = Malformed.
Proof. vm_compute. reflexivity. Qed.

Example decode_bad_stream : decode_event_with_len (str_bytes "1 x 5 hello") = Malformed.
Proof. vm_compute. reflexivity. Qed.

Example parse_resyncs :
  data <$> parse_events_file (str_bytes "garbage" ++ [SPACE; NL] ++
    encode_event (mkLogEntry Stdout 1000000 (str_bytes "good"))) = [str_bytes "good"].
Proof. vm_compute. reflexivity. Qed.

(** * Lemmas *)
Section decoder.

Lemma position_app_some {A} (p : A -> bool) l k i :
  position p l = Some i -> position p (l ++ k) = Some i.
Proof.
  revert i. induction l as [|x l IH]; intros i; simpl; [done|].
  destruct (p x); [done|].
  destruct (position p l) as [j|]; simpl; [|done]. by rewrite (IH j).
Qed.

(** The bytes of a printed number contain no separator and parse back. *)
Lemma dec_bytes_no_space n : Forall (fun b => byte_is SPACE b = false) (dec_bytes n).
Proof.
  eapply Forall_impl; [apply dec_bytes_digits|]. intros b Hb. by apply is_digit_not.
Qed.

Lemma dec_bytes_utf8 n : from_utf8 (dec_bytes n) = Some (dec_bytes n).
Proof. unfold from_utf8. by rewrite digits_utf8 by apply dec_bytes_digits. Qed.

Lemma position_header n l : position (byte_is SPACE) (dec_bytes n ++ SPACE :: l) = Some (length (dec_bytes n)).
Proof.
  rewrite position_app_l by apply dec_bytes_no_space. simpl. f_equal. lia.
Qed.

(** The decoder on a well-formed header followed by [rest]. *)
Lemma decode_header ms strm len rest :
  (ms <= U64_MAX)%N -> (len <= MAX_RECORD_BYTES)%N ->
  let hdr := dec_bytes ms ++ SPACE :: stream_char strm :: SPACE :: dec_bytes len ++ [SPACE] in
  decode_event_with_len (hdr ++ rest) =
    if (blen rest <? len + 1)%N then NeedMore
    else if negb (bool_decide (rest !! N.to_nat len = Some NL)) then Malformed
    else DRecord (mkLogEntry strm (epoch_plus_millis ms) (take (N.to_nat len) rest))
           (length hdr + N.to_nat len + 1).
Proof.
  intros Hms Hlen hdr. unfold decode_event_with_len.
  assert (Hs : hdr ++ rest = dec_bytes ms ++ SPACE :: stream_char strm :: SPACE ::
            (dec_bytes len ++ SPACE :: rest)).
  { subst hdr. rewrite <-app_assoc. simpl. by rewrite <-app_assoc. }
  rewrite Hs, position_header, take_app_length, dec_bytes_utf8.
  unfold parse_u64. rewrite parse_uint_dec by done.
  rewrite (cons_middle SPACE), app_assoc.
  rewrite (drop_app_exact (dec_bytes ms ++ [SPACE])) by (rewrite length_app; simpl; lia).
  cbn [head length]. simpl (_ <? 2). cbn [lookup list_lookup].
  rewrite bool_decide_eq_true_2 by done. simpl negb. cbn match.
  assert ((if byte_is "o"%byte (stream_char strm) then Some Stdout
    else if byte_is "e"%byte (stream_char strm) then Some Stderr else None) = Some strm)
    as -> by by destruct strm.
  cbn [Nat.ltb Nat.leb skipn]. rewrite !drop_0.
  rewrite position_header, take_app_length, dec_bytes_utf8, parse_uint_dec
    by (unfold MAX_RECORD_BYTES, U64_MAX in *; lia).
  rewrite (proj2 (N.ltb_ge _ _) Hlen).
  set (k := length (dec_bytes ms) + 1 + 2 + length (dec_bytes len) + 1).
  assert (Hk : k = length hdr).
  { subst k hdr. rewrite !length_app. simpl. rewrite length_app. simpl. lia. }
  rewrite <-app_assoc. simpl app. rewrite <-Hs, blen_app. unfold blen at 1. rewrite <-Hk.
  destruct (N.ltb_spec (blen rest) (len + 1)) as [Hr|Hr].
  { by rewrite (proj2 (N.ltb_lt _ _)) by lia. }
  rewrite (proj2 (N.ltb_ge _ _)) by lia.
  rewrite lookup_app_r by lia.
  replace (k + N.to_nat len - length hdr) with (N.to_nat len) by lia.
  by rewrite drop_app_exact by done.
Qed.

Definition trunc_entry (e : LogEntry) : LogEntry :=
  mkLogEntry (stream e) (epoch_plus_millis (unix_ms (timestamp e))) (data e).

Lemma unix_ms_range ts : (unix_ms ts <= U64_MAX)%N.
Proof.
  unfold unix_ms. destruct (ts <? 0)%Z; [done|].
  destruct (N.leb_spec (as_millis (Z.to_N ts)) U64_MAX); lia.
Qed.

Lemma encode_event_eq e :
  encode_event e =
  (dec_bytes (unix_ms (timestamp e)) ++ SPACE :: stream_char (stream e) :: SPACE ::
     dec_bytes (blen (data e)) ++ [SPACE]) ++ data e ++ [NL].
Proof.
  unfold encode_event, encode_record_into. rewrite <-!app_assoc. simpl.
  by rewrite <-!app_assoc.
Qed.

Lemma encode_record_app buf ts s d :
  encode_record_into buf ts s d = buf ++ encode_event (mkLogEntry s ts d).
Proof. done. Qed.

(** One encoded record in front of anything decodes to that record. *)
Lemma decode_encode e rest :
  (blen (data e) <= MAX_RECORD_BYTES)%N ->
  decode_event_with_len (encode_event e ++ rest) =
    DRecord (trunc_entry e) (length (encode_event e)).
Proof.
  intros Hlen. rewrite encode_event_eq, <-app_assoc, decode_header;
    [|apply unix_ms_range|done].
  rewrite <-app_assoc, blen_app. simpl app. rewrite blen_cons.
  rewrite (proj2 (N.ltb_ge _ _)) by lia.
  rewrite !to_nat_blen, list_lookup_middle by done.
  rewrite bool_decide_eq_true_2 by done. simpl negb. cbn match.
  rewrite take_app_length.
  unfold trunc_entry. f_equal. rewrite (length_app _ (data e ++ [NL])).
  rewrite (length_app (data e)). simpl. lia.
Qed.

(** Once decided, the outcome does not change when more bytes arrive. *)
Lemma decode_stable s t :
  decode_event_with_len s <> NeedMore ->
  decode_event_with_len (s ++ t) = decode_event_with_len s.
Proof.
  unfold decode_event_with_len. intros H.
  destruct (position (byte_is SPACE) s) as [sp1|] eqn:E1; [|done].
  rewrite (position_app_some _ _ t _ E1).
  pose proof (position_lt _ _ _ E1) as L1.
  rewrite take_app_le by lia. destruct (from_utf8 _); [|done].
  destruct (parse_u64 _) as [ms|]; [|done].
  rewrite drop_app_le by lia. remember (drop (sp1 + 1) s) as am eqn:Eam.
  assert (Lam : length s = sp1 + 1 + length am) by (subst am; rewrite length_drop; lia).
  clear Eam. destruct am as [|c am]; [done|]. simpl app. cbn [head] in *.
  destruct (Nat.ltb_spec (length (c :: am)) 2) as [|L2]; [done|].
  rewrite (proj2 (Nat.ltb_ge _ _)) by (simpl in *; rewrite length_app; lia).
  destruct am as [|d am]; [simpl in L2; lia|].
  change ((c :: (d :: am) ++ t) !! 1) with ((c :: d :: am) !! 1).
  destruct (negb (bool_decide ((c :: d :: am) !! 1 = Some SPACE))); [done|].
  destruct (if byte_is "o"%byte c then _ else _) as [strm|]; [|done].
  cbn [skipn app] in *. rewrite !drop_0 in *. destruct (position (byte_is SPACE) am) as [sp2|] eqn:E2; [|done].
  rewrite (position_app_some _ _ t _ E2). pose proof (position_lt _ _ _ E2) as L3.
  rewrite take_app_le by lia. destruct (from_utf8 (take sp2 am)); [|done].
  destruct (parse_u64 _) as [len|]; [|done].
  destruct (MAX_RECORD_BYTES <? len)%N; [done|].
  set (k := sp1 + 1 + 2 + sp2 + 1) in *.
  destruct (N.ltb_spec (blen s) (N.of_nat k + len + 1)) as [|L4]; [done|].
  rewrite (proj2 (N.ltb_ge _ _)) by (rewrite blen_app; lia).
  unfold blen in L4. rewrite lookup_app_l by lia.
  destruct (negb _); [done|].
  rewrite drop_app_le by lia. rewrite take_app_le; [done|]. rewrite length_drop. lia.
Qed.

(** A record takes at least one byte and lies within the buffer. *)
Lemma decode_consumed s e n :
  decode_event_with_len s = DRecord e n -> 0 < n <= length s.
Proof.
  unfold decode_event_with_len. intros H.
  repeat (split_match_in H; try discriminate H); simplify_eq/=; bool_props.
  all: unfold blen in *; lia.
Qed.

Lemma decode_data_bound s e n :
  decode_event_with_len s = DRecord e n -> (blen (data e) <= MAX_RECORD_BYTES)%N.
Proof.
  unfold decode_event_with_len. intros H.
  repeat (split_match_in H; try discriminate H); simplify_eq/=; bool_props.
  all: unfold blen; rewrite length_take; lia.
Qed.

Lemma resync_bounds s k : resync_offset s = Some k -> 0 < k <= length s.
Proof.
  unfold resync_offset. destruct (position _ s) eqn:E; simpl; [|done].
  intros [= <-]. apply position_lt in E. lia.
Qed.

Lemma resync_stable s t k : resync_offset s = Some k -> resync_offset (s ++ t) = Some k.
Proof.
  unfold resync_offset. destruct (position _ s) eqn:E; simpl; [|done].
  by rewrite (position_app_some _ _ _ _ E).
Qed.

End decoder.

(** ** The decode loop *)
Section loop.

(** The fuel of [decode_all] is enough: any larger fuel gives the same. *)
Lemma decode_loop_fuel f s :
  length s <= f -> decode_loop f s = decode_loop (length s) s.
Proof.
  revert s. induction f as [f IH] using lt_wf_ind. intros s Hf.
  destruct f as [|f]; [by destruct s; [|simpl in Hf; lia]|].
  destruct s as [|b s]; [done|]. remember (b :: s) as w eqn:Ew.
  assert (Hw : length w = S (length s)) by by subst.
  rewrite Hw. simpl. destruct w as [|b' w']; [done|].
  destruct (decode_event_with_len (b' :: w')) as [e n| |] eqn:E; [|done|].
  - apply decode_consumed in E.
    rewrite !(IH f), <-!(IH (length s)); rewrite ?length_drop; simpl in *; try lia; done.
  - destruct (resync_offset (b' :: w')) as [k|] eqn:Ek; [|done].
    apply resync_bounds in Ek.
    rewrite !(IH f), <-!(IH (length s)); rewrite ?length_drop; simpl in *; try lia; done.
Qed.

(** The loop's equation, free of fuel. *)
Lemma decode_all_unfold s :
  decode_all s =
  match s with
  | [] => ([], [])
  | _ => match decode_event_with_len s with
         | DRecord e n => let r := decode_all (drop n s) in (e :: r.1, r.2)
         | NeedMore => ([], s)
         | Malformed => match resync_offset s with
                        | Some k => decode_all (drop k s)
                        | None => ([], s)
                        end
         end
  end.
Proof.
  unfold decode_all. destruct s as [|b s]; [done|].
  change (decode_loop (length (b :: s)) (b :: s)) with
    (match decode_event_with_len (b :: s) with
     | DRecord e n => let r := decode_loop (length s) (drop n (b :: s)) in (e :: r.1, r.2)
     | NeedMore => ([], b :: s)
     | Malformed => match resync_offset (b :: s) with
                    | Some k => decode_loop (length s) (drop k (b :: s))
                    | None => ([], b :: s)
                    end
     end).
  destruct (decode_event_with_len (b :: s)) as [e n| |] eqn:E; [|done|].
  - apply decode_consumed in E. rewrite (decode_loop_fuel (length s)); [done|].
    rewrite length_drop. simpl in *. lia.
  - destruct (resync_offset (b :: s)) as [k|] eqn:Ek; [|done].
    apply resync_bounds in Ek. rewrite (decode_loop_fuel (length s)); [done|].
    rewrite length_drop. simpl in *. lia.
Qed.

(** Induction along the loop. *)
Lemma decode_ind (P : bytes -> Prop) :
  (forall s, (forall k, 0 < k <= length s -> P (drop k s)) -> P s) -> forall s, P s.
Proof.
  intros H s. induction s as [s IH] using (induction_ltof1 _ (@length Byte.byte)).
  apply H. intros k Hk. apply IH. unfold ltof. rewrite length_drop. lia.
Qed.

(** Decoding [a ++ b] is decoding [a], then decoding what was left followed
    by [b]. *)
Lemma decode_all_app a b :
  decode_all (a ++ b) =
  let ra := decode_all a in
  let rb := decode_all (ra.2 ++ b) in
  (ra.1 ++ rb.1, rb.2).
Proof.
  revert a. apply decode_ind. intros a IH.
  rewrite (decode_all_unfold a). destruct a as [|x a]; [simpl; by destruct (decode_all b)|].
  remember (x :: a) as w eqn:Ew. assert (Hw : w <> []) by by subst.
  destruct (decode_event_with_len w) as [e n| |] eqn:E.
  - pose proof (decode_consumed _ _ _ E) as Hn.
    rewrite decode_all_unfold, decode_stable, E by (rewrite E; done).
    destruct (w ++ b) eqn:Ewb; [by destruct w|]. rewrite <-Ewb.
    rewrite drop_app_le, IH by lia. done.
  - simpl. by destruct (decode_all (w ++ b)).
  - destruct (resync_offset w) as [k|] eqn:Ek.
    + pose proof (resync_bounds _ _ Ek) as Hk.
      rewrite decode_all_unfold, decode_stable, E, (resync_stable _ _ _ Ek) by (rewrite E; done).
      destruct (w ++ b) eqn:Ewb; [by destruct w|]. rewrite <-Ewb.
      rewrite drop_app_le, IH by lia. done.
    + simpl. by destruct (decode_all (w ++ b)).
Qed.

(** A record in front of the buffer is emitted first. *)
Lemma decode_all_encode e rest :
  (blen (data e) <= MAX_RECORD_BYTES)%N ->
  decode_all (encode_event e ++ rest) =
    let r := decode_all rest in (trunc_entry e :: r.1, r.2).
Proof.
  intros Hlen. rewrite decode_all_unfold, decode_encode by done.
  destruct (encode_event e ++ rest) eqn:E.
  { apply app_nil in E as [E _]. rewrite encode_event_eq in E.
    apply app_nil in E as [_ E]. by apply app_nil in E as [_ ?]. }
  rewrite <-E. by rewrite drop_app_length.
Qed.

Definition encode_events (es : list LogEntry) : bytes := concat (encode_event <$> es).

Definition entry_ok (e : LogEntry) : Prop := (blen (data e) <= MAX_RECORD_BYTES)%N.

Lemma decode_all_encodes es rest :
  Forall entry_ok es ->
  decode_all (encode_events es ++ rest) =
    let r := decode_all rest in ((trunc_entry <$> es) ++ r.1, r.2).
Proof.
  induction 1 as [|e es He _ IH]; [simpl; by destruct (decode_all rest)|].
  change (encode_events (e :: es)) with (encode_event e ++ encode_events es).
  rewrite <-app_assoc, decode_all_encode, IH by done. done.
Qed.

(** Every strict prefix of a record asks for more bytes. *)
Lemma decode_prefix e p q :
  entry_ok e -> encode_event e = p ++ q -> q <> [] ->
  decode_event_with_len p = NeedMore.
Proof.
  intros He Hpq Hq.
  destruct (decode_event_with_len p) as [e' n| |] eqn:E; [|done|].
  all: pose proof (decode_encode e [] He) as D; rewrite app_nil_r, Hpq in D.
  all: rewrite decode_stable, E in D by (rewrite E; done).
  - simplify_eq. apply decode_consumed in E. rewrite length_app in E.
    destruct q; [done|]. simpl in E. lia.
  - done.
Qed.

Lemma decode_all_prefix e p q :
  entry_ok e -> encode_event e = p ++ q -> q <> [] -> decode_all p = ([], p).
Proof.
  intros He Hpq Hq. rewrite decode_all_unfold, (decode_prefix e p q) by done. by destruct p.
Qed.

(** Feeding the chunks one by one, as the follower does: the state is the
    unconsumed remainder. *)
Definition feed (st : list LogEntry * bytes) (chunk : bytes) : list LogEntry * bytes :=
  let r := decode_all (st.2 ++ chunk) in (st.1 ++ r.1, r.2).

Lemma feed_chunks chunks a :
  foldl feed (decode_all a) chunks = decode_all (a ++ concat chunks).
Proof.
  revert a. induction chunks as [|c cs IH]; intros a; simpl; [by rewrite app_nil_r|].
  rewrite app_assoc, <-IH. f_equal. unfold feed. by rewrite (decode_all_app a c).
Qed.

End loop.

(** * Properties *)

(** C16. Round trip: a file made of encoded records parses to exactly those
    records in order, with the bytes intact (embedded and trailing newlines
    included) and the time stamp cut to the millisecond, for every list of
    entries whose payload is at most [MAX_RECORD_BYTES]. *)
Theorem parse_encode_roundtrip (es : list LogEntry) :
  Forall entry_ok es ->
  parse_events_file (encode_events es) = trunc_entry <$> es.
Proof.
  intros H. unfold parse_events_file. rewrite <-(app_nil_r (encode_events es)).
  rewrite decode_all_encodes by done. simpl. by rewrite app_nil_r.
Qed.

Definition sample_entries : list LogEntry :=
  [mkLogEntry Stdout 1700000000123000000 (str_bytes "line1" ++ [NL; x00; xff]);
   mkLogEntry Stderr (-5) [];
   mkLogEntry Stdout 42999999 (str_bytes "no newline")].

Lemma sample_entries_ok : Forall entry_ok sample_entries.
Proof. repeat constructor; vm_compute; discriminate. Qed.

Lemma parse_encode_roundtrip_witness :
  Forall entry_ok sample_entries /\
  parse_events_file (encode_events sample_entries) = trunc_entry <$> sample_entries.
Proof.
  split; [apply sample_entries_ok|]. apply (parse_encode_roundtrip sample_entries).
  apply sample_entries_ok.
Defined.

(** A file that ends in the middle of a record (the writer is still
    appending) yields all the complete records before it and leaves exactly
    the partial bytes: a truncated tail is never reported as malformed, so no
    complete record is lost to resynchronisation. *)
Theorem truncated_tail_deferred (es : list LogEntry) (e : LogEntry) (p q : bytes) :
  Forall entry_ok es -> entry_ok e -> encode_event e = p ++ q -> q <> [] ->
  decode_all (encode_events es ++ p) = (trunc_entry <$> es, p).
Proof.
  intros Hes He Hpq Hq. rewrite decode_all_encodes by done.
  rewrite (decode_all_prefix e p q) by done. simpl. by rewrite app_nil_r.
Qed.

Lemma truncated_tail_deferred_witness :
  decode_all (encode_events sample_entries ++ str_bytes "1 o 9 part") =
    (trunc_entry <$> sample_entries, str_bytes "1 o 9 part").
Proof.
  apply (truncated_tail_deferred sample_entries
           (mkLogEntry Stdout 1000000 (str_bytes "partial!!"))
           (str_bytes "1 o 9 part") (str_bytes "ial!!" ++ [NL])).
  - apply sample_entries_ok.
  - vm_compute. discriminate.
  - vm_compute. reflexivity.
  - discriminate.
Defined.

(** C26. Chunking is invisible: reading a byte stream, well formed or not, in
    any sequence of chunks and carrying the unconsumed remainder over gives
    the same entries and the same remainder as decoding it in one go. *)
Theorem chunking_invariant (chunks : list bytes) :
  foldl feed ([], []) chunks = decode_all (concat chunks).
Proof. apply (feed_chunks chunks []). Qed.
