(* ===== verification/Effects.v ===== *)
(** * The effect monad

    Stateful code is state passing in [ST S]; fallible stateful code is
    [ST S (result E A)] with the notation [x ←? m; k] for Rust's [m?]. *)

From S2P Require Import Prelude.

Definition ST (S A : Type) : Type := S -> A * S.

#[export] Instance ST_ret S : MRet (ST S) := fun A a s => (a, s).
#[export] Instance ST_bind S : MBind (ST S) :=
  fun A B k m s => let r := m s in k r.1 r.2.

(** [m?] in a function that returns a [Result]. *)
Definition try_st {S E A B} (m : ST S (result E A)) (k : A -> ST S (result E B)) :
    ST S (result E B) :=
  m ≫= fun r => match r with Ok a => k a | Err e => mret (Err e) end.

(** [return Err(e)?] of a pure [Result] in a stateful function. *)
Definition lift_res {S E A} (r : result E A) : ST S (result E A) := mret r.

Notation "x ←? m ; k" := (try_st m (fun x => k))
  (at level 20, m at level 100, k at level 200,
   format "x  ←?  m ; '//' k") : stdpp_scope.
Notation "' x ←? m ; k" := (try_st m (fun x => k))
  (at level 20, x pattern, m at level 100, k at level 200) : stdpp_scope.
Notation "m ;;? k" := (try_st m (fun _ => k))
  (at level 100, k at level 200, right associativity) : stdpp_scope.

Definition st_map_err {S E F A} (f : E -> F) (m : ST S (result E A)) : ST S (result F A) :=
  m ≫= fun r => mret (map_err f r).

Definition get_st {S} : ST S S := fun s => (s, s).
Definition modify_st {S} (f : S -> S) : ST S unit := fun s => (tt, f s).

(** Run a computation on a component of the state. *)
Definition zoom {S T A} (get : S -> T) (set : T -> S -> S) (m : ST T A) : ST S A :=
  fun s => let r := m (get s) in (r.1, set r.2 s).

(** ** Run lemmas *)
Section run.
Context {S E : Type}.

Lemma run_ret {A} (a : A) (s : S) : (mret a : ST S A) s = (a, s).
Proof. done. Qed.

Lemma ret_inv {A} (a b : A) (s s' : S) : (mret a : ST S A) s = (b, s') -> a = b /\ s = s'.
Proof. intros [= -> ->]. done. Qed.

Lemma run_bind {A B} (m : ST S A) (k : A -> ST S B) s a s' :
  m s = (a, s') -> (m ≫= k) s = k a s'.
Proof. intros H. unfold mbind, ST_bind. by rewrite H. Qed.

Lemma run_try_ok {A B} (m : ST S (result E A)) (k : A -> ST S (result E B)) s a s' :
  m s = (Ok a, s') -> try_st m k s = k a s'.
Proof. intros H. unfold try_st. by rewrite (run_bind _ _ _ _ _ H). Qed.

Lemma run_try_err {A B} (m : ST S (result E A)) (k : A -> ST S (result E B)) s e s' :
  m s = (Err e, s') -> try_st m k s = (Err e, s').
Proof. intros H. unfold try_st. by rewrite (run_bind _ _ _ _ _ H). Qed.

(** The outcomes of [m?; k]. *)
Lemma try_inv {A B} (m : ST S (result E A)) (k : A -> ST S (result E B)) s r s' :
  try_st m k s = (r, s') ->
  (exists a s1, m s = (Ok a, s1) /\ k a s1 = (r, s')) \/
  (exists e, m s = (Err e, s') /\ r = Err e).
Proof.
  unfold try_st, mbind, ST_bind. destruct (m s) as [[a|e] s1]; simpl; intros H.
  - left. eauto.
  - right. injection H as <- <-. eauto.
Qed.

(** The outcomes of [m?; k] when the whole returns [Ok]. *)
Lemma try_ok_inv {A B} (m : ST S (result E A)) (k : A -> ST S (result E B)) s b s' :
  try_st m k s = (Ok b, s') -> exists a s1, m s = (Ok a, s1) /\ k a s1 = (Ok b, s').
Proof. intros [?|(e & _ & ?)]%try_inv; [done|discriminate]. Qed.

Lemma bind_inv {A B} (m : ST S A) (k : A -> ST S B) s b s' :
  (m ≫= k) s = (b, s') -> exists a s1, m s = (a, s1) /\ k a s1 = (b, s').
Proof. unfold mbind, ST_bind. destruct (m s) as [a s1]. eauto. Qed.

(** A run from its value. *)
Lemma run_eq {A} (m : ST S A) s a : (m s).1 = a -> m s = (a, (m s).2).
Proof. destruct (m s). simpl. congruence. Qed.

(** Sequences associate, and may be compared a step at a time. *)
Lemma try_ext {A B} (m : ST S (result E A)) (k1 k2 : A -> ST S (result E B)) s :
  (forall a s', k1 a s' = k2 a s') -> try_st m k1 s = try_st m k2 s.
Proof. intros H. unfold try_st, mbind, ST_bind. destruct (m s) as [[a|e] s']; [apply H|done]. Qed.

Lemma bind_ext {A B} (m : ST S A) (k1 k2 : A -> ST S B) s :
  (forall a s', k1 a s' = k2 a s') -> (m ≫= k1) s = (m ≫= k2) s.
Proof. intros H. unfold mbind, ST_bind. destruct (m s) as [a s']. apply H. Qed.

Lemma try_assoc {A B C} (m : ST S (result E A)) (f : A -> ST S (result E B))
    (k : B -> ST S (result E C)) s :
  try_st (try_st m f) k s = try_st m (fun a => try_st (f a) k) s.
Proof. unfold try_st, mbind, ST_bind. by destruct (m s) as [[a|e] s']. Qed.

Lemma try_bind_assoc {A B C} (m : ST S A) (f : A -> ST S (result E B))
    (k : B -> ST S (result E C)) s :
  try_st (m ≫= f) k s = (m ≫= fun a => try_st (f a) k) s.
Proof. unfold try_st, mbind, ST_bind. by destruct (m s) as [a s']. Qed.

End run.

(** Moves through two sequences in step. *)
Ltac same_steps :=
  repeat first
    [ rewrite try_assoc; apply try_ext; intros ? ?
    | rewrite try_bind_assoc; apply bind_ext; intros ? ?
    | match goal with |- context [decide ?P] => destruct (decide P); [done|] end ].

(** Inverts the runs in the context, one step at a time. *)
Ltac run_inv :=
  repeat match goal with
  | H : (mret _) _ = (_, _) |- _ =>
      let E1 := fresh "E" in let E2 := fresh "E" in
      apply ret_inv in H as [E1 E2]; simplify_eq
  | H : (_ ≫= _) _ = (_, _) |- _ =>
      let a := fresh "a" in let s := fresh "s" in let H1 := fresh "H" in
      apply bind_inv in H as (a & s & H1 & H)
  | H : try_st _ _ _ = (Ok _, _) |- _ =>
      let a := fresh "a" in let s := fresh "s" in let H1 := fresh "H" in
      apply try_ok_inv in H as (a & s & H1 & H)
  end.

(** ** Interleaving

    Jobs that take turns: each entry of the schedule names the job that makes
    its next step; [step] takes a job's description and where it is. *)
Section interleave.
Context {S J P : Type} (step : J -> P -> ST S P).

Fixpoint interleave (sched : list nat) (jobs : list (J * P)) : ST S (list (J * P)) :=
  match sched with
  | [] => mret jobs
  | i :: sched =>
      match jobs !! i with
      | None => interleave sched jobs
      | Some (j, p) => p ← step j p; interleave sched (<[i := (j, p)]> jobs)
      end
  end.

Lemma interleave_app s1 s2 jobs w :
  interleave (s1 ++ s2) jobs w = (jobs ← interleave s1 jobs; interleave s2 jobs) w.
Proof.
  revert jobs w. induction s1 as [|i s1 IH]; intros jobs w; [done|]. cbn [app interleave].
  destruct (jobs !! i) as [[j p]|]; [|apply IH]. unfold mbind, ST_bind. apply IH.
Qed.

(** An invariant of the state and the jobs that every step keeps. *)
Lemma interleave_inv (I : S -> list (J * P) -> Prop) :
  (forall w jobs i j p, I w jobs -> jobs !! i = Some (j, p) ->
     I (step j p w).2 (<[i := (j, (step j p w).1)]> jobs)) ->
  forall sched w jobs, I w jobs -> I (interleave sched jobs w).2 (interleave sched jobs w).1.
Proof.
  intros Hs sched. induction sched as [|i sched IH]; intros w jobs H; [done|]. cbn [interleave].
  destruct (jobs !! i) as [[j p]|] eqn:Hi; [|by apply IH]. unfold mbind, ST_bind.
  apply IH. by apply Hs.
Qed.

End interleave.

(** ** Invariants and postconditions

    [pres R m]: [m] relates its start and end states by [R]; a reflexive and
    transitive [R] composes along binds. *)
Section pres.
Context {S : Type} (R : S -> S -> Prop) `{!Reflexive R, !Transitive R}.

Definition pres {A} (m : ST S A) : Prop := forall s, R s (m s).2.

Lemma pres_ret {A} (a : A) : pres (mret a).
Proof. intros s. done. Qed.

Lemma pres_bind {A B} (m : ST S A) (k : A -> ST S B) :
  pres m -> (forall a, pres (k a)) -> pres (m ≫= k).
Proof.
  intros Hm Hk s. unfold mbind, ST_bind. transitivity (m s).2; [apply Hm|apply Hk].
Qed.

Lemma pres_try {E A B} (m : ST S (result E A)) (k : A -> ST S (result E B)) :
  pres m -> (forall a, pres (k a)) -> pres (try_st m k).
Proof.
  intros Hm Hk. apply pres_bind; [done|]. intros [a|e]; [apply Hk|apply pres_ret].
Qed.

Lemma pres_map_err {E F A} (f : E -> F) (m : ST S (result E A)) :
  pres m -> pres (st_map_err f m).
Proof. intros Hm. apply pres_bind; [done|]. intros r. apply pres_ret. Qed.

Lemma pres_at {A} (m : ST S A) s a s' : pres m -> m s = (a, s') -> R s s'.
Proof. intros H E. specialize (H s). by rewrite E in H. Qed.

End pres.

#[export] Hint Resolve pres_ret pres_bind pres_try pres_map_err : cm.

(** [pres_tac] walks a computation, splitting its matches. *)
Ltac pres_step :=
  match goal with
  | |- pres _ (mret _) => apply pres_ret; try apply _
  | |- pres _ (try_st _ _) => apply pres_try; try apply _; [|intros ?]
  | |- pres _ (st_map_err _ _) => apply pres_map_err; try apply _
  | |- pres _ (_ ≫= _) => apply pres_bind; try apply _; [|intros ?]
  | |- pres _ (match ?x with _ => _ end) => destruct x
  | |- pres _ (let _ := _ in _) => cbv zeta
  end.
Ltac pres_tac := repeat pres_step; try (intros ?; reflexivity); eauto with cm.
