(* ===== verification/FileSystem.v ===== *)
(** * A file system with inodes

    The parts of [std::fs] and [tokio::fs] the log files use: directory entries
    map paths to inodes, so a rename keeps a file's identity and an open
    handle keeps reading the renamed file, which is what the rotation of
    [events.log] and the follower's rotation test depend on.

    Other processes act between two operations and any operation can fail: a
    schedule gives, for each operation in turn, what the environment did to
    the file system just before it and the fault it meets, if any.  The empty
    schedule is a quiet, fault-free run. *)

From S2P Require Import Prelude RustText Errors Effects.
From Stdlib Require Import Ascii.

(** ** Paths: lists of components *)
Abbreviation path := (list string).

(** [Path::join] with a single component; an absolute one replaces the path. *)
Definition pjoin (p : path) (c : string) : path :=
  if starts_with "/" c then [c] else p ++ [c].

(** Around the last dot. *)
Fixpoint rsplit_dot (s : string) : option (string * string) :=
  match s with
  | EmptyString => None
  | String a s' =>
      match rsplit_dot s' with
      | Some (l, r) => Some (String a l, r)
      | None => if Ascii.eqb a "."%char then Some (EmptyString, s') else None
      end
  end.

(** [Path::file_stem] of a file name. *)
Definition file_stem (name : string) : string :=
  match rsplit_dot name with
  | Some (EmptyString, _) | None => name
  | Some (l, _) => l
  end.

(** [Path::with_extension]. *)
Definition with_extension (p : path) (ext : string) : path :=
  match last p with
  | None => p
  | Some name =>
      if decide (name = "..") then p
      else removelast p ++
        [file_stem name +:+ (if decide (ext = "") then "" else "." +:+ ext)]
  end.

(** ** State *)
Record FS : Type := mkFS {
  fs_dir : gmap path N;
  fs_inodes : gmap N bytes;
  fs_next : N
}.

Record Tick : Type := mkTick {
  tick_env : FS -> FS;
  tick_fault : option ErrorKind;
  (** bytes of a failing write that reach the file *)
  tick_partial : nat
}.

Definition tick_ok : Tick := mkTick id None 0.
Definition tick_fail (k : ErrorKind) : Tick := mkTick id (Some k) 0.

Record FsSt : Type := mkFsSt { fs : FS; sched : list Tick }.

Abbreviation FsM := (ST FsSt).
Abbreviation io := (result ErrorKind).

(** One operation: the environment moves, then the fault or the effect. *)
Definition op_with {A} (on_fault : nat -> FS -> FS) (f : FS -> io A * FS) : FsM (io A) :=
  fun st =>
    match sched st with
    | [] => let r := f (fs st) in (r.1, mkFsSt r.2 [])
    | t :: ts =>
        let fs' := tick_env t (fs st) in
        match tick_fault t with
        | Some k => (Err k, mkFsSt (on_fault (tick_partial t) fs') ts)
        | None => let r := f fs' in (r.1, mkFsSt r.2 ts)
        end
    end.

Definition op {A} (f : FS -> io A * FS) : FsM (io A) := op_with (fun _ s => s) f.

(** Contents of an inode; an unknown one is empty. *)
Definition contents (s : FS) (ino : N) : bytes := default [] (fs_inodes s !! ino).

Definition set_contents (ino : N) (b : bytes) (s : FS) : FS :=
  mkFS (fs_dir s) (<[ino := b]> (fs_inodes s)) (fs_next s).

Definition create_at (p : path) (b : bytes) (s : FS) : FS :=
  mkFS (<[p := fs_next s]> (fs_dir s)) (<[fs_next s := b]> (fs_inodes s)) (fs_next s + 1)%N.

(** ** Operations *)

(** [File::open] for reading: the handle is the inode. *)
Definition fs_open (p : path) : FsM (io N) :=
  op (fun s => (match fs_dir s !! p with Some i => Ok i | None => Err KindNotFound end, s)).

(** [File::metadata]: the length. *)
Definition handle_len (h : N) : FsM (io N) :=
  op (fun s => (Ok (blen (contents s h)), s)).

(** [seek(Start(pos))]. *)
Definition handle_seek (h : N) (pos : N) : FsM (io unit) := op (fun s => (Ok tt, s)).

(** [read_to_end] from [pos], or [take(want).read_to_end]. *)
Definition handle_read (h : N) (pos : N) (want : option N) : FsM (io bytes) :=
  op (fun s =>
    let rest := drop (N.to_nat pos) (contents s h) in
    (Ok (match want with Some w => take (N.to_nat w) rest | None => rest end), s)).

(** [OpenOptions::new().create(true).append(true).open(p)]. *)
Definition fs_open_append (p : path) : FsM (io N) :=
  op (fun s => match fs_dir s !! p with
               | Some i => (Ok i, s)
               | None => (Ok (fs_next s), create_at p [] s)
               end).

(** [write_all] on an append handle; a fault may leave a prefix behind. *)
Definition handle_append (h : N) (b : bytes) : FsM (io unit) :=
  op_with (fun k s => set_contents h (contents s h ++ take k b) s)
          (fun s => (Ok tt, set_contents h (contents s h ++ b) s)).

(** [std::fs::read]. *)
Definition fs_read (p : path) : FsM (io bytes) :=
  op (fun s => (match fs_dir s !! p with
                | Some i => Ok (contents s i)
                | None => Err KindNotFound
                end, s)).

(** [std::fs::write]: truncate or create. *)
Definition fs_write (p : path) (b : bytes) : FsM (io unit) :=
  op (fun s => match fs_dir s !! p with
               | Some i => (Ok tt, set_contents i b s)
               | None => (Ok tt, create_at p b s)
               end).

(** [fs::metadata(p)]: the length. *)
Definition fs_stat_len (p : path) : FsM (io N) :=
  op (fun s => (match fs_dir s !! p with
                | Some i => Ok (blen (contents s i))
                | None => Err KindNotFound
                end, s)).

(** [fs::try_exists]. *)
Definition fs_try_exists (p : path) : FsM (io bool) :=
  op (fun s => (Ok (bool_decide (is_Some (fs_dir s !! p))), s)).

Definition fs_remove_file (p : path) : FsM (io unit) :=
  op (fun s => match fs_dir s !! p with
               | Some _ => (Ok tt, mkFS (delete p (fs_dir s)) (fs_inodes s) (fs_next s))
               | None => (Err KindNotFound, s)
               end).

(** [fs::rename]: the target entry, if any, is replaced. *)
Definition fs_rename (from to : path) : FsM (io unit) :=
  op (fun s => match fs_dir s !! from with
               | Some i => (Ok tt, mkFS (<[to := i]> (delete from (fs_dir s)))
                                        (fs_inodes s) (fs_next s))
               | None => (Err KindNotFound, s)
               end).

(** Directories are implicit in the paths of their files. *)
Definition fs_create_dir_all (p : path) : FsM (io unit) := op (fun s => (Ok tt, s)).

Definition under (d p : path) : bool := bool_decide (take (length d) p = d).

Definition fs_remove_dir_all (d : path) : FsM (io unit) :=
  op (fun s => (Ok tt, mkFS (filter (fun e => under d e.1 = false) (fs_dir s))
                            (fs_inodes s) (fs_next s))).

(** ** Lemmas *)
Definition quiet (s : FS) : FsSt := mkFsSt s [].

Lemma op_quiet {A} (f : FS -> io A * FS) s :
  op f (quiet s) = ((f s).1, quiet (f s).2).
Proof. done. Qed.

(** Well-formed: every directory entry names an inode below the next free one,
    and no two entries share an inode (the crate makes no hard links). *)
Definition dir_wf (next : N) (m : gmap path N) : Prop :=
  (forall p i, m !! p = Some i -> (i < next)%N) /\
  (forall p q i, m !! p = Some i -> m !! q = Some i -> p = q).

Definition fs_wf (s : FS) : Prop := dir_wf (fs_next s) (fs_dir s).

Lemma dir_wf_delete n m p : dir_wf n m -> dir_wf n (delete p m).
Proof.
  intros [H1 H2]. split.
  - intros q i [_ Hq]%lookup_delete_Some. eauto.
  - intros q q' i [_ Hq]%lookup_delete_Some [_ Hq']%lookup_delete_Some. eauto.
Qed.

Lemma dir_wf_insert_new n m p : dir_wf n m -> dir_wf (n + 1) (<[p := n]> m).
Proof.
  intros [H1 H2]. split.
  - intros q i [[<- <-]|[_ Hq]]%lookup_insert_Some; [lia|]. apply H1 in Hq. lia.
  - intros q q' i [[<- <-]|[Hq1 Hq2]]%lookup_insert_Some
      [[<- Hi]|[Hq1' Hq2']]%lookup_insert_Some; [done| | |eauto].
    + apply H1 in Hq2'. lia.
    + subst. apply H1 in Hq2. lia.
Qed.

Lemma fs_wf_create p b s : fs_wf s -> fs_wf (create_at p b s).
Proof. apply dir_wf_insert_new. Qed.

Definition fs_empty : FS := mkFS ∅ ∅ 0.

Lemma fs_wf_empty : fs_wf fs_empty.
Proof. by split. Qed.

Definition file (s : FS) (p : path) : option bytes := contents s <$> fs_dir s !! p.

Lemma contents_set_eq i b s : contents (set_contents i b s) i = b.
Proof. unfold contents, set_contents. simpl. by rewrite lookup_insert_eq. Qed.

Lemma contents_set_ne i j b s : i <> j -> contents (set_contents i b s) j = contents s j.
Proof. intros. unfold contents, set_contents. simpl. by rewrite lookup_insert_ne. Qed.

Lemma contents_create p b s j :
  (j < fs_next s)%N -> contents (create_at p b s) j = contents s j.
Proof. intros. unfold contents, create_at. simpl. rewrite lookup_insert_ne by lia. done. Qed.

Lemma contents_create_new p b s : contents (create_at p b s) (fs_next s) = b.
Proof. unfold contents, create_at. simpl. by rewrite lookup_insert_eq. Qed.

Example with_extension_events :
  with_extension ["home"; "events.log"] "log.3" = ["home"; "events.log.3"].
Proof. reflexivity. Qed.
