(* ===== verification/LogFiles.v ===== *)
(** * Log files on disk and the bulk reader ([src/logs.rs])

    Paths of a container's log directory, creation and removal of the raw
    files, and [container_logs_filtered], which reads the rotated history
    oldest first and applies the [since] / [until] / [tail] filter.
    [std::env::home_dir()] is the argument [home]. *)

From S2P Require Import Prelude RustText Errors Effects FileSystem LogCodec.

(** ** Paths *)
Definition MAX_ROTATED_FILES : nat := 5.

Definition log_dir_for (home : option path) (container_id : string) : Result path :=
  let? home := ok_or (Io "home directory" KindNotFound) home in
  Ok (pjoin (pjoin (pjoin home ".containerd-manager") "task-logs") container_id).

Definition log_paths_for (home : option path) (container_id : string) :
    Result (path * path) :=
  let? dir := log_dir_for home container_id in
  Ok (pjoin dir "stdout", pjoin dir "stderr").

Definition events_path_for (home : option path) (container_id : string) : Result path :=
  let? dir := log_dir_for home container_id in Ok (pjoin dir "events.log").

(** [events_path.with_extension(format!("log.{n}"))]. *)
Definition rotated_path (events_path : path) (n : nat) : path :=
  with_extension events_path ("log." +:+ dec_string (N.of_nat n)).

(** [Path::exists]: errors count as absent. *)
Definition path_exists (p : path) : FsM bool :=
  r ← fs_try_exists p; mret (match r with Ok b => b | Err _ => false end).

Fixpoint retain_existing (ps : list path) : FsM (list path) :=
  match ps with
  | [] => mret []
  | p :: ps =>
      b ← path_exists p;
      rest ← retain_existing ps;
      mret (if b : bool then p :: rest else rest)
  end.

(** [(1..=MAX_ROTATED_FILES).rev()]. *)
Definition rotated_indices : list nat := rev (seq 1 MAX_ROTATED_FILES).

Definition events_files_oldest_first (events_path : path) : FsM (list path) :=
  out ← retain_existing (rotated_path events_path <$> rotated_indices);
  mret (out ++ [events_path]).

(** ** Raw files *)
Definition prepare_log_files (home : option path) (container_id : string) :
    FsM (Result (path * path)) :=
  '(stdout_path, stderr_path) ←? lift_res (log_paths_for home container_id);
  (* [stdout_path.parent()]: the path has at least one component *)
  let dir := removelast stdout_path in
  st_map_err (Io "create task log dir") (fs_create_dir_all dir) ;;?
  st_map_err (Io "create task stdout log") (fs_write stdout_path []) ;;?
  st_map_err (Io "create task stderr log") (fs_write stderr_path []) ;;?
  mret (Ok (stdout_path, stderr_path)).

Definition cleanup_log_files (home : option path) (container_id : string) : FsM unit :=
  match log_dir_for home container_id with
  | Ok dir => _ ← fs_remove_dir_all dir; mret tt
  | Err _ => mret tt
  end.

Definition read_file_or_empty (p : path) : FsM (Result bytes) :=
  r ← fs_read p;
  mret (match r with
        | Ok b => Ok b
        | Err KindNotFound => Ok []
        | Err e => Err (Io "read task log file" e)
        end).

(** ** The bulk reader *)
Record LogsFilter : Type := mkLogsFilter {
  tail : option nat;
  since : option SystemTime;
  until : option SystemTime
}.

Definition no_filter : LogsFilter := mkLogsFilter None None None.

(** [for f in files { all.extend(parse_events_file(read_file_or_empty(f)?)) }]. *)
Fixpoint read_all (files : list path) (all : list LogEntry) : FsM (Result (list LogEntry)) :=
  match files with
  | [] => mret (Ok all)
  | f :: files =>
      b ←? read_file_or_empty f;
      read_all files (all ++ parse_events_file b)
  end.

(** The two [retain]s and the [drain]. *)
Definition apply_filter (flt : LogsFilter) (all : list LogEntry) : list LogEntry :=
  let all := match since flt with
             | Some t => filter (fun e => (t <= timestamp e)%Z) all
             | None => all
             end in
  let all := match until flt with
             | Some t => filter (fun e => (timestamp e <= t)%Z) all
             | None => all
             end in
  match tail flt with
  | Some n => if n <? length all then drop (length all - n) all else all
  | None => all
  end.

Definition container_logs_filtered
    (home : option path) (container_id : string) (flt : LogsFilter) :
    FsM (Result (list LogEntry)) :=
  events_path ←? lift_res (events_path_for home container_id);
  files ← events_files_oldest_first events_path;
  all ←? read_all files [];
  mret (Ok (apply_filter flt all)).

Definition container_logs (home : option path) (container_id : string) :
    FsM (Result (list LogEntry)) :=
  container_logs_filtered home container_id no_filter.

(** * Lemmas *)
Section paths.

(** The rotated files of a container, by name. *)
Lemma rotated_path_eq d n :
  rotated_path (d ++ ["events.log"]) n = d ++ ["events.log." +:+ dec_string (N.of_nat n)].
Proof.
  unfold rotated_path, with_extension. rewrite last_snoc, removelast_last.
  destruct (decide ("events.log" = "..")); [done|].
  destruct (decide _) as [H|H]; [by destruct (dec_string _)|done].
Qed.

Lemma events_path_for_eq home id p :
  events_path_for home id = Ok p -> exists d, p = d ++ ["events.log"].
Proof.
  unfold events_path_for. destruct (log_dir_for home id); simpl; [|done].
  intros [= <-]. eauto.
Qed.

End paths.

(** The files that make up the history, oldest first. *)
Definition history_paths (events_path : path) : list path :=
  (rotated_path events_path <$> rotated_indices) ++ [events_path].

(** A missing file counts as empty. *)
Definition file_or_empty (s : FS) (p : path) : bytes := default [] (file s p).

(** What reading a list of files in order gives on a quiet file system. *)
Definition parsed (s : FS) (ps : list path) : list LogEntry :=
  concat ((fun p => parse_events_file (file_or_empty s p)) <$> ps).

(** The records on disk, oldest first. *)
Definition history (s : FS) (events_path : path) : list LogEntry :=
  parsed s (history_paths events_path).

Section reader.

Lemma parsed_cons s p ps :
  parsed s (p :: ps) = parse_events_file (file_or_empty s p) ++ parsed s ps.
Proof. done. Qed.

Lemma parsed_app s ps qs : parsed s (ps ++ qs) = parsed s ps ++ parsed s qs.
Proof. unfold parsed. by rewrite fmap_app, concat_app. Qed.

Lemma path_exists_quiet s p :
  path_exists p (quiet s) = (bool_decide (is_Some (fs_dir s !! p)), quiet s).
Proof. done. Qed.

Lemma retain_existing_quiet s ps :
  retain_existing ps (quiet s) =
    (filter (fun p => is_Some (fs_dir s !! p)) ps, quiet s).
Proof.
  induction ps as [|p ps IH]; [done|].
  cbn [retain_existing]. erewrite run_bind by apply path_exists_quiet.
  erewrite run_bind by exact IH. rewrite filter_cons, run_ret.
  destruct (decide (is_Some (fs_dir s !! p))) as [H|H];
    [by rewrite bool_decide_eq_true_2|by rewrite bool_decide_eq_false_2].
Qed.

Lemma read_file_or_empty_quiet s p :
  read_file_or_empty p (quiet s) = (Ok (file_or_empty s p), quiet s).
Proof.
  unfold read_file_or_empty, file_or_empty, file, mbind, ST_bind. simpl.
  by destruct (fs_dir s !! p).
Qed.

Lemma read_all_quiet s ps all :
  read_all ps all (quiet s) =
    (Ok (all ++ parsed s ps), quiet s).
Proof.
  revert all. induction ps as [|p ps IH]; intros all; cbn [read_all].
  - simpl. by rewrite app_nil_r.
  - erewrite run_try_ok by apply read_file_or_empty_quiet.
    by rewrite IH, parsed_cons, app_assoc.
Qed.

(** Skipping the absent files does not change what is read. *)
Lemma parsed_existing s ps :
  parsed s (filter (fun p => is_Some (fs_dir s !! p)) ps) = parsed s ps.
Proof.
  induction ps as [|p ps IH]; [done|]. rewrite filter_cons, parsed_cons.
  destruct (decide (is_Some (fs_dir s !! p))) as [H|H];
    [by rewrite parsed_cons, IH|].
  apply eq_None_not_Some in H. unfold file_or_empty, file. by rewrite H, IH.
Qed.

Lemma container_logs_filtered_quiet home id flt p s :
  events_path_for home id = Ok p ->
  container_logs_filtered home id flt (quiet s) =
    (Ok (apply_filter flt (history s p)), quiet s).
Proof.
  intros Hp. unfold container_logs_filtered.
  rewrite (run_try_ok _ _ _ p (quiet s)) by (unfold lift_res; by rewrite Hp).
  unfold events_files_oldest_first.
  erewrite run_bind; [|erewrite run_bind by apply retain_existing_quiet; done].
  rewrite (run_try_ok _ _ _ _ _ (read_all_quiet s _ [])).
  rewrite run_ret. do 3 f_equal. rewrite app_nil_l, parsed_app, parsed_existing.
  unfold history, history_paths. by rewrite <-parsed_app.
Qed.

(** The reference for the filter: the last [n] entries inside the window. *)
Definition in_window (flt : LogsFilter) (e : LogEntry) : bool :=
  match since flt with Some t => (t <=? timestamp e)%Z | None => true end &&
  match until flt with Some t => (timestamp e <=? t)%Z | None => true end.

Definition last_n {A} (n : option nat) (l : list A) : list A :=
  match n with Some n => rev (take n (rev l)) | None => l end.

Lemma drop_rev_take {A} (l : list A) n :
  (if n <? length l then drop (length l - n) l else l) = rev (take n (rev l)).
Proof.
  destruct (Nat.ltb_spec n (length l)) as [H|H].
  - by rewrite List.firstn_rev, rev_involutive.
  - rewrite take_ge by (rewrite length_rev; lia). by rewrite rev_involutive.
Qed.

Lemma filter_bool {A} (P : A -> Prop) `{!forall x, Decision (P x)} (f : A -> bool) l :
  (forall x, P x <-> f x = true) -> filter P l = List.filter f l.
Proof.
  intros Hf. induction l as [|x l IH]; [done|]. rewrite filter_cons. simpl.
  destruct (decide (P x)) as [HP|HP].
  - by rewrite (proj1 (Hf x) HP), IH.
  - destruct (f x) eqn:E; [by apply Hf in E|done].
Qed.

Lemma filter_true {A} (l : list A) : List.filter (fun _ => true) l = l.
Proof. induction l as [|x l IH]; simpl; [done|]. by rewrite IH. Qed.

Lemma filter_filter_and {A} (f g : A -> bool) l :
  List.filter g (List.filter f l) = List.filter (fun x => f x && g x) l.
Proof.
  induction l as [|x l IH]; simpl; [done|].
  destruct (f x); simpl; [|done]. by rewrite IH.
Qed.

Lemma apply_filter_spec flt l :
  apply_filter flt l = last_n (tail flt) (List.filter (in_window flt) l).
Proof.
  destruct flt as [n sn un]. unfold apply_filter, in_window. cbn [tail since until].
  rewrite <-filter_filter_and.
  assert ((match sn with Some t => filter (fun e => (t <= timestamp e)%Z) l | None => l end)
    = List.filter (fun x => match sn with Some t => (t <=? timestamp x)%Z | None => true end) l)
    as ->.
  { destruct sn; [|by rewrite filter_true].
    apply filter_bool. intros x. by rewrite Z.leb_le. }
  generalize (List.filter (fun x => match sn with Some t => (t <=? timestamp x)%Z | None => true end) l) as k.
  intros k. assert ((match un with Some t => filter (fun e => (timestamp e <= t)%Z) k | None => k end)
    = List.filter (fun x => match un with Some t => (timestamp x <=? t)%Z | None => true end) k)
    as ->.
  { destruct un; [|by rewrite filter_true].
    apply filter_bool. intros x. by rewrite Z.leb_le. }
  destruct n; [|done]. apply drop_rev_take.
Qed.

End reader.

(** * Properties *)

(** On a quiet disk [container_logs_filtered] returns the last [tail]
    entries, among those time-stamped in [[since, until]], of the records read
    from the rotated files and [events.log] oldest first; absent files count
    as empty, and the file system is left unchanged. *)
Theorem container_logs_filtered_correct home id flt p s :
  events_path_for home id = Ok p ->
  container_logs_filtered home id flt (quiet s) =
    (Ok (last_n (tail flt) (List.filter (in_window flt) (history s p))), quiet s).
Proof.
  intros Hp. rewrite (container_logs_filtered_quiet _ _ _ p) by done.
  by rewrite apply_filter_spec.
Qed.

(** A home directory and a container with one rotated file. *)
Definition demo_home : option path := Some ["/"; "root"].
Definition demo_dir : path := ["/"; "root"; ".containerd-manager"; "task-logs"; "c1"].

Definition demo_fs : FS :=
  create_at (demo_dir ++ ["events.log"])
    (encode_event (mkLogEntry Stderr 3000000 (str_bytes "three")))
    (create_at (demo_dir ++ ["events.log.1"])
       (encode_event (mkLogEntry Stdout 1000000 (str_bytes "one")) ++
        encode_event (mkLogEntry Stdout 2000000 (str_bytes "two")))
       (mkFS ∅ ∅ 1)).

Lemma container_logs_filtered_correct_witness :
  events_path_for demo_home "c1" = Ok (demo_dir ++ ["events.log"]) /\
  container_logs_filtered demo_home "c1" (mkLogsFilter (Some 1) None (Some 2500000%Z))
    (quiet demo_fs) =
  (Ok [mkLogEntry Stdout 2000000 (str_bytes "two")], quiet demo_fs).
Proof.
  split; [reflexivity|].
  etransitivity;
    [apply (container_logs_filtered_correct demo_home "c1" _ (demo_dir ++ ["events.log"]));
     reflexivity|].
  apply (f_equal (fun l => (Ok l, quiet demo_fs))). vm_compute. reflexivity.
Defined.
