(* ===== verification/LogTailer.v ===== *)
(** * The background tailer ([src/log_tailer.rs])

    Drains the raw stdout / stderr files into [events.log]: reads the new
    bytes through a long-lived handle, splits them into lines, encodes one
    batch, rotates if needed and appends.  A pass runs in [TailM], state
    passing over the per-stream [TailState] and the file system; the wall clock
    reading [SystemTime::now()] of a pass is its argument [now].  The loop takes
    one [Round] per iteration: the clock readings and which branch of
    [select!] fired. *)

From S2P Require Import Prelude RustText RustFmt Errors Effects FileSystem LogCodec LogFiles.

(** ** Constants *)
Definition EVENTS_ROTATE_BYTES : N := 10 * 1024 * 1024.
Definition TAILER_INTERVAL : Duration := from_millis 100.
Definition MAX_CONSECUTIVE_ERRORS : N := 50.
Definition MAX_LEFTOVER_BYTES : N := 1048576.
Definition MAX_READ_CHUNK : N := 4 * 1024 * 1024.

(** ** Rotation *)

(** [u64::saturating_add]. *)
Definition saturating_add (a b : N) : N := N.min U64_MAX (a + b)%N.

(** [if try_exists(from) { rename(from, to) }], the way both renames are
    written; a failure is only logged. *)
Definition rename_existing (from to : path) : FsM unit :=
  r ← fs_try_exists from;
  match r with
  | Ok true => _ ← fs_rename from to; mret tt
  | _ => mret tt
  end.

(** One turn of the shift loop: [.n] becomes [.n+1]. *)
Definition shift_rotated (events_path : path) (n : nat) : FsM unit :=
  rename_existing (rotated_path events_path n) (rotated_path events_path (n + 1)).

Fixpoint for_each {S A} (f : A -> ST S unit) (l : list A) : ST S unit :=
  match l with
  | [] => mret tt
  | x :: l => _ ← f x; for_each f l
  end.

Definition rotate_if_needed (events_path : path) (incoming : N) : FsM (Result unit) :=
  st ← fs_stat_len events_path;
  current_len ←? mret (match st with
                       | Ok len => Ok len
                       | Err KindNotFound => Ok 0%N
                       | Err e => Err (Io "tailer: stat events" e)
                       end);
  if (saturating_add current_len incoming <=? EVENTS_ROTATE_BYTES)%N then mret (Ok tt)
  else
    _ ← fs_remove_file (rotated_path events_path MAX_ROTATED_FILES);
    _ ← for_each (shift_rotated events_path) (rev (seq 1 (MAX_ROTATED_FILES - 1)));
    _ ← rename_existing events_path (with_extension events_path "log.1");
    st_map_err (Io "tailer: create new events after rotate") (fs_open_append events_path) ;;?
    mret (Ok tt).

Definition append_batch (events_path : path) (batch : bytes) : FsM (Result unit) :=
  rotate_if_needed events_path (blen batch) ;;?
  f ←? st_map_err (Io "tailer: open events") (fs_open_append events_path);
  st_map_err (Io "tailer: write events") (handle_append f batch) ;;?
  mret (Ok tt).

(** ** One drain pass *)
Record TailState : Type := mkTailState {
  pos : N;
  leftover : bytes;
  handle : option N
}.

Definition tail_default : TailState := mkTailState 0 [] None.

Abbreviation TailM := (ST (TailState * FsSt)).

Definition on_fs {A} (m : FsM A) : TailM A := zoom snd (fun f s => (s.1, f)) m.
Definition set_tail (f : TailState -> TailState) : TailM unit :=
  modify_st (fun s => (f s.1, s.2)).
Definition get_tail : TailM TailState := fun s => (s.1, s).

Definition ensure_file_open (raw_path : path) : TailM (Result bool) :=
  st ← get_tail;
  match handle st with
  | Some _ => mret (Ok true)
  | None =>
      r ← on_fs (fs_open raw_path);
      match r with
      | Ok f => _ ← set_tail (fun t => mkTailState (pos t) (leftover t) (Some f)); mret (Ok true)
      | Err KindNotFound => mret (Ok false)
      | Err e => mret (Err (Io "tailer: open raw" e))
      end
  end.

(** The loop over the newline positions: the complete lines, each with its
    newline, and the bytes after the last one. *)
Fixpoint split_lines (cur : bytes) (l : bytes) : list bytes * bytes :=
  match l with
  | [] => ([], cur)
  | b :: l =>
      if byte_is NL b then
        let r := split_lines [] l in ((cur ++ [b]) :: r.1, r.2)
      else split_lines (cur ++ [b]) l
  end.

(** The batch built from the buffer and the leftover it saves. *)
Definition encode_batch (now : SystemTime) (strm : LogStream) (combined : bytes) :
    bytes * bytes :=
  let '(lines, rest) := split_lines [] combined in
  let batch := foldl (fun buf line => encode_record_into buf now strm line) [] lines in
  if negb (bool_decide (rest = [])) && (MAX_LEFTOVER_BYTES <=? blen rest)%N
  then (encode_record_into batch now strm rest, [])
  else (batch, rest).

Definition drain_into_events
    (raw_path : path) (strm : LogStream) (now : SystemTime) (events_path : path) :
    TailM (Result unit) :=
  opened ←? ensure_file_open raw_path;
  if negb opened then mret (Ok tt) else
  st ← get_tail;
  match handle st with
  | None => mret (Ok tt) (* unreachable: [expect] after [ensure_file_open] *)
  | Some file =>
      len ←? on_fs (st_map_err (Io "tailer: stat raw") (handle_len file));
      if (len <? pos st)%N then
        _ ← set_tail (fun _ => mkTailState 0 [] None); mret (Ok tt)
      else if (len =? pos st)%N then mret (Ok tt)
      else
        on_fs (st_map_err (Io "tailer: seek raw") (handle_seek file (pos st))) ;;?
        let want := N.min (len - pos st)%N MAX_READ_CHUNK in
        (* [mem::take(&mut state.leftover)] happens before the read *)
        _ ← set_tail (fun t => mkTailState (pos t) [] (handle t));
        chunk ←? on_fs (st_map_err (Io "tailer: read raw")
                          (handle_read file (pos st) (Some want)));
        let '(batch, rest) := encode_batch now strm (leftover st ++ chunk) in
        _ ← set_tail (fun t => mkTailState (pos t + blen chunk)%N rest (handle t));
        if bool_decide (batch = []) then mret (Ok tt)
        else on_fs (append_batch events_path batch)
  end.

(** ** The loop *)
Inductive Fired : Type := Slept | StopSignal.

Record Round : Type := mkRound {
  now_out : SystemTime;
  now_err : SystemTime;
  fired : Fired;
  final_out : SystemTime;
  final_err : SystemTime
}.

Inductive TailerEnd : Type := StillRunning | Aborted | Stopped.

Record LoopState : Type := mkLoopState {
  out_state : TailState;
  err_state : TailState;
  stdout_errors : N;
  stderr_errors : N
}.

Definition loop_default : LoopState := mkLoopState tail_default tail_default 0 0.

(** Run a pass on one of the two stream states. *)
Definition drain_out (p ev : path) (now : SystemTime) (s : LoopState * FsSt) :
    Result unit * (LoopState * FsSt) :=
  let '(r, (t, f)) := drain_into_events p Stdout now ev (out_state s.1, s.2) in
  (r, (mkLoopState t (err_state s.1) (stdout_errors s.1) (stderr_errors s.1), f)).

Definition drain_err (p ev : path) (now : SystemTime) (s : LoopState * FsSt) :
    Result unit * (LoopState * FsSt) :=
  let '(r, (t, f)) := drain_into_events p Stderr now ev (err_state s.1, s.2) in
  (r, (mkLoopState (out_state s.1) t (stdout_errors s.1) (stderr_errors s.1), f)).

Definition bump (r : Result unit) (n : N) : N :=
  match r with Ok _ => 0%N | Err _ => (n + 1)%N end.

Fixpoint tailer_loop (stdout_path stderr_path events_path : path) (rounds : list Round) :
    ST (LoopState * FsSt) TailerEnd :=
  match rounds with
  | [] => mret StillRunning
  | rd :: rounds =>
      r1 ← drain_out stdout_path events_path (now_out rd);
      r2 ← drain_err stderr_path events_path (now_err rd);
      _ ← modify_st (fun s =>
            (mkLoopState (out_state s.1) (err_state s.1)
               (bump r1 (stdout_errors s.1)) (bump r2 (stderr_errors s.1)), s.2));
      s ← get_st;
      if ((MAX_CONSECUTIVE_ERRORS <=? stdout_errors s.1) ||
          (MAX_CONSECUTIVE_ERRORS <=? stderr_errors s.1))%N
      then mret Aborted
      else match fired rd with
      | Slept => tailer_loop stdout_path stderr_path events_path rounds
      | StopSignal =>
          _ ← drain_out stdout_path events_path (final_out rd);
          _ ← drain_err stderr_path events_path (final_err rd);
          mret Stopped
      end
  end.

(** * Lines and batches *)
Section lines.

Lemma split_lines_concat cur l :
  concat (split_lines cur l).1 ++ (split_lines cur l).2 = cur ++ l.
Proof.
  revert cur. induction l as [|b l IH]; intros cur; simpl; [by rewrite app_nil_r|].
  destruct (byte_is NL b); simpl.
  - rewrite <-app_assoc, IH. simpl. by rewrite <-app_assoc.
  - rewrite IH. by rewrite <-app_assoc.
Qed.

Definition no_nl (l : bytes) : Prop := Forall (fun b => b <> NL) l.

(** A complete line: one newline, at its end. *)
Definition is_line (l : bytes) : Prop := exists w, l = w ++ [NL] /\ no_nl w.

Lemma split_lines_shape cur l :
  no_nl cur -> Forall is_line (split_lines cur l).1 /\ no_nl (split_lines cur l).2.
Proof.
  revert cur. induction l as [|b l IH]; intros cur Hc; simpl; [done|].
  destruct (byte_is NL b) eqn:E; simpl.
  - apply byte_is_true in E as ->. destruct (IH []) as [H1 H2]; [constructor|].
    split; [|done]. constructor; [|done]. by exists cur.
  - apply byte_is_false in E. apply IH. apply Forall_app. by repeat constructor.
Qed.

Lemma foldl_encode now strm lines buf :
  foldl (fun buf line => encode_record_into buf now strm line) buf lines =
  buf ++ encode_events (mkLogEntry strm now <$> lines).
Proof.
  revert buf. induction lines as [|l lines IH]; intros buf; simpl.
  - by rewrite app_nil_r.
  - rewrite IH, encode_record_app, <-app_assoc. done.
Qed.

(** The records of a batch. *)
Definition batch_lines (combined : bytes) : list bytes :=
  let '(lines, rest) := split_lines [] combined in
  if negb (bool_decide (rest = [])) && (MAX_LEFTOVER_BYTES <=? blen rest)%N
  then lines ++ [rest] else lines.

Lemma encode_batch_fst now strm combined :
  (encode_batch now strm combined).1 =
    encode_events (mkLogEntry strm now <$> batch_lines combined).
Proof.
  unfold encode_batch, batch_lines. destruct (split_lines [] combined) as [lines rest].
  destruct (negb _ && _); simpl; rewrite foldl_encode; simpl; [|done].
  rewrite encode_record_app, fmap_app. unfold encode_events.
  rewrite fmap_app, concat_app. simpl. by rewrite app_nil_r.
Qed.

(** No byte is lost or duplicated, and what is carried over is short. *)
Lemma encode_batch_conserves now strm combined :
  concat (batch_lines combined) ++ (encode_batch now strm combined).2 = combined /\
  (blen (encode_batch now strm combined).2 < MAX_LEFTOVER_BYTES)%N.
Proof.
  unfold encode_batch, batch_lines.
  pose proof (split_lines_concat [] combined) as H.
  destruct (split_lines [] combined) as [lines rest]. simpl in H.
  destruct (negb (bool_decide (rest = [])) && (MAX_LEFTOVER_BYTES <=? blen rest)%N) eqn:E; simpl.
  - rewrite concat_app, app_nil_r. simpl. by rewrite app_nil_r.
  - split; [done|]. apply andb_false_iff in E as [E|E]; bool_props; [by subst rest|done].
Qed.

Lemma encode_batch_rest now strm combined :
  no_nl (encode_batch now strm combined).2.
Proof.
  unfold encode_batch.
  destruct (split_lines_shape [] combined) as [_ H]; [constructor|].
  destruct (split_lines [] combined) as [lines rest].
  destruct (negb _ && _); [constructor|done].
Qed.

(** What a record of the tailer holds: a line, or an oversized piece of one. *)
Definition record_shape (l : bytes) : Prop :=
  is_line l \/ (no_nl l /\ (MAX_LEFTOVER_BYTES <= blen l)%N).

Lemma batch_lines_shape combined : Forall record_shape (batch_lines combined).
Proof.
  unfold batch_lines. destruct (split_lines_shape [] combined) as [Hl Hn]; [constructor|].
  destruct (split_lines [] combined) as [lines rest].
  assert (H : Forall record_shape lines) by (eapply Forall_impl; [exact Hl|by left]).
  destruct (negb _ && _) eqn:E; [|done]. apply Forall_app. split; [done|].
  bool_props. constructor; [by right|constructor].
Qed.

Lemma concat_length_le (ls : list bytes) l : l ∈ ls -> (blen l <= blen (concat ls))%N.
Proof.
  induction ls as [|x ls IH]; [by intros ?%elem_of_nil|].
  rewrite list_elem_of_In. simpl. rewrite blen_app. intros [->|H]; [lia|].
  rewrite <-list_elem_of_In in H. apply IH in H. lia.
Qed.

Lemma batch_entries_ok now strm combined :
  (blen combined <= MAX_RECORD_BYTES)%N ->
  Forall entry_ok (mkLogEntry strm now <$> batch_lines combined).
Proof.
  intros H. apply Forall_fmap, Forall_forall. intros l Hl.
  unfold entry_ok, compose. simpl. apply concat_length_le in Hl.
  destruct (encode_batch_conserves now strm combined) as [E _].
  apply (f_equal blen) in E. rewrite blen_app in E. lia.
Qed.

Lemma encode_events_nil es : encode_events es = [] -> es = [].
Proof.
  destruct es as [|e es]; [done|]. unfold encode_events. simpl.
  rewrite encode_event_eq. intros H. apply app_nil in H as [H _].
  apply app_nil in H as [_ H]. by apply app_nil in H as [_ ?].
Qed.

End lines.

(** * Rotation *)
Section rotation.

Definition shift_dir (from to : path) (m : gmap path N) : gmap path N :=
  match m !! from with Some i => <[to := i]> (delete from m) | None => m end.

Lemma shift_dir_lookup from to m q :
  from <> to -> m !! to = None ->
  shift_dir from to m !! q =
    if decide (q = to) then m !! from else if decide (q = from) then None else m !! q.
Proof.
  intros Hne Hto. unfold shift_dir. destruct (m !! from) as [i|] eqn:E.
  - destruct (decide (q = to)) as [->|]; [by rewrite lookup_insert_eq|].
    rewrite lookup_insert_ne by done. destruct (decide (q = from)) as [->|].
    + by rewrite lookup_delete_eq.
    + by rewrite lookup_delete_ne.
  - destruct (decide (q = to)) as [->|]; [done|]. by destruct (decide (q = from)) as [->|].
Qed.

Definition with_dir (s : FS) (m : gmap path N) : FS := mkFS m (fs_inodes s) (fs_next s).

Lemma rename_existing_quiet from to s :
  rename_existing from to (quiet s) =
  (tt, quiet (with_dir s (shift_dir from to (fs_dir s)))).
Proof.
  unfold rename_existing. erewrite run_bind by apply op_quiet. cbn [fst snd].
  unfold shift_dir. destruct (fs_dir s !! from) as [i|] eqn:E.
  - rewrite bool_decide_eq_true_2 by eauto. unfold fs_rename.
    erewrite run_bind by apply op_quiet. rewrite run_ret. cbn. by rewrite E.
  - rewrite bool_decide_eq_false_2 by (by intros [? [=]]). by destruct s.
Qed.

(** The history's slots: 0 is [events.log], [n] is the [n]th rotated file. *)
Definition slot (ev : path) (n : nat) : path :=
  match n with O => ev | _ => rotated_path ev n end.

(** Shift the slots below [k] up by one, the highest first. *)
Fixpoint shifts (ev : path) (k : nat) (m : gmap path N) : gmap path N :=
  match k with
  | O => m
  | S k => shifts ev k (shift_dir (slot ev k) (slot ev (S k)) m)
  end.

(** The file system after a rotation. *)
Definition rotate_fs (ev : path) (s : FS) : FS :=
  create_at ev []
    (with_dir s (shifts ev MAX_ROTATED_FILES
                   (delete (slot ev MAX_ROTATED_FILES) (fs_dir s)))).

Lemma remove_oldest p s :
  exists r, fs_remove_file p (quiet s) = (r, quiet (with_dir s (delete p (fs_dir s)))).
Proof.
  unfold fs_remove_file. rewrite op_quiet. destruct (fs_dir s !! p) eqn:E; simpl; [eauto|].
  rewrite delete_id by done. destruct s. eauto.
Qed.

Lemma open_append_fresh (f : ErrorKind -> Error) p s :
  fs_dir s !! p = None ->
  st_map_err f (fs_open_append p) (quiet s) = (Ok (fs_next s), quiet (create_at p [] s)).
Proof.
  intros H. unfold st_map_err, fs_open_append, mbind, ST_bind, op, op_with. simpl.
  by rewrite H.
Qed.

Lemma open_append_existing (f : ErrorKind -> Error) p s i :
  fs_dir s !! p = Some i ->
  st_map_err f (fs_open_append p) (quiet s) = (Ok i, quiet s).
Proof.
  intros H. unfold st_map_err, fs_open_append, mbind, ST_bind, op, op_with. simpl.
  by rewrite H.
Qed.

Context (d : path).
Abbreviation ev := (d ++ ["events.log"]).
Abbreviation rot n := (rotated_path ev n).

Lemma slot_inj n m : slot ev n = slot ev m -> n = m.
Proof.
  destruct n as [|n], m as [|m]; unfold slot; rewrite ?rotated_path_eq; [done| | |].
  all: intros [_ H]%app_inj_2; try done; simplify_eq.
  apply dec_string_inj in H. lia.
Qed.

Lemma shifts_lookup k m :
  m !! slot ev k = None ->
  shifts ev k m !! slot ev 0 = None /\
  (forall n, n < k -> shifts ev k m !! slot ev (S n) = m !! slot ev n) /\
  (forall q, (forall n, n <= k -> q <> slot ev n) -> shifts ev k m !! q = m !! q).
Proof.
  revert m. induction k as [|k IH]; intros m Hk; [split_and!; [done|lia|done]|].
  cbn [shifts].
  assert (Hne : slot ev k <> slot ev (S k)) by (intros ?%slot_inj; lia).
  assert (L := fun q => shift_dir_lookup (slot ev k) (slot ev (S k)) m q Hne Hk).
  set (m' := shift_dir _ _ m) in *.
  destruct (IH m') as (H0 & Hs & Hq).
  { rewrite L, decide_False, decide_True by done. done. }
  split_and!; [done| |].
  - intros n Hn. destruct (decide (n = k)) as [->|].
    + rewrite Hq by (intros j Hj ?%slot_inj; lia). rewrite L, decide_True by done. done.
    + rewrite Hs, L, !decide_False by (lia || (intros ?%slot_inj; lia) || done). done.
  - intros q Hd. rewrite Hq, L, !decide_False by (done || (intros; apply Hd; lia)). done.
Qed.

(** Rotation on a quiet disk. *)
Lemma rotate_quiet incoming s :
  rotate_if_needed ev incoming (quiet s) =
    (Ok tt, quiet
      (if (saturating_add (blen (file_or_empty s ev)) incoming <=? EVENTS_ROTATE_BYTES)%N
       then s else rotate_fs ev s)).
Proof.
  unfold rotate_if_needed, fs_stat_len. erewrite run_bind by apply op_quiet.
  rewrite (run_try_ok _ _ _ (blen (file_or_empty s ev)) (quiet s)).
  2:{ cbn [fst snd]. unfold file_or_empty, file. by destruct (fs_dir s !! ev). }
  destruct (_ <=? _)%N; [done|].
  destruct (remove_oldest (rotated_path ev MAX_ROTATED_FILES) s) as [r Hr].
  rewrite (run_bind _ _ _ _ _ Hr).
  erewrite run_bind.
  2:{ cbn [for_each rev seq MAX_ROTATED_FILES Nat.sub app].
      unfold shift_rotated.
      do 4 (erewrite run_bind by apply rename_existing_quiet). done. }
  erewrite run_bind by apply rename_existing_quiet.
  erewrite run_try_ok; [by rewrite run_ret|].
  apply open_append_fresh.
  destruct (shifts_lookup 5 (delete (slot ev 5) (fs_dir s))) as [H0 _];
    [apply lookup_delete_eq|exact H0].
Qed.

(** ** What a rotation does to the history *)
Lemma shift_dir_wf n from to m : dir_wf n m -> dir_wf n (shift_dir from to m).
Proof.
  intros [H1 H2]. unfold shift_dir. destruct (m !! from) as [i|] eqn:E; [|done].
  split.
  - intros q j [[<- <-]|[_ [_ Hq]%lookup_delete_Some]]%lookup_insert_Some; eauto.
  - intros q q' j [[<- <-]|[? [? Hq]%lookup_delete_Some]]%lookup_insert_Some
      [[<- ?]|[? [? Hq']%lookup_delete_Some]]%lookup_insert_Some; simplify_eq; [done| | |eauto].
    + destruct (H2 _ _ _ E Hq'). done.
    + destruct (H2 _ _ _ E Hq). done.
Qed.

Lemma shifts_wf n k m : dir_wf n m -> dir_wf n (shifts ev k m).
Proof. revert m. induction k as [|k IH]; intros m Hm; simpl; [done|]. by apply IH, shift_dir_wf. Qed.

Lemma rotate_wf s : fs_wf s -> fs_wf (rotate_fs ev s).
Proof. intros H. apply fs_wf_create. by apply shifts_wf, dir_wf_delete. Qed.

Lemma rotate_file n s :
  fs_wf s -> n < 5 ->
  file_or_empty (rotate_fs ev s) (slot ev (S n)) = file_or_empty s (slot ev n).
Proof.
  intros Hwf Hn. unfold file_or_empty, file, rotate_fs. simpl fs_dir.
  rewrite lookup_insert_ne by (intros E; by apply (slot_inj 0 (S n)) in E).
  destruct (shifts_lookup 5 (delete (slot ev 5) (fs_dir s))) as (_ & Hs & _);
    [apply lookup_delete_eq|].
  rewrite Hs by lia. rewrite lookup_delete_ne by (intros ?%slot_inj; lia).
  destruct (fs_dir s !! slot ev n) as [i|] eqn:E; [|done]. simpl.
  rewrite contents_create; [done|]. by apply Hwf in E.
Qed.

Lemma rotate_file_ev s : file_or_empty (rotate_fs ev s) ev = [].
Proof.
  unfold file_or_empty, file, rotate_fs. simpl fs_dir. rewrite lookup_insert_eq. simpl.
  apply (contents_create_new ev [] (with_dir s _)).
Qed.

Lemma history_slots s : history s ev = parsed s (slot ev <$> [5; 4; 3; 2; 1; 0]).
Proof. done. Qed.

(** Rotation forgets the oldest file and nothing else. *)
Lemma history_rotate s :
  fs_wf s ->
  history s ev = parse_events_file (file_or_empty s (slot ev 5)) ++ history (rotate_fs ev s) ev.
Proof.
  intros Hwf. rewrite !history_slots. cbn [fmap list_fmap].
  rewrite !parsed_cons. rewrite !rotate_file by (done || lia).
  cbn [slot]. rewrite rotate_file_ev. unfold parsed, parse_events_file. simpl.
  by rewrite !app_nil_r.
Qed.

End rotation.

(** * Appending *)
Section append.
Context (d : path).
Abbreviation ev := (d ++ ["events.log"]).

(** The file ends at a record boundary. *)
Definition clean (b : bytes) : Prop := (decode_all b).2 = [].

(** The state of the history the append starts from. *)
Definition rotated_or_not (s : FS) (incoming : N) : FS :=
  if (saturating_add (blen (file_or_empty s ev)) incoming <=? EVENTS_ROTATE_BYTES)%N
  then s else rotate_fs ev s.

Lemma parse_append b es :
  clean b -> Forall entry_ok es ->
  parse_events_file (b ++ encode_events es) = parse_events_file b ++ (trunc_entry <$> es) /\
  clean (b ++ encode_events es).
Proof.
  unfold clean, parse_events_file. intros Hb Hes. rewrite decode_all_app. cbv zeta.
  rewrite Hb, app_nil_l, <-(app_nil_r (encode_events es)), decode_all_encodes by done.
  simpl. by rewrite app_nil_r.
Qed.

(** Appending to the current file only changes the last part of the history. *)
Lemma history_append s i b es :
  fs_wf s -> fs_dir s !! ev = Some i -> clean (file_or_empty s ev) ->
  Forall entry_ok es -> b = encode_events es ->
  history (set_contents i (contents s i ++ b) s) ev = history s ev ++ (trunc_entry <$> es) /\
  clean (file_or_empty (set_contents i (contents s i ++ b) s) ev).
Proof.
  intros Hwf Hi Hc Hes ->. set (s' := set_contents _ _ s).
  assert (Hev : file_or_empty s' ev = file_or_empty s ev ++ encode_events es).
  { unfold file_or_empty, file. simpl fs_dir. rewrite Hi. apply contents_set_eq. }
  assert (Hother : forall n, file_or_empty s' (slot ev (S n)) = file_or_empty s (slot ev (S n))).
  { intros n. unfold file_or_empty, file. simpl fs_dir.
    destruct (fs_dir s !! slot ev (S n)) as [j|] eqn:Ej; [|done]. simpl.
    unfold s'. rewrite contents_set_ne; [done|]. intros <-.
    assert (E : slot ev 0 = slot ev (S n)) by by eapply Hwf. by apply slot_inj in E. }
  rewrite Hev. destruct (parse_append _ es Hc Hes) as [Hp Hcl].
  split; [|done]. rewrite !history_slots. cbn [fmap list_fmap]. rewrite !parsed_cons, !Hother.
  cbn [slot]. rewrite Hev, Hp. unfold parsed. cbn [fmap list_fmap concat].
  by rewrite !app_nil_r, <-!app_assoc.
Qed.

Lemma rotated_or_not_wf s n : fs_wf s -> fs_wf (rotated_or_not s n).
Proof. intros H. unfold rotated_or_not. destruct (_ <=? _)%N; [done|by apply rotate_wf]. Qed.

Lemma rotated_or_not_clean s n :
  clean (file_or_empty s ev) -> clean (file_or_empty (rotated_or_not s n) ev).
Proof.
  intros H. unfold rotated_or_not. destruct (_ <=? _)%N; [done|].
  by rewrite rotate_file_ev.
Qed.

Lemma history_rotated_or_not s n :
  fs_wf s -> history (rotated_or_not s n) ev `suffix_of` history s ev.
Proof.
  intros H. unfold rotated_or_not. destruct (_ <=? _)%N; [done|].
  rewrite (history_rotate d s H). by eexists.
Qed.

(** [h] is not the inode of a log file. *)
Definition unlogged (s : FS) (h : N) : Prop :=
  forall n, n <= MAX_ROTATED_FILES -> fs_dir s !! slot ev n <> Some h.

(** Such an inode is left alone. *)
Definition frame (s s' : FS) : Prop :=
  (fs_next s <= fs_next s')%N /\
  forall h, (h < fs_next s)%N -> unlogged s h ->
    contents s' h = contents s h /\ unlogged s' h.

Lemma frame_refl s : frame s s.
Proof. split; [lia|done]. Qed.

Lemma frame_trans s1 s2 s3 : frame s1 s2 -> frame s2 s3 -> frame s1 s3.
Proof.
  intros [L1 F1] [L2 F2]. split; [lia|]. intros h Hh He.
  destruct (F1 h Hh He) as [E1 N1]. destruct (F2 h ltac:(lia) N1) as [E2 N2].
  split; [congruence|done].
Qed.

Lemma frame_create s : frame s (create_at ev [] s).
Proof.
  split; [simpl; lia|]. intros h Hh Hu. split; [by apply contents_create|].
  intros n Hn. simpl. destruct (decide (ev = slot ev n)) as [<-|].
  - rewrite lookup_insert_eq. intros [= E]. lia.
  - rewrite lookup_insert_ne by done. by apply Hu.
Qed.

Lemma frame_rotate s : frame s (rotate_fs ev s).
Proof.
  split; [simpl; lia|]. intros h Hh Hu. split.
  - by apply (contents_create ev [] (with_dir s _)).
  - intros [|n] Hn; simpl fs_dir.
    + cbn [slot]. rewrite lookup_insert_eq. intros [= E]. lia.
    + rewrite lookup_insert_ne by (intros E; by apply (slot_inj d 0 (S n)) in E).
      unfold MAX_ROTATED_FILES in Hn.
      destruct (shifts_lookup d 5 (delete (slot ev 5) (fs_dir s))) as (_ & Hs & _);
        [apply lookup_delete_eq|].
      rewrite Hs by lia. rewrite lookup_delete_ne by (intros ?%slot_inj; lia).
      apply Hu. unfold MAX_ROTATED_FILES. lia.
Qed.

Lemma frame_rotated_or_not s n : frame s (rotated_or_not s n).
Proof.
  unfold rotated_or_not. destruct (_ <=? _)%N; [apply frame_refl|apply frame_rotate].
Qed.

Lemma frame_set s i b : fs_dir s !! ev = Some i -> frame s (set_contents i b s).
Proof.
  intros Hi. split; [done|]. intros h _ Hu. split; [|done].
  apply contents_set_ne. intros ->. apply (Hu 0); [lia|done].
Qed.

Lemma append_write (f : ErrorKind -> Error) i b s :
  st_map_err f (handle_append i b) (quiet s) =
    (Ok tt, quiet (set_contents i (contents s i ++ b) s)).
Proof. done. Qed.

Lemma history_create s :
  fs_wf s -> fs_dir s !! ev = None ->
  history (create_at ev [] s) ev = history s ev /\
  file_or_empty (create_at ev [] s) ev = [].
Proof.
  intros Hwf He.
  assert (Hother : forall n, file_or_empty (create_at ev [] s) (slot ev (S n)) =
                             file_or_empty s (slot ev (S n))).
  { intros n. unfold file_or_empty, file. simpl fs_dir.
    rewrite lookup_insert_ne by (intros E; by apply (slot_inj d 0 (S n)) in E).
    destruct (fs_dir s !! slot ev (S n)) as [j|] eqn:Ej; [|done]. simpl.
    rewrite contents_create; [done|]. by apply Hwf in Ej. }
  assert (E0 : file_or_empty (create_at ev [] s) ev = []).
  { unfold file_or_empty, file. simpl fs_dir. rewrite lookup_insert_eq. simpl.
    apply contents_create_new. }
  split; [|done]. rewrite !history_slots. cbn [fmap list_fmap].
  rewrite !parsed_cons, !Hother. cbn [slot]. rewrite E0.
  assert (file_or_empty s ev = []) as -> by (unfold file_or_empty, file; by rewrite He).
  done.
Qed.

(** One append on a quiet disk: the history loses at most the oldest rotated
    file and gains the batch's records. *)
Lemma append_batch_quiet s es :
  fs_wf s -> clean (file_or_empty s ev) -> Forall entry_ok es ->
  exists s', append_batch ev (encode_events es) (quiet s) = (Ok tt, quiet s') /\
    fs_wf s' /\ clean (file_or_empty s' ev) /\ frame s s' /\
    history s' ev =
      history (rotated_or_not s (blen (encode_events es))) ev ++ (trunc_entry <$> es).
Proof.
  intros Hwf Hc Hes. unfold append_batch.
  erewrite run_try_ok by apply rotate_quiet.
  fold (rotated_or_not s (blen (encode_events es))).
  set (n := blen (encode_events es)).
  pose proof (rotated_or_not_wf s n Hwf) as Hwf1.
  pose proof (rotated_or_not_clean s n Hc) as Hc1.
  pose proof (frame_rotated_or_not s n) as Hf1.
  set (s1 := rotated_or_not s n) in *. clearbody s1 n.
  destruct (fs_dir s1 !! ev) as [i|] eqn:Ei.
  - erewrite run_try_ok by by apply open_append_existing.
    erewrite run_try_ok by apply append_write.
    destruct (history_append s1 i _ es Hwf1 Ei Hc1 Hes eq_refl) as [Hh Hcl].
    eexists. split_and!; [done|done|done| |done].
    eapply frame_trans; [exact Hf1|by apply frame_set].
  - erewrite run_try_ok by by apply open_append_fresh.
    erewrite run_try_ok by apply append_write.
    destruct (history_create s1 Hwf1 Ei) as [Hh0 He0].
    pose proof (fs_wf_create ev [] s1 Hwf1) as Hwf2.
    assert (Ei2 : fs_dir (create_at ev [] s1) !! ev = Some (fs_next s1))
      by apply lookup_insert_eq.
    destruct (history_append _ _ _ es Hwf2 Ei2 ltac:(by rewrite He0) Hes eq_refl) as [Hh Hcl].
    rewrite Hh0 in Hh. eexists. split_and!; [done|done|done| |done].
    eapply frame_trans; [exact Hf1|]. eapply frame_trans; [|by apply frame_set].
    apply frame_create.
Qed.

End append.

(** * One pass *)
Section drain.
Context (d raw_path : path) (strm : LogStream).
Abbreviation ev := (d ++ ["events.log"]).

(** The bytes a pass reads. *)
Definition next_chunk (raw : bytes) (p : N) : bytes :=
  take (N.to_nat (N.min (blen raw - p)%N MAX_READ_CHUNK)) (drop (N.to_nat p) raw).

Lemma drain_quiet now p left h s :
  (p < blen (contents s h))%N ->
  let chunk := next_chunk (contents s h) p in
  let r := encode_batch now strm (left ++ chunk) in
  let st' := mkTailState (p + blen chunk)%N r.2 (Some h) in
  drain_into_events raw_path strm now ev (mkTailState p left (Some h), quiet s) =
    if bool_decide (r.1 = []) then (Ok tt, (st', quiet s))
    else let a := append_batch ev r.1 (quiet s) in (a.1, (st', a.2)).
Proof.
  intros Hp chunk r st'. unfold drain_into_events, get_tail, set_tail, modify_st.
  rewrite (run_try_ok _ _ _ true (mkTailState p left (Some h), quiet s)) by done.
  cbn [negb]. rewrite (run_bind _ _ _ (mkTailState p left (Some h))
    (mkTailState p left (Some h), quiet s)) by done.
  cbn [handle pos leftover].
  rewrite (run_try_ok _ _ _ (blen (contents s h)) (mkTailState p left (Some h), quiet s)) by done.
  rewrite (proj2 (N.ltb_ge _ _)) by lia.
  rewrite (proj2 (N.eqb_neq _ _)) by lia.
  rewrite (run_try_ok _ _ _ tt (mkTailState p left (Some h), quiet s)) by done.
  rewrite (run_bind _ _ _ tt (mkTailState p [] (Some h), quiet s)) by done.
  rewrite (run_try_ok _ _ _ chunk (mkTailState p [] (Some h), quiet s)) by done.
  unfold st', r. destruct (encode_batch now strm (left ++ chunk)) as [batch rest].
  rewrite (run_bind _ _ _ tt (mkTailState (p + blen chunk)%N rest (Some h), quiet s)) by done.
  cbn [fst snd]. case_bool_decide; [done|]. unfold on_fs, zoom. cbn [fst snd].
  by destruct (append_batch _ _ _).
Qed.

Lemma next_chunk_length raw p :
  (p <= blen raw)%N ->
  blen (next_chunk raw p) = N.min (blen raw - p)%N MAX_READ_CHUNK.
Proof.
  intros H. unfold next_chunk, blen in *. rewrite length_take, length_drop. lia.
Qed.

Lemma next_chunk_prefix raw p :
  (p <= blen raw)%N ->
  take (N.to_nat p) raw ++ next_chunk raw p =
    take (N.to_nat (p + blen (next_chunk raw p))) raw.
Proof.
  intros H. rewrite (next_chunk_length raw p H). unfold next_chunk.
  set (w := N.min _ _). rewrite N2Nat.inj_add.
  rewrite <-(take_drop (N.to_nat p) raw) at 3. unfold blen in H.
  rewrite take_app_add' by (rewrite length_take; lia). done.
Qed.

(** A pass of the tailer over a stream whose raw bytes up to [pos] have been
    turned into the records [done], the rest of them being the leftover. *)
Definition drained (st : TailState) (raw : bytes) (out : list LogEntry) : Prop :=
  concat (data <$> out) ++ leftover st = take (N.to_nat (pos st)) raw /\
  (pos st <= blen raw)%N /\ (blen (leftover st) < MAX_LEFTOVER_BYTES)%N /\
  no_nl (leftover st).

Lemma data_mk now (ls : list bytes) : data <$> (mkLogEntry strm now <$> ls) = ls.
Proof. induction ls as [|l ls IH]; [done|]. cbn. by rewrite IH. Qed.

(** The records of a pass. *)
Definition record_ok (now : SystemTime) (e : LogEntry) : Prop :=
  stream e = strm /\ timestamp e = now /\ record_shape (data e).

(** What a pass makes of the new bytes [raw]: its records, and its state. *)
Definition pass_records (now : SystemTime) (st : TailState) (raw : bytes) : list LogEntry :=
  if (pos st <? blen raw)%N
  then mkLogEntry strm now <$> batch_lines (leftover st ++ next_chunk raw (pos st)) else [].

Definition pass_state (now : SystemTime) (st : TailState) (raw : bytes) : TailState :=
  if (pos st <? blen raw)%N then
    let chunk := next_chunk raw (pos st) in
    mkTailState (pos st + blen chunk) (encode_batch now strm (leftover st ++ chunk)).2 (handle st)
  else st.

Lemma pass_spec now st raw out :
  drained st raw out ->
  drained (pass_state now st raw) raw (out ++ pass_records now st raw) /\
  Forall entry_ok (pass_records now st raw) /\
  Forall (record_ok now) (pass_records now st raw) /\
  (blen (concat (data <$> pass_records now st raw)) <= MAX_LEFTOVER_BYTES + MAX_READ_CHUNK)%N /\
  pos (pass_state now st raw) = (pos st + N.min (blen raw - pos st) MAX_READ_CHUNK)%N /\
  handle (pass_state now st raw) = handle st.
Proof.
  unfold pass_state, pass_records. intros Hdr. destruct (pos st <? blen raw)%N eqn:E; simp_eqs.
  2:{ pose proof Hdr as (_ & Hp & _). rewrite app_nil_r.
      split_and!; [done|by constructor|by constructor|by vm_compute| |done]. lia. }
  destruct st as [p left hh]. destruct Hdr as (Hd & Hp & Hl & Hnl). cbn [leftover pos handle] in *.
  pose proof (next_chunk_length raw p Hp) as Hcl.
  pose proof (next_chunk_prefix raw p Hp) as Hcp.
  set (chunk := next_chunk raw p) in *.
  destruct (encode_batch_conserves now strm (left ++ chunk)) as [Hcons Hleft].
  pose proof (encode_batch_rest now strm (left ++ chunk)) as Hrest.
  assert (Hc : (blen (left ++ chunk) <= MAX_LEFTOVER_BYTES + MAX_READ_CHUNK)%N)
    by (rewrite blen_app, Hcl; lia).
  split_and!; [| | | |by rewrite Hcl|done].
  - unfold drained. cbn [leftover pos]. split_and!; [|lia|done|done].
    rewrite fmap_app, concat_app, <-app_assoc, data_mk, Hcons. by rewrite app_assoc, Hd.
  - apply batch_entries_ok. unfold MAX_LEFTOVER_BYTES, MAX_READ_CHUNK, MAX_RECORD_BYTES in *. lia.
  - apply Forall_fmap. eapply Forall_impl; [apply batch_lines_shape|]. done.
  - rewrite data_mk. apply (f_equal blen) in Hcons. rewrite blen_app in Hcons. lia.
Qed.

Lemma drain_run now st h s :
  handle st = Some h -> (pos st < blen (contents s h))%N ->
  drain_into_events raw_path strm now ev (st, quiet s) =
  let es := pass_records now st (contents s h) in
  let st' := pass_state now st (contents s h) in
  if decide (es = []) then (Ok tt, (st', quiet s))
  else let a := append_batch ev (encode_events es) (quiet s) in (a.1, (st', a.2)).
Proof.
  destruct st as [p left hh]. cbn [handle pos]. intros -> Hlt.
  rewrite drain_quiet by done. cbv zeta. unfold pass_state, pass_records. cbn [leftover pos handle].
  rewrite (proj2 (N.ltb_lt _ _)) by done. rewrite encode_batch_fst.
  case_bool_decide as H; destruct (decide _) as [H'|H']; try done.
  - by apply encode_events_nil in H.
  - by rewrite H' in H.
Qed.

Lemma drain_step now st h s out :
  handle st = Some h -> (h < fs_next s)%N -> unlogged d s h ->
  fs_wf s -> clean (file_or_empty s ev) -> drained st (contents s h) out ->
  (pos st < blen (contents s h))%N ->
  exists st' s' es,
    drain_into_events raw_path strm now ev (st, quiet s) = (Ok tt, (st', quiet s')) /\
    handle st' = Some h /\ fs_wf s' /\ clean (file_or_empty s' ev) /\ frame d s s' /\
    drained st' (contents s' h) (out ++ es) /\
    Forall (record_ok now) es /\
    pos st' = (pos st + N.min (blen (contents s h) - pos st) MAX_READ_CHUNK)%N /\
    history s' ev `suffix_of` history s ev ++ (trunc_entry <$> es).
Proof.
  intros Hh Hn Hu Hwf Hc Hdr Hlt.
  destruct (pass_spec now st (contents s h) out Hdr) as (Hdr' & Hes & Hok & _ & Hp & Hh').
  rewrite (drain_run now st h s Hh Hlt). cbv zeta.
  set (es := pass_records now st (contents s h)) in *.
  set (st' := pass_state now st (contents s h)) in *.
  rewrite Hh in Hh'. destruct (decide (es = [])) as [E|_].
  - exists st', s, es. split_and!; [done..|apply frame_refl|done|done|done|].
    by rewrite E, app_nil_r.
  - destruct (append_batch_quiet d s es Hwf Hc Hes) as (s' & Ha & Hwf' & Hc' & Hf & Hhist).
    rewrite Ha. exists st', s', es. split_and!; [done..| |done|done|].
    + by rewrite (proj1 (proj2 Hf h Hn Hu)).
    + rewrite Hhist. apply suffix_app, history_rotated_or_not; done.
Qed.

(** Nothing new: the pass leaves everything as it is. *)
Lemma drain_idle now st h s :
  handle st = Some h -> pos st = blen (contents s h) ->
  drain_into_events raw_path strm now ev (st, quiet s) = (Ok tt, (st, quiet s)).
Proof.
  destruct st as [p left hh]. cbn [handle pos]. intros -> Hp.
  unfold drain_into_events, get_tail.
  rewrite (run_try_ok _ _ _ true (mkTailState p left (Some h), quiet s)) by done. cbn [negb].
  rewrite (run_bind _ _ _ (mkTailState p left (Some h))
    (mkTailState p left (Some h), quiet s)) by done.
  cbn [handle pos leftover].
  rewrite (run_try_ok _ _ _ (blen (contents s h)) (mkTailState p left (Some h), quiet s)) by done.
  by rewrite Hp, N.ltb_irrefl, N.eqb_refl.
Qed.

(** The file got shorter: start over at the next pass. *)
Lemma drain_truncated now st h s :
  handle st = Some h -> (blen (contents s h) < pos st)%N ->
  drain_into_events raw_path strm now ev (st, quiet s) = (Ok tt, (tail_default, quiet s)).
Proof.
  destruct st as [p left hh]. cbn [handle pos]. intros -> Hp.
  unfold drain_into_events, get_tail, set_tail, modify_st.
  rewrite (run_try_ok _ _ _ true (mkTailState p left (Some h), quiet s)) by done. cbn [negb].
  rewrite (run_bind _ _ _ (mkTailState p left (Some h))
    (mkTailState p left (Some h), quiet s)) by done.
  cbn [handle pos leftover].
  rewrite (run_try_ok _ _ _ (blen (contents s h)) (mkTailState p left (Some h), quiet s)) by done.
  by rewrite (proj2 (N.ltb_lt _ _)).
Qed.

(** The first pass opens the file. *)
Lemma drain_open now st h s :
  handle st = None -> fs_dir s !! raw_path = Some h ->
  drain_into_events raw_path strm now ev (st, quiet s) =
  drain_into_events raw_path strm now ev (mkTailState (pos st) (leftover st) (Some h), quiet s).
Proof.
  destruct st as [p left hh]. cbn [handle pos leftover]. intros -> Hd.
  unfold drain_into_events.
  rewrite (run_try_ok _ _ _ true (mkTailState p left (Some h), quiet s)).
  2:{ unfold ensure_file_open.
      rewrite (run_bind get_tail _ _ (mkTailState p left None)
        (mkTailState p left None, quiet s)) by done. cbn [handle].
      rewrite (run_bind (on_fs _) _ _ (Ok h) (mkTailState p left None, quiet s)); [done|].
      unfold on_fs, zoom, fs_open. cbn [fst snd]. rewrite op_quiet. cbn [fst snd].
      by rewrite Hd. }
  by rewrite (run_try_ok (ensure_file_open raw_path) _ _ true
    (mkTailState p left (Some h), quiet s)) by done.
Qed.

(** ** A run of passes over a growing file

    Between two passes the shim appends to the raw file through its own
    handle. *)
Definition grow (h : N) (b : bytes) : FsM unit :=
  modify_st (fun f => mkFsSt (set_contents h (contents (fs f) h ++ b) (fs f)) (sched f)).

Fixpoint tail_run (h : N) (gs : list (bytes * SystemTime)) : TailM (Result unit) :=
  match gs with
  | [] => mret (Ok tt)
  | (b, now) :: gs =>
      _ ← on_fs (grow h b);
      drain_into_events raw_path strm now ev ;;?
      tail_run h gs
  end.

(** The state of the tailer and the disk after some passes; [h0] is the
    history it started from. *)
Record tail_inv (h : N) (h0 out : list LogEntry) (st : TailState) (s : FS) : Prop :=
  mkTailInv {
    ti_open : handle st = Some h \/ (handle st = None /\ fs_dir s !! raw_path = Some h);
    ti_bound : (h < fs_next s)%N;
    ti_other : unlogged d s h;
    ti_wf : fs_wf s;
    ti_clean : clean (file_or_empty s ev);
    ti_drained : drained st (contents s h) out;
    ti_history : history s ev `suffix_of` h0 ++ (trunc_entry <$> out)
  }.

(** Writing to a file that is no log file keeps the history. *)
Lemma file_or_empty_grow s h b n :
  unlogged d s h -> n <= 5 ->
  file_or_empty (set_contents h b s) (slot ev n) = file_or_empty s (slot ev n).
Proof.
  intros Hu Hn. unfold file_or_empty, file. simpl fs_dir. specialize (Hu n Hn).
  destruct (fs_dir s !! slot ev n) as [i|]; [|done]. simpl.
  rewrite contents_set_ne; [done|]. by intros <-.
Qed.

Lemma history_grow s h b :
  unlogged d s h -> history (set_contents h b s) ev = history s ev.
Proof.
  intros Hu. rewrite !history_slots. cbn [fmap list_fmap].
  rewrite !parsed_cons, !file_or_empty_grow by (done || lia). done.
Qed.

Lemma tail_inv_grow h h0 out st s b :
  tail_inv h h0 out st s ->
  tail_inv h h0 out st (set_contents h (contents s h ++ b) s).
Proof.
  intros [Ho Hb Hu Hwf Hc (Hd & Hp & Hl) Hh]. constructor; [done..| | |].
  - pose proof (file_or_empty_grow s h (contents s h ++ b) 0 Hu ltac:(lia)) as E.
    cbn [slot] in E. by rewrite E.
  - rewrite contents_set_eq. split_and!; [|rewrite blen_app; lia|apply Hl..].
    rewrite take_app_le; [done|]. unfold blen in Hp. lia.
  - by rewrite history_grow.
Qed.

(** One pass keeps the invariant and reads a chunk. *)
Lemma tail_pass now h h0 out st s :
  tail_inv h h0 out st s ->
  exists st' s' es,
    drain_into_events raw_path strm now ev (st, quiet s) = (Ok tt, (st', quiet s')) /\
    tail_inv h h0 (out ++ es) st' s' /\ Forall (record_ok now) es /\
    contents s' h = contents s h /\
    pos st' = (pos st + N.min (blen (contents s h) - pos st) MAX_READ_CHUNK)%N.
Proof.
  intros [Ho Hb Hu Hwf Hc Hd Hh].
  assert (exists st1, handle st1 = Some h /\ pos st1 = pos st /\ leftover st1 = leftover st /\
    drain_into_events raw_path strm now ev (st, quiet s) =
    drain_into_events raw_path strm now ev (st1, quiet s)) as (st1 & Ho1 & Hp1 & Hl1 & Hrun).
  { destruct Ho as [Ho|[Ho Hr]]; [by eauto|].
    exists (mkTailState (pos st) (leftover st) (Some h)). split_and!; [done..|].
    by apply drain_open. }
  unfold drained in Hd. rewrite <-Hp1, <-Hl1 in Hd. fold (drained st1 (contents s h) out) in Hd.
  rewrite Hrun, <-Hp1. clear Hrun.
  destruct (N.eq_dec (pos st1) (blen (contents s h))) as [E|E].
  - exists st1, s, []. rewrite (drain_idle now st1 h) by done. rewrite app_nil_r.
    split_and!; [done| |constructor|done|lia]. constructor; auto.
  - destruct (drain_step now st1 h s out) as (st' & s' & es & Hr & Hh' & Hwf' & Hc' & [Hn Hf]
      & Hd' & Hes & Hpos & Hsuf); try done.
    { destruct Hd as (_ & ? & _). lia. }
    destruct (Hf h Hb Hu) as [Hcont Hu'].
    exists st', s', es. split_and!; [done| |done|done|done].
    constructor; [by left|lia|done|done|done|done|].
    rewrite fmap_app, app_assoc. etransitivity; [exact Hsuf|]. by apply suffix_app.
Qed.

Definition grown (gs : list (bytes * SystemTime)) : bytes := concat (fst <$> gs).

Lemma tail_run_inv gs h h0 out st s :
  tail_inv h h0 out st s ->
  exists st' s' es,
    tail_run h gs (st, quiet s) = (Ok tt, (st', quiet s')) /\
    tail_inv h h0 (out ++ es) st' s' /\
    Forall (fun e => stream e = strm /\ record_shape (data e)) es /\
    contents s' h = contents s h ++ grown gs /\
    (N.min (blen (contents s h)) (pos st + N.of_nat (length gs) * MAX_READ_CHUNK)
       <= pos st')%N.
Proof.
  revert out st s. induction gs as [|[b now] gs IH]; intros out st s Hinv.
  - exists st, s, []. cbn. rewrite !app_nil_r. split_and!; [done..|lia].
  - cbn [tail_run]. rewrite (run_bind _ _ _ tt
      (st, quiet (set_contents h (contents s h ++ b) s))) by done.
    apply (tail_inv_grow _ _ _ _ _ b) in Hinv.
    set (s1 := set_contents h (contents s h ++ b) s) in *.
    assert (E1 : contents s1 h = contents s h ++ b) by apply contents_set_eq.
    destruct (tail_pass now h h0 out st s1 Hinv)
      as (st2 & s2 & es2 & Hrun & Hinv2 & Hes2 & E2 & Hp2).
    rewrite (run_try_ok _ _ _ _ _ Hrun).
    destruct (IH _ _ _ Hinv2) as (st3 & s3 & es3 & Hrun3 & Hinv3 & Hes3 & E3 & Hp3).
    exists st3, s3, (es2 ++ es3). rewrite app_assoc. split_and!; [done|done| | |].
    + apply Forall_app. split; [|done]. eapply Forall_impl; [exact Hes2|].
      intros e (? & _ & ?). done.
    + rewrite E3, E2, E1, <-app_assoc. done.
    + apply ti_drained in Hinv as (_ & Hle & _).
      rewrite E2, E1, blen_app in Hp3. rewrite E1, blen_app in Hp2, Hle. cbn [length]. lia.
Qed.

End drain.

(** * The loop *)
Section loop.
Context (stdout_path stderr_path ev : path).

Lemma tailer_abort_count rounds l f x :
  tailer_loop stdout_path stderr_path ev rounds (l, f) = (Aborted, x) ->
  (MAX_CONSECUTIVE_ERRORS <=
     N.max (stdout_errors l) (stderr_errors l) + N.of_nat (length rounds))%N.
Proof.
  revert l f. induction rounds as [|rd rounds IH]; intros l f; [done|].
  cbn [tailer_loop]. intros H.
  apply bind_inv in H as (r1 & [l1 f1] & H1 & H).
  apply bind_inv in H as (r2 & [l2 f2] & H2 & H).
  assert (stdout_errors l1 = stdout_errors l /\ stderr_errors l1 = stderr_errors l) as [E1 E1'].
  { unfold drain_out in H1. destruct (drain_into_events _ _ _ _ _) as [? [? ?]]. by simplify_eq. }
  assert (stdout_errors l2 = stdout_errors l1 /\ stderr_errors l2 = stderr_errors l1) as [E2 E2'].
  { unfold drain_err in H2. destruct (drain_into_events _ _ _ _ _) as [? [? ?]]. by simplify_eq. }
  apply bind_inv in H as ([] & [l3 f3] & [= <- <-] & H).
  apply bind_inv in H as ([? ?] & [l4 f4] & [= <- <- <- <-] & H).
  cbn [fst snd out_state err_state stdout_errors stderr_errors] in H.
  assert (Hb : forall r n, (bump r n <= n + 1)%N) by (intros [|] ?; simpl; lia).
  pose proof (Hb r1 (stdout_errors l2)). pose proof (Hb r2 (stderr_errors l2)).
  destruct (_ || _) eqn:E.
  - apply orb_true_iff in E as [E|E]; simp_eqs; lia.
  - destruct (fired rd); [|done].
    apply IH in H. cbn [stdout_errors stderr_errors length] in *. lia.
Qed.

End loop.

Section calm.
Context (d : path).
Abbreviation ev := (d ++ ["events.log"]).

(** A pass never fails while the disk does not. *)
Lemma append_batch_calm b s : exists s', append_batch ev b (quiet s) = (Ok tt, quiet s').
Proof.
  unfold append_batch. erewrite run_try_ok by apply rotate_quiet.
  set (s1 := if (saturating_add _ _ <=? _)%N then s else _).
  destruct (fs_dir s1 !! ev) as [i|] eqn:Ei.
  - erewrite run_try_ok by by apply open_append_existing.
    erewrite run_try_ok by apply append_write. by eexists.
  - erewrite run_try_ok by by apply open_append_fresh.
    erewrite run_try_ok by apply append_write. by eexists.
Qed.

Lemma drain_calm_opened raw strm now p left h s :
  exists t' s', drain_into_events raw strm now ev (mkTailState p left (Some h), quiet s) =
    (Ok tt, (t', quiet s')).
Proof.
  destruct (N.lt_trichotomy p (blen (contents s h))) as [Hl|[He|Hg]].
  - pose proof (drain_quiet d raw strm now p left h s Hl) as H. cbv zeta in H. rewrite H.
    case_bool_decide; [by eauto|].
    destruct (append_batch_calm (encode_batch now strm
      (left ++ next_chunk (contents s h) p)).1 s) as [s' Hs']. rewrite Hs'. by eauto.
  - rewrite (drain_idle d raw strm now _ h) by done. by eauto.
  - rewrite (drain_truncated d raw strm now _ h) by (done || (cbn; lia)). by eauto.
Qed.

Lemma drain_calm raw strm now t s :
  exists t' s', drain_into_events raw strm now ev (t, quiet s) = (Ok tt, (t', quiet s')).
Proof.
  destruct t as [p left [h|]]; [apply drain_calm_opened|].
  destruct (fs_dir s !! raw) as [h|] eqn:Er.
  - rewrite (drain_open d raw strm now _ h) by done. apply drain_calm_opened.
  - unfold drain_into_events. rewrite (run_try_ok _ _ _ false (mkTailState p left None, quiet s)).
    { by eauto. }
    unfold ensure_file_open.
    rewrite (run_bind get_tail _ _ (mkTailState p left None)
      (mkTailState p left None, quiet s)) by done. cbn [handle].
    rewrite (run_bind (on_fs _) _ _ (Err KindNotFound) (mkTailState p left None, quiet s)); [done|].
    unfold on_fs, zoom, fs_open. cbn [fst snd]. rewrite op_quiet. cbn [fst snd]. by rewrite Er.
Qed.

Lemma drain_out_calm raw now l s :
  exists t' s', drain_out raw ev now (l, quiet s) =
    (Ok tt, (mkLoopState t' (err_state l) (stdout_errors l) (stderr_errors l), quiet s')).
Proof.
  unfold drain_out. destruct (drain_calm raw Stdout now (out_state l) s) as (t' & s' & E).
  cbn [fst snd]. rewrite E. by eauto.
Qed.

Lemma drain_err_calm raw now l s :
  exists t' s', drain_err raw ev now (l, quiet s) =
    (Ok tt, (mkLoopState (out_state l) t' (stdout_errors l) (stderr_errors l), quiet s')).
Proof.
  unfold drain_err. destruct (drain_calm raw Stderr now (err_state l) s) as (t' & s' & E).
  cbn [fst snd]. rewrite E. by eauto.
Qed.

Lemma tailer_loop_calm so se rounds l s :
  stdout_errors l = 0%N -> stderr_errors l = 0%N ->
  (tailer_loop so se ev rounds (l, quiet s)).1 =
    if existsb (fun rd => match fired rd with StopSignal => true | Slept => false end) rounds
    then Stopped else StillRunning.
Proof.
  revert l s. induction rounds as [|rd rounds IH]; intros l s Ho He; [done|].
  cbn [tailer_loop existsb].
  destruct (drain_out_calm so (now_out rd) l s) as (t1 & s1 & E1).
  rewrite (run_bind _ _ _ _ _ E1).
  destruct (drain_err_calm se (now_err rd)
    (mkLoopState t1 (err_state l) (stdout_errors l) (stderr_errors l)) s1) as (t2 & s2 & E2).
  rewrite (run_bind _ _ _ _ _ E2).
  unfold modify_st, get_st. do 2 erewrite run_bind by done.
  match goal with |- context [if ?b then mret Aborted else _] => change b with false end.
  cbv iota. cbn [fst snd bump out_state err_state stdout_errors stderr_errors].
  destruct (fired rd); [by apply IH|]. cbn [orb].
  edestruct drain_out_calm as (? & ? & Ea). rewrite (run_bind _ _ _ _ _ Ea).
  edestruct drain_err_calm as (? & ? & Eb). rewrite (run_bind _ _ _ _ _ Eb). done.
Qed.

End calm.

(** * Properties *)

(** C1. The tailer neither loses, duplicates nor reorders a byte of container
    output: over any number of passes on a growing raw file, the data of the
    records it wrote followed by the carried-over partial line is exactly the
    prefix of the raw file it has read; every record is one line or an
    oversized piece; what [container_logs] then reads is what it read before
    plus these records, less the oldest rotated files; and every pass reads a
    chunk of what is there. *)
Theorem tailer_conserves d raw strm gs h s :
  fs_wf s -> fs_dir s !! raw = Some h -> unlogged d s h ->
  clean (file_or_empty s (d ++ ["events.log"])) ->
  exists st' s' es,
    tail_run d raw strm h gs (tail_default, quiet s) = (Ok tt, (st', quiet s')) /\
    concat (data <$> es) ++ leftover st' = take (N.to_nat (pos st')) (contents s h ++ grown gs) /\
    no_nl (leftover st') /\ (blen (leftover st') < MAX_LEFTOVER_BYTES)%N /\
    Forall (fun e => stream e = strm /\ record_shape (data e)) es /\
    history s' (d ++ ["events.log"]) `suffix_of`
      history s (d ++ ["events.log"]) ++ (trunc_entry <$> es) /\
    (N.min (blen (contents s h)) (N.of_nat (length gs) * MAX_READ_CHUNK) <= pos st')%N.
Proof.
  intros Hwf Hr Hu Hc.
  assert (tail_inv d raw h (history s (d ++ ["events.log"])) [] tail_default s) as Hinv.
  { constructor; [by right|by apply Hwf in Hr|done|done|done| |by rewrite app_nil_r].
    split_and!; [done|simpl; lia|done|constructor]. }
  destruct (tail_run_inv d raw strm gs h _ _ _ _ Hinv)
    as (st' & s' & es & Hrun & Hinv' & Hes & Hraw & Hpos).
  destruct Hinv' as [_ _ _ _ _ (Hd & _ & Hl & Hn) Hh].
  exists st', s', es. rewrite Hraw in Hd. by split_and!.
Qed.

(** C32. Rotation: below the threshold nothing changes; past it the current
    file starts empty, and what is lost of the history is the oldest rotated
    file and nothing else. *)
Theorem rotate_if_needed_spec d incoming s :
  fs_wf s ->
  exists s', rotate_if_needed (d ++ ["events.log"]) incoming (quiet s) = (Ok tt, quiet s') /\
    fs_wf s' /\
    (blen (file_or_empty s' (d ++ ["events.log"])) + incoming <=
       N.max EVENTS_ROTATE_BYTES incoming)%N /\
    ((blen (file_or_empty s (d ++ ["events.log"])) + incoming <= EVENTS_ROTATE_BYTES)%N ->
       s' = s) /\
    ((EVENTS_ROTATE_BYTES < blen (file_or_empty s (d ++ ["events.log"])) + incoming)%N ->
       history s (d ++ ["events.log"]) =
       parse_events_file (file_or_empty s (rotated_path (d ++ ["events.log"]) MAX_ROTATED_FILES))
         ++ history s' (d ++ ["events.log"]) /\
       file_or_empty s' (d ++ ["events.log"]) = []).
Proof.
  intros Hwf. rewrite rotate_quiet. eexists. split; [done|].
  pose proof (rotate_file_ev d s) as E0. pose proof (history_rotate d s Hwf) as Eh.
  pose proof (rotate_wf d s Hwf) as Ew.
  unfold saturating_add, EVENTS_ROTATE_BYTES, U64_MAX.
  destruct (_ <=? _)%N eqn:E; simp_eqs; split_and!; [done|lia|done|lia|done| |lia|done].
  rewrite E0, blen_nil. lia.
Qed.

(** The tailer gives up only after 50 passes in a row failed on one
    stream. *)
Theorem tailer_aborts_late so se ev rounds f x :
  tailer_loop so se ev rounds (loop_default, f) = (Aborted, x) -> 50 <= length rounds.
Proof.
  intros H%tailer_abort_count. unfold loop_default, MAX_CONSECUTIVE_ERRORS in H.
  cbn [stdout_errors stderr_errors] in H. lia.
Qed.

(** On a disk that does not fail the tailer runs until it is asked to
    stop, whatever the streams and the events file hold. *)
Theorem tailer_runs_until_stopped d so se rounds s :
  (tailer_loop so se (d ++ ["events.log"]) rounds (loop_default, quiet s)).1 =
    if existsb (fun rd => match fired rd with StopSignal => true | Slept => false end) rounds
    then Stopped else StillRunning.
Proof. by apply tailer_loop_calm. Qed.

(** A read error costs the partial line: the leftover was moved out of the
    state before the read, so the error path drops it while the position
    stays. *)
Theorem read_error_drops_leftover d raw strm now p left h s k :
  (p < blen (contents s h))%N ->
  drain_into_events raw strm now (d ++ ["events.log"])
    (mkTailState p left (Some h), mkFsSt s [tick_ok; tick_ok; tick_fail k]) =
  (Err (Io "tailer: read raw" k), (mkTailState p [] (Some h), quiet s)).
Proof.
  intros Hp. set (sc := [tick_ok; tick_ok; _]).
  unfold drain_into_events, get_tail, set_tail, modify_st.
  rewrite (run_try_ok _ _ _ true (mkTailState p left (Some h), mkFsSt s sc)) by done.
  cbn [negb]. rewrite (run_bind _ _ _ (mkTailState p left (Some h))
    (mkTailState p left (Some h), mkFsSt s sc)) by done.
  cbn [handle pos leftover].
  rewrite (run_try_ok _ _ _ (blen (contents s h))
    (mkTailState p left (Some h), mkFsSt s (drop 1 sc))) by done.
  rewrite (proj2 (N.ltb_ge _ _)) by lia. rewrite (proj2 (N.eqb_neq _ _)) by lia.
  rewrite (run_try_ok _ _ _ tt (mkTailState p left (Some h), mkFsSt s (drop 2 sc))) by done.
  rewrite (run_bind _ _ _ tt (mkTailState p [] (Some h), mkFsSt s (drop 2 sc))) by done.
  by rewrite (run_try_err _ _ _ (Io "tailer: read raw" k)
    (mkTailState p [] (Some h), quiet s)) by done.
Qed.

(** A failed append costs the whole batch: the position and the leftover
    already moved past it, and the next pass reads on from there. *)
Theorem append_error_drops_batch d raw strm now p left h s k
    (chunk := next_chunk (contents s h) p) :
  (p < blen (contents s h))%N -> k <> KindNotFound -> batch_lines (left ++ chunk) <> [] ->
  drain_into_events raw strm now (d ++ ["events.log"])
    (mkTailState p left (Some h), mkFsSt s [tick_ok; tick_ok; tick_ok; tick_fail k]) =
  (Err (Io "tailer: stat events" k),
   (mkTailState (p + blen chunk) (encode_batch now strm (left ++ chunk)).2 (Some h), quiet s)).
Proof.
  intros Hp Hk Hb. set (sc := [tick_ok; tick_ok; tick_ok; _]).
  unfold drain_into_events, get_tail, set_tail, modify_st.
  rewrite (run_try_ok _ _ _ true (mkTailState p left (Some h), mkFsSt s sc)) by done.
  cbn [negb]. rewrite (run_bind _ _ _ (mkTailState p left (Some h))
    (mkTailState p left (Some h), mkFsSt s sc)) by done.
  cbn [handle pos leftover].
  rewrite (run_try_ok _ _ _ (blen (contents s h))
    (mkTailState p left (Some h), mkFsSt s (drop 1 sc))) by done.
  rewrite (proj2 (N.ltb_ge _ _)) by lia. rewrite (proj2 (N.eqb_neq _ _)) by lia.
  rewrite (run_try_ok _ _ _ tt (mkTailState p left (Some h), mkFsSt s (drop 2 sc))) by done.
  rewrite (run_bind _ _ _ tt (mkTailState p [] (Some h), mkFsSt s (drop 2 sc))) by done.
  rewrite (run_try_ok _ _ _ chunk (mkTailState p [] (Some h), mkFsSt s (drop 3 sc))) by done.
  pose proof (encode_batch_fst now strm (left ++ chunk)) as Hf.
  destruct (encode_batch now strm (left ++ chunk)) as [batch rest]. cbn [fst snd] in *.
  rewrite (run_bind _ _ _ tt
    (mkTailState (p + blen chunk)%N rest (Some h), mkFsSt s (drop 3 sc))) by done.
  rewrite bool_decide_eq_false_2.
  2:{ rewrite Hf. intros E%encode_events_nil. by apply fmap_nil_inv in E. }
  by destruct k.
Qed.

(** ** Witnesses *)
Definition demo_raw : path := ["/"; "root"; "stdout.log"].
Definition demo_tail_fs : FS := create_at demo_raw (str_bytes "one" ++ [NL] ++ str_bytes "tw") fs_empty.

Lemma demo_tail_unlogged : unlogged ["/"; "d"] demo_tail_fs 0.
Proof. intros n Hn. unfold MAX_ROTATED_FILES in Hn. do 6 (destruct n as [|n]; [by vm_compute|]). lia. Qed.

Lemma tailer_conserves_witness :
  exists st' s' es,
    tail_run ["/"; "d"] demo_raw Stdout 0 [([], 7%Z); (str_bytes "o" ++ [NL], 9%Z)]
      (tail_default, quiet demo_tail_fs) = (Ok tt, (st', quiet s')) /\
    concat (data <$> es) ++ leftover st' =
      take (N.to_nat (pos st')) (str_bytes "one" ++ [NL] ++ str_bytes "two" ++ [NL]).
Proof.
  destruct (tailer_conserves ["/"; "d"] demo_raw Stdout
    [([], 7%Z); (str_bytes "o" ++ [NL], 9%Z)] 0 demo_tail_fs) as (st' & s' & es & H1 & H2 & _).
  - apply fs_wf_create, fs_wf_empty.
  - reflexivity.
  - apply demo_tail_unlogged.
  - reflexivity.
  - exists st', s', es. split; [exact H1|exact H2].
Defined.

Lemma rotate_if_needed_spec_witness :
  exists s', rotate_if_needed (["/"; "d"] ++ ["events.log"]) EVENTS_ROTATE_BYTES
    (quiet (create_at ["/"; "d"; "events.log"] [NL] fs_empty)) = (Ok tt, quiet s') /\
  file_or_empty s' (["/"; "d"] ++ ["events.log"]) = [].
Proof.
  destruct (rotate_if_needed_spec ["/"; "d"] EVENTS_ROTATE_BYTES
    (create_at ["/"; "d"; "events.log"] [NL] fs_empty)) as (s' & H1 & _ & _ & _ & H2).
  - apply fs_wf_create, fs_wf_empty.
  - exists s'. split; [exact H1|]. apply H2. vm_compute. reflexivity.
Defined.

(** An events file that cannot be looked at. *)
Definition failing_sched : list Tick := repeat (tick_fail (KindOther 13)) 100.

Definition sleeping_round : Round := mkRound 0 0 Slept 0 0.

Lemma tailer_aborts_late_witness :
  (tailer_loop demo_raw demo_raw ["/"; "d"; "events.log"] (repeat sleeping_round 50)
     (loop_default, mkFsSt demo_tail_fs failing_sched)).1 = Aborted /\ 50 <= 50.
Proof.
  split; [vm_compute; reflexivity|].
  apply (tailer_aborts_late demo_raw demo_raw ["/"; "d"; "events.log"]
    (repeat sleeping_round 50) (mkFsSt demo_tail_fs failing_sched)
    (tailer_loop demo_raw demo_raw ["/"; "d"; "events.log"] (repeat sleeping_round 50)
      (loop_default, mkFsSt demo_tail_fs failing_sched)).2).
  vm_compute. reflexivity.
Defined.

Lemma read_error_drops_leftover_witness :
  drain_into_events demo_raw Stdout 7 ["/"; "d"; "events.log"]
    (mkTailState 4 (str_bytes "half") (Some 0%N),
     mkFsSt demo_tail_fs [tick_ok; tick_ok; tick_fail (KindOther 5)]) =
  (Err (Io "tailer: read raw" (KindOther 5)),
   (mkTailState 4 [] (Some 0%N), quiet demo_tail_fs)).
Proof.
  apply (read_error_drops_leftover ["/"; "d"] demo_raw Stdout 7 4 (str_bytes "half") 0 demo_tail_fs
    (KindOther 5)). vm_compute. reflexivity.
Defined.

Lemma append_error_drops_batch_witness :
  exists st, drain_into_events demo_raw Stdout 7 ["/"; "d"; "events.log"]
    (mkTailState 0 [] (Some 0%N),
     mkFsSt demo_tail_fs [tick_ok; tick_ok; tick_ok; tick_fail (KindOther 5)]) =
  (Err (Io "tailer: stat events" (KindOther 5)), (st, quiet demo_tail_fs)).
Proof.
  eexists. apply (append_error_drops_batch ["/"; "d"] demo_raw Stdout 7 0 [] 0 demo_tail_fs
    (KindOther 5)); [reflexivity|discriminate|discriminate].
Defined.
