(* ===== verification/LogFollower.v ===== *)
(** * The log follower ([src/logs.rs], [follow_loop] and what it calls)

    Polls [events.log], decodes the new bytes and sends the records down a
    channel.  The inode of the open file tells a rotation from an append.  A
    poll runs over the follower's own state, the channel and the file system;
    the receiver may be dropped after any number of sends.  The bounded
    channel's back-pressure only delays a send: file FollowHandle has it. *)

From S2P Require Import Prelude RustText RustFmt Errors Effects FileSystem LogCodec LogFiles LogTailer.

(** ** State *)
Definition ROTATED_DRAIN_MAX_BYTES : N := 16 * 1024 * 1024.
Definition FOLLOW_INTERVAL : Duration := from_millis 100.

(** [mpsc::Sender]: what was sent, and how many more sends the receiver stays
    for ([None]: it is never dropped). *)
Record Chan : Type := mkChan { sent : list (Result LogEntry); room : option nat }.

Definition chan_open : Chan := mkChan [] None.

Record EventsTailState : Type := mkEventsTailState {
  e_pos : N;
  e_leftover : bytes;
  e_inode : option N
}.

Definition events_default : EventsTailState := mkEventsTailState 0 [] None.

Record Follow : Type := mkFollow { ets : EventsTailState; tx : Chan; disk : FsSt }.

Abbreviation FollowM := (ST Follow).

Definition on_disk {A} (m : FsM A) : FollowM A :=
  zoom disk (fun d s => mkFollow (ets s) (tx s) d) m.
Definition get_ets : FollowM EventsTailState := fun s => (ets s, s).
Definition set_ets (f : EventsTailState -> EventsTailState) : FollowM unit :=
  modify_st (fun s => mkFollow (f (ets s)) (tx s) (disk s)).

(** [tx.send(x).await.is_err()]. *)
Definition send (x : Result LogEntry) : FollowM bool := fun s =>
  match room (tx s) with
  | Some O => (true, s)
  | Some (S k) => (false, mkFollow (ets s) (mkChan (sent (tx s) ++ [x]) (Some k)) (disk s))
  | None => (false, mkFollow (ets s) (mkChan (sent (tx s) ++ [x]) None) (disk s))
  end.

Inductive PollOutcome : Type := Continue | ReceiverDropped | Fatal (e : Error).

(** [match io { Ok(x) => .., Err(e) => return Fatal(Io { context, source: e }) }]. *)
Definition or_fatal {A} (context : string) (m : FsM (io A)) (k : A -> FollowM PollOutcome) :
    FollowM PollOutcome :=
  r ← on_disk m;
  match r with Ok a => k a | Err e => mret (Fatal (Io context e)) end.

(** [file_inode] has a body for each platform. *)
Class Inodes : Type := file_inode : N -> N.

(** [#[cfg(unix)]]: the handle is the inode. *)
Definition unix : Inodes := fun h => h.

(** [#[cfg(not(unix))]]. *)
Definition not_unix : Inodes := fun _ => 0%N.

(** ** Rotation *)
Fixpoint send_all (es : list LogEntry) : FollowM PollOutcome :=
  match es with
  | [] => mret Continue
  | e :: es =>
      gone ← send (Ok e);
      if gone : bool then mret ReceiverDropped else send_all es
  end.

Definition drain_rotated_remainder `{Inodes} (rotated : path) (prev_inode prev_pos : N) :
    FollowM PollOutcome :=
  r ← on_disk (fs_open rotated);
  match r with
  | Err KindNotFound => mret Continue
  | Err e => mret (Fatal (Io "follow: open rotated events" e))
  | Ok file =>
      or_fatal "follow: stat rotated events" (handle_len file) (fun end_ =>
      if negb (file_inode file =? prev_inode)%N then mret Continue
      else if (end_ <=? prev_pos)%N then mret Continue
      else
        or_fatal "follow: seek rotated events" (handle_seek file prev_pos) (fun _ =>
        let want := N.min (end_ - prev_pos)%N ROTATED_DRAIN_MAX_BYTES in
        or_fatal "follow: read rotated events" (handle_read file prev_pos (Some want))
          (fun buf => send_all (parse_events_file buf))))
  end.

(** ** One poll *)

(** The decode loop of a poll: the bytes at the cursor when it stops, or
    nothing when the receiver is gone.  [fuel] starts at the buffer's length;
    every round consumes a byte. *)
Fixpoint emit_loop (fuel : nat) (s : bytes) : FollowM (option bytes) :=
  match fuel, s with
  | O, _ | _, [] => mret (Some s)
  | S fuel, _ =>
      match decode_event_with_len s with
      | DRecord entry consumed =>
          gone ← send (Ok entry);
          if gone : bool then mret None else emit_loop fuel (drop consumed s)
      | NeedMore => mret (Some s)
      | Malformed =>
          match resync_offset s with
          | Some skip => emit_loop fuel (drop skip s)
          | None => mret (Some s)
          end
      end
  end.

(** [remainder.contains(&b'\n')]. *)
Definition has_nl (l : bytes) : bool := existsb (byte_is NL) l.

(** The second half of a poll: read past [e_pos], decode, keep the rest. *)
Definition emit_new (file len : N) : FollowM PollOutcome :=
  st ← get_ets;
  if (len =? e_pos st)%N then mret Continue
  else
    or_fatal "follow: seek events" (handle_seek file (e_pos st)) (fun _ =>
    (* [mem::take(&mut state.leftover)] happens before the read *)
    _ ← set_ets (fun t => mkEventsTailState (e_pos t) [] (e_inode t));
    or_fatal "follow: read events" (handle_read file (e_pos st) None) (fun new =>
    _ ← set_ets (fun t => mkEventsTailState len (e_leftover t) (e_inode t));
    let combined := e_leftover st ++ new in
    rest ← emit_loop (length combined) combined;
    match rest with
    | None => mret ReceiverDropped
    | Some remainder =>
        let keep :=
          if (MAX_RECORD_BYTES <? blen remainder)%N && negb (has_nl remainder)
          then [] else remainder in
        _ ← set_ets (fun t => mkEventsTailState (e_pos t) keep (e_inode t));
        mret Continue
    end)).

Definition poll_events_once `{Inodes} (p : path) : FollowM PollOutcome :=
  r ← on_disk (fs_open p);
  match r with
  | Err KindNotFound =>
      st ← get_ets;
      match e_inode st with
      | None => _ ← set_ets (fun t => mkEventsTailState 0 [] (e_inode t)); mret Continue
      | Some _ => mret Continue
      end
  | Err e => mret (Fatal (Io "follow: open events" e))
  | Ok file =>
      or_fatal "follow: stat events" (handle_len file) (fun len =>
      let inode := file_inode file in
      st ← get_ets;
      let rotated :=
        match e_inode st with Some prev => negb (prev =? inode)%N | None => false end in
      let truncated := (len <? e_pos st)%N in
      outcome ←
        (if rotated then
           o ← match e_inode st with
               | Some prev_inode =>
                   drain_rotated_remainder (with_extension p "log.1") prev_inode (e_pos st)
               | None => mret Continue
               end;
           match o with
           | Continue =>
               _ ← set_ets (fun t => mkEventsTailState 0 [] (e_inode t)); mret Continue
           | other => mret other
           end
         else if truncated then
           _ ← set_ets (fun t => mkEventsTailState 0 [] (e_inode t)); mret Continue
         else mret Continue);
      match outcome with
      | Continue =>
          _ ← set_ets (fun t => mkEventsTailState (e_pos t) (e_leftover t) (Some inode));
          emit_new file len
      | other => mret other
      end)
  end.

(** ** The loop *)
Inductive FollowRound : Type := FSlept | FStop.
Inductive FollowEnd : Type := FRunning | FDone.

Fixpoint follow_loop `{Inodes} (events_path : path) (rounds : list FollowRound) : FollowM FollowEnd :=
  match rounds with
  | [] => mret FRunning
  | rd :: rounds =>
      o ← poll_events_once events_path;
      match o with
      | ReceiverDropped => mret FDone
      | Fatal e => _ ← send (Err e); mret FDone
      | Continue =>
          match rd with
          | FSlept => follow_loop events_path rounds
          | FStop => _ ← poll_events_once events_path; mret FDone
          end
      end
  end.

(** From here on the platform is Unix; file FollowPortable has the other. *)
#[export] Existing Instance unix.

(** * Lemmas *)
Section sends.

Definition push (l : list (Result LogEntry)) (st : Follow) : Follow :=
  mkFollow (ets st) (mkChan (sent (tx st) ++ l) (room (tx st))) (disk st).

Lemma push_nil st : push [] st = st.
Proof. destruct st as [e [s r] d]. unfold push. simpl. by rewrite app_nil_r. Qed.

Lemma push_push l k st : push k (push l st) = push (l ++ k) st.
Proof. unfold push. simpl. by rewrite app_assoc. Qed.

Lemma send_stays x st : room (tx st) = None -> send x st = (false, push [x] st).
Proof. intros H. unfold send, push. by rewrite H. Qed.

Lemma send_all_stays es st :
  room (tx st) = None -> send_all es st = (Continue, push (Ok <$> es) st).
Proof.
  revert st. induction es as [|e es IH]; intros st H; cbn [send_all]; [by rewrite push_nil|].
  rewrite (run_bind _ _ _ _ _ (send_stays _ _ H)). cbv iota.
  rewrite IH, push_push by done. done.
Qed.

(** The emitting loop is the decode loop with its records sent. *)
Lemma emit_loop_stays fuel s st :
  room (tx st) = None ->
  emit_loop fuel s st =
    (Some (decode_loop fuel s).2, push (Ok <$> (decode_loop fuel s).1) st).
Proof.
  revert s st. induction fuel as [|fuel IH]; intros s st H;
    [by rewrite push_nil|].
  destruct s as [|b s]; [by rewrite push_nil|]. remember (b :: s) as w eqn:Ew.
  assert (Hu : forall A (x y : A), match w with [] => x | _ => y end = y) by by subst.
  cbn [emit_loop decode_loop]. rewrite !Hu.
  destruct (decode_event_with_len w) as [e n| |].
  - rewrite (run_bind _ _ _ _ _ (send_stays _ _ H)). cbv iota.
    rewrite IH by done. cbn. by rewrite push_push.
  - by rewrite push_nil.
  - destruct (resync_offset w) as [k|]; [by apply IH|]. by rewrite push_nil.
Qed.

(** A receiver that leaves after [k] more sends got the first [k] records. *)
Lemma emit_loop_leaves fuel s st k :
  room (tx st) = Some k ->
  sent (tx (emit_loop fuel s st).2) = sent (tx st) ++ (Ok <$> take k (decode_loop fuel s).1) /\
  ((emit_loop fuel s st).1 = None <-> k < length (decode_loop fuel s).1).
Proof.
  revert s st k. induction fuel as [|fuel IH]; intros s st k H.
  { cbn. rewrite take_nil, app_nil_r. split; [done|]. split; [done|lia]. }
  destruct s as [|b s].
  { cbn. rewrite take_nil, app_nil_r. split; [done|]. split; [done|lia]. }
  remember (b :: s) as w eqn:Ew.
  assert (Hu : forall A (x y : A), match w with [] => x | _ => y end = y) by by subst.
  cbn [emit_loop decode_loop]. rewrite !Hu. clear Hu Ew.
  destruct (decode_event_with_len w) as [e n| |].
  - destruct k as [|k].
    + unfold send. rewrite (run_bind _ _ st true st) by by rewrite H.
      cbn. rewrite app_nil_r. split; [done|]. split; [lia|done].
    + rewrite (run_bind _ _ st false (mkFollow (ets st)
        (mkChan (sent (tx st) ++ [Ok e]) (Some k)) (disk st))) by (unfold send; by rewrite H).
      cbv iota. destruct (IH (drop n w) (mkFollow (ets st)
        (mkChan (sent (tx st) ++ [Ok e]) (Some k)) (disk st)) k eq_refl) as [E1 E2]. split.
      * etransitivity; [exact E1|]. cbn [tx sent take fmap list_fmap fst]. by rewrite <-app_assoc.
      * etransitivity; [exact E2|]. cbn [length fst]. lia.
  - cbn. rewrite take_nil, app_nil_r. split; [done|]. split; [done|lia].
  - destruct (resync_offset w) as [j|]; [by apply IH|].
    cbn. rewrite take_nil, app_nil_r. split; [done|]. split; [done|lia].
Qed.

End sends.

(** ** Polls on a quiet disk *)
Section polls.
Context (p : path).

Definition stuck (l : bytes) : Prop := (MAX_RECORD_BYTES < blen l)%N /\ has_nl l = false.

Definition kept (l : bytes) : bytes :=
  if (MAX_RECORD_BYTES <? blen l)%N && negb (has_nl l) then [] else l.

Lemma kept_id l : ~ stuck l -> kept l = l.
Proof.
  unfold kept, stuck. intros H. destruct (_ && _) eqn:E; [|done]. bool_props. by destruct H.
Qed.

Lemma emit_new_quiet i pos l ino snt s :
  (pos <= blen (contents s i))%N ->
  emit_new i (blen (contents s i))
    (mkFollow (mkEventsTailState pos l ino) (mkChan snt None) (quiet s)) =
  let len := blen (contents s i) in
  let r := decode_all (l ++ drop (N.to_nat pos) (contents s i)) in
  (Continue,
   if (len =? pos)%N
   then mkFollow (mkEventsTailState pos l ino) (mkChan snt None) (quiet s)
   else mkFollow (mkEventsTailState len (kept r.2) ino)
          (mkChan (snt ++ (Ok <$> r.1)) None) (quiet s)).
Proof.
  intros Hle. cbv zeta. unfold emit_new, or_fatal.
  rewrite (run_bind get_ets _ _ (mkEventsTailState pos l ino)
    (mkFollow (mkEventsTailState pos l ino) (mkChan snt None) (quiet s))) by done.
  cbn [e_inode e_pos e_leftover]. destruct (_ =? _)%N; [done|].
  rewrite (run_bind _ _ _ (Ok tt)
    (mkFollow (mkEventsTailState pos l ino) (mkChan snt None) (quiet s))) by done.
  rewrite (run_bind _ _ _ tt
    (mkFollow (mkEventsTailState pos [] ino) (mkChan snt None) (quiet s))) by done.
  rewrite (run_bind _ _ _ (Ok (drop (N.to_nat pos) (contents s i)))
    (mkFollow (mkEventsTailState pos [] ino) (mkChan snt None) (quiet s))) by done.
  rewrite (run_bind _ _ _ tt (mkFollow (mkEventsTailState (blen (contents s i)) [] ino)
      (mkChan snt None) (quiet s))) by done.
  by erewrite run_bind by by apply emit_loop_stays.
Qed.

(** Opening the file of a poll. *)
Lemma open_quiet q i e c s :
  fs_dir s !! q = Some i ->
  on_disk (fs_open q) (mkFollow e c (quiet s)) = (Ok i, mkFollow e c (quiet s)).
Proof.
  intros H. unfold on_disk, zoom, fs_open. cbn [disk]. rewrite op_quiet. cbn [fst snd].
  by rewrite H.
Qed.

(** A poll of the file it knows, or of the first it sees. *)
Lemma poll_same i pos l ino snt s :
  fs_dir s !! p = Some i -> ino = None \/ ino = Some i ->
  (pos <= blen (contents s i))%N ->
  poll_events_once p (mkFollow (mkEventsTailState pos l ino) (mkChan snt None) (quiet s)) =
  emit_new i (blen (contents s i))
    (mkFollow (mkEventsTailState pos l (Some i)) (mkChan snt None) (quiet s)).
Proof.
  intros Hp Hi Hle. unfold poll_events_once.
  rewrite (run_bind _ _ _ _ _ (open_quiet p i _ _ s Hp)).
  unfold or_fatal. rewrite (run_bind _ _ _ (Ok (blen (contents s i)))
    (mkFollow (mkEventsTailState pos l ino) (mkChan snt None) (quiet s))) by done.
  cbv zeta. rewrite (run_bind get_ets _ _ (mkEventsTailState pos l ino)
    (mkFollow (mkEventsTailState pos l ino) (mkChan snt None) (quiet s))) by done.
  cbn [e_inode e_pos e_leftover].
  assert (match ino with Some prev => negb (prev =? file_inode i)%N | None => false end = false)
    as ->.
  { unfold file_inode, unix. destruct Hi as [->| ->]; [done|]. by rewrite N.eqb_refl. }
  rewrite (proj2 (N.ltb_ge _ _)) by lia.
  rewrite (run_bind _ _ _ Continue
    (mkFollow (mkEventsTailState pos l ino) (mkChan snt None) (quiet s))) by done.
  by rewrite (run_bind _ _ _ tt
    (mkFollow (mkEventsTailState pos l (Some i)) (mkChan snt None) (quiet s))) by done.
Qed.

(** The first half of a poll that finds another inode. *)
Lemma drain_rotated rotated i pos e snt s :
  fs_dir s !! rotated = Some i -> (pos <= blen (contents s i))%N ->
  drain_rotated_remainder rotated i pos (mkFollow e (mkChan snt None) (quiet s)) =
  (Continue, mkFollow e (mkChan (snt ++
     (Ok <$> parse_events_file
        (take (N.to_nat (N.min (blen (contents s i) - pos) ROTATED_DRAIN_MAX_BYTES))
           (drop (N.to_nat pos) (contents s i))))) None) (quiet s)).
Proof.
  intros Hp Hle. unfold drain_rotated_remainder.
  rewrite (run_bind _ _ _ _ _ (open_quiet rotated i _ _ s Hp)).
  unfold or_fatal. rewrite (run_bind _ _ _ (Ok (blen (contents s i)))
    (mkFollow e (mkChan snt None) (quiet s))) by done.
  unfold file_inode, unix. rewrite N.eqb_refl. cbn [negb].
  destruct (blen (contents s i) <=? pos)%N eqn:E; simp_eqs.
  - replace (N.min (blen (contents s i) - pos) ROTATED_DRAIN_MAX_BYTES) with 0%N by lia.
    cbn. by rewrite app_nil_r.
  - rewrite (run_bind _ _ _ (Ok tt) (mkFollow e (mkChan snt None) (quiet s))) by done.
    erewrite run_bind by done. by apply send_all_stays.
Qed.

Lemma poll_rotated i j pos l snt s :
  fs_dir s !! with_extension p "log.1" = Some i -> fs_dir s !! p = Some j -> i <> j ->
  (pos <= blen (contents s i))%N ->
  poll_events_once p (mkFollow (mkEventsTailState pos l (Some i)) (mkChan snt None) (quiet s)) =
  emit_new j (blen (contents s j))
    (mkFollow (mkEventsTailState 0 [] (Some j))
     (mkChan (snt ++ (Ok <$> parse_events_file
        (take (N.to_nat (N.min (blen (contents s i) - pos) ROTATED_DRAIN_MAX_BYTES))
           (drop (N.to_nat pos) (contents s i))))) None) (quiet s)).
Proof.
  intros Hr Hp Hij Hle.
  pose proof (drain_rotated _ i pos (mkEventsTailState pos l (Some i)) snt s Hr Hle) as Hd.
  set (more := parse_events_file _) in *.
  unfold poll_events_once. rewrite (run_bind _ _ _ _ _ (open_quiet p j _ _ s Hp)).
  unfold or_fatal. rewrite (run_bind _ _ _ (Ok (blen (contents s j)))
    (mkFollow (mkEventsTailState pos l (Some i)) (mkChan snt None) (quiet s))) by done.
  cbv zeta. rewrite (run_bind get_ets _ _ (mkEventsTailState pos l (Some i))
    (mkFollow (mkEventsTailState pos l (Some i)) (mkChan snt None) (quiet s))) by done.
  cbn [e_inode e_pos e_leftover]. unfold file_inode, unix. rewrite (proj2 (N.eqb_neq i j)) by done.
  cbn [negb]. rewrite (run_bind _ _ _ Continue
    (mkFollow (mkEventsTailState 0 [] (Some i)) (mkChan (snt ++ (Ok <$> more)) None) (quiet s))).
  2:{ by rewrite (run_bind _ _ _ _ _ Hd). }
  by rewrite (run_bind _ _ _ tt
    (mkFollow (mkEventsTailState 0 [] (Some j)) (mkChan (snt ++ (Ok <$> more)) None) (quiet s)))
    by done.
Qed.

End polls.

(** ** What is left over fits *)
Section leftover.

(** Room for the header and the newline within [MAX_RECORD_BYTES]. *)
Definition fits (e : LogEntry) : Prop := (blen (data e) + 64 <= MAX_RECORD_BYTES)%N.

Lemma fits_ok e : fits e -> entry_ok e.
Proof. unfold fits, entry_ok. lia. Qed.

Lemma dec_bytes_length n k : (n < 10 ^ N.of_nat (S k))%N -> length (dec_bytes n) <= S k.
Proof. apply radix_digits_length. lia. Qed.

Lemma encode_event_length e : fits e -> (blen (encode_event e) <= MAX_RECORD_BYTES)%N.
Proof.
  unfold fits. intros H. rewrite encode_event_eq. autorewrite with cm.
  pose proof (unix_ms_range (timestamp e)).
  pose proof (dec_bytes_length (unix_ms (timestamp e)) 19).
  pose proof (dec_bytes_length (blen (data e)) 19).
  unfold MAX_RECORD_BYTES, U64_MAX, blen in *. simpl in *. lia.
Qed.

Lemma leftover_small es total q :
  Forall fits es -> total ++ q = encode_events es ->
  (blen (decode_all total).2 <= MAX_RECORD_BYTES)%N.
Proof.
  intros Hf. revert total. induction Hf as [|e es He Hes IH]; intros total H.
  { apply app_nil in H as [-> _]. done. }
  change (encode_events (e :: es)) with (encode_event e ++ encode_events es) in H.
  destruct (app_eq_inv _ _ _ _ H) as [(k & -> & Hk)|(k & Ek & Hk)].
  - rewrite decode_all_encode by by apply fits_ok. cbn. eauto.
  - destruct k as [|x k].
    + rewrite app_nil_r in Ek. subst total. rewrite <-(app_nil_r (encode_event e)).
      rewrite decode_all_encode by by apply fits_ok. done.
    + rewrite (decode_all_prefix e total (x :: k)) by (done || by apply fits_ok).
      cbn [snd]. pose proof (encode_event_length e He) as L. rewrite Ek, blen_app in L. lia.
Qed.

Lemma leftover_kept es total q :
  Forall fits es -> total ++ q = encode_events es ->
  kept (decode_all total).2 = (decode_all total).2.
Proof.
  intros Hf H. apply kept_id. intros [Hs _]. pose proof (leftover_small es total q Hf H). lia.
Qed.

(** Decoding the remainder again yields nothing. *)
Lemma decode_rest c : decode_all (decode_all c).2 = ([], (decode_all c).2).
Proof.
  pose proof (decode_all_app c []) as H. cbv zeta in H. rewrite !app_nil_r in H.
  destruct (decode_all c) as [es r]. cbn [fst snd] in *.
  destruct (decode_all r) as [es' r']. cbn [fst snd] in *. simplify_eq.
  rewrite <-(app_nil_r es) in H at 1. by apply app_inv_head in H as <-.
Qed.

End leftover.

(** ** A run of polls *)
Section runs.
Context (p : path).

(** The writer appends to the file between two polls. *)
Fixpoint follow_run {IN : Inodes} (h : N) (bs : list bytes) : FollowM PollOutcome :=
  match bs with
  | [] => mret Continue
  | b :: bs =>
      _ ← on_disk (grow h b);
      o ← poll_events_once p;
      match o with Continue => follow_run h bs | other => mret other end
  end.

(** The follower has consumed the bytes [c] of file [i]. *)
Definition caught_up (c : bytes) (i : N) (snt : list (Result LogEntry)) (s : FS) : Follow :=
  mkFollow (mkEventsTailState (blen c) (decode_all c).2 (Some i)) (mkChan snt None) (quiet s).

Lemma poll_caught_up c b i snt s :
  fs_dir s !! p = Some i -> contents s i = c ++ b ->
  kept (decode_all (c ++ b)).2 = (decode_all (c ++ b)).2 ->
  poll_events_once p (caught_up c i snt s) =
  (Continue, caught_up (c ++ b) i
     (snt ++ (Ok <$> (decode_all ((decode_all c).2 ++ b)).1)) s).
Proof.
  intros Hp Hc Hk. unfold caught_up.
  rewrite (poll_same p i) by (try (by right); try done; rewrite Hc, blen_app; lia).
  rewrite emit_new_quiet by (rewrite Hc, blen_app; lia). cbv zeta. rewrite Hc.
  rewrite to_nat_blen, drop_app_length.
  destruct (blen (c ++ b) =? blen c)%N eqn:E; simp_eqs.
  - assert (b = []) as ->.
    { rewrite blen_app in E. destruct b; [done|]. rewrite blen_cons in E. lia. }
    rewrite !app_nil_r, decode_rest. cbn. by rewrite app_nil_r.
  - rewrite (decode_all_app c b) in Hk. cbv zeta in Hk. cbn [fst snd] in Hk. rewrite Hk.
    unfold caught_up. by rewrite (decode_all_app c b).
Qed.

(** The first poll. *)
Lemma poll_first i snt s :
  fs_dir s !! p = Some i ->
  kept (decode_all (contents s i)).2 = (decode_all (contents s i)).2 ->
  poll_events_once p (mkFollow events_default (mkChan snt None) (quiet s)) =
  (Continue, caught_up (contents s i) i (snt ++ (Ok <$> (decode_all (contents s i)).1)) s).
Proof.
  intros Hp Hk. unfold events_default.
  rewrite (poll_same p i) by (try (by left); try done; lia).
  pose proof (poll_caught_up [] (contents s i) i snt s Hp eq_refl Hk) as H.
  unfold caught_up in H. rewrite (poll_same p i) in H by (try (by right); try done; apply N.le_0_l).
  exact H.
Qed.

(** A poll after one rotation, from a record boundary. *)
Lemma poll_over_rotation d c a i j snt s (ev := d ++ ["events.log"]) :
  fs_dir s !! rotated_path ev 1 = Some i -> fs_dir s !! ev = Some j -> i <> j ->
  contents s i = c ++ a -> (decode_all c).2 = [] ->
  (blen a <= ROTATED_DRAIN_MAX_BYTES)%N -> ~ stuck (decode_all (contents s j)).2 ->
  poll_events_once ev (caught_up c i snt s) =
  (Continue, caught_up (contents s j) j
     (snt ++ (Ok <$> parse_events_file a ++ parse_events_file (contents s j))) s).
Proof.
  intros Hr Hp Hij Hc Hb Ha Hs. unfold caught_up. rewrite Hb.
  rewrite (poll_rotated ev i j) by (try done; rewrite Hc, blen_app; lia).
  rewrite Hc, to_nat_blen, drop_app_length, blen_app.
  rewrite (take_ge a) by (unfold blen in *; lia).
  rewrite emit_new_quiet by lia. cbv zeta. rewrite drop_0. cbn [app].
  unfold parse_events_file. rewrite kept_id by done. rewrite fmap_app.
  destruct (_ =? _)%N eqn:E; [|by rewrite <-app_assoc]. simp_eqs.
  assert (contents s j = []) as -> by (destruct (contents s j); [done|rewrite blen_cons in E; lia]).
  cbn. by rewrite app_nil_r.
Qed.

Lemma follow_run_caught_up es q bs c i snt s :
  Forall fits es -> fs_dir s !! p = Some i -> contents s i = c ->
  c ++ concat bs ++ q = encode_events es ->
  exists s', follow_run i bs (caught_up c i snt s) =
    (Continue, caught_up (c ++ concat bs) i
       (snt ++ (Ok <$> (decode_all ((decode_all c).2 ++ concat bs)).1)) s').
Proof.
  intros Hf. revert c snt s. induction bs as [|b bs IH]; intros c snt s Hp Hc Hq.
  - exists s. cbn. rewrite !app_nil_r, decode_rest. cbn. by rewrite app_nil_r.
  - cbn [follow_run concat] in *. rewrite <-app_assoc in Hq. set (s1 := set_contents i (c ++ b) s).
    rewrite (run_bind _ _ _ tt (caught_up c i snt s1)) by (unfold s1; by rewrite <-Hc).
    assert (E1 : contents s1 i = c ++ b) by apply contents_set_eq.
    erewrite run_bind.
    2:{ apply poll_caught_up; [done|done|]. eapply (leftover_kept es _ (concat bs ++ q)); [done|].
        by rewrite <-app_assoc. }
    cbv iota.
    destruct (IH (c ++ b) (snt ++ (Ok <$> (decode_all ((decode_all c).2 ++ b)).1)) s1)
      as [s' Hs']; [done|done|by rewrite <-app_assoc|].
    exists s'. rewrite Hs', <-!app_assoc, <-fmap_app. do 5 f_equal.
    rewrite (app_assoc _ b), (decode_all_app ((decode_all c).2 ++ b)). cbv zeta. cbn [fst].
    by rewrite (decode_all_app c b).
Qed.

End runs.

(** ** A writer that appends during a poll *)
Section racing.
Context (p : path).

(** The environment appends [b] to the file [i]. *)
Definition tick_append (i : N) (b : bytes) : Tick :=
  mkTick (fun s => set_contents i (contents s i ++ b) s) None 0.

(** It does so just before the fourth operation of the poll, the read. *)
Definition append_at_read (i : N) (b : bytes) : list Tick :=
  [tick_ok; tick_ok; tick_ok; tick_append i b].

Lemma poll_racing i s b (s2 := set_contents i (contents s i ++ b) s) :
  fs_dir s !! p = Some i -> contents s i <> [] ->
  poll_events_once p (mkFollow events_default chan_open (mkFsSt s (append_at_read i b))) =
    (Continue, mkFollow (mkEventsTailState (blen (contents s i))
        (kept (decode_all (contents s2 i)).2) (Some i))
       (mkChan (Ok <$> parse_events_file (contents s2 i)) None) (quiet s2)).
Proof.
  intros Hp Hne. set (sc := append_at_read i b).
  assert (Hlen : blen (contents s i) <> 0%N).
  { destruct (contents s i); [done|rewrite blen_cons; lia]. }
  unfold poll_events_once, events_default.
  rewrite (run_bind _ _ _ (Ok i) (mkFollow (mkEventsTailState 0 [] None) chan_open
    (mkFsSt s (drop 1 sc)))).
  2:{ unfold on_disk, zoom, fs_open, op, op_with. cbn. unfold id. by rewrite Hp. }
  unfold or_fatal. rewrite (run_bind _ _ _ (Ok (blen (contents s i)))
    (mkFollow (mkEventsTailState 0 [] None) chan_open (mkFsSt s (drop 2 sc)))) by done.
  cbv zeta. rewrite (run_bind get_ets _ _ (mkEventsTailState 0 [] None)
    (mkFollow (mkEventsTailState 0 [] None) chan_open (mkFsSt s (drop 2 sc)))) by done.
  cbn [e_inode e_pos e_leftover]. rewrite (proj2 (N.ltb_ge _ _)) by lia.
  rewrite (run_bind _ _ _ Continue
    (mkFollow (mkEventsTailState 0 [] None) chan_open (mkFsSt s (drop 2 sc)))) by done.
  rewrite (run_bind _ _ _ tt
    (mkFollow (mkEventsTailState 0 [] (Some i)) chan_open (mkFsSt s (drop 2 sc)))) by done.
  unfold emit_new. rewrite (run_bind get_ets _ _ (mkEventsTailState 0 [] (Some i))
    (mkFollow (mkEventsTailState 0 [] (Some i)) chan_open (mkFsSt s (drop 2 sc)))) by done.
  cbn [e_inode e_pos e_leftover]. rewrite (proj2 (N.eqb_neq _ _)) by done.
  unfold or_fatal. rewrite (run_bind _ _ _ (Ok tt)
    (mkFollow (mkEventsTailState 0 [] (Some i)) chan_open (mkFsSt s (drop 3 sc)))) by done.
  rewrite (run_bind _ _ _ tt
    (mkFollow (mkEventsTailState 0 [] (Some i)) chan_open (mkFsSt s (drop 3 sc)))) by done.
  rewrite (run_bind _ _ _ (Ok (contents s2 i))
    (mkFollow (mkEventsTailState 0 [] (Some i)) chan_open (quiet s2))) by done.
  rewrite (run_bind _ _ _ tt (mkFollow (mkEventsTailState (blen (contents s i)) [] (Some i))
    chan_open (quiet s2))) by done.
  by erewrite run_bind by by apply emit_loop_stays.
Qed.

Lemma decode_encodes es :
  Forall entry_ok es -> decode_all (encode_events es) = (trunc_entry <$> es, []).
Proof.
  intros Hes. rewrite <-(app_nil_r (encode_events es)), decode_all_encodes by done.
  cbn. by rewrite app_nil_r.
Qed.

Lemma encode_events_app es1 es2 : encode_events (es1 ++ es2) = encode_events es1 ++ encode_events es2.
Proof. unfold encode_events. by rewrite fmap_app, concat_app. Qed.

End racing.

(** * Properties *)

(** C18. While the file is not rotated, the follower delivers every record
    exactly once and in order, whatever the sizes in which the writer appends
    and wherever the polls cut the records: after any run of appends and
    polls, what was sent is what parsing the whole file gives, and the state
    holds the incomplete record at its end. *)
Theorem follower_delivers p i s bs q es :
  Forall fits es -> fs_dir s !! p = Some i ->
  contents s i ++ concat bs ++ q = encode_events es ->
  exists s', follow_run p i ([] :: bs) (mkFollow events_default chan_open (quiet s)) =
    (Continue,
     mkFollow (mkEventsTailState (blen (contents s i ++ concat bs))
                 (decode_all (contents s i ++ concat bs)).2 (Some i))
       (mkChan (Ok <$> parse_events_file (contents s i ++ concat bs)) None) (quiet s')).
Proof.
  intros Hf Hp Hq. cbn [follow_run].
  set (s1 := set_contents i (contents s i ++ []) s).
  rewrite (run_bind _ _ _ tt (mkFollow events_default chan_open (quiet s1))) by done.
  assert (E1 : contents s1 i = contents s i).
  { unfold s1. by rewrite contents_set_eq, app_nil_r. }
  erewrite run_bind.
  2:{ apply (poll_first p i [] s1); [done|]. rewrite E1. eapply leftover_kept; eauto. }
  cbv iota. rewrite E1. cbn [app].
  destruct (follow_run_caught_up p es q bs (contents s i) i
    (Ok <$> (decode_all (contents s i)).1) s1) as [s' Hs']; [done..|].
  exists s'. rewrite Hs'. unfold caught_up, parse_events_file. do 4 f_equal.
  rewrite (decode_all_app (contents s i)). cbv zeta. cbn [fst]. by rewrite fmap_app.
Qed.

(** A rotation between two polls costs nothing when the follower stood at
    a record boundary: it drains what the old file gained from [events.log.1]
    (up to the cap) and goes on with the new file from its start. *)
Theorem follower_survives_rotation d c a i j snt s
    (p := d ++ ["events.log"]) :
  fs_dir s !! rotated_path p 1 = Some i -> fs_dir s !! p = Some j -> i <> j ->
  contents s i = c ++ a -> (decode_all c).2 = [] ->
  (blen a <= ROTATED_DRAIN_MAX_BYTES)%N -> ~ stuck (decode_all (contents s j)).2 ->
  poll_events_once p (caught_up c i (snt ++ (Ok <$> parse_events_file c)) s) =
  (Continue, caught_up (contents s j) j
     (snt ++ (Ok <$> parse_events_file (c ++ a) ++ parse_events_file (contents s j))) s).
Proof.
  intros Hr Hp Hij Hc Hb Ha Hs. rewrite (poll_over_rotation d c a i j) by done.
  unfold parse_events_file. rewrite (decode_all_app c a). cbv zeta. rewrite Hb. cbn [fst app].
  by rewrite !fmap_app, <-!app_assoc.
Qed.

(** The receiver going away ends the sending at once: a poll that finds
    the records [es] while the receiver stays for [k] more delivers the first
    [k] of them and stops. *)
Theorem follower_stops_at_drop bs st k :
  room (tx st) = Some k ->
  sent (tx (emit_loop (length bs) bs st).2) =
    sent (tx st) ++ (Ok <$> take k (parse_events_file bs)) /\
  ((emit_loop (length bs) bs st).1 = None <-> k < length (parse_events_file bs)).
Proof. apply emit_loop_leaves. Qed.

(** C30. Records are delivered twice when the writer appends between the
    follower's [metadata] and its [read_to_end]: the read returns the new
    bytes too, but the position only advances to the length seen before, so
    the next poll reads them again.  The file then holds the records
    [es1 ++ es2]; the follower delivered [es1 ++ es2 ++ es2]. *)
Theorem concurrent_append_duplicates p i s es1 es2 :
  fs_dir s !! p = Some i -> Forall entry_ok es1 -> Forall entry_ok es2 ->
  contents s i = encode_events es1 -> es1 <> [] -> es2 <> [] ->
  let st := (follow_loop p [FSlept; FSlept] (mkFollow events_default chan_open
               (mkFsSt s (append_at_read i (encode_events es2))))).2 in
  contents (fs (disk st)) i = encode_events (es1 ++ es2) /\
  sent (tx st) = Ok <$> (trunc_entry <$> es1 ++ es2 ++ es2).
Proof.
  intros Hp H1 H2 Hc Hn1 Hn2. cbv zeta.
  assert (Hne : forall es, es <> [] -> encode_events es <> []).
  { by intros es Hes E%encode_events_nil. }
  pose proof (poll_racing p i s (encode_events es2) Hp ltac:(rewrite Hc; auto)) as Hpoll.
  cbv zeta in Hpoll. set (s2 := set_contents _ _ s) in *.
  assert (Ec : contents s2 i = encode_events es1 ++ encode_events es2).
  { unfold s2. by rewrite contents_set_eq, Hc. }
  unfold parse_events_file in Hpoll.
  rewrite Ec, <-encode_events_app, decode_encodes in Hpoll by by apply Forall_app.
  cbn [fst snd] in Hpoll. rewrite Hc in Hpoll. change (kept []) with (@nil Byte.byte) in Hpoll.
  cbn [follow_loop]. rewrite (run_bind _ _ _ _ _ Hpoll). cbv iota.
  erewrite run_bind; [|rewrite (poll_same p i); [apply emit_new_quiet| | |]]; try done;
    try (by right); try (rewrite Ec, blen_app; lia).
  cbn [app]. rewrite Ec, to_nat_blen, drop_app_length, (decode_encodes es2) by done.
  rewrite (proj2 (N.eqb_neq _ _)).
  2:{ rewrite blen_app. apply Hne in Hn2. destruct (encode_events es2); [done|].
      rewrite blen_cons. lia. }
  cbn [follow_loop]. rewrite !run_ret. cbn [snd fst tx sent disk fs quiet].
  split; [by rewrite Ec, encode_events_app|].
  by rewrite <-fmap_app, <-fmap_app, <-app_assoc.
Qed.

(** A record that straddles a rotation is lost: the follower stood in the
    middle of it ([half] is its leftover), the rest reached the old file
    before the rename, and draining [events.log.1] from the position without
    the leftover decodes the second half alone.  The files hold the record,
    the follower never delivers it. *)
Theorem rotation_drops_straddling_record d es e half rest i j s (p := d ++ ["events.log"]) :
  fs_dir s !! rotated_path p 1 = Some i -> fs_dir s !! p = Some j -> i <> j ->
  contents s i = encode_events es ++ half ++ rest -> encode_event e = half ++ rest ->
  Forall entry_ok (es ++ [e]) -> rest <> [] -> parse_events_file rest = [] ->
  contents s j = [] -> (blen rest <= ROTATED_DRAIN_MAX_BYTES)%N ->
  parse_events_file (contents s i) = trunc_entry <$> es ++ [e] /\
  poll_events_once p
    (caught_up (encode_events es ++ half) i (Ok <$> (trunc_entry <$> es)) s) =
  (Continue, caught_up [] j (Ok <$> (trunc_entry <$> es)) s).
Proof.
  intros Hr Hp Hij Hc He Hok Hne Hrest Hnew Hcap. split.
  - rewrite Hc, <-He. unfold parse_events_file.
    replace (encode_events es ++ encode_event e) with (encode_events (es ++ [e])).
    { by rewrite decode_encodes. }
    rewrite encode_events_app. unfold encode_events at 2. cbn. by rewrite app_nil_r.
  - unfold caught_up. rewrite app_assoc in Hc.
    rewrite (poll_rotated p i j) by (try done; rewrite Hc, !blen_app; lia).
    rewrite Hc, to_nat_blen, drop_app_length, blen_app.
    rewrite (take_ge rest) by (unfold blen in *; lia).
    rewrite Hrest, emit_new_quiet by lia. cbv zeta. rewrite Hnew. cbn. by rewrite app_nil_r.
Qed.

(** ** Witnesses *)
Definition demo_entry (s : string) : LogEntry := mkLogEntry Stdout 5000000 (str_bytes s ++ [NL]).
Definition demo_log : path := ["/"; "d"] ++ ["events.log"].

Definition demo_follow_fs : FS := create_at demo_log (encode_events [demo_entry "a"]) fs_empty.

Lemma demo_fits : Forall fits [demo_entry "a"; demo_entry "b"; demo_entry "ccc"].
Proof. repeat constructor; vm_compute; discriminate. Qed.

Lemma follower_delivers_witness :
  exists s', (follow_run demo_log 0
      [[]; take 3 (encode_event (demo_entry "b")); drop 3 (encode_event (demo_entry "b"))]
      (mkFollow events_default chan_open (quiet demo_follow_fs))) =
    (Continue, mkFollow (mkEventsTailState 18 [] (Some 0%N))
       (mkChan [Ok (demo_entry "a"); Ok (demo_entry "b")] None) (quiet s')).
Proof.
  exact (follower_delivers demo_log 0 demo_follow_fs
    [take 3 (encode_event (demo_entry "b")); drop 3 (encode_event (demo_entry "b"))]
    (encode_event (demo_entry "ccc")) [demo_entry "a"; demo_entry "b"; demo_entry "ccc"]
    demo_fits eq_refl eq_refl).
Defined.

(** The old file (inode 0) was renamed, the new one is inode 1. *)
Definition demo_rotated_fs (old new : bytes) : FS :=
  create_at demo_log new (create_at (rotated_path demo_log 1) old fs_empty).

Lemma follower_survives_rotation_witness :
  poll_events_once demo_log
    (caught_up (encode_event (demo_entry "a")) 0 [Ok (demo_entry "a")]
       (demo_rotated_fs (encode_events [demo_entry "a"; demo_entry "b"])
          (encode_event (demo_entry "ccc")))) =
  (Continue, caught_up (encode_event (demo_entry "ccc")) 1
     [Ok (demo_entry "a"); Ok (demo_entry "b"); Ok (demo_entry "ccc")]
     (demo_rotated_fs (encode_events [demo_entry "a"; demo_entry "b"])
          (encode_event (demo_entry "ccc")))).
Proof.
  exact (follower_survives_rotation ["/"; "d"] (encode_event (demo_entry "a"))
    (encode_event (demo_entry "b")) 0 1 []
    (demo_rotated_fs (encode_events [demo_entry "a"; demo_entry "b"])
          (encode_event (demo_entry "ccc"))) eq_refl eq_refl
    ltac:(discriminate) eq_refl eq_refl ltac:(vm_compute; discriminate)
    ltac:(intros [H _]; vm_compute in H; discriminate)).
Defined.

Lemma follower_stops_at_drop_witness :
  sent (tx (emit_loop 18 (encode_events [demo_entry "a"; demo_entry "b"])
    (mkFollow events_default (mkChan [] (Some 1)) (quiet fs_empty))).2) = [Ok (demo_entry "a")].
Proof.
  exact (proj1 (follower_stops_at_drop (encode_events [demo_entry "a"; demo_entry "b"])
    (mkFollow events_default (mkChan [] (Some 1)) (quiet fs_empty)) 1 eq_refl)).
Defined.

Lemma concurrent_append_duplicates_witness :
  sent (tx (follow_loop demo_log [FSlept; FSlept] (mkFollow events_default chan_open
    (mkFsSt demo_follow_fs (append_at_read 0 (encode_events [demo_entry "b"]))))).2) =
  [Ok (demo_entry "a"); Ok (demo_entry "b"); Ok (demo_entry "b")].
Proof.
  exact (proj2 (concurrent_append_duplicates demo_log 0 demo_follow_fs [demo_entry "a"]
    [demo_entry "b"] eq_refl
    ltac:(repeat constructor; vm_compute; discriminate)
    ltac:(repeat constructor; vm_compute; discriminate)
    eq_refl ltac:(discriminate) ltac:(discriminate))).
Defined.

Lemma rotation_drops_straddling_record_witness :
  poll_events_once demo_log
    (caught_up (encode_events [demo_entry "a"] ++ take 3 (encode_event (demo_entry "b"))) 0
       [Ok (demo_entry "a")]
       (demo_rotated_fs (encode_events [demo_entry "a"] ++ encode_event (demo_entry "b")) [])) =
  (Continue, caught_up [] 1 [Ok (demo_entry "a")]
       (demo_rotated_fs (encode_events [demo_entry "a"] ++ encode_event (demo_entry "b")) [])).
Proof.
  exact (proj2 (rotation_drops_straddling_record ["/"; "d"] [demo_entry "a"] (demo_entry "b")
    (take 3 (encode_event (demo_entry "b"))) (drop 3 (encode_event (demo_entry "b"))) 0 1
    (demo_rotated_fs (encode_events [demo_entry "a"] ++ encode_event (demo_entry "b")) [])
    eq_refl eq_refl ltac:(discriminate) eq_refl eq_refl
    ltac:(repeat constructor; vm_compute; discriminate)
    ltac:(discriminate) eq_refl eq_refl ltac:(vm_compute; discriminate))).
Defined.
