(* ===== verification/FollowPortable.v ===== *)
(** * The follower where files have no inodes ([src/logs.rs], [file_inode] for
    [not(unix)])

    There every file has the inode 0, so a rotation cannot be told from an
    append; what is left is the check that the file became shorter.  While the
    file is only appended to, the follower does what it does on Unix; over a
    rotation it loses records. *)

From S2P Require Import Prelude RustText RustFmt Errors Effects FileSystem LogCodec LogFiles LogTailer LogFollower.

Abbreviation portable_poll := (@poll_events_once not_unix).
Abbreviation portable_run p := (@follow_run p not_unix).

Section polls.
Context (p : path).

(** A poll starts over when the file is shorter than what was read. *)
Lemma portable_poll_quiet i pos l ino snt s :
  fs_dir s !! p = Some i -> ino = None \/ ino = Some 0%N ->
  let len := blen (contents s i) in
  portable_poll p (mkFollow (mkEventsTailState pos l ino) (mkChan snt None) (quiet s)) =
  emit_new i len
    (mkFollow (if (len <? pos)%N then mkEventsTailState 0 [] (Some 0%N)
               else mkEventsTailState pos l (Some 0%N)) (mkChan snt None) (quiet s)).
Proof.
  intros Hp Hi. cbv zeta. unfold poll_events_once.
  rewrite (run_bind _ _ _ _ _ (open_quiet p i _ _ s Hp)).
  unfold or_fatal. rewrite (run_bind _ _ _ (Ok (blen (contents s i)))
    (mkFollow (mkEventsTailState pos l ino) (mkChan snt None) (quiet s))) by done.
  cbv zeta. rewrite (run_bind get_ets _ _ (mkEventsTailState pos l ino)
    (mkFollow (mkEventsTailState pos l ino) (mkChan snt None) (quiet s))) by done.
  cbn [e_inode e_pos e_leftover].
  assert (match ino with Some prev => negb (prev =? @file_inode not_unix i)%N | None => false end
    = false) as ->.
  { unfold file_inode, not_unix. by destruct Hi as [->| ->]. }
  by destruct (blen (contents s i) <? pos)%N.
Qed.

(** The same state on a platform without inodes. *)
Definition blind (st : Follow) : Follow :=
  mkFollow (mkEventsTailState (e_pos (ets st)) (e_leftover (ets st)) (Some 0%N)) (tx st) (disk st).

Lemma portable_poll_agrees i pos l ino ino0 snt s :
  fs_dir s !! p = Some i -> ino = None \/ ino = Some i -> ino0 = None \/ ino0 = Some 0%N ->
  (pos <= blen (contents s i))%N ->
  exists pos' l' snt', 
    poll_events_once p (mkFollow (mkEventsTailState pos l ino) (mkChan snt None) (quiet s)) =
      (Continue, mkFollow (mkEventsTailState pos' l' (Some i)) (mkChan snt' None) (quiet s)) /\
    portable_poll p (mkFollow (mkEventsTailState pos l ino0) (mkChan snt None) (quiet s)) =
      (Continue, mkFollow (mkEventsTailState pos' l' (Some 0%N)) (mkChan snt' None) (quiet s)) /\
    (pos' <= blen (contents s i))%N.
Proof.
  intros Hp Hi Hi0 Hle. rewrite (poll_same p i) by done.
  pose proof (portable_poll_quiet i pos l ino0 snt s Hp Hi0) as Hq. cbv zeta in Hq. rewrite Hq. clear Hq.
  rewrite (proj2 (N.ltb_ge _ _)) by done. rewrite !emit_new_quiet by done. cbv zeta.
  destruct (_ =? _)%N; eexists _, _, _; split_and!; done.
Qed.

Lemma portable_run_agrees i bs pos l snt s :
  fs_dir s !! p = Some i -> (pos <= blen (contents s i))%N ->
  let run := follow_run p i bs
    (mkFollow (mkEventsTailState pos l (Some i)) (mkChan snt None) (quiet s)) in
  portable_run p i bs (mkFollow (mkEventsTailState pos l (Some 0%N)) (mkChan snt None) (quiet s)) =
    (run.1, blind run.2).
Proof.
  cbv zeta. revert pos l snt s. induction bs as [|b bs IH]; intros pos l snt s Hp Hle; [done|].
  cbn [follow_run]. set (s1 := set_contents i (contents s i ++ b) s).
  assert (E1 : (pos <= blen (contents s1 i))%N).
  { unfold s1. rewrite contents_set_eq, blen_app. lia. }
  do 2 (erewrite (run_bind (on_disk _)); [|done]).
  destruct (portable_poll_agrees i pos l (Some i) (Some 0%N) snt s1 Hp) as (pos' & l' & snt' & H1 & H2 & H3);
    [by right|by right|done|].
  rewrite (run_bind _ _ _ _ _ H1), (run_bind _ _ _ _ _ H2). by apply IH.
Qed.

End polls.

(** * Properties *)

(** While the file is only appended to, nothing is lost without inodes: the
    follower ends every run of appends and polls, from its first poll on, as
    the one on Unix does - the same records sent, the same position and
    leftover. *)
Theorem portable_agrees_without_rotation p i b bs s :
  fs_dir s !! p = Some i ->
  let run := follow_run p i (b :: bs) (mkFollow events_default chan_open (quiet s)) in
  portable_run p i (b :: bs) (mkFollow events_default chan_open (quiet s)) =
    (run.1, blind run.2).
Proof.
  intros Hp. cbv zeta. cbn [follow_run]. set (s1 := set_contents i (contents s i ++ b) s).
  do 2 (erewrite (run_bind (on_disk _)); [|done]).
  destruct (portable_poll_agrees p i 0 [] None None [] s1 Hp) as (pos' & l' & snt' & H1 & H2 & H3);
    [by left|by left|lia|].
  unfold events_default, chan_open.
  rewrite (run_bind _ _ _ _ _ H1), (run_bind _ _ _ _ _ H2). by apply portable_run_agrees.
Qed.

(** A rotation costs records: a follower that had read [c] of the old file
    takes the new one for the old.  When the new file is shorter it starts
    over, and what the old file had gained is lost; otherwise it goes on at
    the old position, and the first records of the new file are lost too.  On
    Unix the same poll delivers both in full ([follower_survives_rotation]). *)
Theorem portable_rotation_loses p c i j snt s :
  fs_dir s !! p = Some j -> (decode_all c).2 = [] ->
  sent (tx (portable_poll p (blind (caught_up c i snt s))).2) =
  snt ++ (Ok <$> parse_events_file
    (if (blen (contents s j) <? blen c)%N then contents s j
     else drop (length c) (contents s j))).
Proof.
  intros Hp Hb. unfold blind, caught_up. cbn [ets tx disk e_pos e_leftover]. rewrite Hb.
  pose proof (portable_poll_quiet p j (blen c) [] (Some 0%N) snt s Hp (or_intror eq_refl)) as Hq.
  cbv zeta in Hq. rewrite Hq. unfold parse_events_file.
  destruct (blen (contents s j) <? blen c)%N eqn:E; simp_eqs; rewrite emit_new_quiet by lia;
    cbv zeta; cbn [snd app]; rewrite ?drop_0, ?to_nat_blen;
    destruct (_ =? _)%N eqn:E2; simp_eqs; cbn [tx sent]; try done.
  - destruct (contents s j); [by rewrite app_nil_r|]. rewrite blen_cons in E2. lia.
  - rewrite drop_ge by (unfold blen in *; lia). by rewrite app_nil_r.
Qed.

(** ** Witnesses *)
Lemma portable_agrees_without_rotation_witness :
  sent (tx (portable_run demo_log 0
      [[]; take 3 (encode_event (demo_entry "b")); drop 3 (encode_event (demo_entry "b"))]
      (mkFollow events_default chan_open (quiet demo_follow_fs))).2) =
    [Ok (demo_entry "a"); Ok (demo_entry "b")].
Proof.
  rewrite (portable_agrees_without_rotation demo_log 0 [] [take 3 (encode_event (demo_entry "b"));
    drop 3 (encode_event (demo_entry "b"))] demo_follow_fs eq_refl).
  vm_compute. reflexivity.
Defined.

(** The old file held "a", which was read, and "b"; the new one holds "ccc":
    neither "b" nor "ccc" is delivered. *)
Lemma portable_rotation_loses_witness :
  sent (tx (portable_poll demo_log (blind (caught_up (encode_event (demo_entry "a")) 0
    [Ok (demo_entry "a")] (demo_rotated_fs (encode_events [demo_entry "a"; demo_entry "b"])
      (encode_event (demo_entry "ccc")))))).2) = [Ok (demo_entry "a")].
Proof.
  rewrite (portable_rotation_loses demo_log (encode_event (demo_entry "a")) 0%N 1%N);
    vm_compute; reflexivity.
Defined.
