(* ===== verification/FollowHandle.v ===== *)
(** * The handle of a log follower ([src/logs.rs], [LogFollower])

    The client holds the receiving half of a bounded channel and the handle of
    the task that runs [follow_loop].  The channel is tokio's, so it is a
    parameter: [Mpsc] states that a send completes when there is room and that
    receives see the sends in order.  The task and the receiver take turns in
    any order; whatever it is, the receiver sees what [follow_loop] sends, in
    order and without loss, and never more than [FOLLOW_CHANNEL_CAP] entries
    wait.  The back-pressure file LogFollower leaves out is here. *)

From S2P Require Import Prelude RustText RustFmt Errors Effects FileSystem LogCodec LogFiles LogTailer LogFollower.

Definition FOLLOW_CHANNEL_CAP : nat := 256.

Abbreviation Item := (Result LogEntry).

(** ** The channel *)
Class Mpsc : Type := mkMpsc {
  channel : Type;
  mpsc_channel : nat -> channel;
  (** a send that completes now; [None] while the channel is full *)
  push_item : Item -> channel -> option channel;
  pop_item : channel -> option (Item * channel);
  waiting : channel -> list Item;
  capacity : channel -> nat;
  new_waiting n : waiting (mpsc_channel n) = [];
  new_capacity n : capacity (mpsc_channel n) = n;
  push_law x c :
    match push_item x c with
    | Some c' => waiting c' = waiting c ++ [x] /\ capacity c' = capacity c /\
                 length (waiting c) < capacity c
    | None => capacity c <= length (waiting c)
    end;
  pop_law c :
    match pop_item c with
    | Some (x, c') => waiting c = x :: waiting c' /\ capacity c' = capacity c
    | None => waiting c = []
    end
}.

Section handle.
Context `{Mpsc}.

(** [JoinHandle<()>] of the task: what it has still to send, and whether it
    returns after that. *)
Record JoinHandle : Type := mkJoinHandle { todo : list Item; returns : bool }.

Record LogFollower : Type := mkLogFollower { rx : channel; task : JoinHandle }.

(** [tokio::spawn(follow_loop(events_path, tx, stop))], for a receiver that
    stays.  [rounds] says how often it sleeps and when [stop] fires. *)
Definition spawn_follow_loop (events_path : path) (rounds : list FollowRound) (d : FsSt) :
    JoinHandle :=
  let r := follow_loop events_path rounds (mkFollow events_default chan_open d) in
  mkJoinHandle (sent (tx r.2)) (match r.1 with FDone => true | FRunning => false end).

Definition start_inner (events_path : path) (rounds : list FollowRound) (d : FsSt) : LogFollower :=
  mkLogFollower (mpsc_channel FOLLOW_CHANNEL_CAP) (spawn_follow_loop events_path rounds d).

(** Without [stop], and with one that fires after [n] sleeps. *)
Definition start (events_path : path) (n : nat) (d : FsSt) : LogFollower :=
  start_inner events_path (replicate n FSlept) d.
Definition start_with_stop (events_path : path) (n : nat) (d : FsSt) : LogFollower :=
  start_inner events_path (replicate n FSlept ++ [FStop]) d.

(** The sender lives as long as the task. *)
Definition is_finished (j : JoinHandle) : bool :=
  match todo j with [] => returns j | _ => false end.

(** The runtime polls the task: one more send, unless it waits for room. *)
Definition poll_task (f : LogFollower) : LogFollower :=
  match todo (task f) with
  | [] => f
  | x :: xs =>
      match push_item x (rx f) with
      | Some c => mkLogFollower c (mkJoinHandle xs (returns (task f)))
      | None => f
      end
  end.

(** [Poll<Option<Result<LogEntry>>>]. *)
Inductive Poll : Type := Ready (x : option Item) | Pending.

Definition poll_next (f : LogFollower) : Poll * LogFollower :=
  match pop_item (rx f) with
  | Some (x, c) => (Ready (Some x), mkLogFollower c (task f))
  | None => (if is_finished (task f) then Ready None else Pending, f)
  end.

(** [recv().await]: polled again each time the task has made progress, at
    most [n] times. *)
Fixpoint recv (n : nat) (f : LogFollower) : Poll * LogFollower :=
  match n, poll_next f with
  | S n, (Pending, f) => recv n (poll_task f)
  | _, r => r
  end.

(** [Drop]: the task is aborted. *)
Definition follower_drop (f : LogFollower) : LogFollower :=
  mkLogFollower (rx f) (mkJoinHandle [] true).

(** ** Schedules *)
Inductive Turn : Type := TTask | TPoll.

(** What the receiver got, over a sequence of turns. *)
Fixpoint turns (ts : list Turn) (f : LogFollower) : list Item * LogFollower :=
  match ts with
  | [] => ([], f)
  | TTask :: ts => turns ts (poll_task f)
  | TPoll :: ts =>
      let '(p, f) := poll_next f in
      let '(xs, f) := turns ts f in
      (match p with Ready (Some x) => x :: xs | _ => xs end, f)
  end.

(** [while let Some(x) = f.recv().await], for at most [n] entries; the flag
    says that the channel was closed. *)
Fixpoint collect (n : nat) (f : LogFollower) : list Item * bool :=
  match n with
  | O => ([], false)
  | S n =>
      match recv 1 f with
      | (Ready (Some x), f) => let r := collect n f in (x :: r.1, r.2)
      | (Ready None, _) => ([], true)
      | (Pending, _) => ([], false)
      end
  end.

(** * Lemmas *)

(** What the receiver has still to get. *)
Definition ahead (f : LogFollower) : list Item := waiting (rx f) ++ todo (task f).

Lemma poll_task_ahead f :
  ahead (poll_task f) = ahead f /\ capacity (rx (poll_task f)) = capacity (rx f) /\
  returns (task (poll_task f)) = returns (task f) /\
  (length (waiting (rx f)) <= capacity (rx f) ->
   length (waiting (rx (poll_task f))) <= capacity (rx f)).
Proof.
  unfold poll_task, ahead. destruct f as [c [[|x xs] b]]; cbn; [done|].
  pose proof (push_law x c) as P. destruct (push_item x c) as [c'|]; cbn; [|done].
  destruct P as (-> & -> & P). rewrite <- app_assoc, length_app. cbn. split_and!; auto; lia.
Qed.

Lemma poll_next_ahead f :
  match poll_next f with
  | (Ready (Some x), f') => ahead f = x :: ahead f'
  | (Ready None, f') => f' = f /\ ahead f = [] /\ returns (task f) = true
  | (Pending, f') => f' = f /\ waiting (rx f) = []
  end /\ capacity (rx (poll_next f).2) = capacity (rx f) /\
  length (waiting (rx (poll_next f).2)) <= length (waiting (rx f)) /\
  returns (task (poll_next f).2) = returns (task f).
Proof.
  unfold poll_next, ahead, is_finished. pose proof (pop_law (rx f)) as P.
  destruct (pop_item (rx f)) as [[x c]|]; cbn.
  - destruct P as [-> ->]. cbn. split_and!; auto.
  - rewrite P. destruct f as [c [[|y ys] []]]; cbn; auto 10.
Qed.

Lemma turns_ahead ts f :
  length (waiting (rx f)) <= capacity (rx f) ->
  let '(got, f') := turns ts f in
  ahead f = got ++ ahead f' /\ length (waiting (rx f')) <= capacity (rx f) /\
  capacity (rx f') = capacity (rx f) /\ returns (task f') = returns (task f).
Proof.
  revert f. induction ts as [|t ts IH]; intros f Hf; cbn [turns]; [done|]. destruct t.
  - destruct (poll_task_ahead f) as (<- & Hc & Hr & Hl). specialize (IH (poll_task f)).
    rewrite Hc, Hr in IH. apply IH. by apply Hl.
  - destruct (poll_next_ahead f) as (Ha & Hc & Hl & Hr). destruct (poll_next f) as [p f1]. cbn in *.
    specialize (IH f1). rewrite Hc, Hr in IH. destruct (turns ts f1) as [xs f2].
    destruct IH as (I1 & I2 & I3); [lia|]. split; [|done].
    destruct p as [[x|]|]; [by rewrite Ha, I1|by destruct Ha as (<- & _)..].
Qed.

(** One progress of the task is enough to receive the next entry. *)
Lemma recv_next f x l :
  0 < capacity (rx f) -> ahead f = x :: l ->
  exists f', recv 1 f = (Ready (Some x), f') /\ ahead f' = l /\
    capacity (rx f') = capacity (rx f) /\ returns (task f') = returns (task f).
Proof.
  intros Hcap Ha. cbn [recv]. destruct (poll_next_ahead f) as (Hp & Hc & _ & Hr).
  destruct (poll_next f) as [p f1] eqn:E1. cbn in Hc, Hr. destruct p as [[y|]|].
  - rewrite Hp in Ha. injection Ha as -> <-. by eauto 10.
  - destruct Hp as (_ & Hp & _). congruence.
  - destruct Hp as [-> Hw]. destruct (poll_task_ahead f) as (Ta & Tc & Tr & _).
    destruct (poll_next_ahead (poll_task f)) as (Hp & Hc2 & _ & Hr2).
    destruct (poll_next (poll_task f)) as [p f2] eqn:E2. cbn in Hc2, Hr2.
    rewrite Ta, Ha in Hp. destruct p as [[y|]|].
    + injection Hp as <- ->. exists f2. rewrite <- Tc, <- Tr. eauto.
    + destruct Hp as (_ & Hp & _). congruence.
    + destruct Hp as [_ Hp]. exfalso. unfold ahead in Ha. rewrite Hw in Ha. cbn in Ha.
      unfold poll_task in Hp. rewrite Ha in Hp. pose proof (push_law x (rx f)) as P.
      destruct (push_item x (rx f)); cbn in Hp.
      * destruct P as [P _]. rewrite P in Hp. by destruct (waiting (rx f)).
      * rewrite Hw in P. cbn in P. lia.
Qed.

Lemma recv_end f :
  ahead f = [] -> (recv 1 f).1 = if returns (task f) then Ready None else Pending.
Proof.
  intros Ha. unfold ahead in Ha. apply app_eq_nil in Ha as [Hw Ht]. cbn [recv].
  assert (Hn : poll_next f = (if returns (task f) then Ready None else Pending, f)).
  { unfold poll_next, is_finished. pose proof (pop_law (rx f)) as P. rewrite Hw in P.
    destruct (pop_item (rx f)) as [[x c]|]; [by destruct P|]. by rewrite Ht. }
  rewrite Hn. destruct (returns (task f)) eqn:Hr; [done|].
  unfold poll_task. rewrite Ht, Hn. done.
Qed.

Lemma collect_all l f n :
  0 < capacity (rx f) -> ahead f = l -> length l < n ->
  collect n f = (l, returns (task f)).
Proof.
  revert f n. induction l as [|x l IH]; intros f [|n] Hc Ha Hn; [lia| |lia|]; cbn [collect].
  - pose proof (recv_end f Ha) as R. destruct (recv 1 f) as [p f']. cbn in R. subst p.
    by destruct (returns (task f)).
  - destruct (recv_next f x l Hc Ha) as (f' & -> & Ha' & Hc' & Hr).
    rewrite (IH f' n); [by rewrite Hr|by rewrite Hc'|done|cbn in Hn; lia].
Qed.

Lemma start_inner_ahead p rounds d :
  ahead (start_inner p rounds d) = todo (spawn_follow_loop p rounds d) /\
  capacity (rx (start_inner p rounds d)) = FOLLOW_CHANNEL_CAP /\
  waiting (rx (start_inner p rounds d)) = [].
Proof. unfold start_inner, ahead. cbn. by rewrite new_waiting, new_capacity. Qed.

End handle.

(** ** Following a file that has grown to its end *)
Section whole_file.
Context (p : path) (i : N) (s : FS) (c := contents s i).
Context (Hp : fs_dir s !! p = Some i) (Hs : ~ stuck (decode_all c).2).

Lemma poll_again snt : poll_events_once p (caught_up c i snt s) = (Continue, caught_up c i snt s).
Proof.
  rewrite (poll_caught_up p c [] i snt s) by (rewrite ?app_nil_r; try done; by apply kept_id).
  by rewrite !app_nil_r, decode_rest, app_nil_r.
Qed.

Lemma follow_rest n snt :
  follow_loop p (replicate n FSlept ++ [FStop]) (caught_up c i snt s) =
    (FDone, caught_up c i snt s).
Proof.
  pose proof (poll_again snt) as Hq.
  induction n as [|n IH]; cbn [replicate app follow_loop].
  - do 2 (rewrite (run_bind _ _ _ _ _ Hq); cbv iota). done.
  - rewrite (run_bind _ _ _ _ _ Hq). cbv iota. exact IH.
Qed.

Lemma spawn_stopped n :
  spawn_follow_loop p (replicate n FSlept ++ [FStop]) (quiet s) =
    mkJoinHandle (Ok <$> parse_events_file c) true.
Proof.
  unfold spawn_follow_loop. pose proof (poll_first p i [] s Hp (kept_id _ Hs)) as H1.
  fold c in H1. cbn [app] in H1. unfold chan_open.
  enough (E : follow_loop p (replicate n FSlept ++ [FStop])
      (mkFollow events_default (mkChan [] None) (quiet s)) =
      (FDone, caught_up c i (Ok <$> (decode_all c).1) s)) by (by rewrite E).
  destruct n as [|n]; cbn [replicate app follow_loop]; rewrite (run_bind _ _ _ _ _ H1); cbv iota.
  - by rewrite (run_bind _ _ _ _ _ (poll_again _)).
  - apply follow_rest.
Qed.

End whole_file.

(** * Properties *)

(** C36. The stream of a follower that is stopped gives the records of the file,
    then ends: over a file that has its final contents, whatever turns the
    task and the receiver have taken, what the receiver got together with
    what it gets by calling [recv] until the end is the parse of the whole
    file, no more than [FOLLOW_CHANNEL_CAP] entries ever wait, and the channel
    is closed after the last one.  Nothing is lost to back-pressure. *)
Theorem stopped_stream_is_the_log `{Mpsc} p i s k ts n :
  fs_dir s !! p = Some i -> ~ stuck (decode_all (contents s i)).2 ->
  length (parse_events_file (contents s i)) < n ->
  let '(got, f) := turns ts (start_with_stop p k (quiet s)) in
  got ++ (collect n f).1 = Ok <$> parse_events_file (contents s i) /\
  (collect n f).2 = true /\ length (waiting (rx f)) <= FOLLOW_CHANNEL_CAP.
Proof.
  intros Hp Hs Hn. set (f0 := start_with_stop p k (quiet s)).
  pose proof (spawn_stopped p i s Hp Hs k : task f0 = _) as Ht.
  destruct (start_inner_ahead p (replicate k FSlept ++ [FStop]) (quiet s)) as (Ha & Hc & Hw).
  change (start_inner _ _ _) with f0 in Ha, Hc, Hw. rewrite (spawn_stopped p i s Hp Hs) in Ha.
  pose proof (turns_ahead ts f0) as T. rewrite Hw, Hc in T. specialize (T (Nat.le_0_l _)).
  destruct (turns ts f0) as [got f]. destruct T as (Tf & Tl & Tc & Tr). rewrite Ha in Tf. cbn in Tf.
  rewrite (collect_all (ahead f) f n); [|rewrite Tc; unfold FOLLOW_CHANNEL_CAP; lia|done|].
  - split; [done|]. split; [|done]. cbn. by rewrite Tr, Ht.
  - apply (f_equal length) in Tf. rewrite length_fmap, length_app in Tf. lia.
Qed.

(** * A channel *)
#[export] Program Instance list_mpsc : Mpsc := {|
  channel := nat * list Item;
  mpsc_channel n := (n, []);
  push_item x c := if decide (length c.2 < c.1) then Some (c.1, c.2 ++ [x]) else None;
  pop_item c := match c.2 with x :: l => Some (x, (c.1, l)) | [] => None end;
  waiting c := c.2;
  capacity c := c.1
|}.
Next Obligation. done. Qed.
Next Obligation. done. Qed.
Next Obligation.
  intros x [n l]. cbn. case_decide; cbn; [done|lia].
Qed.
Next Obligation. by intros [n [|x l]]. Qed.

Lemma stopped_stream_is_the_log_witness :
  let f := (turns [TTask; TPoll; TPoll; TTask] (start_with_stop demo_log 1 (quiet demo_follow_fs))).2 in
  (turns [TTask; TPoll; TPoll; TTask] (start_with_stop demo_log 1 (quiet demo_follow_fs))).1 ++
    (collect 2 f).1 = [Ok (demo_entry "a")] /\ (collect 2 f).2 = true.
Proof.
  cbv zeta.
  assert (Hs : ~ stuck (decode_all (contents demo_follow_fs 0)).2)
    by (intros [H _]; vm_compute in H; discriminate H).
  pose proof (stopped_stream_is_the_log demo_log 0 demo_follow_fs 1 [TTask; TPoll; TPoll; TTask] 2
    eq_refl Hs ltac:(vm_compute; lia)) as T.
  destruct (turns _ _) as [got f]. destruct T as (T1 & T2 & _).
  split; [|exact T2]. cbn [fst snd]. rewrite T1. vm_compute. reflexivity.
Defined.
