(* ===== verification/LogPipeline.v ===== *)
(** * From the container's output to the log stream
    ([src/log_tailer.rs] with [src/logs.rs])

    The shim appends to the two raw files, the tailer moves their bytes into
    [events.log] and rotates it, the follower polls [events.log] and sends the
    records down its channel.  [Pipe] composes the three over one file system;
    the order of the steps is any list of [Action]s.

    [Feed] is what the log stream promises: a queue of the lines of each
    stream, with no files, codec, inodes or rotation.  The composition refines
    it as long as the follower is not left more than [EVENTS_ROTATE_BYTES]
    behind, so that [events.log] rotates at most once between two polls.

    A pass of the tailer and a poll of the follower are one step each: nothing
    else touches the files between their file operations.  What an append
    between two operations of one poll costs is
    [LogFollower.concurrent_append_duplicates], and what the other writers may
    do between any two operations is the schedule of file FileSystem. *)

From S2P Require Import Prelude RustText RustFmt Errors Effects FileSystem LogCodec LogFiles LogTailer LogFollower.

(** ** The composed system *)
Inductive Action : Type :=
| Write (k : LogStream) (b : bytes)
| Drain (k : LogStream) (now : SystemTime)
| Poll.

Inductive Outcome : Type :=
| OWritten
| ODrained (r : Result unit)
| OPolled (o : PollOutcome).

Record Pipe : Type := mkPipe {
  tails : LoopState;
  feed_state : EventsTailState;
  chan : Chan;
  pdisk : FsSt
}.

(** The shim's handles are [out] and [err]. *)
Record Handles : Type := mkHandles { h_out : N; h_err : N }.

Definition handle_of (hs : Handles) (k : LogStream) : N :=
  match k with Stdout => h_out hs | Stderr => h_err hs end.

Section pipe.
Context (so se ev : path) (hs : Handles).

Definition raw_of (k : LogStream) : path := match k with Stdout => so | Stderr => se end.

Definition drain_of (k : LogStream) (now : SystemTime) : ST (LoopState * FsSt) (Result unit) :=
  match k with Stdout => drain_out so ev now | Stderr => drain_err se ev now end.

Definition pipe_act (a : Action) : ST Pipe Outcome := fun p =>
  match a with
  | Write k b =>
      (OWritten, mkPipe (tails p) (feed_state p) (chan p)
                   (grow (handle_of hs k) b (pdisk p)).2)
  | Drain k now =>
      let '(r, (l, d)) := drain_of k now (tails p, pdisk p) in
      (ODrained r, mkPipe l (feed_state p) (chan p) d)
  | Poll =>
      let '(o, st) := poll_events_once ev (mkFollow (feed_state p) (chan p) (pdisk p)) in
      (OPolled o, mkPipe (tails p) (ets st) (tx st) (disk st))
  end.

Fixpoint pipe_run (acts : list Action) : ST Pipe (list Outcome) :=
  match acts with
  | [] => mret []
  | a :: acts => o ← pipe_act a; os ← pipe_run acts; mret (o :: os)
  end.

End pipe.

Definition pipe_start (s : FS) : Pipe := mkPipe loop_default events_default chan_open (quiet s).

(** Nothing failed and nobody left. *)
Definition smooth (o : Outcome) : Prop :=
  match o with
  | OWritten => True
  | ODrained r => r = Ok tt
  | OPolled o => o = Continue
  end.

(** ** The abstract specification *)

(** One stream: all that was written, how much of it was taken, and the part
    of a line taken last. *)
Record Source : Type := mkSource { written : bytes; taken : N; partial : bytes }.

Record Feed : Type := mkFeed {
  f_out : Source;
  f_err : Source;
  delivered : list LogEntry;
  pending : list LogEntry
}.

Definition source (k : LogStream) (f : Feed) : Source :=
  match k with Stdout => f_out f | Stderr => f_err f end.

Definition set_source (k : LogStream) (z : Source) (f : Feed) : Feed :=
  match k with
  | Stdout => mkFeed z (f_err f) (delivered f) (pending f)
  | Stderr => mkFeed (f_out f) z (delivered f) (pending f)
  end.

(** The lines of a buffer, and what is left after them. *)
Definition cut (whole : bytes) : list bytes * bytes :=
  let ls := batch_lines whole in (ls, drop (length (concat ls)) whole).

Definition feed_act (a : Action) (f : Feed) : Feed :=
  match a with
  | Write k b =>
      let z := source k f in set_source k (mkSource (written z ++ b) (taken z) (partial z)) f
  | Drain k now =>
      let z := source k f in
      let chunk := next_chunk (written z) (taken z) in
      let '(ls, rest) := cut (partial z ++ chunk) in
      let f' := set_source k (mkSource (written z) (taken z + blen chunk)%N rest) f in
      mkFeed (f_out f') (f_err f') (delivered f) (pending f ++ (mkLogEntry k now <$> ls))
  | Poll => mkFeed (f_out f) (f_err f) (delivered f ++ pending f) []
  end.

Definition feed_run (acts : list Action) (f : Feed) : Feed := foldl (fun f a => feed_act a f) f acts.

Definition feed_start (out err : bytes) : Feed :=
  mkFeed (mkSource out 0 []) (mkSource err 0 []) [] [].

(** The follower polls before [EVENTS_ROTATE_BYTES] of records are waiting. *)
Fixpoint keeps_up (f : Feed) (acts : list Action) : bool :=
  (blen (encode_events (pending f)) <=? EVENTS_ROTATE_BYTES)%N &&
  match acts with [] => true | a :: acts => keeps_up (feed_act a f) acts end.

(** * Lemmas on the specification *)
Section spec.

Lemma drop_prefix {A} (a b c : list A) : a ++ b = c -> drop (length a) c = b.
Proof. intros <-. apply drop_app_length. Qed.

(** What the tailer carries over is what the specification carries over. *)
Lemma cut_rest now k whole : (cut whole).2 = (encode_batch now k whole).2.
Proof. apply drop_prefix, encode_batch_conserves. Qed.

Lemma cut_conserves whole : concat (cut whole).1 ++ (cut whole).2 = whole.
Proof. rewrite (cut_rest 0 Stdout). apply encode_batch_conserves. Qed.

Lemma split_lines_idle cur l : no_nl l -> split_lines cur l = ([], cur ++ l).
Proof.
  intros H. revert cur. induction H as [|b l Hb _ IH]; intros cur; simpl; [by rewrite app_nil_r|].
  apply byte_is_false in Hb. rewrite Hb, IH. by rewrite <-app_assoc.
Qed.

(** An unfinished line stays. *)
Lemma cut_idle l : no_nl l -> (blen l < MAX_LEFTOVER_BYTES)%N -> cut l = ([], l).
Proof.
  intros Hn Hl. unfold cut, batch_lines. rewrite split_lines_idle by done. cbn [app].
  rewrite (proj2 (N.leb_gt _ _)) by done. by rewrite andb_false_r.
Qed.

Lemma source_set k z f : source k (set_source k z f) = z.
Proof. by destruct k. Qed.

Lemma source_set_ne k j z f : k <> j -> source j (set_source k z f) = source j f.
Proof. by destruct k, j. Qed.

Lemma feed_run_app xs ys f : feed_run (xs ++ ys) f = feed_run ys (feed_run xs f).
Proof. unfold feed_run. by rewrite foldl_app. Qed.

(** ** The bytes of a feed *)

(** The data of the records of one stream. *)
Definition of_stream (k : LogStream) (es : list LogEntry) : bytes :=
  concat (data <$> filter (fun e => stream e = k) es).

Lemma of_stream_app k es es' : of_stream k (es ++ es') = of_stream k es ++ of_stream k es'.
Proof. unfold of_stream. by rewrite filter_app, fmap_app, concat_app. Qed.

Lemma of_stream_mk k j now ls :
  of_stream k (mkLogEntry j now <$> ls) = if decide (j = k) then concat ls else [].
Proof.
  unfold of_stream. destruct (decide (j = k)) as [->|H].
  - induction ls as [|l ls IH]; [done|]. rewrite fmap_cons, filter_cons_True by done.
    rewrite fmap_cons. cbn [concat data]. by rewrite IH.
  - induction ls as [|l ls IH]; [done|]. rewrite fmap_cons. by rewrite filter_cons_False.
Qed.

Lemma of_stream_trunc k es : of_stream k (trunc_entry <$> es) = of_stream k es.
Proof.
  unfold of_stream. induction es as [|e es IH]; [done|]. rewrite fmap_cons, !filter_cons.
  change (stream (trunc_entry e)) with (stream e).
  destruct (decide _); [|done]. rewrite !fmap_cons. cbn [concat]. by rewrite IH.
Qed.

(** What a stream's source owes to its records. *)
Definition source_ok (k : LogStream) (f : Feed) : Prop :=
  let z := source k f in
  of_stream k (delivered f ++ pending f) ++ partial z = take (N.to_nat (taken z)) (written z) /\
  (taken z <= blen (written z))%N /\ (blen (partial z) < MAX_LEFTOVER_BYTES)%N /\
  no_nl (partial z).

Lemma source_ok_start k out err : source_ok k (feed_start out err).
Proof. split_and!; destruct k; cbn; try done; try lia; constructor. Qed.

Lemma feed_act_ok k a f : source_ok k f -> source_ok k (feed_act a f).
Proof.
  intros (Hd & Ht & Hp & Hn). unfold source_ok. destruct a as [j b|j now|]; cbn [feed_act].
  - destruct (decide (j = k)) as [->|Hne].
    + rewrite source_set. cbn [written taken partial].
      assert (forall z, delivered (set_source k z f) = delivered f) as -> by by destruct k.
      assert (forall z, pending (set_source k z f) = pending f) as -> by by destruct k.
      split_and!; [|rewrite blen_app; lia|done..].
      rewrite take_app_le by (unfold blen in Ht; lia). done.
    + rewrite source_set_ne by done. by destruct j, k.
  - set (z := source j f) in *. set (chunk := next_chunk (written z) (taken z)).
    set (whole := partial z ++ chunk). pose proof (cut_conserves whole) as Hc.
    pose proof (cut_rest now j whole) as Hr.
    destruct (encode_batch_conserves now j whole) as [_ Hl].
    pose proof (encode_batch_rest now j whole) as Hnl. rewrite <-Hr in Hl, Hnl.
    destruct (cut whole) as [ls rest]. cbn [fst snd delivered pending] in *.
    rewrite app_assoc, of_stream_app, of_stream_mk.
    destruct (decide (j = k)) as [->|Hne].
    + assert (forall z d p, source k (mkFeed (f_out (set_source k z f)) (f_err (set_source k z f)) d p)
        = z) as -> by by destruct k. fold z in Hd, Ht. cbn [written taken partial].
      pose proof (next_chunk_length (written z) (taken z) Ht) as Hcl. fold chunk in Hcl.
      split_and!; [|lia|done..].
      rewrite <-app_assoc, Hc. unfold whole. rewrite app_assoc, Hd.
      by apply next_chunk_prefix.
    + assert (forall z d p, source k (mkFeed (f_out (set_source j z f)) (f_err (set_source j z f)) d p)
        = source k f) as -> by by destruct j, k. by rewrite app_nil_r.
  - assert (forall d p, source k (mkFeed (f_out f) (f_err f) d p) = source k f) as ->
      by by destruct k. cbn [delivered pending]. by rewrite app_nil_r.
Qed.

Lemma feed_run_ok k acts f : source_ok k f -> source_ok k (feed_run acts f).
Proof.
  revert f. induction acts as [|a acts IH]; intros f H; [done|]. cbn. by apply IH, feed_act_ok.
Qed.

(** The bytes the actions write to a stream. *)
Definition wrote (k : LogStream) (a : Action) : bytes :=
  match a with Write j b => if decide (j = k) then b else [] | _ => [] end.

Lemma feed_run_written k acts f :
  written (source k (feed_run acts f)) = written (source k f) ++ concat (wrote k <$> acts).
Proof.
  revert f. induction acts as [|a acts IH]; intros f; [by rewrite app_nil_r|].
  cbn [fmap list_fmap concat]. rewrite app_assoc.
  change (feed_run (a :: acts) f) with (feed_run acts (feed_act a f)). rewrite IH. f_equal.
  destruct a as [j b|j now|]; [| |by destruct k; cbn; rewrite app_nil_r].
  - cbn. destruct j, k; cbn; by rewrite ?app_nil_r.
  - destruct j, k; cbn; by rewrite ?app_nil_r.
Qed.

End spec.

(** * What an append does to the disk *)
Section disk.
Context (d : path).
Abbreviation ev := (d ++ ["events.log"]).

(** Append to the file, made if it is missing. *)
Definition put (b : bytes) (s : FS) : FS :=
  match fs_dir s !! ev with
  | Some i => set_contents i (contents s i ++ b) s
  | None => set_contents (fs_next s) b (create_at ev [] s)
  end.

Definition logged (b : bytes) (s : FS) : FS := put b (rotated_or_not d s (blen b)).

Lemma append_batch_logged b s : append_batch ev b (quiet s) = (Ok tt, quiet (logged b s)).
Proof.
  unfold append_batch, logged, put. erewrite run_try_ok by apply rotate_quiet.
  fold (rotated_or_not d s (blen b)). set (s1 := rotated_or_not d s (blen b)).
  destruct (fs_dir s1 !! ev) as [i|] eqn:Ei.
  - erewrite run_try_ok by by apply open_append_existing.
    by erewrite run_try_ok by apply append_write.
  - erewrite run_try_ok by by apply open_append_fresh.
    erewrite run_try_ok by apply append_write.
    rewrite run_ret, contents_create_new. done.
Qed.

Lemma put_file b s : file_or_empty (put b s) ev = file_or_empty s ev ++ b.
Proof.
  unfold put, file_or_empty, file. destruct (fs_dir s !! ev) as [i|] eqn:E; simpl fs_dir.
  - rewrite E. apply contents_set_eq.
  - rewrite lookup_insert_eq. apply contents_set_eq.
Qed.

Lemma put_wf b s : fs_wf s -> fs_wf (put b s).
Proof. unfold put. intros H. destruct (fs_dir s !! ev); [done|]. by apply (fs_wf_create ev []). Qed.

Lemma put_frame b s : frame d s (put b s).
Proof.
  unfold put. destruct (fs_dir s !! ev) as [i|] eqn:E; [by apply frame_set|].
  eapply frame_trans; [apply frame_create|]. apply frame_set. apply lookup_insert_eq.
Qed.

(** Only the entry of [events.log] can be new. *)
Lemma put_dir b s q i :
  fs_dir s !! q = Some i -> fs_dir (put b s) !! q = Some i.
Proof.
  unfold put. destruct (fs_dir s !! ev) as [j|] eqn:E; [done|]. intros H. simpl.
  rewrite lookup_insert_ne; [done|]. by intros <-; rewrite H in E.
Qed.

Lemma put_contents b s i :
  fs_wf s -> (i < fs_next s)%N ->
  contents (put b s) i =
    if decide (fs_dir s !! ev = Some i) then contents s i ++ b else contents s i.
Proof.
  intros Hwf Hi. unfold put. destruct (fs_dir s !! ev) as [j|] eqn:E.
  - destruct (decide _) as [[= ->]|H]; [apply contents_set_eq|].
    apply contents_set_ne. congruence.
  - rewrite decide_False by done. rewrite contents_set_ne by lia. by apply contents_create.
Qed.

Lemma logged_wf b s : fs_wf s -> fs_wf (logged b s).
Proof. intros H. by apply put_wf, rotated_or_not_wf. Qed.

Lemma logged_frame b s : frame d s (logged b s).
Proof. eapply frame_trans; [apply frame_rotated_or_not|apply put_frame]. Qed.

(** The entries that are no log file stay. *)
Lemma logged_dir b s q i :
  (forall n, n <= MAX_ROTATED_FILES -> q <> slot ev n) ->
  fs_dir s !! q = Some i -> fs_dir (logged b s) !! q = Some i.
Proof.
  intros Hq H. apply put_dir. unfold rotated_or_not. destruct (_ <=? _)%N; [done|].
  simpl fs_dir. rewrite lookup_insert_ne by (symmetry; apply (Hq 0); lia).
  destruct (shifts_lookup d 5 (delete (slot ev 5) (fs_dir s))) as (_ & _ & Hs);
    [apply lookup_delete_eq|].
  rewrite Hs by done. rewrite lookup_delete_ne; [done|].
  symmetry. apply (Hq 5). unfold MAX_ROTATED_FILES. lia.
Qed.

(** Within the limit there is no rotation. *)
Lemma rotated_or_not_below s n :
  (blen (file_or_empty s ev) + n <= EVENTS_ROTATE_BYTES)%N -> rotated_or_not d s n = s.
Proof.
  intros H. unfold rotated_or_not, saturating_add.
  rewrite (proj2 (N.leb_le _ _)); [done|]. lia.
Qed.

(** A rotation keeps the current file under the name [events.log.1]. *)
Lemma rotate_current s i :
  fs_wf s -> fs_dir s !! ev = Some i ->
  fs_dir (rotate_fs ev s) !! rotated_path ev 1 = Some i /\
  fs_dir (rotate_fs ev s) !! ev = Some (fs_next s) /\
  contents (rotate_fs ev s) (fs_next s) = [] /\
  contents (rotate_fs ev s) i = contents s i /\ (i < fs_next s)%N.
Proof.
  intros Hwf Hi. assert (Hlt : (i < fs_next s)%N) by by eapply Hwf.
  split_and!; [| | | |done].
  - simpl fs_dir. rewrite lookup_insert_ne by (intros E; by apply (slot_inj d 0 1) in E).
    destruct (shifts_lookup d 5 (delete (slot ev 5) (fs_dir s))) as (_ & Hs & _);
      [apply lookup_delete_eq|].
    change (rotated_path ev 1) with (slot ev 1). rewrite Hs by lia.
    rewrite lookup_delete_ne; [done|]. by intros ?%slot_inj.
  - apply lookup_insert_eq.
  - apply (contents_create_new ev [] (with_dir s _)).
  - by apply (contents_create ev [] (with_dir s _)).
Qed.

(** Without a rotation, an append adds its records to the history. *)
Lemma logged_history es s :
  fs_wf s -> clean (file_or_empty s ev) -> Forall entry_ok es ->
  (blen (file_or_empty s ev) + blen (encode_events es) <= EVENTS_ROTATE_BYTES)%N ->
  let s' := logged (encode_events es) s in
  history s' ev = history s ev ++ (trunc_entry <$> es) /\ clean (file_or_empty s' ev) /\
  file_or_empty s' ev = file_or_empty s ev ++ encode_events es.
Proof.
  intros Hwf Hc Hes Hsz s'.
  destruct (append_batch_quiet d s es Hwf Hc Hes) as (s2 & Ha & _ & Hc' & _ & Hh).
  rewrite append_batch_logged in Ha. injection Ha as <-. rewrite rotated_or_not_below in Hh by done.
  split_and!; [done|done|]. unfold s', logged. by rewrite rotated_or_not_below, put_file.
Qed.

End disk.

(** * The follower's lag *)
Section lag.
Context (d : path).
Abbreviation ev := (d ++ ["events.log"]).

(** The records [pend] are in the files, past what a follower in state [e] has
    read: it never opened the file, it stands in the current file, or it stands
    in the file rotated since. *)
Inductive lag (s : FS) (pend : list LogEntry) : EventsTailState -> Prop :=
| lag_unseen :
    file_or_empty s ev = encode_events pend -> lag s pend events_default
| lag_same i c :
    fs_dir s !! ev = Some i -> contents s i = c ++ encode_events pend -> clean c ->
    lag s pend (mkEventsTailState (blen c) [] (Some i))
| lag_rotated i j c p1 p2 :
    fs_dir s !! rotated_path ev 1 = Some i -> fs_dir s !! ev = Some j -> i <> j ->
    contents s i = c ++ encode_events p1 -> clean c ->
    contents s j = encode_events p2 -> pend = p1 ++ p2 ->
    lag s pend (mkEventsTailState (blen c) [] (Some i)).

Lemma file_at s i : fs_dir s !! ev = Some i -> file_or_empty s ev = contents s i.
Proof. intros H. unfold file_or_empty, file. by rewrite H. Qed.

Lemma lag_logged s pend es e :
  fs_wf s -> lag s pend e ->
  (blen (encode_events (pend ++ es)) <= EVENTS_ROTATE_BYTES)%N ->
  lag (logged d (encode_events es) s) (pend ++ es) e.
Proof.
  intros Hwf Hlag. rewrite encode_events_app, blen_app. intros Hsz. unfold logged.
  destruct Hlag as [Hf|i c Hi Hc Hcl|i j c p1 p2 Hr Hi Hij Hc Hcl Hj ->].
  - rewrite rotated_or_not_below by (rewrite Hf; lia). apply lag_unseen.
    by rewrite put_file, Hf, encode_events_app.
  - unfold rotated_or_not. destruct (_ <=? _)%N.
    + apply lag_same; [by apply put_dir| |done].
      rewrite put_contents, decide_True by (done || by eapply Hwf).
      by rewrite Hc, encode_events_app, app_assoc.
    + destruct (rotate_current d s i Hwf Hi) as (H1 & H0 & Hn & Hc' & Hlt).
      pose proof (rotate_wf d s Hwf) as Hwf'.
      eapply (lag_rotated _ _ i (fs_next s) c pend es); try done; try by apply put_dir.
      * lia.
      * rewrite put_contents, decide_False; [by rewrite Hc'| |done|by eapply Hwf'].
        rewrite H0. intros [= ?]. lia.
      * rewrite put_contents, decide_True; [by rewrite Hn|done|done|]. by eapply Hwf'.
  - rewrite encode_events_app, blen_app in Hsz.
    rewrite rotated_or_not_below by (rewrite (file_at s j), Hj by done; lia).
    eapply (lag_rotated _ _ i j c p1 (p2 ++ es)); try done; try by apply put_dir.
    + rewrite put_contents, decide_False; [done|congruence|done|]. by eapply Hwf.
    + rewrite put_contents, decide_True; [by rewrite Hj, encode_events_app|done|done|].
      by eapply Hwf.
    + by rewrite app_assoc.
Qed.

(** Writes to a raw file do not show. *)
Lemma lag_grow s pend e h b : unlogged d s h -> lag s pend e -> lag (set_contents h b s) pend e.
Proof.
  intros Hu Hlag.
  assert (Hne : forall n i, n <= 5 -> fs_dir s !! slot ev n = Some i ->
                 contents (set_contents h b s) i = contents s i).
  { intros n i Hn Hi. apply contents_set_ne. intros <-. by apply (Hu n). }
  destruct Hlag as [Hf|i c Hi Hc Hcl|i j c p1 p2 Hr Hi Hij Hc Hcl Hj ->].
  - apply lag_unseen. pose proof (file_or_empty_grow d s h b 0 Hu ltac:(lia)) as E.
    cbn [slot] in E. by rewrite E.
  - apply lag_same; [done| |done]. by rewrite (Hne 0) by (done || lia).
  - eapply (lag_rotated _ _ i j c p1 p2); try done.
    + by rewrite (Hne 1) by (done || lia).
    + by rewrite (Hne 0) by (done || lia).
Qed.

Lemma clean_encodes c es : clean c -> Forall entry_ok es -> clean (c ++ encode_events es).
Proof. intros Hc Hes. by apply parse_append. Qed.

(** A poll delivers what is waiting. *)
Lemma poll_lag s pend e snt :
  lag s pend e -> Forall entry_ok pend -> (blen (encode_events pend) <= EVENTS_ROTATE_BYTES)%N ->
  exists e', poll_events_once ev (mkFollow e (mkChan snt None) (quiet s)) =
      (Continue, mkFollow e' (mkChan (snt ++ (Ok <$> (trunc_entry <$> pend))) None) (quiet s)) /\
    lag s [] e'.
Proof.
  intros Hlag Hok Hsz.
  destruct Hlag as [Hf|i c Hi Hc Hcl|i j c p1 p2 Hr Hi Hij Hc Hcl Hj ->].
  - destruct (fs_dir s !! ev) as [i|] eqn:Hi.
    + rewrite (file_at s i Hi) in Hf. pose proof (decode_encodes pend Hok) as Hd.
      rewrite (poll_first ev i) by (rewrite ?Hf, ?Hd; done). unfold caught_up. rewrite Hf, Hd.
      eexists. split; [done|]. eapply lag_same; [done| |].
      * by rewrite Hf, app_nil_r.
      * unfold clean. by rewrite Hd.
    + assert (pend = []) as ->.
      { apply encode_events_nil. rewrite <-Hf. unfold file_or_empty, file. by rewrite Hi. }
      exists events_default. split; [|by apply lag_unseen]. unfold poll_events_once.
      erewrite run_bind.
      2:{ unfold on_disk, zoom, fs_open. cbn [disk]. rewrite op_quiet. cbn [fst snd]. by rewrite Hi. }
      cbn. by rewrite app_nil_r.
  - pose proof (clean_encodes c pend Hcl Hok) as Hcl'.
    pose proof (poll_caught_up ev c (encode_events pend) i snt s Hi Hc) as H.
    unfold caught_up in H. rewrite Hcl, Hcl' in H. rewrite H by done. cbn [app].
    rewrite decode_encodes by done. eexists. split; [done|].
    eapply lag_same; [done| |done]. by rewrite Hc, app_nil_r.
  - apply Forall_app in Hok as [Hok1 Hok2]. rewrite encode_events_app, blen_app in Hsz.
    pose proof (poll_over_rotation d c (encode_events p1) i j snt s) as H. cbv zeta in H.
    unfold caught_up, parse_events_file in H. rewrite Hj, !decode_encodes in H by done.
    rewrite Hcl in H. cbn [fst snd] in H. rewrite H; try done.
    + rewrite <-fmap_app. eexists. split; [done|]. eapply lag_same; [done| |].
      * by rewrite Hj, app_nil_r.
      * unfold clean. by rewrite decode_encodes.
    + unfold EVENTS_ROTATE_BYTES, ROTATED_DRAIN_MAX_BYTES in *. lia.
    + by intros [? _].
Qed.

End lag.

(** * The simulation *)
Section simulation.
Context (d so se : path) (hs : Handles) (Hhs : h_out hs <> h_err hs).
Abbreviation ev := (d ++ ["events.log"]).
Abbreviation raw := (raw_of so se).

(** The raw files are in place, and are no log files. *)
Definition raw_ready (s : FS) (k : LogStream) : Prop :=
  fs_dir s !! raw k = Some (handle_of hs k) /\ (handle_of hs k < fs_next s)%N /\
  unlogged d s (handle_of hs k).

Definition tail_state (k : LogStream) (l : LoopState) : TailState :=
  match k with Stdout => out_state l | Stderr => err_state l end.

(** The tailer's state of a stream and the stream's source. *)
Definition tail_sim (s : FS) (k : LogStream) (t : TailState) (z : Source) : Prop :=
  (handle t = None \/ handle t = Some (handle_of hs k)) /\
  contents s (handle_of hs k) = written z /\ pos t = taken z /\ leftover t = partial z.

(** The disk and the tailer, over a source of each stream. *)
Record tailed (s : FS) (p : Pipe) (f : Feed) : Prop := mkTailed {
  tl_disk : pdisk p = quiet s;
  tl_wf : fs_wf s;
  tl_raw : forall k, raw_ready s k;
  tl_tail : forall k, tail_sim s k (tail_state k (tails p)) (source k f);
  tl_source : forall k, source_ok k f
}.

Record sim (p : Pipe) (f : Feed) : Prop := mkSim {
  sm_disk : exists s, tailed s p f /\ lag d s (pending f) (feed_state p);
  sm_pending : Forall entry_ok (pending f);
  sm_chan : chan p = mkChan (Ok <$> (trunc_entry <$> delivered f)) None
}.

(** A raw file's name is no slot of the history. *)
Lemma raw_no_slot s k n : raw_ready s k -> n <= MAX_ROTATED_FILES -> raw k <> slot ev n.
Proof. intros (Hd & _ & Hu) Hn E. apply (Hu n Hn). by rewrite <-E. Qed.

Lemma raw_ready_logged s k b : raw_ready s k -> raw_ready (logged d b s) k.
Proof.
  intros H. pose proof H as (Hd & Hlt & Hu). destruct (logged_frame d b s) as [Hn Hf].
  split_and!; [|lia|by apply Hf]. apply logged_dir; [|done]. intros n. by apply (raw_no_slot s).
Qed.

Lemma tail_sim_logged s k b t z :
  raw_ready s k -> tail_sim s k t z -> tail_sim (logged d b s) k t z.
Proof.
  intros (_ & Hlt & Hu) (Hh & Hc & Hp). destruct (logged_frame d b s) as [_ Hf].
  split_and!; [done| |apply Hp..]. by rewrite (proj1 (Hf _ Hlt Hu)).
Qed.

(** One pass of the tailer is one step of the specification. *)
Lemma drain_sim now k l s :
  raw_ready s k -> forall z, tail_sim s k (tail_state k l) z -> (taken z <= blen (written z))%N ->
  no_nl (partial z) -> (blen (partial z) < MAX_LEFTOVER_BYTES)%N ->
  let whole := partial z ++ next_chunk (written z) (taken z) in
  let es := mkLogEntry k now <$> (cut whole).1 in
  exists l',
    drain_of so se ev k now (l, quiet s) =
      (Ok tt, (l', quiet (if decide (es = []) then s else logged d (encode_events es) s))) /\
    tail_state k l' = mkTailState (taken z + blen (next_chunk (written z) (taken z)))
                        (cut whole).2 (Some (handle_of hs k)) /\
    (forall j, j <> k -> tail_state j l' = tail_state j l).
Proof.
  intros (Hd & Hlt & Hu) z (Hh & Hc & Hp & Hl) Hle Hnl Hsm whole es.
  set (h := handle_of hs k) in *.
  assert (drain_into_events (raw k) k now ev (tail_state k l, quiet s) =
    (Ok tt, (mkTailState (taken z + blen (next_chunk (written z) (taken z))) (cut whole).2 (Some h),
             quiet (if decide (es = []) then s else logged d (encode_events es) s)))) as Hrun.
  { transitivity (drain_into_events (raw k) k now ev
      (mkTailState (taken z) (partial z) (Some h), quiet s)).
    { destruct (tail_state k l) as [p lo hh]. cbn [handle pos leftover] in *. subst p lo.
      destruct Hh as [->| ->]; [|done]. by rewrite (drain_open d _ _ _ _ h). }
    rewrite (cut_rest now k).
    destruct (decide (taken z = blen (written z))) as [E|E].
    - rewrite (drain_idle d _ _ _ _ h) by (done || (cbn; congruence)).
      assert (next_chunk (written z) (taken z) = []) as Hn.
      { unfold next_chunk. by rewrite E, N.sub_diag. }
      unfold es, whole. rewrite <-(cut_rest now k), Hn, app_nil_r, cut_idle by done. cbn.
      by rewrite N.add_0_r.
    - rewrite (drain_run d _ _ now _ h) by (cbn; rewrite ?Hc; done || lia). cbv zeta.
      rewrite Hc. unfold pass_records, pass_state. cbn [pos leftover handle].
      rewrite (proj2 (N.ltb_lt _ _)) by lia.
      unfold es, cut. cbn [fst]. destruct (decide _) as [H|H]; [done|].
      by rewrite append_batch_logged. }
  destruct k; cbn [drain_of raw_of tail_state] in *.
  - unfold drain_out. cbn [fst snd]. rewrite Hrun. eexists. split_and!; [done|done|].
    by intros [].
  - unfold drain_err. cbn [fst snd]. rewrite Hrun. eexists. split_and!; [done|done|].
    by intros [].
Qed.

Definition backlog_ok (f : Feed) : Prop := (blen (encode_events (pending f)) <= EVENTS_ROTATE_BYTES)%N.

(** The records of a pass are short enough to be read back. *)
Lemma cut_entries_ok now k z :
  (taken z <= blen (written z))%N -> (blen (partial z) < MAX_LEFTOVER_BYTES)%N ->
  Forall entry_ok
    (mkLogEntry k now <$> (cut (partial z ++ next_chunk (written z) (taken z))).1).
Proof.
  intros Ht Hp. apply batch_entries_ok. rewrite blen_app, next_chunk_length by done.
  unfold MAX_LEFTOVER_BYTES, MAX_READ_CHUNK, MAX_RECORD_BYTES in *. lia.
Qed.

Lemma write_tailed k b s p f (h := handle_of hs k) :
  tailed s p f ->
  tailed (set_contents h (contents s h ++ b) s) (pipe_act so se ev hs (Write k b) p).2
    (feed_act (Write k b) f).
Proof.
  intros [Hq Hwf Hraw Htail Hsrc]. constructor; try done.
  - cbn [pipe_act snd pdisk]. by rewrite Hq.
  - intros j. destruct (Htail j) as (Hh & Hc & Hp & Hl). cbn [feed_act].
    destruct (decide (k = j)) as [<-|Hne].
    + rewrite source_set. split_and!; [done| |done..]. cbn [written].
      rewrite <-Hc. apply contents_set_eq.
    + rewrite source_set_ne by done. split_and!; [done| |done..].
      rewrite contents_set_ne; [done|]. unfold h. by destruct k, j; cbn; congruence.
  - intros j. by apply feed_act_ok.
Qed.

(** The records of a pass over a stream. *)
Definition pass_of (k : LogStream) (now : SystemTime) (f : Feed) : list LogEntry :=
  let z := source k f in
  mkLogEntry k now <$> (cut (partial z ++ next_chunk (written z) (taken z))).1.

Lemma pass_of_ok k now f : source_ok k f -> Forall entry_ok (pass_of k now f).
Proof. intros (_ & Ht & Hp & _). by apply cut_entries_ok. Qed.

(** A pass takes a chunk from the source, and puts its records on the disk. *)
Lemma drain_feed k now f (f' := feed_act (Drain k now) f) (z := source k f) :
  delivered f' = delivered f /\ pending f' = pending f ++ pass_of k now f /\
  forall j, source j f' = if decide (j = k)
    then mkSource (written z) (taken z + blen (next_chunk (written z) (taken z)))
           (cut (partial z ++ next_chunk (written z) (taken z))).2
    else source j f.
Proof.
  unfold f', pass_of. cbn [feed_act]. fold z.
  destruct (cut (partial z ++ next_chunk (written z) (taken z))) as [ls rest].
  split_and!; [done..|]. intros j. by destruct j, k.
Qed.

Lemma drain_tailed k now s p f (es := pass_of k now f)
    (s' := if decide (es = []) then s else logged d (encode_events es) s)
    (q := pipe_act so se ev hs (Drain k now) p) :
  tailed s p f ->
  q.1 = ODrained (Ok tt) /\ tailed s' q.2 (feed_act (Drain k now) f) /\
  feed_state q.2 = feed_state p /\ chan q.2 = chan p.
Proof.
  intros [Hq Hwf Hraw Htail Hsrc]. destruct (Hsrc k) as (_ & Ht & Hp & Hn).
  destruct (drain_sim now k (tails p) s (Hraw k) _ (Htail k) Ht Hn Hp) as (l' & Hrun & Hk & Hj).
  cbv zeta in Hrun. fold (pass_of k now f) in Hrun. fold es in Hrun. fold s' in Hrun.
  subst q. cbn [pipe_act]. rewrite Hq, Hrun. cbn [fst snd].
  destruct (drain_feed k now f) as (_ & _ & Hf).
  assert (Hs' : fs_wf s' /\ (forall j, raw_ready s' j) /\
    forall j, tail_sim s' j (tail_state j (tails p)) (source j f)).
  { subst s'. destruct (decide _); [done|]. split_and!; [by apply logged_wf| |].
    - intros j. by apply raw_ready_logged.
    - intros j. by apply tail_sim_logged. }
  destruct Hs' as (Hwf' & Hraw' & Hts). split_and!; [done| |done..].
  constructor; [done..| |intros j; by apply feed_act_ok].
  intros j. cbn [tails]. rewrite Hf. destruct (decide (j = k)) as [->|Hne].
  - rewrite Hk. destruct (Hts k) as (_ & Hc & _). split_and!; [by right|done..].
  - rewrite (Hj j Hne). apply Hts.
Qed.

Lemma write_sim k b p f :
  sim p f -> sim (pipe_act so se ev hs (Write k b) p).2 (feed_act (Write k b) f).
Proof.
  intros [(s & Ht & Hlag) Hpend Hch]. constructor; [|by destruct k|by destruct k].
  eexists. split; [by apply write_tailed|].
  destruct k; cbn [feed_act set_source pending]; apply lag_grow; try apply Ht; done.
Qed.

Lemma drain_act_sim k now p f :
  sim p f -> backlog_ok (feed_act (Drain k now) f) ->
  smooth (pipe_act so se ev hs (Drain k now) p).1 /\
  sim (pipe_act so se ev hs (Drain k now) p).2 (feed_act (Drain k now) f).
Proof.
  intros [(s & Ht & Hlag) Hpend Hch] Hback. pose proof (tl_wf _ _ _ Ht) as Hwf.
  pose proof (pass_of_ok k now f (tl_source _ _ _ Ht k)) as Hes.
  apply (drain_tailed k now) in Ht as (Ho & Ht & Hfs & Hc).
  destruct (drain_feed k now f) as (Hd & Hp & _). unfold backlog_ok in Hback.
  rewrite Ho. split; [done|]. constructor.
  - eexists. split; [exact Ht|]. rewrite Hp, Hfs. rewrite Hp in Hback.
    destruct (decide _) as [E|_]; [by rewrite E, app_nil_r|by apply lag_logged].
  - rewrite Hp. by apply Forall_app.
  - by rewrite Hc, Hd.
Qed.

Lemma poll_act_sim p f :
  sim p f -> backlog_ok f ->
  smooth (pipe_act so se ev hs Poll p).1 /\
  sim (pipe_act so se ev hs Poll p).2 (feed_act Poll f).
Proof.
  intros [(s & Ht & Hlag) Hpend Hch] Hback.
  destruct (poll_lag d s (pending f) (feed_state p) (Ok <$> (trunc_entry <$> delivered f)))
    as (e' & Hrun & Hlag'); [done..|].
  destruct Ht as [Hq Hwf Hraw Htail Hsrc].
  cbn [pipe_act]. rewrite Hq, Hch, Hrun. split; [done|].
  constructor; [|by constructor|].
  - exists s. split; [|done]. constructor; [done|done|done| |].
    + intros j. replace (source j (feed_act Poll f)) with (source j f) by by destruct j. apply Htail.
    + intros j. by apply (feed_act_ok j Poll).
  - cbn. by rewrite !fmap_app.
Qed.

Lemma run_sim acts p f :
  sim p f -> keeps_up f acts = true ->
  Forall smooth (pipe_run so se ev hs acts p).1 /\
  sim (pipe_run so se ev hs acts p).2 (feed_run acts f).
Proof.
  revert p f. induction acts as [|a acts IH]; intros p f Hs Hk; [by split|].
  cbn [keeps_up] in Hk. apply andb_true_iff in Hk as [Hb Hk].
  assert (Hb' : backlog_ok (feed_act a f)).
  { destruct acts; cbn [keeps_up] in Hk; apply andb_true_iff in Hk as [? _]; by apply N.leb_le. }
  assert (smooth (pipe_act so se ev hs a p).1 /\
          sim (pipe_act so se ev hs a p).2 (feed_act a f)) as [Ho Hs'].
  { destruct a; [split; [done|by apply write_sim]|by apply drain_act_sim|].
    apply poll_act_sim; [done|by apply N.leb_le]. }
  destruct (IH _ _ Hs' Hk) as [Hos Hs''].
  cbn [pipe_run]. unfold mbind, ST_bind. cbn [fst snd]. by split; [constructor|].
Qed.

(** A fresh container: empty history, the shim's first bytes possibly there. *)
Definition fresh (s : FS) : Prop :=
  fs_wf s /\ (forall k, raw_ready s k) /\ fs_dir s !! ev = None.

Lemma start_tailed s (f0 := feed_start (contents s (h_out hs)) (contents s (h_err hs))) :
  fresh s -> tailed s (pipe_start s) f0.
Proof.
  intros (Hwf & Hraw & Hev). constructor; [done..| |intros; apply source_ok_start].
  intros k. split_and!; destruct k; cbn; try done; by left.
Qed.

Lemma start_sim s :
  fresh s -> sim (pipe_start s) (feed_start (contents s (h_out hs)) (contents s (h_err hs))).
Proof.
  intros Hs. constructor; [|constructor|done]. exists s. split; [by apply start_tailed|].
  apply lag_unseen. unfold file_or_empty, file. by rewrite (proj2 (proj2 Hs)).
Qed.

End simulation.

(** * Catching up *)
Section settle.

(** Rounds of the tailer's loop, each followed by a poll. *)
Definition settle (rounds : list (SystemTime * SystemTime)) : list Action :=
  rounds ≫= fun r => [Drain Stdout r.1; Drain Stderr r.2; Poll].

Lemma feed_drain k j now f (z := source k f) :
  source k (feed_act (Drain j now) f) =
    if decide (j = k)
    then mkSource (written z) (taken z + blen (next_chunk (written z) (taken z)))
           (cut (partial z ++ next_chunk (written z) (taken z))).2
    else z.
Proof. by destruct j, k. Qed.

Lemma settle_round k a b f :
  source_ok k f ->
  let f' := feed_run [Drain Stdout a; Drain Stderr b; Poll] f in
  pending f' = [] /\ written (source k f') = written (source k f) /\
  taken (source k f') =
    (taken (source k f) + N.min (blen (written (source k f)) - taken (source k f)) MAX_READ_CHUNK)%N.
Proof.
  intros (_ & Ht & _). cbv zeta. cbn [feed_run foldl].
  set (f1 := feed_act (Drain Stdout a) f). set (f2 := feed_act (Drain Stderr b) f1).
  split; [done|].
  replace (source k (feed_act Poll f2)) with (source k f2) by by destruct k.
  assert (source k f2 = source k (feed_act (Drain k (if decide (Stdout = k) then a else b)) f)) as ->.
  { unfold f2. rewrite feed_drain. destruct k; cbn [decide].
    - rewrite decide_False, decide_True by done. done.
    - rewrite decide_True, decide_False by done. unfold f1. rewrite !feed_drain.
      rewrite decide_False, decide_True by done. done. }
  rewrite feed_drain, decide_True by done. cbn [written taken].
  split; [done|]. by rewrite next_chunk_length.
Qed.

Lemma settle_run k rounds f :
  source_ok k f ->
  (blen (written (source k f)) < taken (source k f) + N.of_nat (length rounds) * MAX_READ_CHUNK)%N ->
  let f' := feed_run (settle rounds) f in
  pending f' = [] /\ taken (source k f') = blen (written (source k f')).
Proof.
  cbv zeta. revert f. induction rounds as [|[a b] rounds IH]; intros f Hok Hn.
  { destruct Hok as (_ & Ht & _). cbn [length] in Hn. lia. }
  change (settle ((a, b) :: rounds)) with ([Drain Stdout a; Drain Stderr b; Poll] ++ settle rounds).
  rewrite feed_run_app. destruct (settle_round k a b f Hok) as (Hp & Hw & Ht). cbv zeta in *.
  pose proof (feed_run_ok k [Drain Stdout a; Drain Stderr b; Poll] f Hok) as Hok'.
  set (f1 := feed_run [_; _; _] f) in *. clearbody f1.
  destruct rounds as [|r rounds].
  - split; [done|]. cbn [settle mbind list_bind feed_run foldl].
    destruct Hok as (_ & Hle & _). cbn [length] in Hn. rewrite Hw. lia.
  - destruct (N.lt_ge_cases (blen (written (source k f)))
      (taken (source k f1) + N.of_nat (length (r :: rounds)) * MAX_READ_CHUNK)%N) as [Hl|Hl].
    + apply IH; [done|]. by rewrite Hw.
    + exfalso. cbn [length] in *. lia.
Qed.

(** How often the tailer drains a stream. *)
Fixpoint drains (k : LogStream) (acts : list Action) : nat :=
  match acts with
  | [] => 0
  | Drain j _ :: acts => (if decide (j = k) then 1 else 0) + drains k acts
  | _ :: acts => drains k acts
  end.

(** While nothing is written, a drain takes a chunk of what is left. *)
Lemma taken_by_drains k acts f :
  source_ok k f -> concat (wrote k <$> acts) = [] ->
  taken (source k (feed_run acts f)) =
    N.min (blen (written (source k f))) (taken (source k f) + N.of_nat (drains k acts) * MAX_READ_CHUNK).
Proof.
  revert f. induction acts as [|a acts IH]; intros f Hok Hw.
  { destruct Hok as (_ & Ht & _). cbn. lia. }
  cbn [fmap list_fmap concat] in Hw. apply app_nil in Hw as [Hw1 Hw2].
  change (feed_run (a :: acts) f) with (feed_run acts (feed_act a f)).
  rewrite IH by (done || by apply feed_act_ok). destruct Hok as (_ & Ht & _).
  destruct a as [j b|j now|]; cbn [wrote drains] in *.
  - cbn [feed_act]. destruct (decide (j = k)) as [->|Hne].
    + subst b. rewrite source_set. cbn [written taken]. by rewrite app_nil_r.
    + by rewrite source_set_ne.
  - rewrite feed_drain. destruct (decide (j = k)) as [->|Hne]; [|done].
    cbn [written taken]. rewrite next_chunk_length by done. lia.
  - by replace (source k (feed_act Poll f)) with (source k f) by by destruct k.
Qed.

Lemma drains_catch_up k acts f :
  source_ok k f -> concat (wrote k <$> acts) = [] ->
  (blen (written (source k f)) <=
     taken (source k f) + N.of_nat (drains k acts) * MAX_READ_CHUNK)%N ->
  taken (source k (feed_run acts f)) = blen (written (source k f)).
Proof. intros Hok Hw Hn. rewrite taken_by_drains by done. lia. Qed.

End settle.

(** ** A first pass over a whole file *)
Section whole.

Lemma whole_entries_ok now strm b :
  (blen b <= MAX_READ_CHUNK)%N -> Forall entry_ok (mkLogEntry strm now <$> batch_lines b).
Proof. intros H. apply batch_entries_ok. unfold MAX_READ_CHUNK, MAX_RECORD_BYTES in *. lia. Qed.

Lemma drain_whole d raw strm now h b s :
  fs_dir s !! raw = Some h -> contents s h = b -> batch_lines b <> [] ->
  (blen b <= MAX_READ_CHUNK)%N ->
  drain_into_events raw strm now (d ++ ["events.log"]) (tail_default, quiet s) =
    (Ok tt, (pass_state strm now (mkTailState 0 [] (Some h)) b,
             quiet (logged d (encode_events (mkLogEntry strm now <$> batch_lines b)) s))).
Proof.
  intros Hr Hc Hne Hb. rewrite (drain_open d raw strm now _ h) by done.
  cbn [tail_default pos leftover].
  assert (Hbl : (0 < blen b)%N) by (destruct b; [done|rewrite blen_cons; lia]).
  rewrite (drain_run d raw strm now _ h) by (cbn; rewrite ?Hc; done || lia). cbv zeta.
  rewrite Hc. unfold pass_records. cbn [pos leftover]. rewrite (proj2 (N.ltb_lt _ _)) by done.
  assert (next_chunk b 0 = b) as ->.
  { unfold next_chunk. rewrite N.sub_0_r, N.min_l, to_nat_blen by done. by rewrite take_ge. }
  cbn [app]. destruct (decide _) as [H|_]; [by apply fmap_nil_inv in H|].
  by rewrite append_batch_logged.
Qed.

End whole.

(** What the receiver got. *)
Definition received (c : Chan) : list LogEntry :=
  omap (fun r => match r with Ok e => Some e | Err _ => None end) (sent c).

Lemma received_ok es o : received (mkChan (Ok <$> es) o) = es.
Proof. unfold received. cbn. induction es as [|e es IH]; [done|]. cbn in *. by rewrite IH. Qed.

(** * Properties *)

(** C2. The tailer and the follower together implement the log stream's
    specification, whatever the interleaving of the container's writes, the
    tailer's passes and the follower's polls, rotations included: no step
    fails, and what was sent down the channel is what the queue of lines
    delivers (time stamps to the millisecond), provided the follower polls
    before [EVENTS_ROTATE_BYTES] of records are waiting. *)
Theorem pipeline_refines_feed d so se hs s acts
    (f0 := feed_start (contents s (h_out hs)) (contents s (h_err hs))) :
  h_out hs <> h_err hs -> fresh d so se hs s -> keeps_up f0 acts = true ->
  let r := pipe_run so se (d ++ ["events.log"]) hs acts (pipe_start s) in
  Forall smooth r.1 /\
  chan r.2 = mkChan (Ok <$> (trunc_entry <$> delivered (feed_run acts f0))) None.
Proof.
  intros Hhs Hs Hk. cbv zeta.
  destruct (run_sim d so se hs Hhs acts _ f0 (start_sim d so se hs s Hs) Hk) as [Ho Hsim].
  split; [done|]. apply Hsim.
Qed.

(** C5. Everything the container writes reaches the receiver, from a log
    directory that is fresh and a disk without faults, as long as the follower
    keeps up: at no time are more than [EVENTS_ROTATE_BYTES] of records waiting
    for its next poll ([keeps_up]; behind that, two rotations between polls
    lose records).  Then, after any such run of writes, passes and polls, one
    more round of a pass per stream and a poll for every [MAX_READ_CHUNK] of
    output delivers, stream by stream, exactly the bytes written, in order and
    once, except for an unfinished last line shorter than
    [MAX_LEFTOVER_BYTES].  (A pass and a poll are one step each.) *)
Theorem pipeline_delivers_output d so se hs s acts rounds k
    (f0 := feed_start (contents s (h_out hs)) (contents s (h_err hs)))
    (output := contents s (handle_of hs k) ++ concat (wrote k <$> acts)) :
  h_out hs <> h_err hs -> fresh d so se hs s -> keeps_up f0 (acts ++ settle rounds) = true ->
  (blen output < N.of_nat (length rounds) * MAX_READ_CHUNK)%N ->
  let r := pipe_run so se (d ++ ["events.log"]) hs (acts ++ settle rounds) (pipe_start s) in
  exists rest, of_stream k (received (chan r.2)) ++ rest = output /\
    no_nl rest /\ (blen rest < MAX_LEFTOVER_BYTES)%N.
Proof.
  intros Hhs Hs Hk Hn. cbv zeta.
  destruct (run_sim d so se hs Hhs _ _ f0 (start_sim d so se hs s Hs) Hk) as [_ Hsim].
  rewrite (sm_chan _ _ _ _ _ _ Hsim), received_ok, of_stream_trunc, feed_run_app.
  pose proof (feed_run_ok k acts f0 (source_ok_start k _ _)) as Hok.
  assert (Hw : written (source k (feed_run acts f0)) = output).
  { rewrite feed_run_written. by destruct k. }
  destruct (settle_run k rounds (feed_run acts f0)) as [Hp Ht]; [done|rewrite Hw; lia|].
  destruct (feed_run_ok k (settle rounds) _ Hok) as (Hd & _ & Hl & Hnl).
  rewrite Hp, app_nil_r, Ht, to_nat_blen, take_ge in Hd by done.
  assert (Hw' : written (source k (feed_run (settle rounds) (feed_run acts f0))) = output).
  { rewrite feed_run_written, Hw. rewrite <-(app_nil_r output) at 2. f_equal.
    unfold settle. clear. induction rounds as [|r rounds IH]; [done|]. by cbn. }
  rewrite Hw' in Hd. by eexists.
Qed.

(** Output of a restarted container is published twice: the raw files are
    truncated before the task is created, so the tailer still running from the
    last start resets itself and reads the new output from the beginning, as
    does the tailer that replaces it. *)
Theorem restart_repeats_output d raw strm h s old b now1 now2 now3
    (ev := d ++ ["events.log"])
    (lines := fun now => mkLogEntry strm now <$> batch_lines b)
    (p1 := drain_into_events raw strm now1 ev (old, quiet s))
    (p2 := drain_into_events raw strm now2 ev (p1.2.1, (grow h b p1.2.2).2))
    (p3 := drain_into_events raw strm now3 ev (tail_default, p2.2.2)) :
  fs_wf s -> fs_dir s !! raw = Some h -> unlogged d s h -> clean (file_or_empty s ev) ->
  handle old = Some h -> contents s h = [] -> (0 < pos old)%N ->
  batch_lines b <> [] -> (blen b <= MAX_READ_CHUNK)%N ->
  (blen (file_or_empty s ev) + blen (encode_events (lines now2)) +
     blen (encode_events (lines now3)) <= EVENTS_ROTATE_BYTES)%N ->
  p3.1 = Ok tt /\
  history (fs p3.2.2) ev = history s ev ++ (trunc_entry <$> lines now2 ++ lines now3).
Proof.
  intros Hwf Hr Hu Hcl Hh Hc Hp Hne Hb Hsz. subst ev. assert (Hlt : (h < fs_next s)%N) by by eapply Hwf.
  assert (E1 : p1 = (Ok tt, (tail_default, quiet s))) 
    by (apply (drain_truncated d raw strm now1 old h); [done|by rewrite Hc]).
  set (s1 := set_contents h b s).
  pose proof (fun now => whole_entries_ok now strm b Hb) as Hin. fold lines in Hin.
  pose proof (fun now s' Hr' Hc' => drain_whole d raw strm now h b s' Hr' Hc' Hne Hb) as G.
  assert (Hf1 : file_or_empty s1 (d ++ ["events.log"]) = file_or_empty s (d ++ ["events.log"])).
  { apply (file_or_empty_grow d s h b 0 Hu). lia. }
  assert (Hh1 : history s1 (d ++ ["events.log"]) = history s (d ++ ["events.log"])) by by apply history_grow.
  assert (Hu1 : unlogged d s1 h) by done. assert (Hwf1 : fs_wf s1) by done.
  destruct (logged_history d (lines now2) s1) as (Hh2 & Hc2 & Hf2);
    [done|by rewrite Hf1|apply Hin|rewrite Hf1; lia|].
  set (s2 := logged d (encode_events (lines now2)) s1) in *.
  destruct (logged_history d (lines now3) s2) as (Hh3 & _ & _); [by apply logged_wf|done|apply Hin| |].
  { rewrite Hf2, Hf1, blen_app. lia. }
  assert (E2 : p2 = (Ok tt, (pass_state strm now2 (mkTailState 0 [] (Some h)) b, quiet s2))).
  { unfold p2. rewrite E1. unfold grow, modify_st. cbn [fst snd fs quiet sched].
    rewrite Hc. cbn [app]. fold s1. by apply (G now2 s1); [|apply contents_set_eq]. }
  assert (E3 : p3 = (Ok tt, (pass_state strm now3 (mkTailState 0 [] (Some h)) b,
    quiet (logged d (encode_events (lines now3)) s2)))).
  { unfold p3. rewrite E2. cbn [fst snd]. apply G.
    - apply logged_dir; [|done]. intros n Hn E. apply (Hu n Hn). by rewrite <-E.
    - unfold s2. rewrite (proj1 (proj2 (logged_frame d _ s1) h Hlt Hu1)). apply contents_set_eq. }
  rewrite E3. cbn [fst snd fs quiet]. split; [done|].
  by rewrite Hh3, Hh2, Hh1, fmap_app, app_assoc.
Qed.

(** ** Witnesses *)
Definition demo_pipe_fs : FS :=
  create_at ["/"; "d"; "stderr"] [] (create_at ["/"; "d"; "stdout"] (str_bytes "boot") fs_empty).

Definition demo_acts : list Action :=
  [Poll; Write Stdout (str_bytes "ing" ++ [NL]); Drain Stdout 5000000;
   Write Stderr (str_bytes "e" ++ [NL; Byte.x66]); Poll; Drain Stderr 6000000;
   Drain Stdout 7000000].

Definition demo_handles : Handles := mkHandles 0 1.

Lemma demo_fresh : fresh ["/"; "d"] ["/"; "d"; "stdout"] ["/"; "d"; "stderr"] demo_handles demo_pipe_fs.
Proof.
  split; [by do 2 apply fs_wf_create|]. split; [|done].
  intros k. split; [by destruct k|]. split; [by destruct k|].
  intros n Hn. unfold MAX_ROTATED_FILES in Hn.
  destruct k; do 6 (destruct n as [|n]; [done|]); lia.
Qed.

Lemma pipeline_refines_feed_witness :
  (chan (pipe_run ["/"; "d"; "stdout"] ["/"; "d"; "stderr"] (["/"; "d"] ++ ["events.log"])
     demo_handles demo_acts (pipe_start demo_pipe_fs)).2) =
  mkChan [Ok (mkLogEntry Stdout 5000000 (str_bytes "booting" ++ [NL]))] None.
Proof.
  exact (proj2 (pipeline_refines_feed ["/"; "d"] ["/"; "d"; "stdout"] ["/"; "d"; "stderr"]
    demo_handles demo_pipe_fs demo_acts ltac:(discriminate) demo_fresh eq_refl)).
Defined.

Lemma pipeline_delivers_output_witness :
  exists rest, of_stream Stderr (received (chan (pipe_run ["/"; "d"; "stdout"] ["/"; "d"; "stderr"]
     (["/"; "d"] ++ ["events.log"]) demo_handles (demo_acts ++ settle [(8000000, 9000000)%Z])
     (pipe_start demo_pipe_fs)).2)) ++ rest = str_bytes "e" ++ [NL; Byte.x66] /\
    no_nl rest /\ (blen rest < MAX_LEFTOVER_BYTES)%N.
Proof.
  exact (pipeline_delivers_output ["/"; "d"] ["/"; "d"; "stdout"] ["/"; "d"; "stderr"]
    demo_handles demo_pipe_fs demo_acts [(8000000, 9000000)%Z] Stderr
    ltac:(discriminate) demo_fresh eq_refl eq_refl).
Defined.

(** The tailer of the last start had read four bytes. *)
Lemma restart_repeats_output_witness :
  let old := drain_into_events ["/"; "d"; "stdout"] Stdout 1 (["/"; "d"] ++ ["events.log"])
    (mkTailState 4 [] (Some 0%N), quiet (set_contents 0 [] demo_pipe_fs)) in
  let again := drain_into_events ["/"; "d"; "stdout"] Stdout 2000000 (["/"; "d"] ++ ["events.log"])
    (old.2.1, (grow 0 (str_bytes "hi" ++ [NL]) old.2.2).2) in
  let new := drain_into_events ["/"; "d"; "stdout"] Stdout 3000000 (["/"; "d"] ++ ["events.log"])
    (tail_default, again.2.2) in
  history (fs new.2.2) (["/"; "d"] ++ ["events.log"]) =
    [mkLogEntry Stdout 2000000 (str_bytes "hi" ++ [NL]);
     mkLogEntry Stdout 3000000 (str_bytes "hi" ++ [NL])].
Proof.
  refine (proj2 (restart_repeats_output ["/"; "d"] ["/"; "d"; "stdout"] Stdout 0
    (set_contents 0 [] demo_pipe_fs) (mkTailState 4 [] (Some 0%N)) (str_bytes "hi" ++ [NL])
    1 2000000 3000000 _ eq_refl _ eq_refl eq_refl eq_refl eq_refl _ _ _)).
  - by do 2 apply fs_wf_create.
  - exact (proj2 (proj2 (proj1 (proj2 demo_fresh) Stdout))).
  - discriminate.
  - vm_compute. discriminate.
  - vm_compute. discriminate.
Defined.
