(* ===== verification/LogRetention.v ===== *)
(** * What the log still holds ([src/log_tailer.rs] with [src/logs.rs])

    The tailer appends to [events.log] and rotates it through
    [MAX_ROTATED_FILES] older files; the bulk reader shows what is left.  A
    [Shelf] is that log with no files, inodes or codec: the records of the
    current file and of the rotated ones.  Appending to the disk refines
    appending to the shelf, whatever else reads the disk meanwhile, and what a
    shelf drops is told by the sizes: nothing goes while less than three times
    [EVENTS_ROTATE_BYTES] of newer records are there. *)

From S2P Require Import Prelude RustText RustFmt Errors Effects FileSystem LogCodec LogFiles LogTailer LogFollower LogPipeline.

(** ** The shelf *)

(** The records of file [n]: 0 is the current one, [MAX_ROTATED_FILES] the
    oldest. *)
Definition Shelf : Type := nat -> list LogEntry.

Definition size (es : list LogEntry) : N := blen (encode_events es).

Definition shelf_add (es : list LogEntry) (L : Shelf) : Shelf := fun n =>
  if (size (L O) + size es <=? EVENTS_ROTATE_BYTES)%N
  then match n with O => L O ++ es | S _ => L n end
  else match n with O => es | S m => L m end.

(** Oldest first. *)
Definition shelved (L : Shelf) : list LogEntry := L 5 ++ L 4 ++ L 3 ++ L 2 ++ L 1 ++ L 0.

(** What keeps records on the shelf: a file is opened only when the one before
    it is full, and dropped only when all six are in use. *)
Record shelf_ok (all : list LogEntry) (L : Shelf) : Prop := mkShelfOk {
  sh_lost : exists lost, all = lost ++ shelved L /\ (lost <> [] -> L 5 <> []);
  sh_full : forall n, L (S n) <> [] -> (EVENTS_ROTATE_BYTES < size (L n) + size (L (S n)))%N;
  sh_used : forall n, L (S n) <> [] -> L n <> []
}.

Section shelf.
Implicit Types (es all : list LogEntry) (L : Shelf).

Lemma size_app es es' : size (es ++ es') = (size es + size es')%N.
Proof. unfold size. by rewrite encode_events_app, blen_app. Qed.

Lemma shelf_start : shelf_ok [] (fun _ => []).
Proof. constructor; [|done..]. by exists []. Qed.

Lemma shelf_add_ok es all L :
  es <> [] -> shelf_ok all L -> shelf_ok (all ++ es) (shelf_add es L).
Proof.
  intros Hes [(lost & -> & Hl) Hf Hu]. unfold shelf_add.
  destruct (size (L O) + size es <=? EVENTS_ROTATE_BYTES)%N eqn:E; simp_eqs.
  - constructor.
    + exists lost. split; [|done]. unfold shelved. by rewrite <-!app_assoc.
    + intros [|n] Hn; [|by apply Hf]. rewrite size_app. pose proof (Hf 0 Hn). lia.
    + intros [|n] Hn; [|by apply Hu]. intros [_ ?]%app_nil. done.
  - constructor.
    + exists (lost ++ L 5). unfold shelved. split; [by rewrite <-!app_assoc|].
      intros Hn. destruct (decide (L 4 = [])) as [H4|]; [|done].
      assert (H5 : L 5 = []) by (destruct (L 5) eqn:H5; [done|]; destruct (Hu 4); congruence).
      rewrite H5, app_nil_r in Hn. by apply Hl in Hn.
    + intros [|n] Hn; [lia|by apply Hf].
    + intros [|n] Hn; [done|by apply Hu].
Qed.

(** Six files in use hold more than three times the limit. *)
Lemma shelf_full_size all L :
  shelf_ok all L -> L 5 <> [] -> (3 * EVENTS_ROTATE_BYTES < size (shelved L))%N.
Proof.
  intros [_ Hf Hu] H5. pose proof (Hu 4 H5) as H4. pose proof (Hu 3 H4) as H3.
  pose proof (Hu 2 H3) as H2. pose proof (Hu 1 H2) as H1.
  pose proof (Hf 4 H5). pose proof (Hf 2 H3). pose proof (Hf 0 H1).
  unfold shelved. rewrite !size_app. lia.
Qed.

End shelf.

(** ** The files of a shelf *)
Section files.
Context (d : path).
Abbreviation ev := (d ++ ["events.log"]).
Implicit Types (s : FS) (L : Shelf).

Record holds_shelf (s : FS) (L : Shelf) : Prop := mkHoldsShelf {
  hs_files : forall n, n <= MAX_ROTATED_FILES -> file_or_empty s (slot ev n) = encode_events (L n);
  hs_entries : forall n, Forall entry_ok (L n)
}.

(** An append to the disk is one to the shelf. *)
Lemma logged_shelf es s L :
  fs_wf s -> Forall entry_ok es -> holds_shelf s L ->
  holds_shelf (logged d (encode_events es) s) (shelf_add es L).
Proof.
  intros Hwf Hes [Hf He]. pose proof (Hf 0 ltac:(lia)) as H0. cbn [slot] in H0.
  assert (Hput : forall s' n, 0 < n <= MAX_ROTATED_FILES -> fs_wf s' ->
    file_or_empty (put d (encode_events es) s') (slot ev n) = file_or_empty s' (slot ev n)).
  { intros s' n Hn Hwf'. unfold file_or_empty, file, put.
    assert (Hne : slot ev n <> ev) by (intros E; apply (slot_inj d n 0) in E; lia).
    destruct (fs_dir s' !! ev) as [i|] eqn:Ei; cbn [fs_dir create_at set_contents];
      rewrite ?lookup_insert_ne by done;
      (destruct (fs_dir s' !! slot ev n) as [j|] eqn:Ej; [|done]); cbn.
    - rewrite contents_set_ne; [done|]. intros ->. apply Hne. by eapply Hwf'.
    - apply Hwf' in Ej. rewrite contents_set_ne by lia. by apply contents_create. }
  unfold logged, rotated_or_not, saturating_add. rewrite H0. fold (size es). fold (size (L O)).
  assert ((N.min U64_MAX (size (L O) + size es) <=? EVENTS_ROTATE_BYTES)%N =
    (size (L O) + size es <=? EVENTS_ROTATE_BYTES)%N) as ->.
  { unfold U64_MAX, EVENTS_ROTATE_BYTES. apply eq_true_iff_eq. rewrite !N.leb_le. lia. }
  constructor; unfold shelf_add; destruct (_ <=? _)%N; intros [|n].
  - intros _. cbn [slot]. rewrite put_file, H0. by rewrite encode_events_app.
  - intros Hn. rewrite Hput by (done || lia). by apply Hf.
  - intros _. cbn [slot]. by rewrite put_file, rotate_file_ev.
  - intros Hn. rewrite Hput by (by apply rotate_wf || lia).
    unfold MAX_ROTATED_FILES in *. rewrite rotate_file by (done || lia). apply Hf. lia.
  - by apply Forall_app.
  - apply He.
  - done.
  - apply He.
Qed.

Lemma shelf_grow s L h b : unlogged d s h -> holds_shelf s L -> holds_shelf (set_contents h b s) L.
Proof.
  intros Hu [Hf He]. constructor; [|done]. intros n Hn.
  rewrite (file_or_empty_grow d s h b n Hu) by (unfold MAX_ROTATED_FILES in Hn; lia). by apply Hf.
Qed.

Lemma shelf_history s L : holds_shelf s L -> history s ev = trunc_entry <$> shelved L.
Proof.
  intros [Hf He]. rewrite history_slots. cbn [fmap list_fmap]. rewrite !parsed_cons.
  unfold parsed, MAX_ROTATED_FILES in *. cbn [mbind list_bind foldr fmap list_fmap concat].
  rewrite !Hf by lia. unfold parse_events_file. rewrite !decode_encodes by done. cbn [fst].
  unfold shelved. by rewrite !fmap_app, app_nil_r.
Qed.

(** A log directory that was just made. *)
Definition no_logs (s : FS) : Prop :=
  forall n, n <= MAX_ROTATED_FILES -> fs_dir s !! slot ev n = None.

Lemma no_logs_shelf s : no_logs s -> holds_shelf s (fun _ => []).
Proof. intros H. constructor; [|done]. intros n Hn. unfold file_or_empty, file. by rewrite H. Qed.

End files.

(** ** The disk of the pipeline *)
Section pipeline.
Context (d so se : path) (hs : Handles) (Hhs : h_out hs <> h_err hs).
Abbreviation ev := (d ++ ["events.log"]).

(** Whatever a poll finds, it leaves the files alone. *)
Definition same_disk (st st' : Follow) : Prop :=
  forall s, disk st = quiet s -> disk st' = quiet s.

#[local] Instance same_disk_refl : Reflexive same_disk.
Proof. by intros st s. Qed.
#[local] Instance same_disk_trans : Transitive same_disk.
Proof. intros x y z H1 H2 s H. auto. Qed.

Lemma same_op {A} (f : FS -> io A) :
  pres same_disk (on_disk (op (fun s => (f s, s)))).
Proof. intros [e t dk] s H. cbn in H. subst dk. done. Qed.

Lemma same_or_fatal {A} c (f : FS -> io A) k :
  (forall a, pres same_disk (k a)) -> pres same_disk (or_fatal c (op (fun s => (f s, s))) k).
Proof.
  intros Hk. unfold or_fatal. pres_step; [apply same_op|]. destruct a as [a|e]; [apply Hk|].
  by pres_step.
Qed.

Lemma same_set_ets f : pres same_disk (set_ets f).
Proof. by intros st s H. Qed.
Lemma same_get_ets : pres same_disk get_ets.
Proof. by intros st s H. Qed.
Lemma same_send x : pres same_disk (send x).
Proof. intros st s H. unfold send. by destruct (room (tx st)) as [[|k]|]. Qed.

Lemma same_emit_loop fuel b : pres same_disk (emit_loop fuel b).
Proof.
  revert b. induction fuel as [|fuel IH]; intros [|x b]; cbn [emit_loop]; try by pres_step.
  destruct (decode_event_with_len _) as [e n| |]; [|by pres_step|].
  - pres_step; [apply same_send|]. destruct a; [by pres_step|apply IH].
  - destruct (resync_offset _); [apply IH|by pres_step].
Qed.

Lemma same_send_all es : pres same_disk (send_all es).
Proof.
  induction es as [|e es IH]; cbn [send_all]; [by pres_step|].
  pres_step; [apply same_send|]. destruct a; [by pres_step|done].
Qed.

Lemma same_poll p : pres same_disk (poll_events_once p).
Proof.
  assert (Hd : forall r i n, pres same_disk (drain_rotated_remainder r i n)).
  { intros r i n. unfold drain_rotated_remainder. pres_step; [apply same_op|].
    destruct a as [h|[]]; try by pres_step. apply same_or_fatal. intros z.
    destruct (negb _); [by pres_step|]. destruct (_ <=? _)%N; [by pres_step|].
    apply same_or_fatal. intros _. apply same_or_fatal. intros b. apply same_send_all. }
  assert (He : forall h n, pres same_disk (emit_new h n)).
  { intros h n. unfold emit_new. pres_step; [apply same_get_ets|].
    destruct (_ =? _)%N; [by pres_step|]. apply same_or_fatal. intros _.
    pres_step; [apply same_set_ets|]. apply same_or_fatal. intros b.
    pres_step; [apply same_set_ets|]. pres_step; [apply same_emit_loop|].
    destruct a2; [|by pres_step]. pres_step; [apply same_set_ets|]. by pres_step. }
  pose proof same_get_ets. pose proof same_set_ets.
  unfold poll_events_once. pres_step; [apply same_op|].
  destruct a as [h|[]]; [apply same_or_fatal; intros n|..]; repeat pres_step; try done.
Qed.

(** The run of the pipeline, without regard to what the follower got. *)
Definition stocked (p : Pipe) (f : Feed) : Prop :=
  exists s L, tailed d so se hs s p f /\ holds_shelf d s L /\
    shelf_ok (delivered f ++ pending f) L.

Lemma act_stocked a p f :
  stocked p f -> stocked (pipe_act so se ev hs a p).2 (feed_act a f).
Proof.
  intros (s & L & Ht & Hh & Hok). destruct a as [k b|k now|].
  - eexists _, L. split_and!; [by apply write_tailed|by apply shelf_grow; [apply Ht|]|].
    by destruct k.
  - pose proof (tl_wf _ _ _ _ _ _ _ Ht) as Hwf.
    pose proof (pass_of_ok hs Hhs k now f (tl_source _ _ _ _ _ _ _ Ht k)) as Hes.
    apply (drain_tailed d so se hs Hhs k now) in Ht as (_ & Ht & _).
    destruct (drain_feed k now f) as (Hd & Hp & _). unfold stocked. rewrite Hd, Hp, app_assoc.
    destruct (decide (pass_of k now f = [])) as [E|Hne].
    + exists s, L. rewrite E, app_nil_r. by split_and!.
    + eexists _, _. split_and!; [exact Ht|by apply logged_shelf|by apply shelf_add_ok].
  - exists s, L. cbn [feed_act delivered pending]. rewrite app_nil_r. split_and!; [|done..].
    destruct Ht as [Hq Hwf Hraw Htail Hsrc]. constructor; [|done..| |].
    + cbn [pipe_act]. pose proof (same_poll ev (mkFollow (feed_state p) (chan p) (pdisk p)) s Hq) as E.
      by destruct (poll_events_once _ _) as [o st].
    + cbn [pipe_act]. destruct (poll_events_once _ _) as [o st]. intros j.
      replace (source j _) with (source j f) by by destruct j. apply Htail.
    + intros j. by apply (feed_act_ok j Poll).
Qed.

Lemma run_stocked acts p f :
  stocked p f -> stocked (pipe_run so se ev hs acts p).2 (feed_run acts f).
Proof.
  revert p f. induction acts as [|a acts IH]; intros p f H; [done|].
  cbn [pipe_run]. unfold mbind, ST_bind. cbn [fst snd]. by apply IH, act_stocked.
Qed.

Lemma start_stocked s :
  fresh d so se hs s -> no_logs d s ->
  stocked (pipe_start s) (feed_start (contents s (h_out hs)) (contents s (h_err hs))).
Proof.
  intros Hf Hn. exists s, (fun _ => []).
  split_and!; [by apply start_tailed|by apply no_logs_shelf|apply shelf_start].
Qed.

(** What the bulk reader shows of it. *)
Lemma stocked_shows home id flt p f :
  events_path_for home id = Ok ev -> stocked p f ->
  exists lost kept, delivered f ++ pending f = lost ++ kept /\
    container_logs_filtered home id flt (pdisk p) =
      (Ok (last_n (tail flt) (List.filter (in_window flt) (trunc_entry <$> kept))), pdisk p) /\
    (lost <> [] -> (3 * EVENTS_ROTATE_BYTES < blen (encode_events kept))%N) /\
    forall k, source_ok k f.
Proof.
  intros Hp (s & L & [Hq _ _ _ Hsrc] & Hh & Hok).
  destruct (sh_lost _ _ Hok) as (lost & Hl & H5). exists lost, (shelved L). split_and!.
  - done.
  - rewrite Hq, (container_logs_filtered_quiet _ _ _ _ _ Hp), apply_filter_spec.
    by rewrite (shelf_history d s L).
  - intros Hne. apply (shelf_full_size _ _ Hok). auto.
  - done.
Qed.

End pipeline.

(** * Property *)

(** C3. The bulk reader shows the newest output.  Whatever the container writes,
    however the tailer's passes and a follower's polls fall, in a log directory
    that was empty: the records published are, stream by stream, the bytes the
    tailer has taken, and [container_logs_filtered] filters those of them that
    are left.  Records are lost oldest first, and none is as long as the newer
    ones take at most three times [EVENTS_ROTATE_BYTES] (30 MB). *)
Theorem logs_keep_the_newest d so se hs s acts home id flt
    (f0 := feed_start (contents s (h_out hs)) (contents s (h_err hs)))
    (published := delivered (feed_run acts f0) ++ pending (feed_run acts f0))
    (output := fun k => contents s (handle_of hs k) ++ concat (wrote k <$> acts)) :
  h_out hs <> h_err hs -> fresh d so se hs s -> no_logs d s ->
  events_path_for home id = Ok (d ++ ["events.log"]) ->
  let p := (pipe_run so se (d ++ ["events.log"]) hs acts (pipe_start s)).2 in
  exists lost kept, published = lost ++ kept /\
    container_logs_filtered home id flt (pdisk p) =
      (Ok (last_n (tail flt) (List.filter (in_window flt) (trunc_entry <$> kept))), pdisk p) /\
    (lost <> [] -> (3 * EVENTS_ROTATE_BYTES < blen (encode_events kept))%N) /\
    forall k, exists n rest, of_stream k published ++ rest = take n (output k) /\
      no_nl rest /\ (blen rest < MAX_LEFTOVER_BYTES)%N.
Proof.
  intros Hhs Hf Hn Hp. cbv zeta. pose proof (start_stocked d so se hs s Hf Hn) as H0.
  apply (run_stocked d so se hs Hhs acts) in H0.
  destruct (stocked_shows d so se hs home id flt _ _ Hp H0) as (lost & kept & Hk & Hc & Hl & Hsrc).
  exists lost, kept. split_and!; [exact Hk|exact Hc|exact Hl|]. intros k.
  destruct (Hsrc k) as (Hd & _ & Hb & Hnl). eexists _, _. split_and!; [|exact Hnl|done].
  etrans; [exact Hd|]. rewrite feed_run_written. f_equal. by destruct k.
Qed.

(** ** Witness *)
Definition demo_log_dir : path := ["/"; "root"; ".containerd-manager"; "task-logs"; "c1"].

Definition demo_retained_fs : FS :=
  create_at (demo_log_dir ++ ["stderr"]) []
    (create_at (demo_log_dir ++ ["stdout"]) (str_bytes "boot") fs_empty).

Lemma demo_retained_fresh :
  fresh demo_log_dir (demo_log_dir ++ ["stdout"]) (demo_log_dir ++ ["stderr"]) demo_handles
    demo_retained_fs.
Proof.
  split; [by do 2 apply fs_wf_create|]. split; [|done].
  intros k. split; [by destruct k|]. split; [by destruct k|].
  intros n Hn. unfold MAX_ROTATED_FILES in Hn.
  destruct k; do 6 (destruct n as [|n]; [done|]); lia.
Qed.

(** The last of what both streams printed. *)
Lemma logs_keep_the_newest_witness :
  exists lost kept, [mkLogEntry Stdout 5000000 (str_bytes "booting" ++ [NL]);
       mkLogEntry Stderr 6000000 (str_bytes "e" ++ [NL])] = lost ++ kept /\ lost = [] /\
    (container_logs_filtered demo_home "c1" (mkLogsFilter (Some 1) None None)
      (pdisk (pipe_run (demo_log_dir ++ ["stdout"]) (demo_log_dir ++ ["stderr"])
        (demo_log_dir ++ ["events.log"]) demo_handles demo_acts (pipe_start demo_retained_fs)).2)).1 =
    Ok (last_n (Some 1) (trunc_entry <$> kept)).
Proof.
  destruct (logs_keep_the_newest demo_log_dir (demo_log_dir ++ ["stdout"])
    (demo_log_dir ++ ["stderr"]) demo_handles demo_retained_fs demo_acts demo_home "c1"
    (mkLogsFilter (Some 1) None None)) as (lost & kept & H1 & H2 & H3 & _).
  - discriminate.
  - exact demo_retained_fresh.
  - intros n Hn. do 6 (destruct n as [|n]; [reflexivity|]). unfold MAX_ROTATED_FILES in Hn. lia.
  - reflexivity.
  - exists lost, kept. split; [exact H1|]. split.
    + destruct lost as [|e lost]; [reflexivity|]. exfalso. specialize (H3 ltac:(discriminate)).
      assert (Hb : (blen (encode_events kept) <= blen (encode_events ((e :: lost) ++ kept)))%N)
        by (rewrite encode_events_app, blen_app; lia).
      rewrite <-H1 in Hb. unfold EVENTS_ROTATE_BYTES in H3.
      match type of Hb with (_ <= ?n)%N =>
        assert (Hc : (n <= 100)%N) by (vm_compute; discriminate) end.
      lia.
    + rewrite H2. cbn [fst tail]. by rewrite filter_true.
Defined.
