(* ===== verification/LogStop.v ===== *)
(** * The tailer's last passes ([src/log_tailer.rs] with [src/logs.rs])

    When a container is deleted its tailer is signalled, drains both streams
    once more and ends; from then on the bulk reader is all that shows the
    output.  [tailer_loop] is related to the pipeline of [LogPipeline]: over a
    disk without faults its rounds are passes of the specification, so that
    what the log holds at the end is the output of the container, up to a last
    line without a newline, whenever the passes left are enough to read what
    was not read yet. *)

From S2P Require Import Prelude RustText RustFmt Errors Effects FileSystem LogCodec LogFiles LogTailer LogFollower LogPipeline LogRetention.

(** ** The passes of the loop *)

(** The signal fires in one of the rounds. *)
Definition stop_fires (rounds : list Round) : bool :=
  existsb (fun rd => match fired rd with StopSignal => true | Slept => false end) rounds.

(** The passes, up to the last ones. *)
Fixpoint loop_passes (rounds : list Round) : list Action :=
  match rounds with
  | [] => []
  | rd :: rounds =>
      Drain Stdout (now_out rd) :: Drain Stderr (now_err rd) ::
      match fired rd with
      | Slept => loop_passes rounds
      | StopSignal => [Drain Stdout (final_out rd); Drain Stderr (final_err rd)]
      end
  end.

Lemma wrote_no_pass k rounds : concat (wrote k <$> loop_passes rounds) = [].
Proof.
  induction rounds as [|rd rounds IH]; [done|]. cbn [loop_passes].
  destruct (fired rd); [done|by destruct k].
Qed.

(** ** The loop is its passes *)
Section loop.
Context (d so se : path) (hs : Handles) (Hhs : h_out hs <> h_err hs).
Abbreviation ev := (d ++ ["events.log"]).

(** The tailer's half of a pipeline. *)
Definition half (p : Pipe) : LoopState * FsSt := (tails p, pdisk p).

Definition counters (o e : N) (p : Pipe) : Pipe :=
  let l := tails p in
  mkPipe (mkLoopState (out_state l) (err_state l) o e) (feed_state p) (chan p) (pdisk p).

Lemma stocked_counters o e p f : stocked d so se hs p f -> stocked d so se hs (counters o e p) f.
Proof.
  intros (s & L & [Hq Hwf Hraw Htail Hsrc] & H). exists s, L. split; [|done].
  constructor; [done..| |done]. intros k. specialize (Htail k). by destruct k.
Qed.

(** A pass over a stream succeeds and is one of the pipeline. *)
Lemma drain_stocked k now p f :
  stocked d so se hs p f ->
  exists p', drain_of so se ev k now (half p) = (Ok tt, half p') /\
    stocked d so se hs p' (feed_act (Drain k now) f).
Proof.
  intros H. pose proof (act_stocked d so se hs Hhs (Drain k now) p f H) as H'.
  destruct H as (s & L & Ht & _).
  destruct (drain_tailed d so se hs Hhs k now s p f Ht) as (Ho & _).
  eexists. split; [|exact H']. cbn [pipe_act] in *. unfold half.
  destruct (drain_of _ _ _ _ _ _) as [r [l dk]]. cbn in *. by simplify_eq.
Qed.

(** Both streams in turn. *)
Lemma round_stocked a b p f :
  stocked d so se hs p f ->
  exists p1 p2, drain_out so ev a (half p) = (Ok tt, half p1) /\
    drain_err se ev b (half p1) = (Ok tt, half p2) /\
    stocked d so se hs p2 (feed_run [Drain Stdout a; Drain Stderr b] f).
Proof.
  intros H. destruct (drain_stocked Stdout a p f H) as (p1 & E1 & H1).
  destruct (drain_stocked Stderr b p1 _ H1) as (p2 & E2 & H2). by exists p1, p2.
Qed.

Lemma tailer_loop_passes rounds p f :
  stocked d so se hs p f ->
  exists p', tailer_loop so se ev rounds (half p) =
      (if stop_fires rounds then Stopped else StillRunning, half p') /\
    stocked d so se hs p' (feed_run (loop_passes rounds) f).
Proof.
  revert p f. induction rounds as [|rd rounds IH]; intros p f H; [by exists p|].
  cbn [tailer_loop loop_passes stop_fires existsb].
  destruct (round_stocked (now_out rd) (now_err rd) p f H) as (p1 & p2 & E1 & E2 & H2).
  rewrite (run_bind _ _ _ _ _ E1), (run_bind _ _ _ _ _ E2). unfold modify_st, get_st.
  do 2 erewrite run_bind by done.
  match goal with |- context [if ?b then mret Aborted else _] => change b with false end.
  cbv iota. change (_, (half p2).2) with (half (counters 0 0 p2)).
  apply (stocked_counters 0 0) in H2. destruct (fired rd); [by apply IH|].
  destruct (round_stocked (final_out rd) (final_err rd) _ _ H2) as (p3 & p4 & E3 & E4 & H4).
  rewrite (run_bind _ _ _ _ _ E3), (run_bind _ _ _ _ _ E4). by exists p4.
Qed.

End loop.

(** ** What the records are *)

Definition shapely (f : Feed) : Prop :=
  Forall (fun e => record_shape (data e)) (delivered f ++ pending f).

(** A record is a line, or an oversized piece of one. *)
Lemma feed_act_shapely a f : shapely f -> shapely (feed_act a f).
Proof.
  unfold shapely. destruct a as [k b|k now|]; [by destruct k| |].
  - intros H. destruct (drain_feed k now f) as (-> & -> & _). rewrite app_assoc.
    apply Forall_app. split; [done|]. apply Forall_fmap, (batch_lines_shape _).
  - cbn [feed_act delivered pending]. by rewrite app_nil_r.
Qed.

Lemma feed_run_shapely acts f : shapely f -> shapely (feed_run acts f).
Proof.
  revert f. induction acts as [|a acts IH]; intros f H; [done|]. by apply IH, feed_act_shapely.
Qed.

(** The data of a record are part of its stream. *)
Lemma of_stream_part e es : e ∈ es -> exists a b, of_stream (stream e) es = a ++ data e ++ b.
Proof.
  intros (es1 & es2 & ->)%list_elem_of_split. rewrite of_stream_app.
  exists (of_stream (stream e) es1), (of_stream (stream e) es2). f_equal.
  change (e :: es2) with ([e] ++ es2). rewrite of_stream_app. f_equal.
  unfold of_stream. rewrite filter_cons_True by done. apply app_nil_r.
Qed.

(** A short piece of a line holds no record. *)
Lemma no_record_inside l e es rest :
  no_nl l -> (blen l < MAX_LEFTOVER_BYTES)%N -> e ∈ es -> record_shape (data e) ->
  of_stream (stream e) es ++ rest = l -> False.
Proof.
  intros Hn Hl He Hs <-. destruct (of_stream_part e es He) as (a & b & E). rewrite E in Hn, Hl.
  rewrite <-!app_assoc in Hn. apply Forall_app in Hn as [_ Hn]. apply Forall_app in Hn as [Hn _].
  destruct Hs as [(w & Hw & _)|[_ Hb]]; [|rewrite !blen_app in Hl; lia].
  rewrite Hw in Hn. apply Forall_app in Hn as [_ Hn]. by inversion Hn.
Qed.

Lemma elem_of_take_in {A} n (l : list A) x : x ∈ take n l -> x ∈ l.
Proof. intros H. rewrite <-(take_drop n l). apply elem_of_app. by left. Qed.

(** Filtering shows nothing new. *)
Lemma shown_in n (g : LogEntry -> bool) es e : e ∈ last_n n (List.filter g es) -> e ∈ es.
Proof.
  rewrite !list_elem_of_In. destruct n as [n|]; cbn [last_n].
  - rewrite <-in_rev, <-list_elem_of_In. intros H%elem_of_take_in. rewrite list_elem_of_In in H.
    apply in_rev, filter_In in H. apply H.
  - intros H. by apply filter_In in H as [H _].
Qed.

(** * Properties *)

(** C4. A graceful stop publishes the output.  Whatever the container wrote
    and however the passes fell, once the stop signal fires the tailer ends,
    and if its passes up to then are enough for what was not read (a chunk of
    [MAX_READ_CHUNK] of each stream in each), the records published are stream
    by stream the whole output, line by line, without a last line that has no
    newline; [container_logs_filtered] filters those that rotation left. *)
Theorem stop_publishes_output d so se hs s acts rounds home id flt
    (f := feed_run acts (feed_start (contents s (h_out hs)) (contents s (h_err hs))))
    (output := fun k => contents s (handle_of hs k) ++ concat (wrote k <$> acts)) :
  h_out hs <> h_err hs -> fresh d so se hs s -> no_logs d s ->
  events_path_for home id = Ok (d ++ ["events.log"]) -> stop_fires rounds = true ->
  (forall k, (blen (output k) <=
     taken (source k f) + N.of_nat (drains k (loop_passes rounds)) * MAX_READ_CHUNK)%N) ->
  let p := (pipe_run so se (d ++ ["events.log"]) hs acts (pipe_start s)).2 in
  let r := tailer_loop so se (d ++ ["events.log"]) rounds (tails p, pdisk p) in
  r.1 = Stopped /\ exists lost kept,
    container_logs_filtered home id flt r.2.2 =
      (Ok (last_n (tail flt) (List.filter (in_window flt) (trunc_entry <$> kept))), r.2.2) /\
    (lost <> [] -> (3 * EVENTS_ROTATE_BYTES < blen (encode_events kept))%N) /\
    Forall (fun e => record_shape (data e)) (lost ++ kept) /\
    forall k, exists rest, of_stream k (lost ++ kept) ++ rest = output k /\
      no_nl rest /\ (blen rest < MAX_LEFTOVER_BYTES)%N.
Proof.
  intros Hhs Hf Hn Hp Hst Hb. cbv zeta.
  pose proof (start_stocked d so se hs s Hf Hn) as H.
  apply (run_stocked d so se hs Hhs acts) in H.
  destruct (tailer_loop_passes d so se hs Hhs rounds _ _ H) as (p' & E & Hs').
  unfold half at 1 in E. rewrite E, Hst. split; [done|].
  destruct (stocked_shows d so se hs home id flt p' _ Hp Hs') as (lost & kept & Hk & Hc & Hl & Hsrc).
  exists lost, kept. split; [exact Hc|]. split; [exact Hl|]. split.
  { rewrite <-Hk. apply feed_run_shapely, feed_run_shapely. constructor. }
  intros k.
  assert (Hok : source_ok k f) by apply feed_run_ok, source_ok_start.
  assert (Hw : written (source k f) = output k) by (unfold f; rewrite feed_run_written; by destruct k).
  assert (Hw' : written (source k (feed_run (loop_passes rounds) f)) = output k)
    by by rewrite feed_run_written, wrote_no_pass, app_nil_r.
  destruct (Hsrc k) as (Hd & _ & Hlen & Hnl). eexists. split_and!; [|exact Hnl|exact Hlen].
  rewrite <-Hk. etrans; [exact Hd|]. fold f. rewrite Hw', drains_catch_up
    by (done || apply wrote_no_pass || by rewrite Hw).
  by rewrite Hw, to_nat_blen, take_ge.
Qed.


(** What is printed without a newline is never shown, not even after the last
    passes: the tailer keeps it for a line that does not come. *)
Theorem unfinished_output_unpublished d so se hs s acts rounds home id flt k
    (output := contents s (handle_of hs k) ++ concat (wrote k <$> acts)) :
  h_out hs <> h_err hs -> fresh d so se hs s -> no_logs d s ->
  events_path_for home id = Ok (d ++ ["events.log"]) ->
  no_nl output -> (blen output < MAX_LEFTOVER_BYTES)%N ->
  let p := (pipe_run so se (d ++ ["events.log"]) hs acts (pipe_start s)).2 in
  let r := tailer_loop so se (d ++ ["events.log"]) rounds (tails p, pdisk p) in
  exists es, (container_logs_filtered home id flt r.2.2).1 = Ok es /\
    Forall (fun e => stream e <> k) es.
Proof.
  intros Hhs Hf Hn Hp Hnl Hb. cbv zeta. pose proof (start_stocked d so se hs s Hf Hn) as H.
  apply (run_stocked d so se hs Hhs acts) in H.
  destruct (tailer_loop_passes d so se hs Hhs rounds _ _ H) as (p' & E & Hs').
  unfold half at 1 in E. rewrite E.
  destruct (stocked_shows d so se hs home id flt p' _ Hp Hs') as (lost & kept & Hk & Hc & _ & Hsrc).
  unfold half. cbn [fst snd]. rewrite Hc. eexists. split; [done|].
  assert (Hsh : shapely (feed_run (loop_passes rounds) (feed_run acts
    (feed_start (contents s (h_out hs)) (contents s (h_err hs)))))) by (apply feed_run_shapely, feed_run_shapely; constructor).
  destruct (Hsrc k) as (Hd & _). rewrite !feed_run_written, wrote_no_pass, app_nil_r, Hk in Hd.
  replace (written _) with (contents s (handle_of hs k)) in Hd by by destruct k.
  fold output in Hd. unfold shapely in Hsh. rewrite Hk in Hsh.
  apply Forall_forall. intros x (e & -> & He)%shown_in%list_elem_of_fmap <-.
  assert (He' : e ∈ lost ++ kept) by (apply elem_of_app; by right).
  rewrite Forall_forall in Hsh. apply (no_record_inside _ e) in Hd; [done| | |done|by apply Hsh].
  - by apply Forall_take.
  - unfold blen in *. rewrite length_take. lia.
Qed.

(** ** Witnesses *)

(** The container prints once more after the pass before the signal. *)
Definition demo_stop : list Round :=
  [mkRound 8000000 9000000 Slept 0 0; mkRound 10000000 11000000 StopSignal 12000000 13000000].

Lemma demo_retained_no_logs : no_logs demo_log_dir demo_retained_fs.
Proof.
  intros n Hn. do 6 (destruct n as [|n]; [reflexivity|]). unfold MAX_ROTATED_FILES in Hn. lia.
Qed.

Lemma stop_publishes_output_witness :
  let p := (pipe_run (demo_log_dir ++ ["stdout"]) (demo_log_dir ++ ["stderr"])
    (demo_log_dir ++ ["events.log"]) demo_handles (demo_acts ++ [Write Stdout (str_bytes "bye" ++ [NL])])
    (pipe_start demo_retained_fs)).2 in
  let r := tailer_loop (demo_log_dir ++ ["stdout"]) (demo_log_dir ++ ["stderr"])
    (demo_log_dir ++ ["events.log"]) demo_stop (tails p, pdisk p) in
  r.1 = Stopped /\ exists lost kept,
    (container_logs_filtered demo_home "c1" (mkLogsFilter None None None) r.2.2).1 =
      Ok (trunc_entry <$> kept) /\
    exists rest, of_stream Stdout (lost ++ kept) ++ rest =
      str_bytes "booting" ++ [NL] ++ str_bytes "bye" ++ [NL] /\ no_nl rest.
Proof.
  cbv zeta. destruct (stop_publishes_output demo_log_dir (demo_log_dir ++ ["stdout"])
    (demo_log_dir ++ ["stderr"]) demo_handles demo_retained_fs
    (demo_acts ++ [Write Stdout (str_bytes "bye" ++ [NL])]) demo_stop demo_home "c1"
    (mkLogsFilter None None None)) as (Hs & lost & kept & Hc & _ & _ & Ho).
  - discriminate.
  - exact demo_retained_fresh.
  - exact demo_retained_no_logs.
  - reflexivity.
  - reflexivity.
  - intros [|]; vm_compute; discriminate.
  - split; [exact Hs|]. exists lost, kept. split.
    + rewrite Hc. cbn [fst last_n tail]. by rewrite filter_true.
    + destruct (Ho Stdout) as (rest & E & Hn & _). exists rest. split; [exact E|exact Hn].
Defined.

(** [printf boot] leaves nothing in the log. *)
Lemma unfinished_output_unpublished_witness :
  let p := (pipe_run (demo_log_dir ++ ["stdout"]) (demo_log_dir ++ ["stderr"])
    (demo_log_dir ++ ["events.log"]) demo_handles [Drain Stdout 1000000] (pipe_start demo_retained_fs)).2 in
  let r := tailer_loop (demo_log_dir ++ ["stdout"]) (demo_log_dir ++ ["stderr"])
    (demo_log_dir ++ ["events.log"]) demo_stop (tails p, pdisk p) in
  exists es, (container_logs_filtered demo_home "c1" (mkLogsFilter None None None) r.2.2).1 = Ok es /\
    Forall (fun e => stream e <> Stdout) es.
Proof.
  apply (unfinished_output_unpublished demo_log_dir (demo_log_dir ++ ["stdout"])
    (demo_log_dir ++ ["stderr"]) demo_handles demo_retained_fs [Drain Stdout 1000000] demo_stop
    demo_home "c1" (mkLogsFilter None None None) Stdout).
  - discriminate.
  - exact demo_retained_fresh.
  - exact demo_retained_no_logs.
  - reflexivity.
  - cbn. repeat constructor; discriminate.
  - reflexivity.
Defined.
