(* ===== verification/World.v ===== *)
(** * The world of the client: containerd, the clock, shared client state

    The daemon and everything else outside the crate is a parameter: class
    [Env] has its state [Ext] and one function per kind of interaction, each
    free to move that state as it likes, so other clients of the daemon act
    between any two of our calls.  [Req] lists the gRPC requests the crate
    sends, [resp_of] the type of each response.

    [World] is what a call of the crate sees and changes.  A [Client] is its
    namespace: the maps it shares with its clones ([managed_handles],
    [managed_tailers], [image_metadata_cache], [task_start_times]) live in the
    world, so that two clients alias them as the [Arc]s of the source do.
    [trace] records, oldest first, the requests sent and the background tasks
    started and stopped. *)

From S2P Require Import Prelude RustText RustFmt Errors Effects FileSystem.

Abbreviation labels_map := (gmap string string).

(** ** Messages ([containerd_client]) *)
Record Any : Type := mkAny { type_url : string; value : bytes }.

(** [services::v1::Container]; [runtime] is the runtime's name. *)
Record Container : Type := mkContainer {
  c_id : string;
  c_image : string;
  c_runtime : option string;
  c_spec : option Any;
  c_snapshotter : string;
  c_snapshot_key : string;
  c_labels : labels_map
}.

(** [types::v1::Process]: the status is the protobuf enumeration's number. *)
Record Process : Type := mkProcess {
  p_container_id : string;
  p_pid : N;
  p_status : Z;
  p_exit_status : N
}.

(** [types::Mount]: opaque to the crate, passed from the snapshotter to the
    task service. *)
Record RootMount : Type := mkRootMount {
  rm_type : string;
  rm_source : string;
  rm_options : list string
}.

Record Timestamp : Type := mkTimestamp { ts_seconds : Z; ts_nanos : Z }.

(** [snapshots::Info]. *)
Record SnapInfo : Type := mkSnapInfo {
  s_name : string;
  s_parent : string;
  s_labels : labels_map;
  s_created_at : option Timestamp
}.

(** [services::v1::Image]: the digest of the target descriptor. *)
Record Image : Type := mkImage { i_name : string; i_target : option string }.

Record CreateTaskRequest : Type := mkCreateTaskRequest {
  ct_container_id : string;
  ct_rootfs : list RootMount;
  ct_stdin : string;
  ct_stdout : string;
  ct_stderr : string;
  ct_terminal : bool
}.

Record ExecProcessRequest : Type := mkExecProcessRequest {
  ep_container_id : string;
  ep_stdin : string;
  ep_stdout : string;
  ep_stderr : string;
  ep_terminal : bool;
  ep_spec : option Any;
  ep_exec_id : string
}.

(** [types::transfer]: the registry a pull reads, the image store it writes,
    which unpacks the layers for a platform. *)
Record OciRegistry : Type := mkOciRegistry { reference : string }.
Record ImagePlatform : Type := mkImagePlatform { os : string; architecture : string }.
Record UnpackConfiguration : Type := mkUnpackConfiguration {
  uc_snapshotter : string;
  uc_platform : option ImagePlatform
}.
Record ImageStore : Type := mkImageStore {
  is_name : string;
  is_unpacks : list UnpackConfiguration
}.

(** The two ends, before [to_any]. *)
Record TransferRequest : Type := mkTransferRequest {
  tr_source : OciRegistry;
  tr_destination : ImageStore
}.

Inductive Req : Type :=
| GetContainer (id : string)
| ListContainers (filters : list string)
| CreateContainer (container : option Container)
| DeleteContainer (id : string)
| CreateTask (r : CreateTaskRequest)
| StartTask (container_id exec_id : string)
| KillTask (container_id exec_id : string) (signal : N) (all : bool)
| DeleteTask (container_id : string)
| PauseTask (container_id : string)
| ResumeTask (container_id : string)
| GetTask (container_id exec_id : string)
| ListTasks (flt : string)
| ExecProcess (r : ExecProcessRequest)
| WaitTask (container_id exec_id : string)
| DeleteProcess (container_id exec_id : string)
| Mounts (snapshotter key : string)
| Prepare (snapshotter key parent : string) (labels : labels_map)
| RemoveSnapshot (snapshotter key : string)
| Commit (snapshotter name key : string) (labels : labels_map)
| StatSnapshot (snapshotter key : string)
| ListSnapshots (snapshotter : string) (filters : list string)
| GetImage (name : string)
| ReadContent (digest : string) (offset size : N)
| Transfer (r : TransferRequest)
| Version.

(** A server stream: its messages, and the status that cuts it short. *)
Definition stream_of (A : Type) : Type := list A * option Status.

Definition resp_of (r : Req) : Type :=
  match r with
  | GetContainer _ => option Container
  | ListContainers _ => list Container
  | CreateTask _ => N
  | GetTask _ _ => option Process
  | ListTasks _ => list Process
  | WaitTask _ _ => N
  | Mounts _ _ => list RootMount
  | StatSnapshot _ _ => option SnapInfo
  | ListSnapshots _ _ => stream_of (list SnapInfo)
  | GetImage _ => option Image
  | ReadContent _ _ _ => stream_of bytes
  | Version => string
  | _ => unit
  end.

(** The steps of opening a listener that can fail. *)
Inductive ListenError : Type :=
| BindFailed (e : string)
| NonBlockingFailed (e : string)
| ConvertFailed (e : string).

(** Finding an ephemeral port: the bind, or reading the port back. *)
Inductive EphemeralError : Type := EBind (e : string) | ELocalAddr (e : string).

(** ** The environment *)
Class Env : Type := mkEnv {
  Ext : Type;
  (** answers a request of a namespace and takes some time *)
  handle : string -> forall r : Req, Ext -> result Status (resp_of r) * Duration * Ext;
  (** how much longer than asked a sleep lasts *)
  overshoot : Duration -> Ext -> Duration * Ext;
  (** [Uuid::new_v4().simple()] *)
  fresh_uuid : Ext -> string * Ext;
  (** [IteratorRandom::choose] *)
  choose : list N -> Ext -> option N * Ext;
  (** [TcpListener::bind("127.0.0.1:0")] and the port it got *)
  bind_ephemeral : Ext -> result EphemeralError N * Ext;
  (** [TcpListener::bind] of a given local port, made ready for the runtime *)
  bind_port : N -> Ext -> result ListenError unit * Ext;
  (** [TcpStream::connect] to a local port within a time limit *)
  tcp_connect : N -> Duration -> Ext -> bool * Duration * Ext;
  (** [std::env::home_dir()] *)
  home_dir : option path;
  (** a namespace parses as a gRPC metadata value *)
  metadata_ok : string -> bool;
  (** [std::process::id()] *)
  process_id : N;
  (** [Path::to_string_lossy] *)
  path_text : path -> string
}.

(** ** Client-side state *)
Record PortForwardHandle : Type := mkPortForwardHandle {
  pf_container_id : string;
  pf_host_port : N;
  pf_container_port : N;
  pf_target : string
}.

(** A running background tailer: the files it works on. *)
Record LogTailerHandle : Type := mkLogTailerHandle {
  lt_stdout : path;
  lt_stderr : path;
  lt_events : path
}.

(** [LogFollower]: the file its background task reads, and whether a watcher
    tells it to stop ([start_with_stop]) or it runs until it is dropped
    ([start]). *)
Record LogFollowerHandle : Type := mkLogFollowerHandle {
  lf_events : path;
  lf_stops : bool
}.

Inductive Event : Type :=
| Sent (ns : string) (r : Req)
| Slept (d : Duration)
| TailerStarted (t : LogTailerHandle)
| TailerStopped (t : LogTailerHandle)
| ForwardStopped (h : PortForwardHandle)
| ForwardDropped (h : PortForwardHandle)
| FollowerStarted (f : LogFollowerHandle)
| WatcherStarted (ns container_id : string).

(** [Meta] is the type of the cached image metadata. *)
Record World {E : Env} {Meta : Type} : Type := mkWorld {
  ext : Ext;
  clock : N;
  files : FsSt;
  managed_handles : list PortForwardHandle;
  handles_poisoned : bool;
  managed_tailers : gmap string LogTailerHandle;
  image_metadata_cache : gmap string Meta;
  task_start_times : gmap string N;
  exec_counter : N;
  trace : list Event
}.
Arguments World {E} Meta.
Arguments mkWorld {E Meta}.

(** [Client]: what is not shared with its clones. *)
Record Client : Type := mkClient { namespace : string }.

(** ** Basic operations *)
Section ops.
Context {E : Env} {Meta : Type}.
Abbreviation W := (World Meta).
Abbreviation M := (ST W).

Definition set_ext (e : Ext) (w : W) : W :=
  mkWorld e (clock w) (files w) (managed_handles w) (handles_poisoned w) (managed_tailers w)
    (image_metadata_cache w) (task_start_times w) (exec_counter w) (trace w).
Definition set_clock (c : N) (w : W) : W :=
  mkWorld (ext w) c (files w) (managed_handles w) (handles_poisoned w) (managed_tailers w)
    (image_metadata_cache w) (task_start_times w) (exec_counter w) (trace w).
Definition set_files (f : FsSt) (w : W) : W :=
  mkWorld (ext w) (clock w) f (managed_handles w) (handles_poisoned w) (managed_tailers w)
    (image_metadata_cache w) (task_start_times w) (exec_counter w) (trace w).
Definition set_handles (h : list PortForwardHandle) (w : W) : W :=
  mkWorld (ext w) (clock w) (files w) h (handles_poisoned w) (managed_tailers w)
    (image_metadata_cache w) (task_start_times w) (exec_counter w) (trace w).
Definition set_tailers (t : gmap string LogTailerHandle) (w : W) : W :=
  mkWorld (ext w) (clock w) (files w) (managed_handles w) (handles_poisoned w) t
    (image_metadata_cache w) (task_start_times w) (exec_counter w) (trace w).
Definition set_cache (c : gmap string Meta) (w : W) : W :=
  mkWorld (ext w) (clock w) (files w) (managed_handles w) (handles_poisoned w) (managed_tailers w)
    c (task_start_times w) (exec_counter w) (trace w).
Definition set_starts (t : gmap string N) (w : W) : W :=
  mkWorld (ext w) (clock w) (files w) (managed_handles w) (handles_poisoned w) (managed_tailers w)
    (image_metadata_cache w) t (exec_counter w) (trace w).
Definition set_execs (n : N) (w : W) : W :=
  mkWorld (ext w) (clock w) (files w) (managed_handles w) (handles_poisoned w) (managed_tailers w)
    (image_metadata_cache w) (task_start_times w) n (trace w).
Definition emit (ev : Event) (w : W) : W :=
  mkWorld (ext w) (clock w) (files w) (managed_handles w) (handles_poisoned w) (managed_tailers w)
    (image_metadata_cache w) (task_start_times w) (exec_counter w) (trace w ++ [ev]).

(** [client.ns_req(r)] sent through the stub of the request's service. *)
Definition rpc (client : Client) (r : Req) : M (result Status (resp_of r)) := fun w =>
  let '(a, d, e) := handle (namespace client) r (ext w) in
  (a, emit (Sent (namespace client) r) (set_clock (clock w + d)%N (set_ext e w))).

(** [tokio::time::sleep]. *)
Definition sleep (d : Duration) : M unit := fun w =>
  let '(o, e) := overshoot d (ext w) in
  (tt, emit (Slept d) (set_clock (clock w + d + o)%N (set_ext e w))).

(** [Instant::now()] and [Instant::elapsed]. *)
Definition now : M N := fun w => (clock w, w).
Definition elapsed (start : N) : M Duration := fun w => ((clock w - start)%N, w).

(** An interaction with the outside that takes no modelled time. *)
Definition outside {A} (f : Ext -> A * Ext) : M A := fun w =>
  let r := f (ext w) in (r.1, set_ext r.2 w).

Definition on_files {A} (m : FsM A) : M A := zoom files set_files m.

End ops.
