(* ===== verification/DemoDaemon.v ===== *)
(** * A concrete environment for the witnesses

    The daemon is a parameter of the model; this file only exhibits one
    instance of [Env], so that theorems with hypotheses about the environment
    can be applied to a concrete one.  It keeps containers, tasks and snapshots
    in maps and answers with the status codes the crate relies on: [NotFound]
    for what is absent, [AlreadyExists] for what is there, [FailedPrecondition]
    for a request that does not fit the state. *)

From S2P Require Import Prelude RustText RustFmt Errors Effects FileSystem World.

(** [types::v1::Status]. *)
Definition ST_CREATED : Z := 1.
Definition ST_RUNNING : Z := 2.
Definition ST_STOPPED : Z := 3.
Definition ST_PAUSED : Z := 4.

Record Snap : Type := mkSnap { sn_info : SnapInfo; sn_committed : bool }.

Record Demo : Type := mkDemo {
  d_containers : gmap (string * string) Container;
  d_tasks : gmap (string * string) Process;
  d_snaps : gmap (string * string) Snap;
  d_images : gmap string Image;
  d_blobs : gmap string bytes;
  d_next : N;
  (** tasks that do not react to signal 15 *)
  d_stubborn : bool
}.

Definition st (c : Code) : Status := mkStatus c "".

Definition with_containers (d : Demo) m :=
  mkDemo m (d_tasks d) (d_snaps d) (d_images d) (d_blobs d) (d_next d) (d_stubborn d).
Definition with_tasks (d : Demo) m :=
  mkDemo (d_containers d) m (d_snaps d) (d_images d) (d_blobs d) (d_next d) (d_stubborn d).
Definition with_snaps (d : Demo) m :=
  mkDemo (d_containers d) (d_tasks d) m (d_images d) (d_blobs d) (d_next d) (d_stubborn d).
Definition with_images (d : Demo) m :=
  mkDemo (d_containers d) (d_tasks d) (d_snaps d) m (d_blobs d) (d_next d) (d_stubborn d).
Definition bump_next (d : Demo) :=
  mkDemo (d_containers d) (d_tasks d) (d_snaps d) (d_images d) (d_blobs d) (d_next d + 1)%N
    (d_stubborn d).

(** Does a container carry the label a [labels."k"==v] filter asks for? *)
Definition label_filter (k v : string) : string := "labels." +:+ DQ +:+ k +:+ DQ +:+ "==" +:+ v.

Definition passes (filters : list string) (labels : labels_map) : bool :=
  match filters with
  | [] => true
  | _ => existsb (fun f => existsb (fun kv => String.eqb f (label_filter kv.1 kv.2))
                             (map_to_list labels)) filters
  end.

Definition in_ns {A} (ns : string) (m : gmap (string * string) A) : list A :=
  snd <$> filter (fun e => e.1.1 = ns) (map_to_list m).

Definition set_status (p : Process) (s : Z) (code : N) : Process :=
  mkProcess (p_container_id p) (p_pid p) s code.

Definition demo_kill (ns id : string) (signal : N) (d : Demo) : result Status unit * Demo :=
  match d_tasks d !! (ns, id) with
  | None => (Err (st NotFound), d)
  | Some p =>
      if decide (p_status p = ST_STOPPED) then (Err (st FailedPrecondition), d)
      else if (signal =? 15)%N && d_stubborn d then (Ok tt, d)
      else (Ok tt, with_tasks d (<[(ns, id) := set_status p ST_STOPPED (128 + signal)]> (d_tasks d)))
  end.

Definition demo_set_task (ns id : string) (from s : Z) (d : Demo) : result Status unit * Demo :=
  match d_tasks d !! (ns, id) with
  | None => (Err (st NotFound), d)
  | Some p =>
      if decide (p_status p = from)
      then (Ok tt, with_tasks d (<[(ns, id) := set_status p s 0]> (d_tasks d)))
      else (Err (st FailedPrecondition), d)
  end.

Definition has_child (d : Demo) (snapshotter key : string) : bool :=
  existsb (fun e => bool_decide (e.1.1 = snapshotter) && String.eqb (s_parent (sn_info e.2)) key)
    (map_to_list (d_snaps d)).

Definition demo_prepare (sn key parent : string) (l : labels_map) (d : Demo) :
    result Status unit * Demo :=
  if decide (is_Some (d_snaps d !! (sn, key))) then (Err (st AlreadyExists), d)
  else if decide (d_snaps d !! (sn, parent) = None) then (Err (st NotFound), d)
  else (Ok tt, with_snaps d
          (<[(sn, key) := mkSnap (mkSnapInfo key parent l None) false]> (d_snaps d))).

Definition demo_commit (sn name key : string) (l : labels_map) (d : Demo) :
    result Status unit * Demo :=
  if decide (is_Some (d_snaps d !! (sn, name))) then (Err (st AlreadyExists), d)
  else match d_snaps d !! (sn, key) with
  | Some s => if sn_committed s then (Err (st FailedPrecondition), d) else (Ok tt, with_snaps d
      (<[(sn, name) := mkSnap (mkSnapInfo name (s_parent (sn_info s)) l None) true]>
         (delete (sn, key) (d_snaps d))))
  | None => (Err (st NotFound), d)
  end.

(** A committed snapshot stays while others are parented at it. *)
Definition demo_remove (sn key : string) (d : Demo) : result Status unit * Demo :=
  match d_snaps d !! (sn, key) with
  | None => (Err (st NotFound), d)
  | Some s => if sn_committed s && has_child d sn key then (Err (st FailedPrecondition), d)
              else (Ok tt, with_snaps d (delete (sn, key) (d_snaps d)))
  end.

Definition found {A} (o : option A) : result Status (option A) :=
  match o with Some a => Ok (Some a) | None => Err (st NotFound) end.

(** Containers are filed under their own id. *)
Definition demo_list (ns : string) (fs : list string) (d : Demo) : list Container :=
  filter (fun c => passes fs (c_labels c) = true)
    (snd <$> filter (fun e => e.1.1 = ns /\ c_id e.2 = e.1.2) (map_to_list (d_containers d))).

Definition demo_record (ns id : string) (d : Demo) : option Container :=
  c ← d_containers d !! (ns, id); if decide (c_id c = id) then Some c else None.

Definition demo_handle (ns : string) (r : Req) (d : Demo) : result Status (resp_of r) * Demo :=
  match r with
  | GetContainer id => (found (demo_record ns id d), d)
  | ListContainers fs => (Ok (demo_list ns fs d), d)
  | CreateContainer (Some c) =>
      match d_containers d !! (ns, c_id c) with
      | Some _ => (Err (st AlreadyExists), d)
      | None => (Ok tt, with_containers d (<[(ns, c_id c) := c]> (d_containers d)))
      end
  | CreateContainer None => (Err (st CodeInvalidArgument), d)
  | DeleteContainer id =>
      match d_containers d !! (ns, id) with
      | Some _ => (Ok tt, with_containers d (delete (ns, id) (d_containers d)))
      | None => (Err (st NotFound), d)
      end
  | CreateTask t =>
      match d_tasks d !! (ns, ct_container_id t) with
      | Some _ => (Err (st AlreadyExists), d)
      | None => (Ok (d_next d), bump_next (with_tasks d
          (<[(ns, ct_container_id t) :=
               mkProcess (ct_container_id t) (d_next d) ST_CREATED 0]> (d_tasks d))))
      end
  | StartTask id "" => demo_set_task ns id ST_CREATED ST_RUNNING d
  | StartTask _ _ => (Ok tt, d)
  | KillTask id _ signal _ => demo_kill ns id signal d
  | DeleteTask id =>
      match d_tasks d !! (ns, id) with
      | None => (Err (st NotFound), d)
      | Some p => if decide (p_status p = ST_RUNNING) then (Err (st FailedPrecondition), d)
                  else (Ok tt, with_tasks d (delete (ns, id) (d_tasks d)))
      end
  | PauseTask id => demo_set_task ns id ST_RUNNING ST_PAUSED d
  | ResumeTask id => demo_set_task ns id ST_PAUSED ST_RUNNING d
  | GetTask id _ => (found (d_tasks d !! (ns, id)), d)
  | ListTasks _ => (Ok (in_ns ns (d_tasks d)), d)
  | ExecProcess _ => (Ok tt, d)
  | WaitTask _ _ => (Ok 0%N, d)
  | DeleteProcess _ _ => (Ok tt, d)
  | Mounts sn key => (match d_snaps d !! (sn, key) with
                      | Some _ => Ok [] | None => Err (st NotFound) end, d)
  | Prepare sn key parent l => demo_prepare sn key parent l d
  | RemoveSnapshot sn key => demo_remove sn key d
  | Commit sn name key l => demo_commit sn name key l d
  | StatSnapshot sn key => (found (sn_info <$> d_snaps d !! (sn, key)), d)
  | ListSnapshots sn fs =>
      (Ok ([filter (fun i => passes fs (s_labels i) = true)
              (sn_info <$> (in_ns sn (d_snaps d)))], None), d)
  | GetImage n => (found (d_images d !! n), d)
  | ReadContent dg _ _ => (match d_blobs d !! dg with
                           | Some b => Ok ([b], None) | None => Err (st NotFound) end, d)
  | Transfer t => (Ok tt, with_images d
      (<[is_name (tr_destination t) := mkImage (is_name (tr_destination t)) None]> (d_images d)))
  | Version => (Ok "demo", d)
  end.

(** Every request takes a millisecond, a sleep what it is asked for; the random
    choices are the first ones. *)
#[export] Instance demo_env : Env := {|
  Ext := Demo;
  handle := fun ns r d => let '(a, d') := demo_handle ns r d in (a, from_millis 1, d');
  overshoot := fun _ d => (0%N, d);
  fresh_uuid := fun d => (bytes_str (hex_padded 32 (d_next d)), bump_next d);
  choose := fun l d => (head l, d);
  bind_ephemeral := fun d => (Ok (40000 + d_next d)%N, bump_next d);
  bind_port := fun _ d => (Ok tt, d);
  tcp_connect := fun _ _ d => (true, 0%N, d);
  home_dir := Some ["/"; "root"];
  metadata_ok := fun s => forallb (fun b => (32 <=? Byte.to_N b) && (Byte.to_N b <? 127))%N
                            (str_bytes s);
  process_id := 7;
  path_text := fun p => join "/" p
|}.

Definition demo_empty : Demo := mkDemo ∅ ∅ ∅ ∅ ∅ 1 false.

Definition demo_world {Meta} (d : Demo) : World Meta :=
  mkWorld (d : @Ext demo_env) 0 (quiet fs_empty) [] false ∅ ∅ ∅ 0 [].

Definition demo_client : Client := mkClient "default".

(** The same surroundings with other answers. *)
Definition demo_answering
    (h : string -> forall r : Req, Demo -> result Status (resp_of r) * Duration * Demo) : Env := {|
  Ext := Demo;
  handle := h;
  overshoot := @overshoot demo_env;
  fresh_uuid := @fresh_uuid demo_env;
  choose := @choose demo_env;
  bind_ephemeral := @bind_ephemeral demo_env;
  bind_port := @bind_port demo_env;
  tcp_connect := @tcp_connect demo_env;
  home_dir := @home_dir demo_env;
  metadata_ok := @metadata_ok demo_env;
  process_id := @process_id demo_env;
  path_text := @path_text demo_env
|}.

(** A daemon that answers nothing any more, and one that only fails the status
    queries. *)
Definition down_env : Env :=
  demo_answering (fun _ _ d => (Err (st Unavailable), from_millis 1, d)).

Definition flaky_env : Env :=
  demo_answering (fun ns r d =>
    match r return result Status (resp_of r) * Duration * Demo with
    | GetTask _ _ => (Err (st Unavailable), from_millis 1, d)
    | r => @handle demo_env ns r d
    end).
