(* ===== verification/Loops.v ===== *)
(** * Loops, and [poll_until] ([src/util.rs])

    A [loop { .. }] of the source is a [body] that either goes on with a new
    loop state or is done with a value.  [loop] runs it with fuel; the lemmas
    say that more fuel never changes an answer and give a measure rule for
    having enough.  [poll_until] and the other polling loops of the crate
    compute their fuel from the time limit and the sleep between rounds. *)

From S2P Require Import Prelude RustText RustFmt Errors Effects FileSystem World.

Section loop.
Context {W S A : Type}.

Fixpoint loop (fuel : nat) (body : S -> ST W (S + A)) (s : S) : ST W (option A) :=
  match fuel with
  | O => mret None
  | Datatypes.S fuel =>
      r ← body s;
      match r with inl s' => loop fuel body s' | inr a => mret (Some a) end
  end.

Lemma loop_more f f' body s w a w' :
  f <= f' -> loop f body s w = (Some a, w') -> loop f' body s w = (Some a, w').
Proof.
  revert f' s w. induction f as [|f IH]; intros f' s w Hf; [done|].
  destruct f' as [|f']; [lia|]. cbn [loop].
  intros (r & w1 & H1 & H2)%bind_inv. rewrite (run_bind _ _ _ _ _ H1).
  destruct r; [apply IH; [lia|done]|done].
Qed.

(** A measure that every round decreases bounds the number of rounds; [I] is
    an invariant of the loop. *)
Lemma loop_ends (I : S -> W -> Prop) (m : S -> W -> nat) body :
  (forall s w, I s w ->
     match body s w with (inl s', w') => I s' w' /\ m s' w' < m s w | (inr _, _) => True end) ->
  forall f s w, I s w -> m s w < f -> exists a w', loop f body s w = (Some a, w').
Proof.
  intros Hb f. induction f as [|f IH]; intros s w HI Hm; [lia|]. cbn [loop].
  specialize (Hb s w HI). destruct (body s w) as [[s'|a] w'] eqn:E.
  - destruct Hb as [HI' Hlt]. rewrite (run_bind _ _ _ _ _ E). apply IH; [done|lia].
  - rewrite (run_bind _ _ _ _ _ E). eauto.
Qed.

(** With enough fuel the loop satisfies its equation. *)
Lemma loop_unfold (I : S -> W -> Prop) (m : S -> W -> nat) body s w :
  (forall s w, I s w ->
     match body s w with (inl s', w') => I s' w' /\ m s' w' < m s w | (inr _, _) => True end) ->
  I s w ->
  forall f, m s w < f ->
  loop f body s w =
    (r ← body s; match r with inl s' => loop f body s' | inr a => mret (Some a) end) w.
Proof.
  intros Hb HI f Hf. destruct (loop_ends I m body Hb f s w HI Hf) as (a & w' & E).
  destruct f as [|f]; [lia|]. rewrite E. symmetry. cbn [loop] in E.
  apply bind_inv in E as (r & w1 & H1 & H2). rewrite (run_bind _ _ _ _ _ H1).
  destruct r as [s'|a']; [|done].
  apply (loop_more f); [lia|done].
Qed.

End loop.

(** ** [poll_until] *)
Section poll.
Context {E : Env} {Meta : Type}.
Abbreviation M := (ST (World Meta)).

(** One round. *)
Definition poll_round (start : N) (timeout interval : Duration) (timeout_msg : string)
    (predicate : M bool) (u : unit) : M (unit + Result unit) :=
  e ← elapsed start;
  if (timeout <? e)%N then mret (inr (Err (Timeout timeout_msg)))
  else
    b ← predicate;
    if b : bool then mret (inr (Ok tt))
    else _ ← sleep interval; mret (inl tt).

(** Rounds that fit before the limit, the one that times out, one to spare. *)
Definition rounds_within (timeout interval : Duration) : nat :=
  N.to_nat (timeout / interval) + 3.

Definition poll_until (start : N) (timeout interval : Duration) (timeout_msg : string)
    (predicate : M bool) : M (Result unit) :=
  r ← loop (rounds_within timeout interval)
        (poll_round start timeout interval timeout_msg predicate) tt;
  mret (default (Err (Timeout timeout_msg)) r).

(** Time does not go back. *)
Definition later (w w' : World Meta) : Prop := (clock w <= clock w')%N.

#[export] Instance later_refl : Reflexive later.
Proof. intros w. unfold later. lia. Qed.
#[export] Instance later_trans : Transitive later.
Proof. intros w1 w2 w3. unfold later. lia. Qed.

Lemma later_rpc c r : pres later (rpc c r).
Proof.
  intros w. unfold rpc, later. destruct (handle _ _ _) as [[a d] e]. simpl. lia.
Qed.

Lemma later_sleep d : pres later (sleep d).
Proof. intros w. unfold sleep, later. destruct (overshoot _ _) as [o e]. simpl. lia. Qed.

Lemma later_now : pres later now.
Proof. intros w. apply N.le_refl. Qed.

Lemma later_elapsed s : pres later (elapsed s).
Proof. intros w. apply N.le_refl. Qed.

Lemma later_outside {A} (f : Ext -> A * Ext) : pres later (outside f).
Proof. intros w. apply N.le_refl. Qed.

Lemma later_files {A} (m : FsM A) : pres later (on_files m).
Proof. intros w. apply N.le_refl. Qed.

Lemma later_modify (f : World Meta -> World Meta) : (forall w, clock (f w) = clock w) -> pres later (modify_st f).
Proof. intros H w. unfold later. simpl. rewrite H. lia. Qed.

Lemma sleep_clock d (w : World Meta) : (clock w + d <= clock (sleep d w).2)%N.
Proof. unfold sleep. destruct (overshoot _ _). simpl. lia. Qed.

(** The measure of a loop that sleeps [interval] in every round and stops
    once [timeout] has elapsed. *)
Definition rounds_left (start timeout interval : N) (w : World Meta) : nat :=
  N.to_nat ((timeout + interval + interval - (clock w - start)) / interval).

Lemma rounds_left_dec start timeout interval w w' :
  (0 < interval)%N -> (start <= clock w)%N -> (clock w - start <= timeout)%N ->
  (clock w + interval <= clock w')%N ->
  rounds_left start timeout interval w' < rounds_left start timeout interval w.
Proof.
  intros Hi Hs Ht Hw. unfold rounds_left.
  set (a := (timeout + interval + interval - (clock w - start))%N).
  assert (Hle : (timeout + interval + interval - (clock w' - start) <= a - interval)%N)
    by (unfold a; lia).
  assert (Ha : (1 * interval <= a)%N) by (unfold a; lia).
  pose proof (N.Div0.div_le_mono _ _ interval Hle).
  replace (a / interval)%N with ((a - interval) / interval + 1)%N; [lia|].
  rewrite <-N.div_add by lia. f_equal. lia.
Qed.

Lemma rounds_left_fuel start timeout interval w :
  (0 < interval)%N -> rounds_left start timeout interval w < rounds_within timeout interval.
Proof.
  intros Hi. unfold rounds_left, rounds_within.
  pose proof (N.Div0.div_le_mono (timeout + interval + interval - (clock w - start))
    (timeout + 2 * interval) interval ltac:(lia)) as H.
  rewrite N.div_add in H by lia. lia.
Qed.

Definition started (start : N) {A} (_ : A) (w : World Meta) : Prop := (start <= clock w)%N.

Lemma poll_round_measure start timeout interval msg predicate u w :
  (0 < interval)%N -> pres later predicate -> started start u w ->
  match poll_round start timeout interval msg predicate u w with
  | (inl u', w') => started start u' w' /\
      rounds_left start timeout interval w' < rounds_left start timeout interval w
  | (inr _, _) => True
  end.
Proof.
  intros Hi Hp Hs. unfold poll_round. rewrite (run_bind _ _ w (clock w - start)%N w) by done.
  destruct (timeout <? clock w - start)%N eqn:Et; [done|]. simp_eqs.
  specialize (Hp w). unfold later in Hp. unfold started in *.
  destruct (predicate w) as [[|] w1] eqn:Ep; rewrite (run_bind _ _ _ _ _ Ep); [done|].
  pose proof (sleep_clock interval w1) as Hsl. simpl in Hp.
  destruct (sleep interval w1) as [[] w2] eqn:Es. rewrite (run_bind _ _ _ _ _ Es).
  simpl in *. split; [lia|]. apply rounds_left_dec; lia.
Qed.

(** A body that sleeps [interval] in each round and gives up once [timeout] has
    elapsed finds its answer within [rounds_within]. *)
Definition paced {S A} (start timeout interval : N) (body : S -> M (S + A)) : Prop :=
  forall s w, (start <= clock w)%N ->
    match body s w with
    | (inl _, w') => (clock w - start <= timeout)%N /\ (clock w + interval <= clock w')%N
    | (inr _, _) => True
    end.

Lemma paced_ends {S A} start timeout interval (body : S -> M (S + A)) s w :
  (0 < interval)%N -> paced start timeout interval body -> (start <= clock w)%N ->
  exists a w', loop (rounds_within timeout interval) body s w = (Some a, w').
Proof.
  intros Hi Hp Hs.
  apply (loop_ends (started start) (fun _ => rounds_left start timeout interval)).
  - intros s1 w1 H1. specialize (Hp s1 w1 H1). destruct (body s1 w1) as [[s2|a] w2]; [|done].
    destruct Hp. unfold started in *. split; [lia|]. apply rounds_left_dec; done.
  - done.
  - by apply rounds_left_fuel.
Qed.

(** An answer is the answer of some round. *)
Lemma loop_answer {S A} f (body : S -> M (S + A)) s w a w' (I : World Meta -> Prop) :
  I w -> (forall s w s' w', I w -> body s w = (inl s', w') -> I w') ->
  loop f body s w = (Some a, w') ->
  exists s1 w1, I w1 /\ body s1 w1 = (inr a, w').
Proof.
  intros HI Hstep. revert s w HI. induction f as [|f IH]; intros s w HI; [done|].
  cbn [loop]. intros (r & w1 & H1 & H2)%bind_inv. destruct r as [s'|a'].
  - apply (IH s' w1); [|done]. by eapply Hstep.
  - apply ret_inv in H2 as [H2 ->]. simplify_eq. eauto.
Qed.

(** The loop of the source: [poll_until] satisfies its equation. *)
Lemma poll_until_eq start timeout interval msg predicate w :
  (0 < interval)%N -> pres later predicate -> (start <= clock w)%N ->
  poll_until start timeout interval msg predicate w =
    (e ← elapsed start;
     if (timeout <? e)%N then mret (Err (Timeout msg))
     else
       b ← predicate;
       if b : bool then mret (Ok tt)
       else _ ← sleep interval; poll_until start timeout interval msg predicate) w.
Proof.
  intros Hi Hp Hs. unfold poll_until at 1.
  pose proof (loop_unfold (started start) (fun _ => rounds_left start timeout interval)
    (poll_round start timeout interval msg predicate) tt w
    (fun u w => poll_round_measure start timeout interval msg predicate u w Hi Hp) Hs
    (rounds_within timeout interval) (rounds_left_fuel _ _ _ _ Hi)) as Hl.
  rewrite (run_bind (elapsed start) _ w (clock w - start)%N w) by done.
  destruct (timeout <? clock w - start)%N eqn:Et.
  { assert (Hr : poll_round start timeout interval msg predicate tt w =
      (inr (Err (Timeout msg)), w)).
    { unfold poll_round. rewrite (run_bind (elapsed start) _ w (clock w - start)%N w) by done.
      by rewrite Et. }
    rewrite (run_bind _ _ _ _ _ Hr) in Hl. by rewrite (run_bind _ _ _ _ _ Hl). }
  destruct (predicate w) as [[|] w1] eqn:Ep; rewrite (run_bind _ _ _ _ _ Ep).
  { assert (Hr : poll_round start timeout interval msg predicate tt w = (inr (Ok tt), w1)).
    { unfold poll_round. rewrite (run_bind (elapsed start) _ w (clock w - start)%N w) by done.
      rewrite Et. by rewrite (run_bind _ _ _ _ _ Ep). }
    rewrite (run_bind _ _ _ _ _ Hr) in Hl. by rewrite (run_bind _ _ _ _ _ Hl). }
  destruct (sleep interval w1) as [[] w2] eqn:Es. rewrite (run_bind _ _ _ _ _ Es).
  assert (Hr : poll_round start timeout interval msg predicate tt w = (inl tt, w2)).
  { unfold poll_round. rewrite (run_bind (elapsed start) _ w (clock w - start)%N w) by done.
    rewrite Et. rewrite (run_bind _ _ _ _ _ Ep). by rewrite (run_bind _ _ _ _ _ Es). }
  rewrite (run_bind _ _ _ _ _ Hr) in Hl. unfold poll_until, mbind at 1, ST_bind at 1.
  rewrite Hl. done.
Qed.

(** The outcomes of a poll: the predicate held in some later state, or the
    limit passed. *)
Lemma poll_until_ok start timeout interval msg predicate w w' (P : World Meta -> Prop) :
  poll_until start timeout interval msg predicate w = (Ok tt, w') ->
  (forall w1 w2, predicate w1 = (true, w2) -> P w2) -> P w'.
Proof.
  unfold poll_until. intros H HP. run_inv. destruct a as [r|]; [|done]. simplify_eq/=.
  revert w H0. generalize (rounds_within timeout interval) as f.
  induction f as [|f IH]; intros w H; [done|]. cbn [loop] in H.
  run_inv. unfold poll_round in H0. run_inv. destruct (_ <? _)%N; [by run_inv|].
  run_inv. destruct a1; run_inv; simplify_eq/=; eauto.
Qed.

Lemma poll_until_err start timeout interval msg predicate w w' e :
  poll_until start timeout interval msg predicate w = (Err e, w') -> e = Timeout msg.
Proof.
  unfold poll_until. intros H. run_inv. destruct a as [r|]; simplify_eq/=; [|done].
  revert w H0. generalize (rounds_within timeout interval) as f.
  induction f as [|f IH]; intros w H; [done|]. cbn [loop] in H.
  run_inv. unfold poll_round in H0. run_inv. destruct (_ <? _)%N; [by run_inv|].
  run_inv. destruct a1; run_inv; simplify_eq/=; eauto.
Qed.

(** A relation kept by every round is kept by the loop. *)
Lemma pres_loop (R : relation (World Meta)) `{!Reflexive R, !Transitive R} {S A}
    f (body : S -> M (S + A)) s :
  (forall s, pres R (body s)) -> pres R (loop f body s).
Proof.
  intros Hb. revert s. induction f as [|f IH]; intros s; cbn [loop]; [by apply pres_ret|].
  apply pres_bind; [apply _|apply Hb|intros [s'|a]; [apply IH|by apply pres_ret]].
Qed.

(** A relation kept by the predicate and by sleeping is kept by polling. *)
Lemma pres_poll (R : relation (World Meta)) `{!Reflexive R, !Transitive R}
    start timeout interval msg predicate :
  pres R predicate -> pres R (sleep interval) ->
  pres R (poll_until start timeout interval msg predicate).
Proof.
  intros Hp Hs. unfold poll_until. apply pres_bind; [apply _| |intros; by apply pres_ret].
  apply pres_loop; [apply _..|]. intros u.
  unfold poll_round. apply pres_bind; [apply _|by intros w|]. intros e.
  destruct (_ <? _)%N; [by apply pres_ret|].
  apply pres_bind; [apply _|done|]. intros [|]; [by apply pres_ret|].
  apply pres_bind; [apply _|done|]. intros; by apply pres_ret.
Qed.

(** How a poll ends: with a round in which the predicate held, or with one
    that found the limit passed.  [R] says how the rounds before lead there. *)
Lemma poll_until_outcome (R : relation (World Meta)) `{!Reflexive R, !Transitive R}
    start timeout interval msg predicate w r w' :
  (0 < interval)%N -> pres later predicate -> (start <= clock w)%N ->
  pres R predicate -> pres R (sleep interval) ->
  poll_until start timeout interval msg predicate w = (r, w') ->
  exists w1, R w w1 /\
    (r = Ok tt /\ predicate w1 = (true, w') \/
     r = Err (Timeout msg) /\ w' = w1 /\ (start + timeout < clock w')%N).
Proof.
  intros Hi Hp Hs Rp Rs. unfold poll_until. intros (o & w2 & H & [<- <-]%ret_inv)%bind_inv.
  destruct (loop_ends (started start) (fun _ => rounds_left start timeout interval)
    (poll_round start timeout interval msg predicate)
    (fun u w => poll_round_measure start timeout interval msg predicate u w Hi Hp)
    (rounds_within timeout interval) tt w Hs (rounds_left_fuel _ _ _ _ Hi)) as (a & w3 & Ha).
  rewrite Ha in H. injection H as <- <-. cbn [default].
  apply (loop_answer _ _ _ _ _ _ (fun w1 => R w w1 /\ started start tt w1)) in Ha
    as ([] & w1 & [Hr H1] & Hw); [|by split| ].
  - exists w1. split; [done|]. unfold poll_round in Hw.
    rewrite (run_bind (elapsed start) _ w1 (clock w1 - start)%N w1) in Hw by done.
    destruct (timeout <? _)%N eqn:Et.
    + apply ret_inv in Hw as [[= <-] ->]. right. simp_eqs. unfold started in *. split_and!; [done..|lia].
    + left. apply bind_inv in Hw as ([|] & w4 & Hq & Hw); [by apply ret_inv in Hw as [[= <-] ->]|].
      by apply bind_inv in Hw as (? & ? & _ & [? _]%ret_inv).
  - intros [] wa [] wb [Ra Hsa] Hw.
    pose proof (poll_round_measure start timeout interval msg predicate tt wa Hi Hp Hsa) as Hm.
    rewrite Hw in Hm. split; [|apply Hm]. unfold poll_round in Hw.
    apply bind_inv in Hw as (e & wc & [_ <-]%pair_equal_spec & Hw).
    destruct (_ <? _)%N; [by apply ret_inv in Hw as [? _]|].
    apply bind_inv in Hw as ([|] & wd & Hq & Hw); [by apply ret_inv in Hw as [? _]|].
    apply bind_inv in Hw as ([] & we & Hz & [_ <-]%ret_inv).
    etransitivity; [exact Ra|]. etransitivity; [exact (pres_at _ _ _ _ _ Rp Hq)|].
    exact (pres_at _ _ _ _ _ Rs Hz).
Qed.

End poll.

(** [rpc]'s type hides the response type from unification. *)
#[export] Hint Extern 0 (pres later (rpc ?c ?r)) => exact (later_rpc c r) : cm.
#[export] Hint Resolve later_sleep later_now later_elapsed later_outside
  later_files later_modify : cm.

(** [walk t]: goes through a computation with [pres_step], [t] and the
    context. *)
Ltac walk t :=
  repeat first
    [ pres_step
    | match goal with
      | |- pres _ (poll_until _ _ _ _ _) => apply pres_poll; try apply _
      | |- pres _ (loop _ _ _) => apply pres_loop; try apply _; intros ?
      end
    | t
    | progress auto
    | by intros ? ].

(** ** What a computation may add to the trace *)
Section traces.
Context {E : Env} {Meta : Type}.
Abbreviation M := (ST (World Meta)).
Implicit Types (P : Event -> Prop) (w : World Meta).

(** [w'] is reached from [w] with new events that satisfy [P]. *)
Definition emits P w w' : Prop := exists evs, trace w' = trace w ++ evs /\ Forall P evs.

#[export] Instance emits_refl P : Reflexive (emits P).
Proof. intros w. exists []. by rewrite app_nil_r. Qed.

#[export] Instance emits_trans P : Transitive (emits P).
Proof.
  intros w1 w2 w3 (e1 & H1 & F1) (e2 & H2 & F2). exists (e1 ++ e2).
  rewrite H2, H1, app_assoc. split; [done|]. by apply Forall_app.
Qed.

Lemma emits_same P w w' : trace w' = trace w -> emits P w w'.
Proof. intros H. exists []. by rewrite H, app_nil_r. Qed.

Lemma emits_rpc P c r : P (Sent (namespace c) r) -> pres (emits P) (rpc c r).
Proof.
  intros H w. unfold rpc. destruct (handle _ _ _) as [[a d] e].
  exists [Sent (namespace c) r]. split; [done|]. by repeat constructor.
Qed.

(** One request adds itself to the trace. *)
Lemma rpc_trace client r w :
  trace (rpc client r w).2 = trace w ++ [Sent (namespace client) r].
Proof. unfold rpc. by destruct (handle _ _ _) as [[a d] e]. Qed.

Lemma emits_sleep P d : P (Slept d) -> pres (emits P) (sleep d).
Proof.
  intros H w. unfold sleep. destruct (overshoot _ _) as [o e].
  exists [Slept d]. split; [done|]. by repeat constructor.
Qed.

Lemma emits_weaken P Q w w' : (forall ev, P ev -> Q ev) -> emits P w w' -> emits Q w w'.
Proof. intros H (evs & E1 & F). exists evs. split; [done|]. by eapply Forall_impl. Qed.

End traces.

(** ** An environment that keeps answering the same *)
Section stable.
Context {E : Env} {Meta : Type}.
Abbreviation M := (ST (World Meta)).
Implicit Types (P : Ext -> Prop) (w : World Meta).

(** In the states of [P] the request [r] is answered [a], and [P] stays. *)
Definition answers (ns : string) P (r : Req) (a : result Status (resp_of r)) : Prop :=
  forall e, P e -> let '(a', _, e') := handle ns r e in a' = a /\ P e'.

Definition sleeps P : Prop := forall d e, P e -> P (overshoot d e).2.

(** Nothing changed but the outside, the clock and the trace. *)
Definition same_client (w w' : World Meta) : Prop :=
  files w' = files w /\ managed_handles w' = managed_handles w /\
  managed_tailers w' = managed_tailers w /\ task_start_times w' = task_start_times w /\
  image_metadata_cache w' = image_metadata_cache w /\ (clock w <= clock w')%N.

#[export] Instance same_client_refl : Reflexive same_client.
Proof. intros w. unfold same_client. split_and!; done || lia. Qed.
#[export] Instance same_client_trans : Transitive same_client.
Proof.
  intros w1 w2 w3 (?&?&?&?&?&?) (?&?&?&?&?&?). unfold same_client.
  split_and!; congruence || lia.
Qed.

Lemma rpc_answers c P r a w :
  answers (namespace c) P r a -> P (ext w) ->
  exists w', rpc c r w = (a, w') /\ P (ext w') /\ same_client w w'.
Proof.
  intros H HP. specialize (H _ HP). unfold rpc.
  destruct (handle (namespace c) r (ext w)) as [[a' d] e]. destruct H as [-> He].
  eexists. split; [done|]. split; [done|]. unfold same_client. simpl. split_and!; done || lia.
Qed.

Lemma sleep_answers P d w :
  sleeps P -> P (ext w) ->
  exists w', sleep d w = (tt, w') /\ P (ext w') /\ same_client w w'.
Proof.
  intros H HP. specialize (H d _ HP). unfold sleep.
  destruct (overshoot d (ext w)) as [o e]. eexists. split; [done|]. split; [done|].
  unfold same_client. simpl. split_and!; done || lia.
Qed.

(** The first round decides when the predicate holds. *)
Lemma poll_until_first timeout interval msg (predicate : M bool) w w' :
  predicate w = (true, w') ->
  poll_until (clock w) timeout interval msg predicate w = (Ok tt, w').
Proof.
  intros H. unfold poll_until, rounds_within.
  rewrite Nat.add_comm. cbn [loop Nat.add].
  assert (Hr : poll_round (clock w) timeout interval msg predicate tt w = (inr (Ok tt), w')).
  { unfold poll_round. rewrite (run_bind (elapsed (clock w)) _ w (clock w - clock w)%N w) by done.
    rewrite N.sub_diag, (proj2 (N.ltb_ge _ _)) by lia. by rewrite (run_bind _ _ _ _ _ H). }
  rewrite (run_bind _ _ _ (Some (Ok tt)) w'); [done|].
  by rewrite (run_bind _ _ _ _ _ Hr).
Qed.

End stable.
