(* ===== verification/Bridge.v ===== *)
(** * Bridge networking and port labels ([src/bridge.rs], [src/port_forward.rs])

    The pure parts: choosing a free octet, parsing an address, the interface
    name, the scripts of the OCI hooks, and the port-binding labels that make
    port forwards survive a restart.  The allocation that asks the daemon for
    the labels in use is in file Alloc. *)

From S2P Require Import Prelude RustText RustFmt Errors.
From Stdlib Require Import Ascii.

(** ** Constants ([src/consts.rs]) *)
Definition PORT_BINDING_LABEL_PREFIX : string := "containerd-manager.port.".
Definition BRIDGE_IP_LABEL : string := "containerd-manager.bridge.ip".
Definition NETWORK_MODE_LABEL : string := "containerd-manager.network.mode".
Definition NAME_LABEL : string := "containerd-manager.name".
Definition BRIDGE_NAME : string := "cni0".
Definition BRIDGE_GATEWAY : string := "10.88.0.1".
Definition CONTAINER_SUBNET_PREFIX : string := "10.88.1".

(** ** Octets *)

(** [(2u8..=254)]. *)
Definition octet_range : list N := N.of_nat <$> seq 2 253.

Definition free_octets (used : gset N) : list N := filter (fun o => o ∉ used) octet_range.

(** [choose] returns an element of the list it is given, or nothing for the
    empty one; which one is the random source's business. *)
Definition pick_free_octet {X} (choose : list N -> X -> option N * X) (used : gset N) (x : X) :
    Result N * X :=
  let '(o, x') := choose (free_octets used) x in
  (ok_or (ResourceExhausted ("no free bridge IPs in " +:+ CONTAINER_SUBNET_PREFIX +:+ ".0/24 ("
            +:+ dec_string (N.of_nat (size used)) +:+ " octets in use)")) o, x').

(** ** [Ipv4Addr::from_str] *)

(** Up to three decimal digits without a leading zero, at most 255. *)
Fixpoint take_octet (fuel : nat) (acc : N) (count : nat) (l : bytes) : option (N * bytes) :=
  match fuel, l with
  | S fuel, b :: rest =>
      match digit_val b with
      | Some d =>
          if (count =? 1) && (acc =? 0)%N then None (* a leading zero *)
          else if (255 <? acc * 10 + d)%N then None
          else take_octet fuel (acc * 10 + d)%N (S count) rest
      | None => if count =? 0 then None else Some (acc, l)
      end
  | S _, [] => if count =? 0 then None else Some (acc, [])
  | O, b :: _ =>
      match digit_val b with Some _ => None | None => Some (acc, l) end
  | O, [] => Some (acc, [])
  end.

Definition octet (l : bytes) : option (N * bytes) := take_octet 3 0 0 l.

Definition dot (l : bytes) : option bytes :=
  match l with b :: rest => if byte_is "."%byte b then Some rest else None | [] => None end.

Definition parse_ipv4 (s : string) : option (N * N * N * N) :=
  '(a, l) ← octet (str_bytes s); l ← dot l;
  '(b, l) ← octet l; l ← dot l;
  '(c, l) ← octet l; l ← dot l;
  '(d, l) ← octet l;
  match l with [] => Some (a, b, c, d) | _ => None end.

Definition parse_octet (ip : string) : option N := (fun '(_, _, _, d) => d) <$> parse_ipv4 ip.

(** [format!("{CONTAINER_SUBNET_PREFIX}.{octet}")]. *)
Definition bridge_ip (o : N) : string := CONTAINER_SUBNET_PREFIX +:+ "." +:+ dec_string o.

(** ** The interface name: FNV-1a *)
Definition FNV_OFFSET : N := 0xcbf29ce484222325.
Definition FNV_PRIME : N := 0x00000100000001b3.

Definition fnv_step (hash : N) (byte : Byte.byte) : N :=
  ((N.lxor hash (Byte.to_N byte) * FNV_PRIME) mod 2 ^ 64)%N.

Definition fnv1a (l : bytes) : N := foldl fnv_step FNV_OFFSET l.

Definition veth_name (container_id : string) : string :=
  "cm" +:+ bytes_str (hex_padded 13 (N.land (fnv1a (str_bytes container_id)) 0x000fffffffffffff)).

(** ** Hook scripts *)
Definition nl : string := String (ascii_of_nat 10) EmptyString.

Definition lines (l : list string) : string := join nl l.

Definition socat_pid_file (container_id : string) (container_port : N) : string :=
  "/tmp/socat-" +:+ container_id +:+ "-" +:+ dec_string container_port +:+ ".pid".

Definition socat_log_file (container_id : string) (container_port : N) : string :=
  "/tmp/socat-" +:+ container_id +:+ "-" +:+ dec_string container_port +:+ ".log".

Definition q (s : string) : string := DQ +:+ s +:+ DQ.

Definition port_mapping_entry (p : N * N) : string :=
  "{" +:+ q "HostPort" +:+ ":" +:+ dec_string p.1 +:+ "," +:+ q "ContainerPort" +:+ ":" +:+
  dec_string p.2 +:+ "," +:+ q "Protocol" +:+ ":" +:+ q "tcp" +:+ "," +:+ q "HostIP" +:+ ":" +:+
  q "0.0.0.0" +:+ "}".

Definition nerdctl_network_config_script (namespace container_id : string)
    (host_container_pairs : list (N * N)) : string :=
  match host_container_pairs with
  | [] => ""
  | _ =>
      let json := "{" +:+ q "portMappings" +:+ ":[" +:+
        join "," (port_mapping_entry <$> host_container_pairs) +:+ "]}" in
      let dir := "/var/lib/nerdctl/1935db59/containers/" +:+ namespace +:+ "/" +:+ container_id in
      lines [""; "# nerdctl compat: write port-mapping config so `nerdctl ps` shows PORTS.";
        "NERDCTL_DIR=" +:+ q dir;
        "mkdir -p " +:+ q "$NERDCTL_DIR" +:+ " 2>/dev/null && chmod 700 " +:+ q "$NERDCTL_DIR"
          +:+ " 2>/dev/null || true";
        "cat > " +:+ q "$NERDCTL_DIR/network-config.json"
          +:+ " 2>/dev/null <<'NERDCTL_EOF' || true";
        json; "NERDCTL_EOF";
        "chmod 600 " +:+ q "$NERDCTL_DIR/network-config.json" +:+ " 2>/dev/null || true"; ""]
  end.

Definition prestart_hook_script (container_ip container_id namespace : string)
    (host_container_pairs : list (N * N)) : string :=
  let veth := veth_name container_id in
  let nerdctl_compat :=
    nerdctl_network_config_script namespace container_id host_container_pairs in
  let netns := "/proc/$CONTAINER_PID/ns/net" in
  lines [""; "STATE=$(cat)";
    "CONTAINER_PID=$(echo " +:+ q "$STATE" +:+ " | python3 -c "
      +:+ q "import sys,json; d=json.load(sys.stdin); print(d.get('pid',0))" +:+ ")";
    "HOST_VETH=" +:+ q veth; "BRIDGE=" +:+ q BRIDGE_NAME; "GATEWAY=" +:+ q BRIDGE_GATEWAY;
    "CONTAINER_IP=" +:+ q container_ip; "";
    "ip link show " +:+ q "$BRIDGE" +:+ " >/dev/null 2>&1 || ip link add " +:+ q "$BRIDGE"
      +:+ " type bridge";
    "ip addr add " +:+ q "$GATEWAY/16" +:+ " dev " +:+ q "$BRIDGE" +:+ " 2>/dev/null || true";
    "ip link set " +:+ q "$BRIDGE" +:+ " up"; "";
    "# `netns` option places the peer in the container's netns directly, so 'eth0'";
    "# never appears in the host namespace (which would conflict with the VM NIC).";
    "ip link add " +:+ q "$HOST_VETH" +:+ " type veth peer name eth0 netns " +:+ netns;
    "ip link set " +:+ q "$HOST_VETH" +:+ " master " +:+ q "$BRIDGE";
    "ip link set " +:+ q "$HOST_VETH" +:+ " up"; "";
    "nsenter --net=" +:+ netns +:+ " ip addr add " +:+ q "$CONTAINER_IP/16" +:+ " dev eth0";
    "nsenter --net=" +:+ netns +:+ " ip link set eth0 up";
    "nsenter --net=" +:+ netns +:+ " ip link set lo up";
    "nsenter --net=" +:+ netns +:+ " ip route add default via " +:+ q "$GATEWAY"
      +:+ " 2>/dev/null || true"; "";
    "sysctl -w net.ipv4.ip_forward=1 >/dev/null";
    "iptables -t nat -C POSTROUTING -s 10.88.0.0/16 ! -d 10.88.0.0/16 -j MASQUERADE 2>/dev/null || \";
    "  iptables -t nat -A POSTROUTING -s 10.88.0.0/16 ! -d 10.88.0.0/16 -j MASQUERADE";
    nerdctl_compat].

(** One iteration of the loop over [(container_port, host_port)]. *)
Definition poststart_entry (container_id container_ip : string) (p : N * N) : string :=
  let '(container_port, host_port) := p in
  let pid_file := socat_pid_file container_id container_port in
  let log_file := socat_log_file container_id container_port in
  lines ["nohup /usr/bin/socat TCP-LISTEN:" +:+ dec_string host_port +:+ ",fork,reuseaddr TCP:"
      +:+ container_ip +:+ ":" +:+ dec_string container_port +:+ " \";
    "  >" +:+ log_file +:+ " 2>&1 &";
    "SOCAT_PID=$!"; "echo $SOCAT_PID > " +:+ pid_file;
    "# Give socat a moment to fail-fast on exec / bind errors."; "sleep 0.1";
    "if ! kill -0 $SOCAT_PID 2>/dev/null; then";
    "echo " +:+ q ("poststart: socat $SOCAT_PID exited (port " +:+ dec_string host_port +:+ ")")
      +:+ " >&2";
    "cat " +:+ log_file +:+ " >&2 2>/dev/null || true";
    "rm -f " +:+ pid_file; "exit 1"; "fi"; ""].

Definition poststart_hook_script (container_id container_ip : string) (ports : list (N * N)) :
    string :=
  foldl (fun script p => script +:+ poststart_entry container_id container_ip p) nl ports.

Definition poststop_entry (container_id : string) (p : N * N) : string :=
  let '(container_port, _) := p in
  let pid_file := socat_pid_file container_id container_port in
  let log_file := socat_log_file container_id container_port in
  lines ["SOCAT_PID=$(cat " +:+ pid_file +:+ " 2>/dev/null || echo)";
    "if [ -n " +:+ q "$SOCAT_PID" +:+ " ]; then";
    "kill $SOCAT_PID 2>/dev/null || true";
    "for i in 1 2 3 4 5; do"; "kill -0 $SOCAT_PID 2>/dev/null || break"; "sleep 0.1"; "done";
    "kill -9 $SOCAT_PID 2>/dev/null || true"; "fi";
    "rm -f " +:+ pid_file +:+ " " +:+ log_file; ""].

Definition poststop_hook_script (container_id namespace : string) (ports : list (N * N)) :
    string :=
  let script := foldl (fun script p => script +:+ poststop_entry container_id p) nl ports in
  script +:+ "ip link delete " +:+ q (veth_name container_id) +:+ " 2>/dev/null || true" +:+ nl
    +:+ "rm -rf " +:+ q ("/var/lib/nerdctl/1935db59/containers/" +:+ namespace +:+ "/"
    +:+ container_id) +:+ " 2>/dev/null || true" +:+ nl.

(** ** Port-binding labels *)
Definition port_label (container_port : N) : string :=
  PORT_BINDING_LABEL_PREFIX +:+ dec_string container_port.

(** One label. *)
Definition parse_port_label (kv : string * string) : option (N * N) :=
  rest ← strip_prefix PORT_BINDING_LABEL_PREFIX kv.1;
  container_port ← parse_u16 rest;
  host_port ← parse_u16 kv.2;
  Some (host_port, container_port).

(** The order is the map's iteration order, which the source leaves open too. *)
Definition parse_port_binding_labels (labels : gmap string string) : list (N * N) :=
  omap parse_port_label (map_to_list labels).

(** The labels [create_container] writes for [(host_port, container_port)]. *)
Definition emit_port_labels (pairs : list (N * N)) (labels : gmap string string) :
    gmap string string :=
  foldl (fun m p => <[port_label p.2 := dec_string p.1]> m) labels pairs.

(** * Lemmas *)
Section octets.

Lemma elem_of_octet_range o : o ∈ octet_range <-> (2 <= o <= 254)%N.
Proof.
  unfold octet_range. rewrite list_elem_of_fmap. split.
  - intros (n & -> & Hn%elem_of_seq). lia.
  - intros H. exists (N.to_nat o). rewrite elem_of_seq. lia.
Qed.

Lemma elem_of_free used o : o ∈ free_octets used <-> (2 <= o <= 254)%N /\ o ∉ used.
Proof. unfold free_octets. rewrite list_elem_of_filter, elem_of_octet_range. tauto. Qed.

(** What follows the digits does not matter, as long as it is no digit. *)
Definition no_digit_next (l : bytes) : Prop :=
  match l with b :: _ => digit_val b = None | [] => True end.

Definition DOT : Byte.byte := "."%byte.

Lemma take_octet_suffix f a c ds v l :
  no_digit_next l ->
  take_octet f a c (ds ++ [DOT]) = Some (v, [DOT]) -> take_octet f a c (ds ++ l) = Some (v, l).
Proof.
  intros Hl. revert f a c. induction ds as [|d ds IH]; intros f a c.
  - destruct f as [|f]; cbn [app take_octet].
    + change (digit_val DOT) with (@None N). intros [= ->].
      destruct l as [|b l]; [done|]. simpl in Hl. by rewrite Hl.
    + change (digit_val DOT) with (@None N).
      destruct (c =? 0) eqn:Ec; [done|]. intros [= ->].
      destruct l as [|b l]; [done|]. simpl in Hl. by rewrite Hl.
  - assert (Hno : forall x : N, Some (x, d :: ds ++ [DOT]) <> Some (v, [DOT])).
    { intros x E. simplify_eq. by destruct ds. }
    destruct f as [|f]; cbn [app take_octet]; destruct (digit_val d).
    + done.
    + by intros ?%Hno.
    + destruct (_ && _); [done|]. destruct (_ <? _)%N; [done|]. apply IH.
    + destruct (c =? 0); [done|]. by intros ?%Hno.
Qed.

Lemma octets_read :
  forallb (fun n => bool_decide (octet (dec_bytes n ++ [DOT]) = Some (n, [DOT])))
    (N.of_nat <$> seq 0 256) = true.
Proof. vm_compute. reflexivity. Qed.

(** Reading back a decimal octet in front of a non-digit or the end. *)
Lemma octet_dec o l :
  (o <= 255)%N -> no_digit_next l -> octet (dec_bytes o ++ l) = Some (o, l).
Proof.
  intros Ho Hl. apply take_octet_suffix; [done|].
  pose proof octets_read as H. rewrite forallb_forall in H.
  apply (bool_decide_eq_true_1 _), H. rewrite <-list_elem_of_In, list_elem_of_fmap.
  exists (N.to_nat o). rewrite elem_of_seq. lia.
Qed.

End octets.

(** ** Port labels *)
Section ports.

Lemma parse_insert k v (m : gmap string string) :
  m !! k = None ->
  parse_port_binding_labels (<[k := v]> m) ≡ₚ
    option_list (parse_port_label (k, v)) ++ parse_port_binding_labels m.
Proof.
  intros H. unfold parse_port_binding_labels. rewrite (map_to_list_insert m k v H).
  cbn [omap list_omap]. by destruct (parse_port_label (k, v)).
Qed.

Lemma parse_port_label_dec hp cp :
  (hp <= U16_MAX)%N -> (cp <= U16_MAX)%N ->
  parse_port_label (port_label cp, dec_string hp) = Some (hp, cp).
Proof.
  intros Hh Hc. unfold parse_port_label, port_label. cbn [fst snd].
  rewrite strip_prefix_app. cbn [mbind option_bind]. rewrite (parse_u16_dec cp Hc).
  cbn [mbind option_bind]. by rewrite (parse_u16_dec hp Hh).
Qed.

Lemma port_label_inj a b : port_label a = port_label b -> a = b.
Proof.
  unfold port_label. intros H. apply (f_equal (strip_prefix PORT_BINDING_LABEL_PREFIX)) in H.
  rewrite !strip_prefix_app in H. simplify_eq. by apply dec_string_inj.
Qed.

Lemma parse_emit pairs base :
  Forall (fun p => (p.1 <= U16_MAX)%N /\ (p.2 <= U16_MAX)%N) pairs -> NoDup (snd <$> pairs) ->
  (forall p, p ∈ pairs -> base !! port_label p.2 = None) ->
  parse_port_binding_labels (emit_port_labels pairs base) ≡ₚ
    pairs ++ parse_port_binding_labels base.
Proof.
  intros Hr. revert base. induction Hr as [|[hp cp] ps [Hh Hc] _ IH]; intros base Hn Hb; [done|].
  cbn [fmap list_fmap snd] in Hn. apply NoDup_cons in Hn as [Hnot Hn].
  change (emit_port_labels ((hp, cp) :: ps) base)
    with (emit_port_labels ps (<[port_label cp := dec_string hp]> base)).
  rewrite IH; [|done|].
  - cbn [fst snd] in *. rewrite parse_insert by (apply (Hb (hp, cp)); set_solver).
    rewrite parse_port_label_dec by done. cbn. by rewrite Permutation_middle.
  - intros p Hp. cbn [snd fst]. rewrite lookup_insert_ne; [apply Hb; set_solver|].
    intros E%port_label_inj. apply Hnot. cbn in E. rewrite E. apply list_elem_of_fmap. eauto.
Qed.

Lemma parse_none (m : gmap string string) :
  (forall k v, m !! k = Some v -> starts_with PORT_BINDING_LABEL_PREFIX k = false) ->
  parse_port_binding_labels m = [].
Proof.
  intros H. unfold parse_port_binding_labels.
  assert (Hl : Forall (fun kv => parse_port_label kv = None) (map_to_list m)).
  { apply Forall_forall. intros [k v] Hkv%elem_of_map_to_list. apply H in Hkv.
    unfold parse_port_label, starts_with in *. cbn [fst].
    by destruct (strip_prefix PORT_BINDING_LABEL_PREFIX k). }
  induction Hl as [|kv l E _ IH]; [done|]. cbn [omap list_omap]. by rewrite E.
Qed.

(** A label outside the prefix changes nothing. *)
Lemma parse_insert_other k v (m : gmap string string) :
  starts_with PORT_BINDING_LABEL_PREFIX k = false ->
  parse_port_binding_labels (<[k := v]> m) ≡ₚ parse_port_binding_labels m.
Proof.
  intros H.
  assert (Hn : forall v, parse_port_label (k, v) = None).
  { intros v'. unfold parse_port_label, starts_with in *. cbn [fst].
    by destruct (strip_prefix PORT_BINDING_LABEL_PREFIX k). }
  rewrite <-insert_delete_eq, parse_insert, Hn by apply lookup_delete_eq. cbn [option_list app].
  destruct (m !! k) as [v0|] eqn:E; [|by rewrite delete_id].
  rewrite <-(insert_delete_id m k v0 E) at 2.
  by rewrite parse_insert, Hn by apply lookup_delete_eq.
Qed.

Lemma port_label_prefixed p : starts_with PORT_BINDING_LABEL_PREFIX (port_label p) = true.
Proof. apply starts_with_iff. by eexists. Qed.

Lemma emit_lookup_other pairs m k :
  starts_with PORT_BINDING_LABEL_PREFIX k = false -> emit_port_labels pairs m !! k = m !! k.
Proof.
  intros H. unfold emit_port_labels. revert m.
  induction pairs as [|p ps IH]; intros m; [done|]. cbn [foldl]. rewrite IH.
  rewrite lookup_insert_ne; [done|]. intros <-. by rewrite port_label_prefixed in H.
Qed.

End ports.

(** A random source: some element of a non-empty list, nothing for an empty
    one. *)
Definition lawful_choose {X} (choose : list N -> X -> option N * X) : Prop :=
  forall l x, match (choose l x).1 with Some o => o ∈ l | None => l = [] end.

(** The address the allocator writes in the label is read back to the same
    octet by the scan of used addresses. *)
Lemma parse_bridge_ip o : (o <= 255)%N -> parse_octet (bridge_ip o) = Some o.
Proof.
  intros Ho. unfold parse_octet, parse_ipv4.
  assert (str_bytes (bridge_ip o) =
    dec_bytes 10 ++ DOT :: dec_bytes 88 ++ DOT :: dec_bytes 1 ++ DOT :: dec_bytes o ++ []) as ->.
  { unfold bridge_ip, CONTAINER_SUBNET_PREFIX. rewrite !str_bytes_app, app_nil_r.
    unfold dec_string. by rewrite str_bytes_str. }
  assert (Hd : forall l, dot (DOT :: l) = Some l) by done.
  do 3 (rewrite octet_dec by done; cbn [mbind option_bind]; rewrite Hd; cbn [mbind option_bind]).
  by rewrite octet_dec by done.
Qed.

Lemma pick_free_octet_ok {X} (choose : list N -> X -> option N * X) used x o x' :
  lawful_choose choose -> pick_free_octet choose used x = (Ok o, x') ->
  (2 <= o <= 254)%N /\ o ∉ used.
Proof.
  intros Hc. specialize (Hc (free_octets used) x). unfold pick_free_octet.
  destruct (choose (free_octets used) x) as [[o'|] x2]; cbn [fst ok_or] in *; [|done].
  intros [= -> _]. by apply elem_of_free.
Qed.

(** * Properties *)

(** Port bindings survive a restart: writing the bindings of a container
    as labels and reading them back gives the same bindings, for any distinct
    16-bit container ports. *)
Theorem port_labels_roundtrip pairs base :
  Forall (fun p => (p.1 <= U16_MAX)%N /\ (p.2 <= U16_MAX)%N) pairs ->
  NoDup (snd <$> pairs) ->
  (forall k v, base !! k = Some v -> starts_with PORT_BINDING_LABEL_PREFIX k = false) ->
  parse_port_binding_labels (emit_port_labels pairs base) ≡ₚ pairs.
Proof.
  intros Hr Hn Hb. rewrite parse_emit; [|done|done|].
  - by rewrite (parse_none base Hb), app_nil_r.
  - intros p _. destruct (base !! port_label p.2) as [v|] eqn:E; [|done].
    apply Hb in E. exfalso. enough (starts_with PORT_BINDING_LABEL_PREFIX (port_label p.2) = true)
      by congruence. apply starts_with_iff. by eexists.
Qed.

Lemma port_labels_roundtrip_witness :
  parse_port_binding_labels
    (emit_port_labels [(49001, 27017); (49002, 80)]%N {[ "user" := "x" ]}) ≡ₚ
    [(49001, 27017); (49002, 80)]%N.
Proof.
  apply (port_labels_roundtrip [(49001, 27017); (49002, 80)]%N {[ "user" := "x" ]}).
  - repeat constructor; vm_compute; discriminate.
  - apply (bool_decide_unpack _). vm_compute. exact I.
  - intros k v [<- <-]%lookup_singleton_Some. reflexivity.
Defined.

(** The chosen octet is in [2..=254] and not in use; the only failure is
    exhaustion, and it is reported exactly when every octet is taken. *)
Theorem pick_free_octet_spec {X} (choose : list N -> X -> option N * X) used x :
  lawful_choose choose ->
  match (pick_free_octet choose used x).1 with
  | Ok o => (2 <= o <= 254)%N /\ o ∉ used
  | Err e => (forall o, (2 <= o <= 254)%N -> o ∈ used) /\
      exists msg, e = ResourceExhausted msg
  end.
Proof.
  intros Hc. specialize (Hc (free_octets used) x). unfold pick_free_octet.
  destruct (choose (free_octets used) x) as [[o|] x']; cbn [fst ok_or] in *.
  - by apply elem_of_free.
  - split; [|by eexists]. intros o Ho. destruct (decide (o ∈ used)); [done|].
    assert (o ∈ free_octets used) by by apply elem_of_free. rewrite Hc in *. set_solver.
Qed.

Definition choose_first (l : list N) (x : unit) : option N * unit := (head l, x).

Lemma choose_first_lawful : lawful_choose choose_first.
Proof. intros [|o l] x; [done|]. simpl. set_solver. Qed.

Lemma pick_free_octet_spec_witness :
  match (pick_free_octet choose_first {[2%N; 3%N]} tt).1 with
  | Ok o => (2 <= o <= 254)%N /\ o ∉ ({[2%N; 3%N]} : gset N)
  | Err e => (forall o, (2 <= o <= 254)%N -> o ∈ ({[2%N; 3%N]} : gset N)) /\
      exists msg, e = ResourceExhausted msg
  end.
Proof. exact (pick_free_octet_spec choose_first {[2%N; 3%N]} tt choose_first_lawful). Defined.

(** An interface name always has 15 characters, the kernel's limit. *)
Theorem veth_name_length container_id : String.length (veth_name container_id) = 15.
Proof.
  unfold veth_name. rewrite str_length_app. simpl.
  set (n := N.land _ _).
  assert (Hn : (n < 16 ^ N.of_nat 13)%N).
  { unfold n. change 0xfffffffffffff%N with (N.ones 52). rewrite N.land_ones.
    apply N.mod_lt. done. }
  pose proof (hex_padded_exact 12 n Hn) as H. do 2 f_equal.
  rewrite <-H at 2. clear. induction (hex_padded 13 n) as [|b l IH]; [done|]. simpl. by rewrite <-IH.
Qed.
