(* ===== verification/ContainerSpec.v ===== *)
(** * Building a container's specification ([src/container.rs], lines 29-397)

    Options, image configuration, the OCI runtime spec and the pure builders.
    The crates it relies on are the class [Libs]: the [derive_builder] step of
    [oci-spec] ([oci_build], which may refuse), its default namespaces, the
    JSON encoders and decoders of [serde_json], and SHA-256.  A [HashMap] is a
    [gmap]; the order in which the source iterates over one is open there and
    is that of [map_to_list] here. *)

From S2P Require Import Prelude RustText RustFmt Errors World Bridge.
From Stdlib Require Import Ascii.

#[local] Set Warnings "-register-all".

(** ** JSON values ([serde_json::Value]) *)
Inductive JNumber : Type := PosInt (n : N) | NegInt (z : Z) | Float.

Inductive Json : Type :=
| JNull
| JBool (b : bool)
| JNumber_ (n : JNumber)
| JString (s : string)
| JArray (l : list Json)
| JObject (m : list (string * Json)).

(** [Value::get] with a string key. *)
Definition jget (k : string) (v : Json) : option Json :=
  match v with
  | JObject m => snd <$> List.find (fun e => String.eqb e.1 k) m
  | _ => None
  end.
Definition jas_str (v : Json) : option string := match v with JString s => Some s | _ => None end.
Definition jas_array (v : Json) : option (list Json) :=
  match v with JArray l => Some l | _ => None end.
Definition jas_u64 (v : Json) : option N :=
  match v with JNumber_ (PosInt n) => Some n | _ => None end.

(** ** The image configuration ([oci_spec::image]) *)
Record ImageConfig : Type := mkImageConfig {
  ic_labels : option labels_map;
  ic_entrypoint : option (list string);
  ic_cmd : option (list string);
  ic_working_dir : option string;
  ic_env : option (list string)
}.

Record ImageConfiguration : Type := mkImageConfiguration {
  config : option ImageConfig;
  diff_ids : list string
}.

(** ** The runtime spec ([oci_spec::runtime]): what the crate sets or reads *)
Record OciMount : Type := mkOciMount {
  m_source : option string;
  m_destination : string;
  m_typ : option string;
  m_options : option (list string)
}.

Inductive LinuxNamespaceType : Type :=
| NsMount | NsCgroup | NsUts | NsIpc | NsUser | NsPid | NsNetwork | NsTime.

#[export] Instance LinuxNamespaceType_eq_dec : EqDecision LinuxNamespaceType.
Proof. solve_decision. Defined.

Inductive Capability : Type :=
| Chown | DacOverride | Fsetid | Fowner | Mknod | NetRaw | Setgid | Setuid | Setfcap | Setpcap
| NetBindService | SysChroot | Kill | AuditWrite.

Record Hook : Type := mkHook { h_path : string; h_args : list string; h_env : list string }.

Record Hooks : Type := mkHooks {
  prestart : list Hook; poststart : list Hook; poststop : list Hook
}.

Record LinuxCapabilities : Type := mkLinuxCapabilities {
  bounding : list Capability; effective : list Capability; inheritable : list Capability;
  permitted : list Capability; ambient : list Capability
}.

(** The process; [pr_env] is absent in a spec that sets none. *)
Record OciProcess : Type := mkOciProcess {
  pr_terminal : bool;
  pr_args : list string;
  pr_env : option (list string);
  pr_cwd : string;
  pr_capabilities : LinuxCapabilities
}.

Record OciSpec : Type := mkOciSpec {
  sp_version : string;
  sp_process : option OciProcess;
  sp_root : string * bool;
  sp_namespaces : list LinuxNamespaceType;
  (** [None]: the builder's own default *)
  sp_mounts : option (list OciMount);
  sp_hooks : option Hooks
}.

(** ** The libraries *)
Class Libs : Type := mkLibs {
  (** the [build()] of a builder with the given fields *)
  oci_build : forall {A : Type}, A -> result string A;
  get_default_namespaces : list LinuxNamespaceType;
  spec_to_vec : OciSpec -> result string bytes;
  spec_from_slice : bytes -> option OciSpec;
  process_to_vec : OciProcess -> result string bytes;
  json_from_slice : bytes -> result string Json;
  image_config_from_slice : bytes -> result string ImageConfiguration;
  (** SHA-256 of a byte string *)
  sha256 : bytes -> bytes;
  (** [std::env::consts::ARCH] *)
  host_arch : string
}.

(** The target architecture's OCI name ([src/lib.rs]). *)
Definition oci_arch `{L : Libs} : string :=
  if decide (host_arch = "x86_64") then "amd64"
  else if decide (host_arch = "aarch64") then "arm64"
  else host_arch.

(** ** Constants ([src/consts.rs]) *)
Definition DEFAULT_SNAPSHOTTER : string := "overlayfs".
Definition DEFAULT_RUNTIME : string := "io.containerd.runc.v2".
Definition OCI_SPEC_VERSION : string := "1.0.2".
Definition OCI_ROOTFS_PATH : string := "rootfs".
Definition OCI_SPEC_TYPE_URL : string := "types.containerd.io/opencontainers/runtime-spec/1/Spec".
Definition HOOK_PATH : string :=
  "PATH=/usr/local/sbin:/usr/local/bin:/usr/sbin:/usr/bin:/sbin:/bin".

Definition snapshot_key_for (container_id : string) : string := container_id +:+ "-snapshot".

(** ** Options *)
Record Mount : Type := mkMount { source : string; destination : string; options : list string }.

Inductive NetworkMode : Type := Isolated | Host | Bridge.

#[export] Instance NetworkMode_eq_dec : EqDecision NetworkMode.
Proof. solve_decision. Defined.

Definition label_value (m : NetworkMode) : string :=
  match m with Bridge => "bridge" | Host => "host" | Isolated => "isolated" end.

Record CreateContainerOpts : Type := mkCreateContainerOpts {
  env : labels_map;
  labels : labels_map;
  mounts : list Mount;
  network_mode : NetworkMode;
  cmd : option (list string);
  port_bindings : list (N * N);
  from_existing_snapshot : option string
}.

Definition create_opts_default : CreateContainerOpts :=
  mkCreateContainerOpts ∅ ∅ [] Bridge None [] None.

(** The builder's mutators. *)
Definition with_env (key value : string) (o : CreateContainerOpts) : CreateContainerOpts :=
  mkCreateContainerOpts (<[key := value]> (env o)) (labels o) (mounts o) (network_mode o) (cmd o)
    (port_bindings o) (from_existing_snapshot o).

Definition with_label (key value : string) (o : CreateContainerOpts) : CreateContainerOpts :=
  mkCreateContainerOpts (env o) (<[key := value]> (labels o)) (mounts o) (network_mode o) (cmd o)
    (port_bindings o) (from_existing_snapshot o).

Definition push_mount (m : Mount) (o : CreateContainerOpts) : CreateContainerOpts :=
  mkCreateContainerOpts (env o) (labels o) (mounts o ++ [m]) (network_mode o) (cmd o)
    (port_bindings o) (from_existing_snapshot o).

Definition with_mount (source destination : string) (o : CreateContainerOpts) :
    CreateContainerOpts := push_mount (mkMount source destination ["rbind"; "rw"]) o.

Definition with_mount_ro (source destination : string) (o : CreateContainerOpts) :
    CreateContainerOpts := push_mount (mkMount source destination ["rbind"; "ro"]) o.

Definition with_port_binding (host_port container_port : N) (o : CreateContainerOpts) :
    CreateContainerOpts :=
  mkCreateContainerOpts (env o) (labels o) (mounts o) (network_mode o) (cmd o)
    (port_bindings o ++ [(host_port, container_port)]) (from_existing_snapshot o).

(** [map.extend(other)]: later writes win. *)
Definition extend {A} (m other : gmap string A) : gmap string A := other ∪ m.

(** ** Builders *)
Section builders.
Context `{L : Libs}.

Definition build_labels (image_config : ImageConfiguration) (opts : CreateContainerOpts) :
    labels_map :=
  let img :=
    match config image_config with
    | Some cfg => match ic_labels cfg with Some l => extend ∅ l | None => ∅ end
    | None => ∅
    end in
  extend img (labels opts).

Definition build_mounts (opts : CreateContainerOpts) : list OciMount :=
  (fun m => mkOciMount (Some (source m)) (destination m) (Some "bind") (Some (options m)))
    <$> mounts opts.

Definition build_args (image_config : ImageConfiguration) (opts : CreateContainerOpts) :
    list string :=
  match cmd opts with
  | Some c => c
  | None =>
      let args :=
        match config image_config with
        | Some c => default [] (ic_entrypoint c) ++ default [] (ic_cmd c)
        | None => []
        end in
      match args with [] => ["/bin/sh"] | _ => args end
  end.

Definition build_cwd (image_config : ImageConfiguration) : string :=
  match config image_config ≫= ic_working_dir with
  | Some s => if decide (s = "") then "/" else s
  | None => "/"
  end.

Definition insert_env (m : labels_map) (entry : string) : labels_map :=
  match split_once "="%char entry with Some (k, v) => <[k := v]> m | None => m end.

Definition env_entry (kv : string * string) : string := kv.1 +:+ "=" +:+ kv.2.

(** The merged variables, before they are rendered. *)
Definition merged_env_map (image_config : ImageConfiguration) (opts : CreateContainerOpts) :
    labels_map :=
  let img := match config image_config with
             | Some c => foldl insert_env ∅ (default [] (ic_env c)) | None => ∅ end in
  extend img (env opts).

Definition build_merged_env (image_config : ImageConfiguration) (opts : CreateContainerOpts) :
    list string :=
  env_entry <$> map_to_list (merged_env_map image_config opts).

Definition build_namespaces (mode : NetworkMode) : list LinuxNamespaceType :=
  match mode with
  | Host => filter (fun n => n <> NsNetwork) get_default_namespaces
  | _ => get_default_namespaces
  end.

Definition build_err (what : string) (e : string) : Error :=
  InvalidArgument ("build " +:+ what +:+ ": " +:+ e).

Definition sh_hook (script : string) : Result Hook :=
  map_err (build_err "hook")
    (oci_build (mkHook "/bin/sh" ["/bin/sh"; "-c"; script] [HOOK_PATH])).

Definition build_bridge_hooks (container_id container_ip namespace : string)
    (ports host_container_pairs : list (N * N)) : Result Hooks :=
  let? prestart :=
    sh_hook (prestart_hook_script container_ip container_id namespace host_container_pairs) in
  let? poststart := sh_hook (poststart_hook_script container_id container_ip ports) in
  let? poststop := sh_hook (poststop_hook_script container_id namespace ports) in
  map_err (build_err "hooks") (oci_build (mkHooks [prestart] [poststart] [poststop])).

Definition default_caps : list Capability :=
  [Chown; DacOverride; Fsetid; Fowner; Mknod; NetRaw; Setgid; Setuid; Setfcap; Setpcap;
   NetBindService; SysChroot; Kill; AuditWrite].

Definition build_default_capabilities : Result LinuxCapabilities :=
  map_err (build_err "capabilities")
    (oci_build (mkLinuxCapabilities default_caps default_caps default_caps default_caps
      default_caps)).

Definition default_exec_capabilities : Result LinuxCapabilities := build_default_capabilities.

Definition build_oci_spec (image_config : ImageConfiguration) (opts : CreateContainerOpts)
    (hooks : option Hooks) : Result OciSpec :=
  let args := build_args image_config opts in
  let cwd := build_cwd image_config in
  let env := build_merged_env image_config opts in
  let mounts := build_mounts opts in
  let namespaces := build_namespaces (network_mode opts) in
  let? capabilities := build_default_capabilities in
  let? _ := map_err (build_err "user spec") (oci_build tt) in
  let? process := map_err (build_err "process spec")
    (oci_build (mkOciProcess false args (Some env) cwd capabilities)) in
  let? root := map_err (build_err "root spec") (oci_build (OCI_ROOTFS_PATH, false)) in
  let? linux := map_err (build_err "linux spec") (oci_build namespaces) in
  map_err (build_err "OCI spec")
    (oci_build (mkOciSpec OCI_SPEC_VERSION (Some process) root linux
      (match mounts with [] => None | _ => Some mounts end) hooks)).

Definition spec_to_any (spec : OciSpec) : Result Any :=
  let? json := map_err (fun e => InvalidArgument ("serialize OCI spec: " +:+ e))
    (spec_to_vec spec) in
  Ok (mkAny OCI_SPEC_TYPE_URL json).

(** [hex::encode]. *)
Definition hex_encode (b : bytes) : string :=
  bytes_str (concat ((fun x => hex_padded 2 (Byte.to_N x)) <$> b)).

Definition chain_step (chain_id diff_id : string) : string :=
  "sha256:" +:+ hex_encode (sha256 (str_bytes (chain_id +:+ " " +:+ diff_id))).

Definition compute_chain_id (ids : list string) : string :=
  match ids with [] => "" | d :: ds => foldl chain_step d ds end.

End builders.

(** * Lemmas *)
Section env.

(** No key holds the separator. *)
Definition keys_ok (m : labels_map) : Prop := forall k v, m !! k = Some v -> str_has "="%char k = false.

Definition ins (m : labels_map) (kv : string * string) : labels_map := <[kv.1 := kv.2]> m.

Lemma foldl_ins l : foldl ins ∅ l = list_to_map (reverse l).
Proof.
  induction l as [|x l IH] using rev_ind; [done|].
  rewrite foldl_app, IH, reverse_snoc. done.
Qed.

Lemma foldl_insert_env l acc :
  Forall (fun kv : string * string => str_has "="%char kv.1 = false) l ->
  foldl insert_env acc (env_entry <$> l) = foldl ins acc l.
Proof.
  intros H. revert acc. induction H as [|[k v] l Hk _ IH]; intros acc; [done|].
  cbn [fmap list_fmap foldl]. rewrite IH. f_equal. unfold insert_env, env_entry, ins.
  cbn [fst snd] in *. change ("=" +:+ v) with (String "="%char v). by rewrite split_once_app.
Qed.

(** Rendering the variables and parsing them back. *)
Lemma parse_rendered_env m :
  keys_ok m -> foldl insert_env ∅ (env_entry <$> map_to_list m) = m.
Proof.
  intros H. rewrite foldl_insert_env, foldl_ins.
  - rewrite <-(list_to_map_to_list m) at 2. apply list_to_map_proper.
    + rewrite fmap_reverse, reverse_Permutation. apply NoDup_fst_map_to_list.
    + apply reverse_Permutation.
  - apply Forall_forall. intros [k v] Hkv%elem_of_map_to_list. by eapply H.
Qed.

Lemma insert_env_keys m e : keys_ok m -> keys_ok (insert_env m e).
Proof.
  intros H. unfold insert_env. destruct (split_once "="%char e) as [[k v]|] eqn:Es; [|done].
  apply split_once_some in Es as [_ Hk].
  intros k' v' [[<- _]|[_ ?]]%lookup_insert_Some; [done|eauto].
Qed.

Lemma merged_env_keys ic opts : keys_ok (env opts) -> keys_ok (merged_env_map ic opts).
Proof.
  intros H. unfold merged_env_map, extend. intros k v [Hk|[_ Hk]]%lookup_union_Some_raw; [eauto|].
  revert k v Hk. destruct (config ic) as [c|]; [|done].
  generalize (default [] (ic_env c)) as l. intros l. 
  assert (G : forall acc, keys_ok acc -> keys_ok (foldl insert_env acc l)).
  { induction l as [|e l IH]; intros acc Ha; [done|]. by apply IH, insert_env_keys. }
  by apply (G ∅).
Qed.

End env.

(** ** A concrete instance for the witnesses: every build succeeds, and the
    encodings are the given tables. *)
#[export] Instance Capability_eq_dec : EqDecision Capability.
Proof. solve_decision. Defined.
#[export] Instance OciMount_eq_dec : EqDecision OciMount.
Proof. solve_decision. Defined.
#[export] Instance Hook_eq_dec : EqDecision Hook.
Proof. solve_decision. Defined.
#[export] Instance Hooks_eq_dec : EqDecision Hooks.
Proof. solve_decision. Defined.
#[export] Instance LinuxCapabilities_eq_dec : EqDecision LinuxCapabilities.
Proof. solve_decision. Defined.
#[export] Instance OciProcess_eq_dec : EqDecision OciProcess.
Proof. solve_decision. Defined.
#[export] Instance OciSpec_eq_dec : EqDecision OciSpec.
Proof. solve_decision. Defined.

Definition lookup_bytes {A} (b : bytes) (l : list (bytes * A)) : option A :=
  snd <$> List.find (fun e => bool_decide (e.1 = b)) l.

(** The first byte string whose entry is [s] and reads back as [s]. *)
Definition encode_in (specs : list (bytes * OciSpec)) (s : OciSpec) : result string bytes :=
  match List.find (fun e => bool_decide (e.2 = s)) specs with
  | Some e => if decide (lookup_bytes e.1 specs = Some s) then Ok e.1 else Err "unsupported"
  | None => Err "unsupported"
  end.

Definition demo_libs_with (specs : list (bytes * OciSpec)) (jsons : list (bytes * Json))
    (configs : list (bytes * ImageConfiguration)) : Libs := {|
  oci_build := fun A a => Ok a;
  get_default_namespaces := [NsPid; NsNetwork; NsIpc; NsUts; NsMount; NsCgroup];
  spec_to_vec := encode_in specs;
  spec_from_slice := fun b => lookup_bytes b specs;
  process_to_vec := fun _ => Ok (str_bytes "process");
  json_from_slice := fun b => ok_or "not json" (lookup_bytes b jsons);
  image_config_from_slice := fun b => ok_or "no config" (lookup_bytes b configs);
  sha256 := fun b => take 32 b;
  host_arch := "x86_64"
|}.

Definition demo_image_config : ImageConfiguration :=
  mkImageConfiguration (Some (mkImageConfig (Some {[ "maintainer" := "us" ]})
    (Some ["mongod"]) None None (Some ["PATH=/bin"; "LANG=C"]))) ["sha256:layer"].

(** What [build_oci_spec] makes for the demonstration containers. *)
Definition demo_spec_for (opts : CreateContainerOpts) (hooks : result Error (option Hooks)) :
    OciSpec :=
  let L0 := demo_libs_with [] [] [] in
  match hooks with
  | Ok h => match build_oci_spec (L := L0) demo_image_config opts h with
            | Ok s => s
            | Err _ => mkOciSpec "" None ("", false) [] None None
            end
  | Err _ => mkOciSpec "" None ("", false) [] None None
  end.

Definition demo_host_opts : CreateContainerOpts :=
  mkCreateContainerOpts {[ "LANG" := "de" ]} {[ "user" := "x" ]} [] Host None [(8080, 80)%N] None.

Definition demo_bridge_opts : CreateContainerOpts :=
  mkCreateContainerOpts {[ "LANG" := "de" ]} ∅ [] Bridge None [(0, 27017)%N] None.

Definition demo_isolated_opts : CreateContainerOpts :=
  mkCreateContainerOpts {[ "LANG" := "de" ]} ∅ [] Isolated None [] None.

(** The identifier, address and port the demonstration environment gives. *)
Definition demo_id : string := "00000000000000000000000000000001".

Definition demo_specs : list (bytes * OciSpec) :=
  let L0 := demo_libs_with [] [] [] in
  [(str_bytes "host", demo_spec_for demo_host_opts (Ok None));
   (str_bytes "bridge", demo_spec_for demo_bridge_opts
      (let? h := build_bridge_hooks (L := L0) demo_id "10.88.1.2" "default"
                   [(27017, 40002)%N] [(40002, 27017)%N] in Ok (Some h)));
   (str_bytes "isolated", demo_spec_for demo_isolated_opts (Ok None));
   (str_bytes "spec", demo_spec_for create_opts_default (Ok None))].

#[export] Instance demo_libs : Libs := demo_libs_with demo_specs
  [(str_bytes "manifest", JObject [("config", JObject [("digest", JString "cfg")])]);
   (str_bytes "config", JObject [("config", JObject [("Healthcheck", JObject
      [("Test", JArray [JString "CMD"; JString "true"]);
       ("Timeout", JNumber_ (PosInt 5000000000))])])])]
  [(str_bytes "config", demo_image_config)].
