(* ===== verification/Inspect.v ===== *)
(** * Inspecting and listing ([src/types.rs], [src/inspect.rs], [src/list.rs])

    What the daemon says about a container and its task, as the crate reports
    it. *)

From S2P Require Import Prelude RustText RustFmt Errors Effects World Identifier Bridge ContainerSpec.
From Stdlib Require Import Ascii.

(** ** Types *)
Inductive TaskStatus : Type := Running | Stopped | Paused | UnknownStatus.

#[export] Instance TaskStatus_eq_dec : EqDecision TaskStatus.
Proof. solve_decision. Defined.

(** [From<i32>]: the numbers are containerd's [Status] (Created 1, Running 2,
    Stopped 3, Paused 4, Pausing 5). *)
Definition task_status_from (status : Z) : TaskStatus :=
  if (status =? 2)%Z then Running
  else if (status =? 3)%Z then Stopped
  else if (status =? 4)%Z then Paused
  else if (status =? 5)%Z then Paused
  else if (status =? 1)%Z then Running
  else UnknownStatus.

Record TaskInfo : Type := mkTaskInfo {
  t_pid : N;
  t_status : TaskStatus;
  t_exit_code : option Z
}.

Record ContainerInfo : Type := mkContainerInfo {
  ci_id : ContainerId;
  ci_name : string;
  ci_image : string;
  ci_labels : labels_map;
  ci_env : labels_map;
  ci_mounts : list (string * string);
  ci_task : option TaskInfo;
  ci_port_forwards : list (N * N)
}.

(** ** Pure parts *)
Definition parse_env_vars (env : list string) : labels_map := foldl insert_env ∅ env.

Definition extract_mounts (spec : OciSpec) : list (string * string) :=
  match sp_mounts spec with
  | Some ms => (fun m => (default "" (m_source m), m_destination m)) <$> ms
  | None => []
  end.

Definition container_to_info {L : Libs} (container : Container) (task : option TaskInfo) :
    Result ContainerInfo :=
  let labels := c_labels container in
  let port_forwards := parse_port_binding_labels labels in
  let '(env, mounts) :=
    match c_spec container with
    | Some spec_any =>
        match spec_from_slice (value spec_any) with
        | Some spec =>
            (match sp_process spec ≫= pr_env with
             | Some e => parse_env_vars e | None => ∅ end,
             extract_mounts spec)
        | None => (∅, [])
        end
    | None => (∅, [])
    end in
  let name :=
    match labels !! NAME_LABEL with
    | Some n => n
    | None => match labels !! "nerdctl/name" with Some n => n | None => c_id container end
    end in
  let? id := from_existing (c_id container) in
  Ok (mkContainerInfo id name (c_image container) labels env mounts task port_forwards).

(** [i32::try_from(n).unwrap_or(i32::MAX)] and [n as i32], for a [u32]. *)
Definition i32_saturating (n : N) : Z := if (n <=? I32_MAX)%N then Z.of_N n else Z.of_N I32_MAX.
Definition i32_wrapping (n : N) : Z :=
  if (n <=? I32_MAX)%N then Z.of_N n else (Z.of_N n - 4294967296)%Z.

(** ["labels.\"{key}\"=={value}"], with the quotes of the source. *)
Definition filter_for (key value : string) : string :=
  "labels." +:+ DQ +:+ key +:+ DQ +:+ "==" +:+ value.

(** The process a task query returns, as a [TaskInfo]. *)
Definition process_info (exit_code : N -> Z) (p : Process) : TaskInfo :=
  let status := task_status_from (p_status p) in
  mkTaskInfo (p_pid p) status
    (if decide (status = Stopped) then Some (exit_code (p_exit_status p)) else None).

Definition build_label_filter (label_filter : string) : option string :=
  match split_once "="%char label_filter with
  | Some (k, v) => Some (filter_for k v)
  | None => None
  end.

Definition build_list_request (label_filters : list string) : list string :=
  match omap build_label_filter label_filters with
  | [] => []
  | parsed => [join "," parsed]
  end.

(** ** Requests *)
Section inspect.
Context {E : Env} {L : Libs} {Meta : Type}.
Abbreviation M := (ST (World Meta)).

Definition get_task_info (client : Client) (container_id : string) : M (option TaskInfo) :=
  r ← rpc client (GetTask container_id "");
  mret (match r with
        | Ok (Some process) => Some (process_info i32_saturating process)
        | Ok None => None
        | Err _ => None
        end).

(** [get] of a container record, as every caller but one words it. *)
Definition get_container (client : Client) (container_id : string) : M (Result Container) :=
  r ← rpc client (GetContainer container_id);
  mret (match r with
        | Ok (Some c) => Ok c
        | Ok None => Err (ContainerNotFound container_id)
        | Err e => Err (if decide (code e = NotFound) then ContainerNotFound container_id
                        else into_crate_error e "get_container")
        end).

Definition inspect_container (client : Client) (container_id : string) :
    M (Result ContainerInfo) :=
  container ←? get_container client container_id;
  task ← get_task_info client (c_id container);
  mret (container_to_info container task).

Definition resolve_name (client : Client) (name : string) : M (Result ContainerId) :=
  let flt := filter_for NAME_LABEL name in
  r ← rpc client (ListContainers [flt]);
  mret (match r with
        | Err e => Err (into_crate_error e "resolve_name")
        | Ok containers =>
            match last containers with
            | None => Err (ContainerNotFound name)
            | Some first => from_existing (c_id first)
            end
        end).

Definition fetch_task_map (client : Client) : M (Result (gmap string TaskInfo)) :=
  r ← rpc client (ListTasks "");
  mret (match r with
        | Err _ => Ok ∅
        | Ok tasks => Ok (foldl (fun m p => <[p_container_id p := process_info i32_wrapping p]> m)
                            ∅ tasks)
        end).

Definition list_containers (client : Client) (label_filters : list string) :
    M (Result (list ContainerInfo)) :=
  r ← rpc client (ListContainers (build_list_request label_filters));
  containers ←? mret (map_err (fun e => into_crate_error e "list_containers") r);
  tasks ←? fetch_task_map client;
  mret (collect_results
    ((fun c => container_to_info c (tasks !! c_id c)) <$> containers)).

End inspect.

(** * Lemmas *)

(** A record that cannot be described has an identifier that is not valid. *)
Lemma container_to_info_cases {L : Libs} (c : Container) t :
  (exists info, container_to_info c t = Ok info /\ ci_task info = t) \/
  (exists m, container_to_info c t = Err (InvalidArgument m)).
Proof.
  unfold container_to_info, from_existing. cbv zeta.
  destruct (match c_spec c with Some _ => _ | None => _ end) as [env mounts].
  destruct (validate_cases (c_id c)) as [(-> & _)|([m ->] & _)]; cbn; eauto.
Qed.

(** Inspecting and listing a stopped task report the same exit code only up to
    [i32::MAX]: above it the one saturates and the other wraps around. *)
Lemma exit_codes_agree n :
  (n < 4294967296)%N -> (i32_saturating n = i32_wrapping n <-> (n <= I32_MAX)%N).
Proof.
  unfold i32_saturating, i32_wrapping, I32_MAX. destruct (n <=? 2147483647)%N eqn:H; simp_eqs; lia.
Qed.
