(* ===== verification/ClientState.v ===== *)
(** * The client's own state ([src/client.rs], lines 85-206 and 302-400)

    Namespaces, the image-metadata cache, the task start times, the managed
    tailers and the managed port forwards.  These maps are shared by all clones
    of a client, so they live in the world and a client is only its
    namespace. *)

From S2P Require Import Prelude RustText RustFmt Errors Effects FileSystem LogFiles World.

Section client.
Context {E : Env} {Meta : Type}.
Abbreviation M := (ST (World Meta)).

(** ** Namespaces *)
Definition try_with_namespace (self : Client) (ns : string) : Result Client :=
  if negb (metadata_ok ns) then
    Err (InvalidArgument ("namespace " +:+ debug_str ns +:+
      " is not valid as a gRPC metadata header value (ASCII visible chars only)"))
  else Ok (mkClient ns).

(** [with_namespace]: nothing when the source panics. *)
Definition with_namespace (self : Client) (ns : string) : option Client :=
  ok (try_with_namespace self ns).

(** [from_parts]: a new client. *)
Definition from_parts : Client := mkClient "default".

Definition ns_key (client : Client) (container_id : string) : string :=
  namespace client +:+ "/" +:+ container_id.

(** ** The image-metadata cache *)
Definition clear_image_cache : M unit := modify_st (set_cache ∅).
Definition image_cache_len : M nat := fun w => (size (image_metadata_cache w), w).
Definition lookup_image_metadata (manifest_digest : string) : M (option Meta) :=
  fun w => (image_metadata_cache w !! manifest_digest, w).
Definition store_image_metadata (manifest_digest : string) (metadata : Meta) : M unit :=
  modify_st (fun w => set_cache (<[manifest_digest := metadata]> (image_metadata_cache w)) w).

(** ** Task start times *)
Definition record_task_start (client : Client) (container_id : string) : M unit :=
  t ← now;
  modify_st (fun w => set_starts (<[ns_key client container_id := t]> (task_start_times w)) w).

Definition forget_task_start (client : Client) (container_id : string) : M unit :=
  modify_st (fun w => set_starts (delete (ns_key client container_id) (task_start_times w)) w).

Definition task_uptime (client : Client) (container_id : string) : M (option Duration) :=
  fun w => ((fun t => (clock w - t)%N) <$> task_start_times w !! ns_key client container_id, w).

(** ** Managed tailers *)
Definition log_tailer_start (container_id : string) : M (Result LogTailerHandle) := fun w =>
  match log_paths_for home_dir container_id with
  | Err e => (Err e, w)
  | Ok (out, err) =>
      match events_path_for home_dir container_id with
      | Err e => (Err e, w)
      | Ok ev => let t := mkLogTailerHandle out err ev in (Ok t, emit (TailerStarted t) w)
      end
  end.

(** Signals the background task and waits for its final drain. *)
Definition log_tailer_stop (t : LogTailerHandle) : M unit := modify_st (emit (TailerStopped t)).

Definition start_managed_tailer (client : Client) (container_id : string) : M (Result unit) :=
  tailer ←? log_tailer_start container_id;
  let key := ns_key client container_id in
  w ← get_st;
  let old := managed_tailers w !! key in
  _ ← modify_st (fun w => set_tailers (<[key := tailer]> (managed_tailers w)) w);
  match old with
  | Some old => _ ← log_tailer_stop old; mret (Ok tt)
  | None => mret (Ok tt)
  end.

Definition stop_managed_tailer (client : Client) (container_id : string) : M unit :=
  let key := ns_key client container_id in
  w ← get_st;
  match managed_tailers w !! key with
  | Some tailer =>
      _ ← modify_st (fun w => set_tailers (delete key (managed_tailers w)) w);
      log_tailer_stop tailer
  | None => mret tt
  end.

(** ** Port forwards ([src/port_forward.rs]) *)
Definition default_target_addr : string := "127.0.0.1".

Definition start_port_forward (container_id : string) (host_port container_port : N)
    (target_addr : string) : M (Result PortForwardHandle) :=
  if (host_port =? 0)%N then mret (Err (PortForward "host_port cannot be 0"))
  else if (container_port =? 0)%N then mret (Err (PortForward "container_port cannot be 0"))
  else
    r ← outside (bind_port host_port);
    mret (match r with
          | Ok _ => Ok (mkPortForwardHandle container_id host_port container_port
                          (target_addr +:+ ":" +:+ dec_string container_port))
          | Err (BindFailed e) => Err (PortForward ("failed to bind port " +:+
              dec_string host_port +:+ ": " +:+ e))
          | Err (NonBlockingFailed e) => Err (PortForward ("failed to set non-blocking on port "
              +:+ dec_string host_port +:+ ": " +:+ e))
          | Err (ConvertFailed e) => Err (PortForward ("failed to create tokio listener: " +:+ e))
          end).

Definition start_managed_port_forward (container_id : string) (host_port container_port : N)
    (target_addr : string) : M (Result unit) :=
  handle ←? start_port_forward container_id host_port container_port target_addr;
  w ← get_st;
  if handles_poisoned w then
    (* the handle is dropped on the way out *)
    _ ← modify_st (emit (ForwardDropped handle)); mret (Err (StatePoisoned "managed_handles"))
  else
    _ ← modify_st (fun w => set_handles (managed_handles w ++ [handle]) w); mret (Ok tt).

(** [h.container_id() == container_id]. *)
Definition belongs (container_id : string) (h : PortForwardHandle) : bool :=
  String.eqb (pf_container_id h) container_id.

(** A poisoned mutex is recovered, so it makes no difference here. *)
Definition stop_managed_forwards (container_id : string) : M unit :=
  w ← get_st;
  let matching := List.filter (belongs container_id) (managed_handles w) in
  let remaining := List.filter (fun h => negb (belongs container_id h)) (managed_handles w) in
  _ ← modify_st (set_handles remaining);
  modify_st (fun w => foldl (fun w h => emit (ForwardStopped h) w) w matching).

End client.
