(* ===== verification/Task.v ===== *)
(** * Tasks ([src/task.rs])

    Starting, stopping, killing, pausing and deleting a container's task, and
    the full deletion of a container.  The waits are the polling loops of file
    Loops. *)

From S2P Require Import Prelude RustText RustFmt Errors Effects FileSystem LogFiles Identifier World Loops Bridge ContainerSpec Inspect ClientState DemoDaemon.

Definition SIGTERM : N := 15.
Definition SIGKILL : N := 9.

Record TaskId : Type := mkTaskId { ti_container_id : string; ti_pid : N }.

Definition build_create_task_request (container_id : string) (rootfs : list RootMount)
    (stdout stderr : string) : CreateTaskRequest :=
  mkCreateTaskRequest container_id rootfs "" stdout stderr false.

Section task.
Context {E : Env} {L : Libs} {Meta : Type}.
Abbreviation M := (ST (World Meta)).

Definition start_container (client : Client) (container_id : string) : M (Result TaskId) :=
  container ←? get_container client container_id;
  m ← rpc client (Mounts (c_snapshotter container) (c_snapshot_key container));
  rootfs ←? mret (map_err (fun e => into_crate_error e "snapshot_mounts") m);
  '(stdout_path, stderr_path) ←? on_files (prepare_log_files home_dir container_id);
  c ← rpc client (CreateTask (build_create_task_request container_id rootfs
        (path_text stdout_path) (path_text stderr_path)));
  pid ←? mret (map_err (fun e =>
           if decide (code e = AlreadyExists) then TaskAlreadyExists container_id
           else into_crate_error e "create_task") c);
  s ← rpc client (StartTask container_id "");
  mret (map_err (fun e => into_crate_error e "start_task") s) ;;?
  _ ← record_task_start client container_id;
  mret (Ok (mkTaskId container_id pid)).

Definition stop_task (client : Client) (container_id : string) : M (Result unit) :=
  r ← rpc client (KillTask container_id "" SIGTERM true);
  mret (match r with
        | Ok _ => Ok tt
        | Err e =>
            if decide (code e = NotFound) then Err (TaskNotFound container_id)
            else if decide (code e = FailedPrecondition) then Ok tt
            else Err (into_crate_error e "kill_task")
        end).

Definition kill_task (client : Client) (container_id : string) (signal : N) :
    M (Result unit) :=
  r ← rpc client (KillTask container_id "" signal true);
  mret (match r with
        | Ok _ => Ok tt
        | Err e =>
            if decide (code e = NotFound \/ code e = FailedPrecondition) then Ok tt
            else Err (into_crate_error e "kill_task")
        end).

Definition is_task_running (client : Client) (container_id : string) : M bool :=
  t ← get_task_info client container_id;
  mret (match t with Some t => bool_decide (t_status t = Running) | None => false end).

(** ** Waiting *)

(** The predicate of [wait_for_task_stop]. *)
Definition task_has_stopped (client : Client) (container_id : string) : M bool :=
  r ← inspect_container client container_id;
  mret (match r with
        | Ok info => match ci_task info with
                     | Some t => bool_decide (t_status t = Stopped)
                     | None => true
                     end
        | Err (ContainerNotFound _) => true
        | Err _ => false
        end).

Definition wait_for_task_stop (client : Client) (container_id : string) (timeout : Duration) :
    M (Result unit) :=
  start ← now;
  poll_until start timeout (from_millis 100)
    ("task " +:+ container_id +:+ " did not stop within " +:+ debug_duration timeout)
    (task_has_stopped client container_id).

(** What a round of [wait_for_exit] makes of an inspection. *)
Definition exit_of (container_id : string) (r : Result ContainerInfo) : option (Result Z) :=
  match r with
  | Ok info =>
      match ci_task info with
      | Some task =>
          if decide (t_status task = Stopped) then
            Some (ok_or (TaskExited ("task " +:+ container_id +:+
                    " stopped but no exit code reported")) (t_exit_code task))
          else None
      | None => None
      end
  | Err (ContainerNotFound _) => Some (Err (ContainerNotFound container_id))
  | Err _ => None
  end.

Definition exit_timeout (container_id : string) (timeout : Duration) : Error :=
  Timeout ("task " +:+ container_id +:+ " did not exit within " +:+ debug_duration timeout).

Definition wait_round (client : Client) (container_id : string) (start : N)
    (timeout : Duration) (u : unit) : M (unit + Result Z) :=
  e ← elapsed start;
  if (timeout <? e)%N then mret (inr (Err (exit_timeout container_id timeout)))
  else
    r ← inspect_container client container_id;
    match exit_of container_id r with
    | Some res => mret (inr res)
    | None => _ ← sleep (from_millis 100); mret (inl tt)
    end.

Definition wait_for_exit (client : Client) (container_id : string) (timeout : Duration) :
    M (Result Z) :=
  start ← now;
  r ← loop (rounds_within timeout (from_millis 100))
        (wait_round client container_id start timeout) tt;
  mret (default (Err (exit_timeout container_id timeout)) r).

(** ** Deleting *)
Definition is_retryable_delete_error (err : Error) : bool :=
  match err with
  | Containerd _ source =>
      match code source with
      | FailedPrecondition | Unavailable | Internal | Aborted | DeadlineExceeded => true
      | _ => false
      end
  | _ => false
  end.

Definition delete_task (client : Client) (container_id : string) : M (Result unit) :=
  r ← rpc client (DeleteTask container_id);
  let result :=
    match r with
    | Ok _ => Ok tt
    | Err e => if decide (code e = NotFound) then Ok tt
               else Err (into_crate_error e "delete_task")
    end in
  if is_ok result then _ ← forget_task_start client container_id; mret result
  else mret result.

(** A round: [attempts] only feeds the log, so it is left out. *)
Definition retry_round (client : Client) (container_id : string) (start : N)
    (timeout : Duration) (u : unit) : M (unit + Result unit) :=
  r ← delete_task client container_id;
  match r with
  | Ok _ => mret (inr (Ok tt))
  | Err e =>
      if negb (is_retryable_delete_error e) then mret (inr (Err e))
      else
        el ← elapsed start;
        if (timeout <=? el)%N then mret (inr (Err e))
        else _ ← sleep (from_millis 50); mret (inl tt)
  end.

(** The fuel covers every round (see [paced_ends] of file Loops); the answer when
    it would not is never given. *)
Definition retry_delete_task (client : Client) (container_id : string) (timeout : Duration) :
    M (Result unit) :=
  start ← now;
  r ← loop (rounds_within timeout (from_millis 50))
        (retry_round client container_id start timeout) tt;
  mret (default (Err NotImplemented) r).

Definition remove_container (client : Client) (container_id : string) : M (Result unit) :=
  g ← rpc client (GetContainer container_id);
  let snapshotter :=
    match g with Ok (Some c) => c_snapshotter c | _ => DEFAULT_SNAPSHOTTER end in
  d ← rpc client (DeleteContainer container_id);
  let result :=
    match d with
    | Ok _ => Ok tt
    | Err e => if decide (code e = NotFound) then Ok tt
               else Err (into_crate_error e "delete_container")
    end in
  _ ← rpc client (RemoveSnapshot snapshotter (snapshot_key_for container_id));
  _ ← on_files (cleanup_log_files home_dir container_id);
  mret result.

(** ** Stopping *)
Definition sigterm_grace (timeout : Duration) : Duration := N.min (timeout / 2) (from_secs 5).

Definition stop_container (client : Client) (container_id : string) (timeout : Duration) :
    M (Result unit) :=
  let grace := sigterm_grace timeout in
  _ ← stop_task client container_id;
  _ ← wait_for_task_stop client container_id grace;
  running ← is_task_running client container_id;
  if running : bool then
    _ ← kill_task client container_id SIGKILL;
    wait_for_task_stop client container_id (saturating_sub timeout grace) ;;?
    mret (Ok tt)
  else mret (Ok tt).

(** The predicates of the three phases of [delete_container]. *)
Definition phase_delete_task (client : Client) (container_id : string) : M bool :=
  r ← delete_task client container_id; mret (is_ok r).

Definition phase_task_record_gone (client : Client) (container_id : string) : M bool :=
  r ← inspect_container client container_id;
  match r with
  | Ok info =>
      match ci_task info with
      | Some task =>
          _ ← (if decide (t_status task = Stopped)
               then _ ← delete_task client container_id; mret tt else mret tt);
          mret false
      | None => mret true
      end
  | Err _ => mret true
  end.

Definition phase_container_record_gone (client : Client) (container_id : string) : M bool :=
  r ← inspect_container client container_id;
  match r with
  | Err (ContainerNotFound _) => mret true
  | Ok _ => _ ← remove_container client container_id; mret false
  | Err _ => mret false
  end.

Definition delete_container (client : Client) (container_id : string) (timeout : Duration) :
    M (Result unit) :=
  let poll_interval := from_millis 100 in
  _ ← stop_container client container_id timeout;
  phase_start ← now;
  poll_until phase_start timeout poll_interval
    ("delete_container[phase=delete_task] timed out for " +:+ container_id)
    (phase_delete_task client container_id) ;;?
  phase_start ← now;
  poll_until phase_start timeout poll_interval
    ("delete_container[phase=task_record_gone] timed out for " +:+ container_id +:+
     " within " +:+ debug_duration timeout)
    (phase_task_record_gone client container_id) ;;?
  _ ← remove_container client container_id;
  phase_start ← now;
  poll_until phase_start timeout poll_interval
    ("delete_container[phase=container_record_gone] timed out for " +:+ container_id +:+
     " within " +:+ debug_duration timeout)
    (phase_container_record_gone client container_id) ;;?
  mret (Ok tt).

(** ** Pausing *)
Definition pause_container (client : Client) (container_id : string) : M (Result unit) :=
  r ← rpc client (PauseTask container_id);
  mret (match r with
        | Ok _ => Ok tt
        | Err e => Err (if decide (code e = NotFound) then TaskNotFound container_id
                        else into_crate_error e "pause_task")
        end).

Definition unpause_container (client : Client) (container_id : string) : M (Result unit) :=
  r ← rpc client (ResumeTask container_id);
  mret (match r with
        | Ok _ => Ok tt
        | Err e => Err (if decide (code e = NotFound) then TaskNotFound container_id
                        else into_crate_error e "unpause_task")
        end).

End task.

(** * Lemmas *)
Section lemmas.
Context {E : Env} {L : Libs} {Meta : Type}.
Abbreviation M := (ST (World Meta)).
Implicit Types (w : World Meta) (client : Client).

(** ** What is sent *)
Definition is_kill (ev : Event) : bool :=
  match ev with Sent _ (KillTask _ _ _ _) => true | _ => false end.
Definition no_kill (ev : Event) : Prop := is_kill ev = false.

Ltac rpc_no_kill :=
  match goal with |- pres _ (rpc ?c ?r) => exact (emits_rpc no_kill c r eq_refl) end.

Lemma get_task_info_no_kill client id :
  pres (emits (Meta := Meta) no_kill) (get_task_info client id).
Proof.
  unfold get_task_info. apply pres_bind; [apply _|rpc_no_kill|].
  intros a. by apply pres_ret, _.
Qed.

Lemma get_container_no_kill client id :
  pres (emits (Meta := Meta) no_kill) (get_container client id).
Proof.
  unfold get_container. apply pres_bind; [apply _|rpc_no_kill|].
  intros a. by apply pres_ret, _.
Qed.

Lemma inspect_no_kill client id :
  pres (emits (Meta := Meta) no_kill) (inspect_container client id).
Proof.
  unfold inspect_container. apply pres_try; try apply _; [apply get_container_no_kill|].
  intros c. apply pres_bind; [apply _|apply get_task_info_no_kill|].
  intros a. by apply pres_ret, _.
Qed.

Lemma task_has_stopped_no_kill client id :
  pres (emits (Meta := Meta) no_kill) (task_has_stopped client id).
Proof.
  unfold task_has_stopped. apply pres_bind; [apply _|apply inspect_no_kill|].
  intros a. by apply pres_ret, _.
Qed.

Lemma wait_stop_no_kill client id timeout :
  pres (emits (Meta := Meta) no_kill) (wait_for_task_stop client id timeout).
Proof.
  unfold wait_for_task_stop. apply pres_bind; [apply _|by intros w; apply emits_same|].
  intros s. apply pres_poll; try apply _; [|by apply emits_sleep].
  apply task_has_stopped_no_kill.
Qed.

Lemma stop_task_trace client id w :
  trace (stop_task client id w).2 =
    trace w ++ [Sent (namespace client) (KillTask id "" SIGTERM true)].
Proof.
  unfold stop_task, mbind, ST_bind. cbn [snd mret ST_ret]. apply rpc_trace.
Qed.

Lemma kill_task_trace client id s w :
  trace (kill_task client id s w).2 =
    trace w ++ [Sent (namespace client) (KillTask id "" s true)].
Proof.
  unfold kill_task, mbind, ST_bind. cbn [snd mret ST_ret]. apply rpc_trace.
Qed.

(** ** Time *)
Lemma later_inspect client id : pres (later (Meta := Meta)) (inspect_container client id).
Proof. unfold inspect_container, get_container, get_task_info. pres_tac. Qed.

Lemma later_task_has_stopped client id : pres (later (Meta := Meta)) (task_has_stopped client id).
Proof. unfold task_has_stopped. apply pres_bind; [apply _|apply later_inspect|]. pres_tac. Qed.

Lemma later_delete_task client id : pres (later (Meta := Meta)) (delete_task client id).
Proof.
  unfold delete_task. apply pres_bind; [apply _|apply later_rpc|]. intros r.
  cbv zeta. destruct (is_ok _); pres_tac.
Qed.

Lemma wait_round_paced client id start timeout :
  paced start timeout (from_millis 100) (wait_round (Meta := Meta) client id start timeout).
Proof.
  intros u w Hs. unfold wait_round.
  rewrite (run_bind (elapsed start) _ w (clock w - start)%N w) by done.
  destruct (timeout <? _)%N eqn:Et; [done|]. simp_eqs.
  pose proof (later_inspect client id w) as Hl. unfold later in Hl.
  destruct (inspect_container client id w) as [r w1] eqn:Er. rewrite (run_bind _ _ _ _ _ Er).
  simpl in Hl. destruct (exit_of id r); [done|].
  pose proof (sleep_clock (from_millis 100) w1) as Hsl.
  destruct (sleep _ w1) as [[] w2] eqn:Es. rewrite (run_bind _ _ _ _ _ Es). simpl in *. lia.
Qed.

Lemma retry_round_paced client id start timeout :
  paced start timeout (from_millis 50) (retry_round (Meta := Meta) client id start timeout).
Proof.
  intros u w Hs. unfold retry_round.
  pose proof (later_delete_task client id w) as Hl. unfold later in Hl.
  destruct (delete_task client id w) as [r w1] eqn:Er. rewrite (run_bind _ _ _ _ _ Er).
  simpl in Hl. destruct r as [|e]; [done|].
  destruct (negb _); [done|].
  rewrite (run_bind (elapsed start) _ w1 (clock w1 - start)%N w1) by done.
  destruct (timeout <=? _)%N eqn:Et; [done|]. simp_eqs.
  pose proof (sleep_clock (from_millis 50) w1) as Hsl. lia.
Qed.

(** ** Requests about a container that is not there *)

(** The daemon says so to every request of a deletion, and keeps saying so. *)
Record gone (client : Client) (id : string) (P : Ext -> Prop) (no : Status) : Prop := mkGone {
  g_code : code no = NotFound;
  g_get : answers (namespace client) P (GetContainer id) (Err no);
  g_kill : forall s, answers (namespace client) P (KillTask id "" s true) (Err no);
  g_task : answers (namespace client) P (GetTask id "") (Err no);
  g_del_task : answers (namespace client) P (DeleteTask id) (Err no);
  g_del : answers (namespace client) P (DeleteContainer id) (Err no);
  g_snap : answers (namespace client) P
    (RemoveSnapshot DEFAULT_SNAPSHOTTER (snapshot_key_for id)) (Err no);
  g_sleep : sleeps P
}.

Section when_gone.
Context (client : Client) (id : string) (P : Ext -> Prop) (no : Status).
Context (G : gone client id P no).

Lemma inspect_gone w :
  P (ext w) ->
  exists w', inspect_container client id w = (Err (ContainerNotFound id), w') /\
    P (ext w') /\ same_client w w'.
Proof.
  intros HP. destruct (rpc_answers _ _ _ _ w (g_get _ _ _ _ G) HP) as (w1 & H1 & HP1 & S1).
  exists w1. split; [|done]. unfold inspect_container, get_container.
  rewrite (run_try_err _ _ _ (ContainerNotFound id) w1); [done|].
  rewrite (run_bind _ _ _ _ _ H1). by rewrite decide_True by apply (g_code _ _ _ _ G).
Qed.

Lemma wait_gone timeout w :
  P (ext w) ->
  exists w', wait_for_task_stop client id timeout w = (Ok tt, w') /\ P (ext w') /\ same_client w w'.
Proof.
  intros HP. destruct (inspect_gone w HP) as (w1 & H1 & HP1 & S1). exists w1. split; [|done].
  unfold wait_for_task_stop. rewrite (run_bind now _ w (clock w) w) by done.
  apply poll_until_first. unfold task_has_stopped. by rewrite (run_bind _ _ _ _ _ H1).
Qed.

Lemma stop_gone timeout w :
  P (ext w) ->
  exists w', stop_container client id timeout w = (Ok tt, w') /\ P (ext w') /\ same_client w w'.
Proof.
  intros HP. unfold stop_container, stop_task.
  destruct (rpc_answers _ _ _ _ w (g_kill _ _ _ _ G SIGTERM) HP) as (w1 & H1 & HP1 & S1).
  erewrite run_bind by by rewrite (run_bind _ _ _ _ _ H1).
  destruct (wait_gone (sigterm_grace timeout) w1 HP1) as (w2 & H2 & HP2 & S2).
  rewrite (run_bind _ _ _ _ _ H2).
  destruct (rpc_answers _ _ _ _ w2 (g_task _ _ _ _ G) HP2) as (w3 & H3 & HP3 & S3).
  exists w3. split.
  - rewrite (run_bind _ _ _ false w3); [done|]. unfold is_task_running, get_task_info.
    erewrite run_bind by by rewrite (run_bind _ _ _ _ _ H3). done.
  - split; [done|]. by do 2 (etransitivity; [eassumption|]).
Qed.

Lemma delete_task_gone w :
  P (ext w) ->
  exists w', delete_task client id w = (Ok tt, w') /\ P (ext w') /\
    task_start_times w' = delete (ns_key client id) (task_start_times w) /\
    files w' = files w /\ (clock w <= clock w')%N.
Proof.
  intros HP. destruct (rpc_answers _ _ _ _ w (g_del_task _ _ _ _ G) HP) as (w1 & H1 & HP1 & S1).
  destruct S1 as (Hf & _ & _ & Hs & _ & Hc).
  exists (set_starts (delete (ns_key client id) (task_start_times w1)) w1).
  split_and!; [|exact HP1|simpl; by rewrite Hs|exact Hf|exact Hc].
  unfold delete_task. rewrite (run_bind _ _ _ _ _ H1). cbv zeta.
  rewrite decide_True by apply (g_code _ _ _ _ G). done.
Qed.

Lemma remove_gone w :
  P (ext w) ->
  exists w', remove_container client id w = (Ok tt, w') /\ P (ext w') /\
    task_start_times w' = task_start_times w /\
    files w' = (cleanup_log_files home_dir id (files w)).2.
Proof.
  intros HP. unfold remove_container.
  destruct (rpc_answers _ _ _ _ w (g_get _ _ _ _ G) HP) as (w1 & H1 & HP1 & S1).
  rewrite (run_bind _ _ _ _ _ H1). cbv zeta iota.
  destruct (rpc_answers _ _ _ _ w1 (g_del _ _ _ _ G) HP1) as (w2 & H2 & HP2 & S2).
  rewrite (run_bind _ _ _ _ _ H2). cbv zeta.
  rewrite decide_True by apply (g_code _ _ _ _ G).
  destruct (rpc_answers _ _ _ _ w2 (g_snap _ _ _ _ G) HP2) as (w3 & H3 & HP3 & S3).
  rewrite (run_bind _ _ _ _ _ H3).
  assert (S : same_client w w3) by (etransitivity; [exact S1|]; by etransitivity).
  destruct S as (Hf & _ & _ & Hs & _ & _).
  exists (set_files (cleanup_log_files home_dir id (files w3)).2 w3).
  split_and!; [reflexivity|exact HP3|exact Hs|simpl; by rewrite Hf].
Qed.

End when_gone.

End lemmas.

(** * Properties *)
Section properties.
Context {E : Env} {L : Libs} {Meta : Type}.
Implicit Types (w : World Meta) (client : Client).

(** How a wait for the task to stop ends: it saw the task stopped or the
    container gone, or it found the time limit passed.  Nothing is killed
    meanwhile. *)
Definition waited client id (limit : Duration) w (r : Result unit) w' : Prop :=
  exists w1, emits no_kill w w1 /\ emits no_kill w1 w' /\
    (r = Ok tt /\ task_has_stopped client id w1 = (true, w') \/
     (exists msg, r = Err (Timeout msg)) /\ (clock w + limit < clock w')%N).

Lemma wait_for_task_stop_waits client id limit w r w' :
  wait_for_task_stop client id limit w = (r, w') -> waited client id limit w r w'.
Proof.
  intros H. pose proof H as Hw. unfold wait_for_task_stop in H.
  apply bind_inv in H as (s & w0 & [= <- <-] & H).
  apply (poll_until_outcome (emits no_kill)) in H as (w1 & R & H); [|done| |lia| |].
  - exists w1. split; [done|]. destruct H as [[-> H]|(-> & -> & H)]; [|by split; eauto].
    split; [exact (pres_at _ _ _ _ _ (task_has_stopped_no_kill client id) H)|by left].
  - apply later_task_has_stopped.
  - apply task_has_stopped_no_kill.
  - by apply emits_sleep.
Qed.

(** C12. Stopping a container sends SIGTERM to its task and then waits: until an
    inspection shows the task stopped or the container gone, or until the
    grace period -- at most half the budget and at most five seconds -- is
    over.  Only then it asks once for the task's status, and only if that
    answer says running it sends SIGKILL, once, and waits again: it succeeds
    if it sees the task stopped or the container gone, and fails with a
    timeout only when the rest of the budget is over.  No other signal is sent
    and no other container's task is signalled. *)
Theorem stop_container_signals client id timeout w r w' :
  stop_container client id timeout w = (r, w') ->
  let grace := sigterm_grace timeout in
  let kill sig := Sent (namespace client) (KillTask id "" sig true) in
  (grace * 2 <= timeout)%N /\ (grace <= from_secs 5)%N /\
  exists r1 w1 w2 w3,
    stop_task client id w = (r1, w1) /\ trace w1 = trace w ++ [kill SIGTERM] /\
    (exists r2, waited client id grace w1 r2 w2) /\ emits no_kill w2 w3 /\
    (is_task_running client id w2 = (false, w3) /\ r = Ok tt /\ w' = w3 \/
     is_task_running client id w2 = (true, w3) /\
     exists r4 w4, kill_task client id SIGKILL w3 = (r4, w4) /\
       trace w4 = trace w3 ++ [kill SIGKILL] /\
       waited client id (timeout - grace) w4 r w').
Proof.
  intros H. cbv zeta. pose proof (N.Div0.mul_div_le timeout 2).
  split_and!; [unfold sigterm_grace; lia..|].
  unfold stop_container in H.
  apply bind_inv in H as (r1 & w1 & H1 & H). pose proof (stop_task_trace client id w) as T1.
  rewrite H1 in T1. apply bind_inv in H as (r2 & w2 & H2 & H).
  apply wait_for_task_stop_waits in H2. apply bind_inv in H as (b & w3 & H3 & H).
  assert (T3 : emits no_kill w2 w3).
  { unfold is_task_running in H3. apply bind_inv in H3 as (t & w3' & H3 & [_ ->]%ret_inv).
    pose proof (get_task_info_no_kill client id w2) as Hk. by rewrite H3 in Hk. }
  exists r1, w1, w2, w3. split_and!; [done|done|by exists r2|done|]. destruct b.
  - right. split; [done|]. apply bind_inv in H as (r4 & w4 & H4 & H).
    pose proof (kill_task_trace client id SIGKILL w3) as T4. rewrite H4 in T4.
    exists r4, w4. split_and!; [done|done|]. apply wait_for_task_stop_waits.
    apply try_inv in H as [([] & w5 & H5 & [<- <-]%ret_inv)|(e & H5 & ->)]; exact H5.
  - left. by apply ret_inv in H as [<- <-].
Qed.

(** A successful deletion means containerd itself reported the container
    gone: the last thing [delete_container] saw before returning [Ok] was
    [ContainerNotFound]. *)
Theorem delete_container_reports_gone client id timeout w w' :
  delete_container client id timeout w = (Ok tt, w') ->
  exists (w1 : World Meta) x, inspect_container client id w1 = (Err (ContainerNotFound x), w').
Proof.
  unfold delete_container. intros (? & w1 & _ & H)%bind_inv.
  apply bind_inv in H as (? & w2 & _ & H). apply try_ok_inv in H as (? & w3 & _ & H).
  apply bind_inv in H as (? & w4 & _ & H). apply try_ok_inv in H as (? & w5 & _ & H).
  apply bind_inv in H as (? & w6 & _ & H). apply bind_inv in H as (s & w7 & _ & H).
  apply try_ok_inv in H as ([] & w8 & H8 & [_ <-]%ret_inv).
  revert H8. generalize (clock w6) as t0. intros t0 H8.
  apply (poll_until_ok _ _ _ _ _ _ _ (fun w' => exists (w1 : World Meta) x,
    inspect_container client id w1 = (Err (ContainerNotFound x), w')) H8). clear.
  intros wa wb H. unfold phase_container_record_gone in H.
  apply bind_inv in H as (r & wc & H & Hb). destruct r as [i|e].
  - apply bind_inv in Hb as (? & ? & _ & Hb). by apply ret_inv in Hb as [? _].
  - destruct e; apply ret_inv in Hb as [Hb ->]; try done. eauto.
Qed.

(** Deleting a container that does not exist succeeds, whatever the
    timeout, and leaves nothing behind on the client: its start time is
    forgotten and its log directory removed. *)
Theorem delete_container_idempotent client id timeout w P no :
  gone client id P no -> P (ext w) ->
  exists w', delete_container client id timeout w = (Ok tt, w') /\ P (ext w') /\
    task_start_times w' = delete (ns_key client id) (task_start_times w) /\
    files w' = (cleanup_log_files home_dir id (files w)).2.
Proof.
  intros G HP. unfold delete_container.
  destruct (stop_gone client id P no G timeout w HP) as (w1 & H1 & HP1 & S1).
  rewrite (run_bind _ _ _ _ _ H1), (run_bind now _ w1 (clock w1) w1) by done.
  destruct (delete_task_gone client id P no G w1 HP1) as (w2 & H2 & HP2 & E2 & F2 & C2).
  rewrite (run_try_ok _ _ _ tt w2).
  2:{ apply poll_until_first. unfold phase_delete_task. by rewrite (run_bind _ _ _ _ _ H2). }
  rewrite (run_bind now _ w2 (clock w2) w2) by done.
  destruct (inspect_gone client id P no G w2 HP2) as (w3 & H3 & HP3 & S3).
  rewrite (run_try_ok _ _ _ tt w3).
  2:{ apply poll_until_first. unfold phase_task_record_gone. by rewrite (run_bind _ _ _ _ _ H3). }
  destruct (remove_gone client id P no G w3 HP3) as (w4 & H4 & HP4 & E4 & F4).
  rewrite (run_bind _ _ _ _ _ H4), (run_bind now _ w4 (clock w4) w4) by done.
  destruct (inspect_gone client id P no G w4 HP4) as (w5 & H5 & HP5 & S5).
  exists w5. rewrite (run_try_ok _ _ _ tt w5).
  2:{ apply poll_until_first. unfold phase_container_record_gone.
      by rewrite (run_bind _ _ _ _ _ H5). }
  destruct S1 as (Fs1 & _ & _ & Es1 & _), S3 as (Fs3 & _ & _ & Es3 & _),
    S5 as (Fs5 & _ & _ & Es5 & _).
  split_and!; [done|done| |].
  - by rewrite Es5, E4, Es3, E2, Es1.
  - by rewrite Fs5, F4, Fs3, F2, Fs1.
Qed.

(** C29. [wait_for_exit] always returns: either what one inspection of the
    stopped (or vanished) container gave, or a timeout after more than the
    limit has passed; no second request can contradict the first. *)
Theorem wait_for_exit_spec client id timeout w r w' :
  wait_for_exit client id timeout w = (r, w') ->
  (exists w1 x, inspect_container client id w1 = (x, w') /\ exit_of id x = Some r) \/
  (r = Err (exit_timeout id timeout) /\ (clock w + timeout < clock w')%N).
Proof.
  unfold wait_for_exit. intros (s & w0 & [= <- <-] & H)%bind_inv.
  apply bind_inv in H as (o & w2 & H & Hr).
  destruct (paced_ends (clock w) timeout (from_millis 100)
    (wait_round client id (clock w) timeout) tt w) as (a & w3 & Ha);
    [done|apply wait_round_paced|lia|].
  rewrite Ha in H. simplify_eq. apply ret_inv in Hr as [<- ->]. cbn [default].
  apply (loop_answer _ _ _ _ _ _ (fun _ => True)) in Ha as (u & w1 & _ & Hw); [|done|done].
  unfold wait_round in Hw.
  rewrite (run_bind (elapsed (clock w)) _ w1 (clock w1 - clock w)%N w1) in Hw by done.
  destruct (timeout <? _)%N eqn:Et.
  - apply ret_inv in Hw as [Hw ->]. simplify_eq. right. simp_eqs. split; [done|lia].
  - left. apply bind_inv in Hw as (x & w4 & Hx & Hw). destruct (exit_of id x) eqn:Ex.
    + apply ret_inv in Hw as [Hw ->]. simplify_eq. eauto.
    + apply bind_inv in Hw as (? & ? & _ & Hw). by apply ret_inv in Hw as [Hw _].
Qed.

(** C28. [retry_delete_task] always returns: success is a successful
    [delete_task], and a failure is the error of the last attempt, either one
    not worth retrying or one that came when the limit had passed. *)
Theorem retry_delete_task_spec client id timeout w r w' :
  retry_delete_task client id timeout w = (r, w') ->
  exists w1, delete_task client id w1 = (r, w') /\
    match r with
    | Ok _ => True
    | Err e => is_retryable_delete_error e = false \/ (clock w + timeout <= clock w')%N
    end.
Proof.
  unfold retry_delete_task. intros (s & w0 & [= <- <-] & H)%bind_inv.
  apply bind_inv in H as (o & w2 & H & Hr).
  destruct (paced_ends (clock w) timeout (from_millis 50)
    (retry_round client id (clock w) timeout) tt w) as (a & w3 & Ha);
    [done|apply retry_round_paced|lia|].
  rewrite Ha in H. simplify_eq. apply ret_inv in Hr as [<- ->]. cbn [default].
  apply (loop_answer _ _ _ _ _ _ (started (clock w) tt)) in Ha as (u & w1 & Hs & Hw);
    [| unfold started; lia |].
  2:{ intros s1 wa s2 wb Hs Hw. pose proof (retry_round_paced client id (clock w) timeout s1 wa Hs)
        as Hp. rewrite Hw in Hp. unfold started in *. lia. }
  unfold retry_round in Hw. apply bind_inv in Hw as (x & w4 & Hx & Hw).
  pose proof (later_delete_task client id w1) as Hl. rewrite Hx in Hl. unfold later in Hl.
  unfold started in Hs. simpl in Hl. destruct x as [[]|e].
  { apply ret_inv in Hw as [Hw ->]. simplify_eq. by exists w1. }
  destruct (negb _) eqn:En.
  { apply ret_inv in Hw as [Hw ->]. simplify_eq. exists w1. split; [done|]. left.
    by apply negb_true_iff in En. }
  rewrite (run_bind (elapsed (clock w)) _ w4 (clock w4 - clock w)%N w4) in Hw by done.
  destruct (timeout <=? _)%N eqn:Et.
  - apply ret_inv in Hw as [Hw ->]. simplify_eq. exists w1. split; [done|]. right. simp_eqs. lia.
  - apply bind_inv in Hw as (? & ? & _ & Hw). by apply ret_inv in Hw as [Hw _].
Qed.

(** The daemon keeps the container and the task, takes SIGTERM without acting
    on it, and never answers a status query with a running task: because the
    task is paused, or because the query fails ([q] is its answer). *)
Record unseen client id (P : Ext -> Prop) (q : result Status (option Process)) : Prop := mkUnseen {
  un_get : exists c, answers (namespace client) P (GetContainer id) (Ok (Some c)) /\ c_id c = id;
  un_task : answers (namespace client) P (GetTask id "") q;
  un_quiet : match q with
             | Ok (Some p) => task_status_from (p_status p) <> Running
             | _ => True
             end;
  un_kill : answers (namespace client) P (KillTask id "" SIGTERM true) (Ok tt);
  un_sleep : sleeps P
}.

(** Stopping trusts the status query: a task that survives SIGTERM and is
    not reported as running, be it paused or be it that its query fails, is
    left there; [stop_container] returns [Ok] without ever sending SIGKILL. *)
Theorem stop_trusts_status_query client id timeout w P q :
  unseen client id P q -> P (ext w) ->
  exists w' mid, stop_container client id timeout w = (Ok tt, w') /\ P (ext w') /\
    trace w' = trace w ++ Sent (namespace client) (KillTask id "" SIGTERM true) :: mid /\
    Forall no_kill mid.
Proof.
  intros [(c & Hget & Hid) Htask Hq Hkill Hsl] HP.
  assert (Hi : forall w1 : World Meta, P (ext w1) -> P (ext (inspect_container client id w1).2)).
  { intros w1 HP1. destruct (rpc_answers _ _ _ _ w1 Hget HP1) as (w2 & H2 & HP2 & _).
    unfold inspect_container, get_container, get_task_info.
    rewrite (run_try_ok _ _ _ c w2) by by rewrite (run_bind _ _ _ _ _ H2).
    rewrite Hid. destruct (rpc_answers _ _ _ _ w2 Htask HP2) as (w3 & H3 & HP3 & _).
    erewrite run_bind by by rewrite (run_bind _ _ _ _ _ H3). done. }
  pose (R := fun w1 w2 : World Meta => P (ext w1) -> P (ext w2)).
  assert (Reflexive R) by (intros w1; by unfold R).
  assert (Transitive R) by (unfold R; intros ?; eauto).
  assert (Hw : forall t, pres R (wait_for_task_stop client id t)).
  { intros t. apply pres_bind; [done|intros w1; by unfold R|]. intros t0. apply pres_poll; [done|done|exact Hi|].
    intros w1 HP1. destruct (sleep_answers _ (from_millis 100) w1 Hsl HP1) as (w2 & H2 & HP2 & _).
    by rewrite H2. }
  unfold stop_container.
  destruct (rpc_answers _ _ _ _ w Hkill HP) as (w1 & H1 & HP1 & _).
  pose proof (stop_task_trace client id w) as T1.
  assert (H1' : stop_task client id w = (Ok tt, w1))
    by (unfold stop_task; by rewrite (run_bind _ _ _ _ _ H1)).
  rewrite H1' in T1. rewrite (run_bind _ _ _ _ _ H1').
  destruct (wait_for_task_stop client id (sigterm_grace timeout) w1) as [r2 w2] eqn:H2.
  pose proof (Hw (sigterm_grace timeout) w1 HP1) as HP2. rewrite H2 in HP2.
  destruct (wait_stop_no_kill client id (sigterm_grace timeout) w1) as (m1 & T2 & F2).
  rewrite H2 in T2. rewrite (run_bind _ _ _ _ _ H2). cbn [snd] in *.
  destruct (rpc_answers _ _ _ _ w2 Htask HP2) as (w3 & H3 & HP3 & _).
  pose proof (rpc_trace client (GetTask id "") w2) as T3. rewrite H3 in T3. cbn [snd] in T3.
  exists w3, (m1 ++ [Sent (namespace client) (GetTask id "")]). split_and!; [|done| |].
  - rewrite (run_bind _ _ _ false w3); [done|]. unfold is_task_running, get_task_info.
    erewrite run_bind by by rewrite (run_bind _ _ _ _ _ H3).
    destruct q as [[p|]|e]; [|done|done]. cbn [process_info t_status].
    by rewrite bool_decide_eq_false_2.
  - rewrite T3, T2, T1, <-!app_assoc. done.
  - apply Forall_app. by repeat constructor.
Qed.

(** Starting: the task is created only after the container, its mounts
    and its log files are there, started right after, and the start time
    recorded exactly when [Ok] is returned; a start that fails records
    nothing. *)
Theorem start_container_records client id w r w' :
  start_container client id w = (r, w') ->
  match r with
  | Ok t => ti_container_id t = id /\
      task_start_times w' = <[ns_key client id := clock w']> (task_start_times w) /\
      exists sn key req,
        trace w' = trace w ++ (Sent (namespace client) <$>
          [GetContainer id; Mounts sn key; CreateTask req; StartTask id ""]) /\
        ct_container_id req = id
  | Err e => task_start_times w' = task_start_times w
  end.
Proof.
  assert (Hrpc : forall (q : Req) (w1 : World Meta) a w2, rpc client q w1 = (a, w2) ->
    task_start_times w2 = task_start_times w1 /\ trace w2 = trace w1 ++ [Sent (namespace client) q]).
  { intros q w1 a w2 H. unfold rpc in H. destruct (handle _ _ _) as [[? ?] ?]. by simplify_eq. }
  unfold start_container, get_container. intros H.
  apply try_inv in H as [(c & w1 & H1 & H)|(e & H1 & ->)];
    apply bind_inv in H1 as (g & w1' & Hg & [Hc ->]%ret_inv); apply (Hrpc (GetContainer id)) in Hg as [S1 T1]; [|done].
  apply bind_inv in H as (m & w2 & H2 & H). apply (Hrpc (Mounts _ _)) in H2 as [S2 T2].
  apply try_inv in H as [(fs & w3 & [Hm ->]%ret_inv & H)|(e & [_ ->]%ret_inv & ->)];
    [|by rewrite S2].
  apply try_inv in H as [([out err] & w4 & H4 & H)|(e & H4 & ->)];
    unfold on_files, zoom in H4; injection H4 as H4 <-; [|simpl; by rewrite S2].
  apply bind_inv in H as (ct & w5 & H5 & H). apply (Hrpc (CreateTask _)) in H5 as [S5 T5].
  cbn [task_start_times trace set_files] in S5, T5.
  apply try_inv in H as [(pid & w6 & [Hp ->]%ret_inv & H)|(e & [_ ->]%ret_inv & ->)];
    [|by rewrite S5, S2].
  apply bind_inv in H as (st & w7 & H7 & H). apply (Hrpc (StartTask _ _)) in H7 as [S7 T7].
  apply try_inv in H as [(u & w8 & [Hs ->]%ret_inv & H)|(e & [_ ->]%ret_inv & ->)];
    [|by rewrite S7, S5, S2].
  unfold record_task_start, now, modify_st in H. injection H as <- <-.
  cbn [ti_container_id task_start_times trace set_starts clock]. split_and!; [done| |].
  - by rewrite S7, S5, S2, S1.
  - exists (c_snapshotter c), (c_snapshot_key c),
      (build_create_task_request id fs (path_text out) (path_text err)). split; [|reflexivity].
    cbn [trace set_starts]. rewrite T7, T5, T2, T1, <-!app_assoc. reflexivity.
Qed.

End properties.

(** * Witnesses *)
Definition demo_container : Container :=
  mkContainer "c" "img" (Some DEFAULT_RUNTIME) (Some (mkAny OCI_SPEC_TYPE_URL (str_bytes "spec")))
    DEFAULT_SNAPSHOTTER "c-snapshot" ∅.

(** A container with a task in the given state. *)
Definition demo_with_task (status : Z) (stubborn : bool) : Demo :=
  mkDemo {[ ("default", "c") := demo_container ]}
    {[ ("default", "c") := mkProcess "c" 7 status 0 ]}
    {[ (DEFAULT_SNAPSHOTTER, "c-snapshot") :=
         mkSnap (mkSnapInfo "c-snapshot" "sha256:layer" ∅ None) false ]}
    ∅ ∅ 1 stubborn.

Abbreviation DemoWorld := (@World demo_env unit).

(** A task that ignores SIGTERM gets its five seconds, then SIGKILL. *)
Lemma stop_container_signals_witness :
  let run := stop_container demo_client "c" (from_secs 10)
    (demo_world (demo_with_task 2 true) : DemoWorld) in
  List.filter is_kill (trace run.2) =
    [Sent "default" (KillTask "c" "" SIGTERM true); Sent "default" (KillTask "c" "" SIGKILL true)] /\
  (from_secs 5 < clock run.2)%N /\
  exists r1 w1 w2, stop_task demo_client "c" (demo_world (demo_with_task 2 true) : DemoWorld) =
    (r1, w1) /\ exists r2, waited demo_client "c" (from_secs 5) w1 r2 w2.
Proof.
  split; [vm_compute; reflexivity|]. split; [vm_compute; reflexivity|].
  destruct (stop_container_signals demo_client "c" (from_secs 10)
    (demo_world (demo_with_task 2 true) : DemoWorld) _ _ (surjective_pairing _))
    as (_ & _ & r1 & w1 & w2 & w3 & H1 & _ & H2 & _).
  exists r1, w1, w2. split; [exact H1|exact H2].
Defined.

Lemma delete_container_reports_gone_witness :
  exists (w1 w' : DemoWorld) x,
    inspect_container demo_client "c" w1 = (Err (ContainerNotFound x), w').
Proof.
  assert (Hok : (delete_container demo_client "c" (from_secs 10)
    (demo_world (demo_with_task 2 false) : DemoWorld)).1 = Ok tt) by (vm_compute; reflexivity).
  destruct (delete_container_reports_gone demo_client "c" (from_secs 10)
    (demo_world (demo_with_task 2 false) : DemoWorld) _ (run_eq _ _ _ Hok)) as (w1 & x & H).
  eexists w1, _, x. exact H.
Defined.

(** Nothing called [c] in the default namespace. *)
Definition demo_gone (d : @Ext demo_env) : Prop := d = demo_empty.

Lemma demo_is_gone : @gone demo_env demo_client "c" demo_gone (st NotFound).
Proof. constructor; try done; try (intros e ->; vm_compute; done); intros ? ? ->; vm_compute; done. Qed.

Lemma delete_container_idempotent_witness :
  exists w', delete_container demo_client "c" 0 (demo_world demo_empty : DemoWorld) =
    (Ok tt, w') /\ demo_gone (ext w').
Proof.
  destruct (delete_container_idempotent demo_client "c" 0 (demo_world demo_empty : DemoWorld)
    demo_gone (st NotFound) demo_is_gone eq_refl) as (w' & H & HP & _).
  exists w'. split; [exact H|exact HP].
Defined.

Lemma wait_for_exit_spec_witness :
  (wait_for_exit demo_client "c" (from_secs 1)
     (demo_world (demo_with_task 3 false) : DemoWorld)).1 = Ok 0%Z /\
  ((exists w1 x, inspect_container demo_client "c" w1 =
      (x, (wait_for_exit demo_client "c" (from_secs 1)
            (demo_world (demo_with_task 3 false) : DemoWorld)).2) /\
      exit_of "c" x = Some (Ok 0%Z)) \/
   (Ok 0%Z = Err (exit_timeout "c" (from_secs 1)) /\
    (0 + from_secs 1 < clock (wait_for_exit demo_client "c" (from_secs 1)
            (demo_world (demo_with_task 3 false) : DemoWorld)).2)%N)).
Proof.
  assert (H : (wait_for_exit demo_client "c" (from_secs 1)
     (demo_world (demo_with_task 3 false) : DemoWorld)).1 = Ok 0%Z) by (vm_compute; reflexivity).
  split; [exact H|].
  exact (wait_for_exit_spec demo_client "c" (from_secs 1)
    (demo_world (demo_with_task 3 false) : DemoWorld) _ _ (run_eq _ _ _ H)).
Defined.

Lemma retry_delete_task_spec_witness :
  exists w1, delete_task demo_client "c" w1 =
    retry_delete_task demo_client "c" (from_secs 1) (demo_world (demo_with_task 2 false) : DemoWorld).
Proof.
  destruct (retry_delete_task_spec demo_client "c" (from_secs 1)
    (demo_world (demo_with_task 2 false) : DemoWorld) _ _ (surjective_pairing _)) as (w1 & H & _).
  exists w1. rewrite H. symmetry. apply surjective_pairing.
Defined.

Definition demo_paused (d : @Ext demo_env) : Prop := d = demo_with_task 4 true.

Lemma demo_unseen : @unseen demo_env demo_client "c" demo_paused (Ok (Some (mkProcess "c" 7 4 0))).
Proof.
  constructor; [|intros e ->; vm_compute; done|done|intros e ->; vm_compute; done|intros d e ->; done].
  exists demo_container. split; [intros e ->; vm_compute; done|done].
Qed.

Lemma stop_trusts_status_query_witness :
  exists w', stop_container demo_client "c" (from_secs 1)
    (demo_world (demo_with_task 4 true) : DemoWorld) = (Ok tt, w') /\ demo_paused (ext w').
Proof.
  destruct (stop_trusts_status_query demo_client "c" (from_secs 1)
    (demo_world (demo_with_task 4 true) : DemoWorld) demo_paused _ demo_unseen eq_refl)
    as (w' & mid & H & HP & _).
  exists w'. split; [exact H|exact HP].
Defined.

(** A running task whose status query fails: [stop_container] is done with it
    while it runs. *)
Example failed_query_leaves_running_task :
  let w : @World flaky_env unit := @mkWorld flaky_env unit (demo_with_task 2 true) 0
    (quiet fs_empty) [] false ∅ ∅ ∅ 0 [] in
  let '(r, w') := stop_container (E := flaky_env) demo_client "c" (from_secs 10) w in
  r = Ok tt /\ ext w' = demo_with_task 2 true.
Proof. vm_compute. done. Qed.

Lemma start_container_records_witness :
  task_start_times (start_container demo_client "c"
    (demo_world (with_tasks (demo_with_task 2 false) ∅) : DemoWorld)).2 =
  {[ "default/c" := from_millis 4 ]}.
Proof.
  assert (Hok : (start_container demo_client "c"
    (demo_world (with_tasks (demo_with_task 2 false) ∅) : DemoWorld)).1 = Ok (mkTaskId "c" 1))
    by (vm_compute; reflexivity).
  etransitivity.
  - exact (proj1 (proj2 (start_container_records demo_client "c"
      (demo_world (with_tasks (demo_with_task 2 false) ∅) : DemoWorld) _ _ (run_eq _ _ _ Hok)))).
  - vm_compute. reflexivity.
Defined.
