(* ===== verification/Create.v ===== *)
(** * Creating a container ([src/container.rs], lines 399-804; [src/bridge.rs],
    [alloc_bridge_ip], [used_octets], [pick_free_port])

    Image metadata is read through the content service and cached by manifest
    digest; a container gets a snapshot, a bridge address and host ports, its
    hooks, its spec and its labels, and is then registered.  The allocation
    guard only orders concurrent creations, which file Alloc models. *)

From S2P Require Import Prelude RustText RustFmt Errors Effects FileSystem Identifier World DemoDaemon Loops Bridge ContainerSpec Inspect ClientState.

Record ImageMetadata : Type := mkImageMetadata {
  chain_id : string;
  im_config : ImageConfiguration;
  raw_config : bytes
}.

Section create.
Context {E : Env} {L : Libs}.
Abbreviation M := (ST (World ImageMetadata)).

(** ** Image metadata *)
Definition read_content (digest namespace : string) : M (Result bytes) :=
  r ← rpc (mkClient namespace) (ReadContent digest 0 0);
  mret (match r with
        | Err e => Err (into_crate_error e "read_content")
        | Ok (chunks, None) => Ok (concat chunks)
        | Ok (_, Some e) => Err (into_crate_error e "read_content_chunk")
        end).

Definition inv {A} (msg : string) : Result A := Err (InvalidArgument msg).

(** [serde_json::from_slice(..).map_err(|e| InvalidArgument(format!("{what}: {e}")))]. *)
Definition parse_json (what : string) (b : bytes) : Result Json :=
  map_err (fun e => InvalidArgument (what +:+ ": " +:+ e)) (json_from_slice b).

(** The sub-manifest for our architecture. *)
Definition arch_of (m : Json) : option string :=
  p ← jget "platform" m; a ← jget "architecture" p; jas_str a.

Definition find_sub_manifest (manifests : Json) : Result string :=
  let? l := ok_or (InvalidArgument "invalid manifests array") (jas_array manifests) in
  ok_or (InvalidArgument ("no manifest found for architecture " +:+ oci_arch))
    (m ← List.find (fun m => bool_decide (arch_of m = Some oci_arch)) l;
     d ← jget "digest" m; jas_str d).

Definition config_digest_of (namespace : string) (manifest : Json) : M (Result string) :=
  match jget "config" manifest with
  | Some c => mret (ok_or (InvalidArgument "manifest missing config digest")
                     (d ← jget "digest" c; jas_str d))
  | None =>
      match jget "manifests" manifest with
      | Some manifests =>
          sub_manifest_digest ←? lift_res (find_sub_manifest manifests);
          sub_manifest_data ←? read_content sub_manifest_digest namespace;
          sub_manifest ←? lift_res (parse_json "parse sub-manifest" sub_manifest_data);
          mret (ok_or (InvalidArgument "sub-manifest missing config digest")
                 (c ← jget "config" sub_manifest; d ← jget "digest" c; jas_str d))
      | None => mret (inv "manifest has neither config nor manifests")
      end
  end.

Definition fetch_image_metadata (manifest_digest namespace : string) :
    M (Result ImageMetadata) :=
  manifest_data ←? read_content manifest_digest namespace;
  manifest ←? lift_res (parse_json "parse manifest" manifest_data);
  config_digest ←? config_digest_of namespace manifest;
  config_data ←? read_content config_digest namespace;
  config ←? lift_res (map_err (fun e => InvalidArgument ("parse image config: " +:+ e))
                        (image_config_from_slice config_data));
  mret (if decide (diff_ids config = []) then inv "image config has no diff_ids"
        else Ok (mkImageMetadata (compute_chain_id (diff_ids config)) config config_data)).

Definition get_image_metadata (client : Client) (manifest_digest namespace : string) :
    M (Result ImageMetadata) :=
  c ← lookup_image_metadata manifest_digest;
  match c with
  | Some cached => mret (Ok cached)
  | None =>
      metadata ←? fetch_image_metadata manifest_digest namespace;
      _ ← store_image_metadata manifest_digest metadata;
      mret (Ok metadata)
  end.

(** The image's target digest; [no_target] is the error of each caller. *)
Definition image_target (client : Client) (image : string) (no_target : Error) :
    M (Result string) :=
  r ← rpc client (GetImage image);
  mret (match r with
        | Err e => Err (map_image_status "get_image" image e)
        | Ok None => Err (ImageNotFound image)
        | Ok (Some i) => ok_or no_target (i_target i)
        end).

Definition get_raw_image_config (client : Client) (image : string) : M (Result bytes) :=
  manifest_digest ←? image_target client image
    (ImageNotFound (image +:+ ": no target descriptor"));
  metadata ←? get_image_metadata client manifest_digest (namespace client);
  mret (Ok (raw_config metadata)).

(** ** Addresses and ports *)
Definition octets_of (containers : list Container) : gset N :=
  list_to_set (omap (fun c => c_labels c !! BRIDGE_IP_LABEL ≫= parse_octet) containers).

Definition used_octets (client : Client) : M (Result (gset N)) :=
  r ← rpc client (ListContainers []);
  mret (match r with
        | Err e => Err (into_crate_error e "list_containers")
        | Ok containers => Ok (octets_of containers)
        end).

Definition alloc_bridge_ip (client : Client) : M (Result string) :=
  used ←? used_octets client;
  octet ←? outside (pick_free_octet choose used);
  mret (Ok (bridge_ip octet)).

Definition pick_free_port : M (Result N) :=
  r ← outside bind_ephemeral;
  mret (match r with
        | Ok port => Ok port
        | Err (EBind e) =>
            Err (ResourceExhausted ("could not bind ephemeral host port: " +:+ e))
        | Err (ELocalAddr e) =>
            Err (ResourceExhausted ("could not read ephemeral port local_addr: " +:+ e))
        end).

(** The [(container_port, host_port)]s; collecting stops at the first error. *)
Fixpoint pick_ports (container_ports : list N) : M (Result (list (N * N))) :=
  match container_ports with
  | [] => mret (Ok [])
  | cp :: cps =>
      hp ←? pick_free_port;
      rest ←? pick_ports cps;
      mret (Ok ((cp, hp) :: rest))
  end.

(** ** [create_container] *)

(** The address and ports of a bridge container. *)
Definition bridge_config_for (client : Client) (opts : CreateContainerOpts) :
    M (Result (option (string * list (N * N)))) :=
  if decide (network_mode opts = Bridge) then
    container_ip ←? alloc_bridge_ip client;
    let container_ports :=
      match port_bindings opts with [] => [27017%N] | l => snd <$> l end in
    ports ←? pick_ports container_ports;
    mret (Ok (Some (container_ip, ports)))
  else mret (Ok None).

Definition swap_pair (p : N * N) : N * N := (p.2, p.1).

Definition host_container_pairs (opts : CreateContainerOpts)
    (bridge_config : option (string * list (N * N))) : list (N * N) :=
  match bridge_config with Some (_, ports) => swap_pair <$> ports | None => port_bindings opts end.

(** The hooks of the container. *)
Definition create_hooks (client : Client) (container_id : string)
    (bridge_config : option (string * list (N * N))) (pairs : list (N * N)) :
    Result (option Hooks) :=
  match bridge_config with
  | Some (ip, ports) =>
      let? h := build_bridge_hooks container_id ip (namespace client) ports pairs in Ok (Some h)
  | None => Ok None
  end.

Definition create_labels (client : Client) (name : string) (image_config : ImageConfiguration)
    (opts : CreateContainerOpts) (bridge_config : option (string * list (N * N)))
    (pairs : list (N * N)) : labels_map :=
  let labels := build_labels image_config opts in
  let labels := <[NETWORK_MODE_LABEL := label_value (network_mode opts)]> labels in
  let labels := match bridge_config with
                | Some (ip, _) => <[BRIDGE_IP_LABEL := ip]> labels | None => labels end in
  let labels := emit_port_labels pairs labels in
  let labels := <[NAME_LABEL := name]> labels in
  let labels := <["nerdctl/name" := name]> labels in
  <["nerdctl/namespace" := namespace client]> labels.

(** The record sent to containerd. *)
Definition build_container (client : Client) (container_id name image : string)
    (metadata : ImageMetadata) (opts : CreateContainerOpts) (snapshot_key : string)
    (bridge_config : option (string * list (N * N))) : Result Container :=
  let pairs := host_container_pairs opts bridge_config in
  let? hooks := create_hooks client container_id bridge_config pairs in
  let? oci_spec := build_oci_spec (im_config metadata) opts hooks in
  let? spec_any := spec_to_any oci_spec in
  Ok (mkContainer container_id image (Some DEFAULT_RUNTIME) (Some spec_any) DEFAULT_SNAPSHOTTER
        snapshot_key
        (create_labels client name (im_config metadata) opts bridge_config pairs)).

(** Adopt a prepared snapshot or prepare one: the key and whether it is ours. *)
Definition prepare_for (client : Client) (container_id name : string)
    (metadata : ImageMetadata) (opts : CreateContainerOpts) : M (Result (string * bool)) :=
  match from_existing_snapshot opts with
  | Some key => mret (Ok (key, false))
  | None =>
      let key := snapshot_key_for container_id in
      r ← rpc client (Prepare DEFAULT_SNAPSHOTTER key (chain_id metadata) ∅);
      mret (match r with
            | Ok _ => Ok (key, true)
            | Err e => Err (if decide (code e = AlreadyExists) then ContainerAlreadyExists name
                            else into_crate_error e "prepare_snapshot")
            end)
  end.

(** Register the record; roll our snapshot back when that fails. *)
Definition register (client : Client) (name : string) (container : Container)
    (we_prepared : bool) : M (Result unit) :=
  r ← rpc client (CreateContainer (Some container));
  match r with
  | Ok _ => mret (Ok tt)
  | Err e =>
      let err := if decide (code e = AlreadyExists) then ContainerAlreadyExists name
                 else into_crate_error e "create_container" in
      if we_prepared then
        _ ← rpc client (RemoveSnapshot DEFAULT_SNAPSHOTTER (c_snapshot_key container));
        mret (Err err)
      else mret (Err err)
  end.

Definition create_container_with_id (client : Client) (container_id : ContainerId)
    (name image : string) (opts : CreateContainerOpts) : M (Result ContainerId) :=
  lift_res (validate_identifier name) ;;?
  x ← rpc client (ListContainers [filter_for NAME_LABEL name]);
  existing ←? mret (map_err (fun e => into_crate_error e "list_containers_for_name_check") x);
  if decide (existing <> []) then mret (Err (ContainerAlreadyExists name))
  else
    manifest_digest ←? image_target client image (InvalidArgument "image has no target");
    image_metadata ←? get_image_metadata client manifest_digest (namespace client);
    '(snapshot_key, we_prepared) ←?
      prepare_for client (as_str container_id) name image_metadata opts;
    bridge_config ←? bridge_config_for client opts;
    container ←? lift_res (build_container client (as_str container_id) name image image_metadata
                   opts snapshot_key bridge_config);
    register client name container we_prepared ;;?
    mret (Ok container_id).

Definition create_container (client : Client) (name image : string)
    (opts : CreateContainerOpts) : M (Result ContainerId) :=
  lift_res (validate_identifier name) ;;?
  uuid ← outside fresh_uuid;
  create_container_with_id client (generate uuid) name image opts.

End create.

(** * Lemmas *)
Section lemmas.
Context {E : Env} {L : Libs}.
Abbreviation W := (World ImageMetadata).
Abbreviation M := (ST W).
Implicit Types (w : W) (client : Client).

Lemma bind_ok {X Y} (r : result Error X) (k : X -> result Error Y) b :
  try_bind r k = Ok b -> exists a, r = Ok a /\ k a = Ok b.
Proof. destruct r; simpl; [eauto|done]. Qed.

(** ** The record *)
Lemma build_container_inv client id name image md opts key bc c :
  build_container client id name image md opts key bc = Ok c ->
  c_id c = id /\ c_image c = image /\ c_snapshot_key c = key /\
  c_snapshotter c = DEFAULT_SNAPSHOTTER /\
  c_labels c = create_labels client name (im_config md) opts bc (host_container_pairs opts bc) /\
  exists hooks spec b, build_oci_spec (im_config md) opts hooks = Ok spec /\
    spec_to_vec spec = Ok b /\ c_spec c = Some (mkAny OCI_SPEC_TYPE_URL b).
Proof.
  unfold build_container. cbv zeta.
  intros (hooks & _ & H)%bind_ok. apply bind_ok in H as (spec & Hs & H).
  apply bind_ok in H as (any & Ha & [= <-]). cbn. split_and!; [done..|].
  exists hooks, spec. unfold spec_to_any in Ha. apply bind_ok in Ha as (b & Hb & [= <-]).
  exists b. split_and!; [done| |done]. destruct (spec_to_vec spec); [|done]. by injection Hb as ->.
Qed.

Lemma create_labels_name client name ic opts bc pairs :
  create_labels client name ic opts bc pairs !! NAME_LABEL = Some name.
Proof.
  unfold create_labels. cbv zeta. rewrite !lookup_insert_ne by done. apply lookup_insert_eq.
Qed.

Lemma create_labels_ip client name ic opts ip ports pairs :
  create_labels client name ic opts (Some (ip, ports)) pairs !! BRIDGE_IP_LABEL = Some ip.
Proof.
  unfold create_labels. cbv zeta. rewrite !lookup_insert_ne by done.
  rewrite emit_lookup_other by done. apply lookup_insert_eq.
Qed.

Lemma create_labels_mode client name ic opts bc pairs :
  create_labels client name ic opts bc pairs !! NETWORK_MODE_LABEL =
    Some (label_value (network_mode opts)).
Proof.
  unfold create_labels. cbv zeta. rewrite !lookup_insert_ne by done.
  rewrite emit_lookup_other by done.
  destruct bc as [[ip ports]|]; [rewrite lookup_insert_ne by done|]; apply lookup_insert_eq.
Qed.

Lemma create_labels_ports client name ic opts bc pairs :
  Forall (fun p => (p.1 <= U16_MAX)%N /\ (p.2 <= U16_MAX)%N) pairs -> NoDup (snd <$> pairs) ->
  (forall k v, build_labels ic opts !! k = Some v ->
     starts_with PORT_BINDING_LABEL_PREFIX k = false) ->
  parse_port_binding_labels (create_labels client name ic opts bc pairs) ≡ₚ pairs.
Proof.
  intros Hr Hn Hb. unfold create_labels. cbv zeta. rewrite !parse_insert_other by done.
  set (base := match bc with Some _ => _ | None => _ end).
  assert (Hbase : forall k v, base !! k = Some v -> starts_with PORT_BINDING_LABEL_PREFIX k = false).
  { intros k v. unfold base. destruct bc as [[ip ports]|].
    - intros [[<- _]|[_ [[<- _]|[_ H]]%lookup_insert_Some]]%lookup_insert_Some; [done..|eauto].
    - intros [[<- _]|[_ H]]%lookup_insert_Some; [done|eauto]. }
  rewrite parse_emit, (parse_none base Hbase), app_nil_r; [done|done|done|].
  intros p _. destruct (base !! port_label p.2) as [v|] eqn:Ev; [|done].
  apply Hbase in Ev. by rewrite port_label_prefixed in Ev.
Qed.

(** ** Reading a record back *)

(** What is relied on of the libraries: the process is built as given, the
    mounts too where some are given, and a written spec reads back. *)
Record lawful_libs : Prop := {
  builds_process : forall p p' : OciProcess, oci_build p = Ok p' -> p' = p;
  builds_spec : forall s s' : OciSpec, oci_build s = Ok s' ->
    sp_process s' = sp_process s /\ (sp_mounts s <> None -> sp_mounts s' = sp_mounts s);
  reads_back : forall s b, spec_to_vec s = Ok b -> spec_from_slice b = Some s
}.

Lemma map_err_ok {E1 E2 X} (f : E1 -> E2) (r : result E1 X) x : map_err f r = Ok x -> r = Ok x.
Proof. destruct r; [by intros [= ->]|done]. Qed.

Lemma build_oci_spec_reads ic opts hooks spec :
  lawful_libs -> keys_ok (env opts) -> build_oci_spec ic opts hooks = Ok spec ->
  (match sp_process spec ≫= pr_env with Some e => parse_env_vars e | None => ∅ end) =
    merged_env_map ic opts /\
  (mounts opts <> [] ->
     extract_mounts spec = (fun m => (source m, destination m)) <$> mounts opts).
Proof.
  intros HL Hk. unfold build_oci_spec. cbv zeta.
  intros (caps & _ & H)%bind_ok. apply bind_ok in H as (? & _ & H).
  apply bind_ok in H as (pr & Hp%map_err_ok%(builds_process HL) & H).
  apply bind_ok in H as (? & _ & H). apply bind_ok in H as (? & _ & H).
  apply map_err_ok, (builds_spec HL) in H as [Hpr Hm]. cbn in Hpr, Hm. split.
  - rewrite Hpr, Hp. cbn. unfold parse_env_vars, build_merged_env.
    by apply parse_rendered_env, merged_env_keys.
  - intros Hne. unfold extract_mounts, build_mounts in *.
    destruct (mounts opts) as [|m ms]; [done|]. rewrite Hm by done.
    cbn. f_equal. rewrite <-list_fmap_compose. done.
Qed.

Lemma container_reads_back client id name image md opts key bc c task cid :
  lawful_libs -> keys_ok (env opts) -> from_existing id = Ok cid ->
  build_container client id name image md opts key bc = Ok c ->
  exists info, container_to_info c task = Ok info /\
    ci_id info = cid /\ ci_name info = name /\ ci_image info = image /\
    ci_task info = task /\ ci_labels info = c_labels c /\
    ci_env info = merged_env_map (im_config md) opts /\
    (mounts opts <> [] ->
       ci_mounts info = (fun m => (source m, destination m)) <$> mounts opts) /\
    ci_port_forwards info = parse_port_binding_labels (c_labels c).
Proof.
  intros HL Hk Hid (Ei & Eg & _ & _ & El & hooks & spec & b & Hs & Hb & Es)%build_container_inv.
  apply (build_oci_spec_reads _ _ _ _ HL Hk) in Hs as [Hev Hmt].
  unfold container_to_info. cbv zeta. rewrite Es. cbn [value].
  rewrite (reads_back HL _ _ Hb), Ei, Hid. cbn [try_bind].
  eexists. split; [done|]. cbn. split_and!; try done.
  by rewrite El, create_labels_name.
Qed.

(** ** What is sent *)
(** Neither a registration nor the removal of a snapshot. *)
Definition no_write (ev : Event) : Prop :=
  match ev with Sent _ (CreateContainer _) | Sent _ (RemoveSnapshot _ _) => False | _ => True end.

(** What reading and preparing send. *)
Ltac send := idtac; match goal with |- pres (emits no_write) (rpc ?c ?r) =>
  exact (emits_rpc no_write c r I) end.
Ltac quiet_walk := walk ltac:(first [send | by intros ?; apply emits_same]).

Lemma quiet_read_content d ns : pres (emits no_write) (read_content d ns).
Proof. unfold read_content. quiet_walk. Qed.

Lemma quiet_metadata client d ns : pres (emits no_write) (get_image_metadata client d ns).
Proof.
  unfold get_image_metadata, fetch_image_metadata, config_digest_of, lift_res.
  pose proof quiet_read_content. quiet_walk.
Qed.

Lemma quiet_target client image e : pres (emits no_write) (image_target client image e).
Proof. unfold image_target. quiet_walk. Qed.

Lemma quiet_prepare client id name md opts :
  pres (emits no_write) (prepare_for client id name md opts).
Proof. unfold prepare_for. cbv zeta. quiet_walk. Qed.

Lemma quiet_pick_ports cps : pres (emits no_write) (pick_ports cps).
Proof.
  induction cps as [|cp cps IH]; cbn [pick_ports]; [by apply pres_ret, _|].
  unfold pick_free_port. quiet_walk.
Qed.

Lemma quiet_bridge client opts : pres (emits no_write) (bridge_config_for client opts).
Proof.
  unfold bridge_config_for, alloc_bridge_ip, used_octets. pose proof quiet_pick_ports. quiet_walk.
Qed.

(** ** The steps of a creation *)
Lemma prepare_key client id name md opts w key ours w' :
  prepare_for client id name md opts w = (Ok (key, ours), w') ->
  key = default (snapshot_key_for id) (from_existing_snapshot opts) /\
  ours = match from_existing_snapshot opts with None => true | Some _ => false end.
Proof.
  unfold prepare_for. destruct (from_existing_snapshot opts) as [k|].
  - intros [[= <- <-] _]%ret_inv. done.
  - intros (r & w1 & _ & H)%bind_inv. apply ret_inv in H as [H _].
    destruct r; [by simplify_eq|done].
Qed.

(** Everything before the registration. *)
Definition create_steps (client : Client) (id name image : string) (opts : CreateContainerOpts) :
    M (Result (Container * bool)) :=
  lift_res (validate_identifier name) ;;?
  x ← rpc client (ListContainers [filter_for NAME_LABEL name]);
  existing ←? mret (map_err (fun e => into_crate_error e "list_containers_for_name_check") x);
  if decide (existing <> []) then mret (Err (ContainerAlreadyExists name))
  else
    manifest_digest ←? image_target client image (InvalidArgument "image has no target");
    image_metadata ←? get_image_metadata client manifest_digest (namespace client);
    '(snapshot_key, we_prepared) ←? prepare_for client id name image_metadata opts;
    bridge_config ←? bridge_config_for client opts;
    container ←? lift_res (build_container client id name image image_metadata
                   opts snapshot_key bridge_config);
    mret (Ok (container, we_prepared)).

(** What it reads on the way: the metadata of the image's manifest, and the
    address and ports allocated for a bridge container. *)
Definition creation_reads (client : Client) (id name image : string) (opts : CreateContainerOpts) :
    M (Result (ImageMetadata * option (string * list (N * N)))) :=
  lift_res (validate_identifier name) ;;?
  x ← rpc client (ListContainers [filter_for NAME_LABEL name]);
  existing ←? mret (map_err (fun e => into_crate_error e "list_containers_for_name_check") x);
  if decide (existing <> []) then mret (Err (ContainerAlreadyExists name))
  else
    manifest_digest ←? image_target client image (InvalidArgument "image has no target");
    image_metadata ←? get_image_metadata client manifest_digest (namespace client);
    prepare_for client id name image_metadata opts ;;?
    bridge_config ←? bridge_config_for client opts;
    mret (Ok (image_metadata, bridge_config)).

Lemma create_split client id name image opts w :
  create_container_with_id client id name image opts w =
    ('(c, ours) ←? create_steps client (as_str id) name image opts;
     register client name c ours ;;? mret (Ok id)) w.
Proof.
  unfold create_container_with_id, create_steps. same_steps. destruct a4. by same_steps.
Qed.

Lemma quiet_steps client id name image opts :
  pres (emits no_write) (create_steps client id name image opts).
Proof.
  unfold create_steps, lift_res.
  pose proof quiet_target. pose proof quiet_metadata. pose proof quiet_bridge.
  pose proof quiet_prepare.
  pres_step; [by pres_step|].
  pres_step; [exact (emits_rpc no_write client (ListContainers _) I)|].
  pres_step; [by pres_step|]. repeat pres_step; auto.
Qed.

(** The requests of a registration. *)
Definition rollback (client : Client) (c : Container) (ours : bool) : list Event :=
  if ours then [Sent (namespace client) (RemoveSnapshot DEFAULT_SNAPSHOTTER (c_snapshot_key c))]
  else [].

Lemma register_trace client name c ours w :
  trace (register client name c ours w).2 =
    trace w ++ Sent (namespace client) (CreateContainer (Some c)) ::
    match (register client name c ours w).1 with
    | Ok _ => [] | Err _ => rollback client c ours
    end.
Proof.
  unfold register, mbind, ST_bind. cbn [fst snd].
  pose proof (rpc_trace client (CreateContainer (Some c)) w) as T.
  destruct (rpc client (CreateContainer (Some c)) w) as [[v|e] w1]; cbn [fst snd] in *; [done|].
  destruct ours; [|done]. cbn [fst snd mret ST_ret rollback].
  rewrite rpc_trace, T, <-app_assoc. done.
Qed.

Lemma steps_inv client id name image opts w c ours w' :
  create_steps client id name image opts w = (Ok (c, ours), w') ->
  validate_identifier name = Ok tt /\
  ours = match from_existing_snapshot opts with None => true | Some _ => false end /\
  exists md bc wa wb,
    build_container client id name image md opts
      (default (snapshot_key_for id) (from_existing_snapshot opts)) bc = Ok c /\
    bridge_config_for client opts wa = (Ok bc, wb) /\
    (creation_reads client id name image opts w).1 = Ok (md, bc).
Proof.
  unfold create_steps, creation_reads, lift_res. intros (u & w1 & R1 & H)%try_ok_inv.
  pose proof R1 as [Hv _]%ret_inv. apply bind_inv in H as (x & w2 & R2 & H).
  apply try_ok_inv in H as (ex & w3 & R3 & H).
  rewrite (run_try_ok _ _ _ _ _ R1), (run_bind _ _ _ _ _ R2), (run_try_ok _ _ _ _ _ R3).
  destruct (decide _); [by apply ret_inv in H as [? _]|].
  apply try_ok_inv in H as (d & w4 & R4 & H). apply try_ok_inv in H as (md & w5 & R5 & H).
  apply try_ok_inv in H as ([k o] & w6 & R6 & H). apply try_ok_inv in H as (bc & w7 & R7 & H).
  rewrite (run_try_ok _ _ _ _ _ R4), (run_try_ok _ _ _ _ _ R5), (run_try_ok _ _ _ _ _ R6),
    (run_try_ok _ _ _ _ _ R7).
  apply prepare_key in R6 as [-> ->].
  apply try_ok_inv in H as (c' & w8 & [Hc _]%ret_inv & [H _]%ret_inv). simplify_eq.
  destruct u. split_and!; [done|done|]. by exists md, bc, w6, w7.
Qed.

Lemma bridge_config_mode client opts w bc w' :
  bridge_config_for client opts w = (Ok bc, w') -> is_Some bc <-> network_mode opts = Bridge.
Proof.
  unfold bridge_config_for. destruct (decide (network_mode opts = Bridge)) as [E1|E1].
  - intros (ip & w1 & _ & H)%try_ok_inv. apply try_ok_inv in H as (ps & w2 & _ & [H _]%ret_inv).
    simplify_eq. split; eauto.
  - intros [H _]%ret_inv. simplify_eq. split; [by intros [? ?]|done].
Qed.

(** A successful creation, taken apart. *)
Lemma create_ok_inv client id name image opts w r w' :
  create_container_with_id client id name image opts w = (Ok r, w') ->
  r = id /\ validate_identifier name = Ok tt /\
  exists c pre md bc,
    trace w' = trace w ++ pre ++ [Sent (namespace client) (CreateContainer (Some c))] /\
    Forall no_write pre /\
    build_container client (as_str id) name image md opts
      (default (snapshot_key_for (as_str id)) (from_existing_snapshot opts)) bc = Ok c /\
    (is_Some bc <-> network_mode opts = Bridge) /\
    (creation_reads client (as_str id) name image opts w).1 = Ok (md, bc).
Proof.
  rewrite create_split. intros ([c ours] & w1 & H1 & H)%try_ok_inv.
  apply try_ok_inv in H as (u & w2 & H2 & [H ->]%ret_inv). simplify_eq. split; [done|].
  pose proof (quiet_steps client (as_str r) name image opts w) as (pre & Tp & Fp).
  rewrite H1 in Tp. cbn [snd] in Tp.
  apply steps_inv in H1 as (Hv & _ & md & bc & wa & wb & Hc & Hbc & Hr). split; [done|].
  exists c, pre, md, bc. split_and!; [|done|done|by eapply bridge_config_mode|done].
  pose proof (register_trace client name c ours w1) as T. rewrite H2 in T. cbn [fst snd] in T.
  by rewrite T, Tp, <-app_assoc.
Qed.

End lemmas.

(** * Properties *)

(** C7. A creation that succeeds registered exactly one container, as its very
    last request: under the given identifier and image, on the snapshot that
    was prepared or adopted, with the name, the network mode and (for a
    bridge container) an address in its labels; and the name is a valid
    identifier. *)
Theorem create_container_registers {E : Env} {L : Libs} client id name image opts
    (w : World ImageMetadata) r w' :
  create_container_with_id client id name image opts w = (Ok r, w') ->
  r = id /\ validate_identifier name = Ok tt /\
  exists pre c,
    trace w' = trace w ++ pre ++ [Sent (namespace client) (CreateContainer (Some c))] /\
    Forall no_write pre /\
    c_id c = as_str id /\ c_image c = image /\
    c_snapshot_key c = default (snapshot_key_for (as_str id)) (from_existing_snapshot opts) /\
    c_labels c !! NAME_LABEL = Some name /\
    c_labels c !! NETWORK_MODE_LABEL = Some (label_value (network_mode opts)) /\
    (network_mode opts = Bridge -> is_Some (c_labels c !! BRIDGE_IP_LABEL)).
Proof.
  intros (Hr & Hv & c & pre & md & bc & T & Fp & Hc & Hbc & _)%create_ok_inv. split_and!; [done..|].
  apply build_container_inv in Hc as (? & ? & ? & _ & Hl & _).
  exists pre, c. split_and!; [done..| | |].
  - rewrite Hl. apply create_labels_name.
  - rewrite Hl. apply create_labels_mode.
  - destruct bc as [[ip ports]|]; [intros _; rewrite Hl, create_labels_ip; eauto|].
    intros Hm. apply Hbc in Hm as [? ?]. done.
Qed.

(** C9. What a creation that fails leaves behind: if it got as far as
    registering the record, the snapshot it prepared is removed again, and an
    adopted one is kept; if it failed before, it removes nothing -- not even a
    snapshot it had prepared. *)
Theorem create_failure_effects {E : Env} {L : Libs} client id name image opts
    (w : World ImageMetadata) e w' :
  create_container_with_id client id name image opts w = (Err e, w') ->
  exists pre, Forall no_write pre /\
    (trace w' = trace w ++ pre \/
     exists c, trace w' = trace w ++ pre ++
       Sent (namespace client) (CreateContainer (Some c)) ::
       match from_existing_snapshot opts with
       | None => [Sent (namespace client)
                    (RemoveSnapshot DEFAULT_SNAPSHOTTER (snapshot_key_for (as_str id)))]
       | Some _ => []
       end).
Proof.
  rewrite create_split. pose proof (quiet_steps client (as_str id) name image opts w) as Q.
  destruct Q as (pre & Tp & Fp). intros [([c ours] & w1 & H1 & H)|(e' & H1 & _)]%try_inv.
  - exists pre. split; [done|]. right. exists c. rewrite H1 in Tp. cbn [snd] in Tp.
    apply steps_inv in H1 as (_ & -> & md & bc & wa & wb & Hc & _).
    apply build_container_inv in Hc as (_ & _ & Hk & _).
    apply try_inv in H as [(u & w2 & _ & [? _]%ret_inv)|(e2 & H & _)]; [done|].
    pose proof (register_trace client name c
      (match from_existing_snapshot opts with None => true | Some _ => false end) w1) as T.
    rewrite H in T. cbn [fst snd] in T. rewrite T, Tp, <-app_assoc. f_equal. f_equal. f_equal.
    unfold rollback. rewrite Hk. by destruct (from_existing_snapshot opts).
  - exists pre. split; [done|]. left. by rewrite H1 in Tp.
Qed.

(** C25. What [create_container] writes, [inspect_container] reports.  Let [md] be
    the metadata of the image and [bc] the address and ports of the bridge
    allocation that the creation read.  Once the daemon hands the record back,
    the container has its name and image, the variables of that image
    overridden by the caller's (whose keys hold no '='), the caller's mounts,
    the allocated address in its labels, and -- for distinct 16-bit container
    ports and no port labels of the image or the user -- the very bindings that
    were allocated, or asked for outside bridge mode.  (The libraries read back
    what they wrote.) *)
Theorem inspect_reports_created {E : Env} {L : Libs} client id name image opts
    (w : World ImageMetadata) r w' :
  lawful_libs -> keys_ok (env opts) -> from_existing (as_str id) = Ok id ->
  create_container_with_id client id name image opts w = (Ok r, w') ->
  exists c md bc,
    last (trace w') = Some (Sent (namespace client) (CreateContainer (Some c))) /\
    (creation_reads client (as_str id) name image opts w).1 = Ok (md, bc) /\
    (is_Some bc <-> network_mode opts = Bridge) /\
    forall w1 w2 : World ImageMetadata, rpc client (GetContainer (as_str id)) w1 = (Ok (Some c), w2) ->
    let pairs := match bc with
                 | Some (_, ports) => (fun p => (p.2, p.1)) <$> ports
                 | None => port_bindings opts
                 end in
    exists info, (inspect_container client (as_str id) w1).1 = Ok info /\
      ci_id info = id /\ ci_name info = name /\ ci_image info = image /\
      ci_env info = merged_env_map (im_config md) opts /\
      (mounts opts <> [] ->
         ci_mounts info = (fun m => (source m, destination m)) <$> mounts opts) /\
      (forall ip ports, bc = Some (ip, ports) -> ci_labels info !! BRIDGE_IP_LABEL = Some ip) /\
      (Forall (fun p => (p.1 <= U16_MAX)%N /\ (p.2 <= U16_MAX)%N) pairs ->
       NoDup (snd <$> pairs) ->
       (forall k v, build_labels (im_config md) opts !! k = Some v ->
          starts_with PORT_BINDING_LABEL_PREFIX k = false) ->
       ci_port_forwards info ≡ₚ pairs).
Proof.
  intros HL Hk Hid (-> & _ & c & pre & md & bc & T & _ & Hc & Hbc & Hr)%create_ok_inv.
  exists c, md, bc. split_and!; [by rewrite T, app_assoc, last_snoc|done|apply Hbc..|].
  intros w1 w2 Hget pairs. unfold inspect_container, get_container.
  rewrite (run_try_ok _ _ w1 c w2) by (rewrite (run_bind _ _ _ _ _ Hget); done).
  unfold mbind, ST_bind. cbn [fst mret ST_ret].
  destruct (container_reads_back client (as_str id) name image md opts _ bc c
    (get_task_info client (c_id c) w2).1 id HL Hk Hid Hc)
    as (info & -> & ? & ? & ? & _ & Hl & ? & ? & Hp).
  apply build_container_inv in Hc as (_ & _ & _ & _ & Hcl & _).
  exists info. split_and!; [done..| |].
  - intros ip ports ->. rewrite Hl, Hcl. apply create_labels_ip.
  - intros Hpr Hnd Hb. rewrite Hp, Hcl. by apply create_labels_ports.
Qed.

(** ** Witnesses *)

(** A daemon with one image, its manifest, its configuration and its layer. *)
Definition demo_pulled : Demo :=
  mkDemo ∅ ∅
    {[ (DEFAULT_SNAPSHOTTER, "sha256:layer") :=
         mkSnap (mkSnapInfo "sha256:layer" "" ∅ None) true ]}
    {[ "mongo" := mkImage "mongo" (Some "mdig") ]}
    {[ "mdig" := str_bytes "manifest"; "cfg" := str_bytes "config" ]} 1 false.

Abbreviation CreateWorld := (@World demo_env ImageMetadata).

Definition demo_cid : ContainerId := mkContainerId demo_id.

Lemma create_container_registers_witness :
  exists pre c, trace (create_container_with_id demo_client demo_cid "db" "mongo" demo_host_opts
      (demo_world demo_pulled : CreateWorld)).2 =
    pre ++ [Sent "default" (CreateContainer (Some c))] /\ c_id c = demo_id.
Proof.
  assert (Hok : (create_container_with_id demo_client demo_cid "db" "mongo" demo_host_opts
    (demo_world demo_pulled : CreateWorld)).1 = Ok demo_cid) by (vm_compute; reflexivity).
  destruct (create_container_registers demo_client demo_cid "db" "mongo" demo_host_opts
    (demo_world demo_pulled : CreateWorld) _ _ (run_eq _ _ _ Hok))
    as (_ & _ & pre & c & T & _ & Hc & _).
  exists pre, c. split; [exact T|exact Hc].
Defined.

(** No ephemeral port is to be had. *)
Definition no_ports_env : Env := {|
  Ext := Demo;
  handle := @handle demo_env;
  overshoot := @overshoot demo_env;
  fresh_uuid := @fresh_uuid demo_env;
  choose := @choose demo_env;
  bind_ephemeral := fun d => (Err (EBind "EADDRINUSE"), d);
  bind_port := @bind_port demo_env;
  tcp_connect := @tcp_connect demo_env;
  home_dir := @home_dir demo_env;
  metadata_ok := @metadata_ok demo_env;
  process_id := @process_id demo_env;
  path_text := @path_text demo_env
|}.

Definition no_ports_world : @World no_ports_env ImageMetadata :=
  mkWorld (demo_pulled : @Ext no_ports_env) 0 (quiet fs_empty) [] false ∅ ∅ ∅ 0 [].

(** The leak: the bridge container's snapshot was prepared, no port could be
    bound, and the snapshot is still there. *)
Lemma create_failure_effects_witness :
  (exists pre, Forall no_write pre /\
    trace (create_container_with_id demo_client demo_cid "db" "mongo" demo_bridge_opts
      no_ports_world).2 = pre) /\
  is_Some (d_snaps (ext (create_container_with_id demo_client demo_cid "db" "mongo"
      demo_bridge_opts no_ports_world).2 : Demo)
    !! (DEFAULT_SNAPSHOTTER, snapshot_key_for demo_id)).
Proof.
  assert (He : (create_container_with_id demo_client demo_cid "db" "mongo" demo_bridge_opts
    no_ports_world).1 = Err (ResourceExhausted "could not bind ephemeral host port: EADDRINUSE"))
    by (vm_compute; reflexivity).
  split; [|vm_compute; eauto].
  destruct (create_failure_effects demo_client demo_cid "db" "mongo" demo_bridge_opts
    no_ports_world _ _ (run_eq _ _ _ He)) as (pre & Hp & [T|(c & T)]).
  - exists pre. split; [exact Hp|exact T].
  - exfalso. assert (N : existsb (fun ev => match ev with Sent _ (CreateContainer _) => true
      | _ => false end) (trace (create_container_with_id demo_client demo_cid "db" "mongo"
      demo_bridge_opts no_ports_world).2) = false) by (vm_compute; reflexivity).
    rewrite T, !existsb_app in N. cbn in N. rewrite orb_true_r in N. discriminate N.
Defined.

Lemma demo_lawful_libs : @lawful_libs demo_libs.
Proof.
  constructor.
  - intros p p' H. injection H as ->. done.
  - intros s s' H. injection H as ->. done.
  - intros s b H. cbn in *. unfold encode_in in H.
    destruct (List.find _ demo_specs) as [e|]; [|done].
    destruct (decide (lookup_bytes e.1 demo_specs = Some s)) as [Hl|]; [|done].
    injection H as <-. exact Hl.
Qed.

(** The world once the identifier of the container was drawn. *)
Definition demo_drawn : CreateWorld := (outside fresh_uuid (demo_world demo_pulled)).2.

Definition demo_created : CreateWorld :=
  (create_container_with_id demo_client demo_cid "db" "mongo" demo_bridge_opts demo_drawn).2.

(** A bridge container: the image's variables with the caller's, and the address
    the allocator gave. *)
Lemma inspect_reports_created_witness :
  exists md ip ports,
    (creation_reads demo_client demo_id "db" "mongo" demo_bridge_opts demo_drawn).1 =
      Ok (md, Some (ip, ports)) /\
    exists info, (inspect_container demo_client demo_id demo_created).1 = Ok info /\
      ci_env info = merged_env_map (im_config md) demo_bridge_opts /\
      ci_labels info !! BRIDGE_IP_LABEL = Some ip.
Proof.
  assert (Hok : (create_container_with_id demo_client demo_cid "db" "mongo" demo_bridge_opts
    demo_drawn).1 = Ok demo_cid) by (vm_compute; reflexivity).
  assert (Hk : keys_ok (env demo_bridge_opts)).
  { intros k v H. change (({[ "LANG" := "de" ]} : labels_map) !! k = Some v) in H.
    apply lookup_singleton_Some in H as [<- _]. reflexivity. }
  assert (Hg : match last (trace demo_created) with
    | Some (Sent _ (CreateContainer c)) =>
        (rpc demo_client (GetContainer demo_id) demo_created).1 = Ok c
    | _ => False end) by (vm_compute; reflexivity).
  destruct (inspect_reports_created demo_client demo_cid "db" "mongo" demo_bridge_opts
    demo_drawn _ _ demo_lawful_libs Hk ltac:(vm_compute; reflexivity)
    (run_eq _ _ _ Hok)) as (c & md & bc & Hl & Hr & Hb & G).
  fold demo_created in Hl. rewrite Hl in Hg.
  destruct (proj2 Hb eq_refl) as [[ip ports] ->]. exists md, ip, ports. split; [exact Hr|].
  destruct (G demo_created _ (run_eq _ _ _ Hg)) as (info & Hi & _ & _ & _ & He & _ & Hip & _).
  exists info. split; [exact Hi|]. split; [exact He|]. by eapply Hip.
Defined.
