(* ===== verification/Alloc.v ===== *)
(** * Concurrent bridge allocation ([src/bridge.rs], [ALLOC_LOCK])

    A creation in bridge mode takes the process-wide lock, scans the labels of
    its namespace, picks an octet, registers the container with it and only
    then drops the guard.  File Create models one creation; this one models
    any number of them interleaved, with deletions and other creations in
    between, as a step relation over the registered containers and each
    creation's position.  Other processes do not allocate: the source calls
    itself a single-process tool. *)

From S2P Require Import Prelude RustText RustFmt Errors Effects World Bridge ContainerSpec Create.
From stdpp Require Import relations.

(** The octet a container's label claims, as [used_octets] reads it. *)
Definition octet_of (c : Container) : option N := c_labels c !! BRIDGE_IP_LABEL ≫= parse_octet.

(** A container in bridge mode, by the label the crate writes into every
    record, over any label of the image or the user. *)
Definition bridge_mode (c : Container) : Prop :=
  c_labels c !! NETWORK_MODE_LABEL = Some (label_value Bridge).

Abbreviation Registry := (gmap (string * string) Container).

(** [ListContainers] of a namespace. *)
Definition containers_in (ns : string) (reg : Registry) : list Container :=
  snd <$> filter (fun e => e.1.1 = ns) (map_to_list reg).

(** Where a creation is: before the lock, holding it (the scan not made, made,
    the octet picked, registered), or over. *)
Inductive Position : Type :=
| Before | Locked | Scanned (used : gset N) | Picked (octet : N) | Registered | Over.

Definition holds (p : Position) : bool :=
  match p with Before | Over => false | _ => true end.

Record Alloc : Type := mkAlloc {
  owner : option nat;
  position : nat -> Position;
  registry : Registry
}.

(** [t] moves to [p]. *)
Definition move (t : nat) (p : Position) (f : nat -> Position) : nat -> Position :=
  fun t' => if decide (t' = t) then p else f t'.

(** The namespace of each creation, and the random source. *)
Section machine.
Context (ns_of : nat -> string) {X : Type} (choose : list N -> X -> option N * X).

Inductive step : Alloc -> Alloc -> Prop :=
| step_lock t s :
    position s t = Before -> owner s = None ->
    step s (mkAlloc (Some t) (move t Locked (position s)) (registry s))
| step_scan t s :
    position s t = Locked ->
    step s (mkAlloc (owner s)
              (move t (Scanned (octets_of (containers_in (ns_of t) (registry s)))) (position s))
              (registry s))
| step_pick t s used x o x' :
    position s t = Scanned used -> pick_free_octet choose used x = (Ok o, x') ->
    step s (mkAlloc (owner s) (move t (Picked o) (position s)) (registry s))
| step_register t s o id c client name ic opts ports pairs :
    position s t = Picked o -> namespace client = ns_of t -> network_mode opts = Bridge ->
    c_labels c = create_labels client name ic opts (Some (bridge_ip o, ports)) pairs ->
    registry s !! (ns_of t, id) = None ->
    step s (mkAlloc (owner s) (move t Registered (position s))
              (<[(ns_of t, id) := c]> (registry s)))
| step_release t s :
    (* the guard is dropped: after the registration, or on any error *)
    holds (position s t) = true ->
    step s (mkAlloc None (move t Over (position s)) (registry s))
| step_delete k s :
    step s (mkAlloc (owner s) (position s) (delete k (registry s)))
| step_other s k c :
    (* a creation in another network mode: it allocates nothing, but keeps
       whatever address label its image or its user set *)
    ~ bridge_mode c -> registry s !! k = None ->
    step s (mkAlloc (owner s) (position s) (<[k := c]> (registry s))).

Definition initial (s : Alloc) : Prop :=
  owner s = None /\ (forall t, position s t = Before) /\ registry s = ∅.

Definition reachable (s : Alloc) : Prop := exists s0, initial s0 /\ rtc step s0 s.

End machine.

(** * Lemmas *)

(** Octet [o] is taken in namespace [ns]. *)
Definition taken (reg : Registry) (ns : string) (o : N) : Prop :=
  exists id c, reg !! (ns, id) = Some c /\ octet_of c = Some o.

Lemma elem_of_scan reg ns o : o ∈ octets_of (containers_in ns reg) <-> taken reg ns o.
Proof.
  unfold octets_of, containers_in, taken. rewrite elem_of_list_to_set, list_elem_of_omap. split.
  - intros (c & Hc & Ho). apply list_elem_of_fmap in Hc as ([[n id] c'] & -> & Hk).
    apply list_elem_of_filter in Hk as [Hn Hk%elem_of_map_to_list]. cbn in *. subst n.
    exists id, c'. done.
  - intros (id & c & Hk & Ho). exists c. split; [|done].
    apply list_elem_of_fmap. exists ((ns, id), c). split; [done|].
    apply list_elem_of_filter. split; [done|]. by apply elem_of_map_to_list.
Qed.

Lemma move_same t p f : move t p f t = p.
Proof. unfold move. by rewrite decide_True. Qed.

Lemma move_other t t' p f : t' <> t -> move t p f t' = f t'.
Proof. intros H. unfold move. by rewrite decide_False. Qed.

(** ... by a container in bridge mode. *)
Definition bridged (reg : Registry) (ns : string) (o : N) : Prop :=
  exists id c, reg !! (ns, id) = Some c /\ bridge_mode c /\ octet_of c = Some o.

Lemma bridged_delete reg k ns o : bridged (delete k reg) ns o -> bridged reg ns o.
Proof. intros (id & c & [_ H]%lookup_delete_Some & Ho). by exists id, c. Qed.

Lemma bridged_insert reg ns id c ns' o :
  bridged (<[(ns, id) := c]> reg) ns' o ->
  bridged reg ns' o \/ (ns' = ns /\ bridge_mode c /\ octet_of c = Some o).
Proof.
  intros (id' & c' & [[E <-]|[_ H]]%lookup_insert_Some & Hb & Ho).
  - right. by simplify_eq.
  - left. by exists id', c'.
Qed.

(** Every container in bridge mode has an octet of the range, and no two of a
    namespace have the same. *)
Definition distinct (reg : Registry) : Prop :=
  (forall k c, reg !! k = Some c -> bridge_mode c ->
    exists o, octet_of c = Some o /\ (2 <= o <= 254)%N) /\
  forall ns id1 id2 c1 c2 o, reg !! (ns, id1) = Some c1 -> reg !! (ns, id2) = Some c2 ->
    bridge_mode c1 -> bridge_mode c2 -> octet_of c1 = Some o -> octet_of c2 = Some o -> id1 = id2.

Lemma distinct_delete reg k : distinct reg -> distinct (delete k reg).
Proof.
  intros [Hr H]. split; [intros k' c [_ Hk]%lookup_delete_Some; by eapply Hr|].
  intros ns id1 id2 c1 c2 o [_ H1]%lookup_delete_Some [_ H2]%lookup_delete_Some. eauto.
Qed.

Lemma distinct_insert reg ns id c :
  distinct reg ->
  (bridge_mode c -> exists o, octet_of c = Some o /\ (2 <= o <= 254)%N /\ ~ bridged reg ns o) ->
  distinct (<[(ns, id) := c]> reg).
Proof.
  intros [Hr H] Hf. split.
  { intros k c' [[<- <-]|[_ Hk]]%lookup_insert_Some Hb; [|by eapply Hr].
    destruct (Hf Hb) as (o & ? & ? & _). by exists o. }
  intros n id1 id2 c1 c2 o [[E1 <-]|[N1 H1]]%lookup_insert_Some
    [[E2 <-]|[N2 H2]]%lookup_insert_Some B1 B2 O1 O2; simplify_eq; [done|..|by eapply H];
    exfalso; destruct (Hf ltac:(assumption)) as (o' & Ho & _ & Hn); simplify_eq;
    apply Hn; unfold bridged; eauto 6.
Qed.

Section invariant.
Context (ns_of : nat -> string) {X : Type} (choose : list N -> X -> option N * X).
Context (Hchoose : lawful_choose choose).

(** What the lock protects. *)
Record alloc_inv (s : Alloc) : Prop := mkInv {
  i_owner : forall t, holds (position s t) = true -> owner s = Some t;
  i_scan : forall t used, position s t = Scanned used ->
    forall o, bridged (registry s) (ns_of t) o -> o ∈ used;
  i_pick : forall t o, position s t = Picked o ->
    (2 <= o <= 254)%N /\ ~ bridged (registry s) (ns_of t) o;
  i_distinct : distinct (registry s)
}.

(** Only one creation holds the lock. *)
Lemma holds_alone s t t' :
  alloc_inv s -> holds (position s t) = true -> holds (position s t') = true -> t' = t.
Proof.
  intros I H H'. pose proof (i_owner s I t H). pose proof (i_owner s I t' H'). congruence.
Qed.

(** A step of the holder to a position that keeps or drops the lock. *)
Lemma inv_move s t p ow :
  alloc_inv s -> holds (position s t) = true ->
  ow = (if holds p then Some t else None) ->
  (forall used, p = Scanned used -> forall o, bridged (registry s) (ns_of t) o -> o ∈ used) ->
  (forall o, p = Picked o -> (2 <= o <= 254)%N /\ ~ bridged (registry s) (ns_of t) o) ->
  alloc_inv (mkAlloc ow (move t p (position s)) (registry s)).
Proof.
  intros I Ht -> Hs Hp. split; cbn; [|..|apply I].
  - intros t'. destruct (decide (t' = t)) as [->|Hn].
    + rewrite move_same. by intros ->.
    + rewrite move_other by done. intros H. by destruct Hn, (holds_alone s t t' I Ht H).
  - intros t' used. destruct (decide (t' = t)) as [->|Hn].
    + rewrite move_same. intros ->. by apply Hs.
    + rewrite move_other by done. apply (i_scan s I).
  - intros t' o. destruct (decide (t' = t)) as [->|Hn].
    + rewrite move_same. intros ->. by apply Hp.
    + rewrite move_other by done. apply (i_pick s I).
Qed.

(** A registry with no more octets in bridge mode. *)
Lemma inv_registry s reg :
  alloc_inv s -> (forall ns o, bridged reg ns o -> bridged (registry s) ns o) -> distinct reg ->
  alloc_inv (mkAlloc (owner s) (position s) reg).
Proof.
  intros I Hreg Hd. split; cbn; [apply I|..|done].
  - intros t used Hp o Ho. by eapply (i_scan s I), Hreg.
  - intros t o Hp. destruct (i_pick s I t o Hp). split; [done|]. intros ?. by apply Hreg in H1.
Qed.

Lemma inv_lock s t :
  alloc_inv s -> position s t = Before -> owner s = None ->
  alloc_inv (mkAlloc (Some t) (move t Locked (position s)) (registry s)).
Proof.
  intros I Hp Ho. split; cbn; [|..|apply I].
  - intros t'. destruct (decide (t' = t)) as [->|Hn]; [done|]. rewrite move_other by done.
    intros H. pose proof (i_owner s I t' H). congruence.
  - intros t' used. destruct (decide (t' = t)) as [->|Hn]; [by rewrite move_same|].
    rewrite move_other by done. apply (i_scan s I).
  - intros t' o. destruct (decide (t' = t)) as [->|Hn]; [by rewrite move_same|].
    rewrite move_other by done. apply (i_pick s I).
Qed.

Lemma inv_register s t o id c :
  alloc_inv s -> position s t = Picked o -> octet_of c = Some o ->
  registry s !! (ns_of t, id) = None ->
  alloc_inv (mkAlloc (owner s) (move t Registered (position s))
               (<[(ns_of t, id) := c]> (registry s))).
Proof.
  intros I Hp Hc Hf. destruct (i_pick s I t o Hp) as [Hr Hn].
  assert (Ht : holds (position s t) = true) by by rewrite Hp.
  split; cbn.
  - intros t'. destruct (decide (t' = t)) as [->|Hne]; [intros _; by apply (i_owner s I)|].
    rewrite move_other by done. apply (i_owner s I).
  - intros t' used. destruct (decide (t' = t)) as [->|Hne]; [by rewrite move_same|].
    rewrite move_other by done. intros H. exfalso. apply Hne, (holds_alone s); [done..|by rewrite H].
  - intros t' o'. destruct (decide (t' = t)) as [->|Hne]; [by rewrite move_same|].
    rewrite move_other by done. intros H. exfalso. apply Hne, (holds_alone s); [done..|by rewrite H].
  - apply distinct_insert; [apply I|]. intros _. by exists o.
Qed.

Lemma inv_step s s' : alloc_inv s -> step ns_of choose s s' -> alloc_inv s'.
Proof.
  intros I H. destruct H as [t s Hp Ho|t s Hp|t s used x o x' Hp Hx
    |t s o id c client name ic opts ports pairs Hp _ _ Hc Hf|t s Hh|k s|s [ns id] c Hc Hf].
  - by apply inv_lock.
  - assert (Ht : holds (position s t) = true) by by rewrite Hp.
    apply inv_move; [done..|by apply I| |done]. intros used [= <-] o (i & c & Hi & _ & Ho).
    apply elem_of_scan. by exists i, c.
  - assert (Ht : holds (position s t) = true) by by rewrite Hp.
    apply inv_move; [done..|by apply I|done|]. intros o' [= <-].
    destruct (pick_free_octet_ok choose used x o x' Hchoose Hx) as [Hr Hu].
    split; [done|]. intros Ho. by apply Hu, (i_scan s I t used Hp).
  - apply (inv_register s t o); [done..| |done]. unfold octet_of. rewrite Hc, create_labels_ip.
    cbn. apply parse_bridge_ip. destruct (i_pick s I t o Hp). lia.
  - by apply inv_move.
  - apply inv_registry; [done| |apply distinct_delete, I]. intros ns o. apply bridged_delete.
  - apply inv_registry; [done|..].
    + intros n o [H|(_ & Hb & _)]%bridged_insert; [done|by apply Hc in Hb].
    + apply distinct_insert; [apply I|]. intros Hb. by apply Hc in Hb.
Qed.

Lemma inv_initial s : initial s -> alloc_inv s.
Proof.
  intros (Ho & Hp & Hr). split; rewrite ?Hr.
  - intros t. by rewrite Hp.
  - intros t used. by rewrite Hp.
  - intros t o. by rewrite Hp.
  - split; [intros k c|intros ns id1 id2 c1 c2 o]; by rewrite lookup_empty.
Qed.

Lemma inv_reachable s : reachable ns_of choose s -> alloc_inv s.
Proof.
  intros (s0 & H0 & Hs). apply inv_initial in H0. revert H0.
  induction Hs as [s|s1 s2 s3 H _ IH]; [done|]. intros I. by apply IH, (inv_step s1).
Qed.

End invariant.

(** * Properties *)

(** C15. However creations in bridge mode interleave, with each other, with
    deletions and with creations in other network modes -- whose records may
    carry any address label their image or user set -- every container in
    bridge mode has an address of the range, no two of a namespace ever have
    the same, and at most one creation is between taking the lock and dropping
    its guard. *)
Theorem alloc_distinct ns_of {X} (choose : list N -> X -> option N * X) s :
  lawful_choose choose -> reachable ns_of choose s ->
  distinct (registry s) /\
  (forall t t', holds (position s t) = true -> holds (position s t') = true -> t' = t).
Proof.
  intros Hc Hs. pose proof (inv_reachable ns_of choose Hc s Hs) as I. split; [apply I|].
  intros t t'. by apply (holds_alone ns_of).
Qed.

(** ** Two namespaces *)
Definition demo_choose (l : list N) (x : unit) : option N * unit := (head l, x).

Lemma demo_choose_lawful : lawful_choose demo_choose.
Proof. intros [|o l] x; [reflexivity|left]. Qed.

Definition demo_ns (t : nat) : string := match t with O => "a" | _ => "b" end.

(** The record a creation in bridge mode registers. *)
Definition bridged_record (ns : string) (o : N) : Container :=
  mkContainer "c" "img" None None "" ""
    (create_labels (mkClient ns) "c" (mkImageConfiguration None []) create_opts_default
       (Some (bridge_ip o, [])) []).

Definition alloc_start : Alloc := mkAlloc None (fun _ => Before) ∅.

Lemma alloc_start_initial : initial alloc_start.
Proof. done. Qed.

(** The record of a creation in host mode whose user set the address label. *)
Definition labelled_record (o : N) : Container :=
  mkContainer "h" "img" None None "" ""
    (create_labels (mkClient "a") "h" (mkImageConfiguration None [])
       (mkCreateContainerOpts ∅ {[ BRIDGE_IP_LABEL := bridge_ip o ]} [] Host None [] None) None []).

(** One creation of a container [id], from lock to release; [reg'] is what
    others make of the registry between its scan and its registration. *)
Lemma alloc_during ns_of t s used o id reg' :
  position s t = Before -> owner s = None ->
  octets_of (containers_in (ns_of t) (registry s)) = used ->
  pick_free_octet demo_choose used tt = (Ok o, tt) ->
  (forall ow p, rtc (step ns_of demo_choose) (mkAlloc ow p (registry s)) (mkAlloc ow p reg')) ->
  reg' !! (ns_of t, id) = None ->
  exists p, rtc (step ns_of demo_choose) s
    (mkAlloc None p (<[(ns_of t, id) := bridged_record (ns_of t) o]> reg')) /\
    forall t', t' <> t -> p t' = position s t'.
Proof.
  intros Hp Ho Hu Hx Hr Hf.
  set (s1 := mkAlloc (Some t) (move t Locked (position s)) (registry s)).
  set (p2 := move t (Scanned used) (position s1)).
  set (s3 := mkAlloc (Some t) (move t (Picked o) p2) reg').
  set (s4 := mkAlloc (Some t) (move t Registered (position s3))
               (<[(ns_of t, id) := bridged_record (ns_of t) o]> reg')).
  exists (move t Over (position s4)). split.
  - apply (rtc_l _ _ s1); [by apply step_lock|].
    apply (rtc_l _ _ (mkAlloc (Some t) p2 (registry s))).
    { unfold p2. rewrite <-Hu. apply (step_scan _ _ t s1), move_same. }
    etransitivity; [apply Hr|].
    apply (rtc_l _ _ s3).
    { apply (step_pick _ _ t (mkAlloc (Some t) p2 reg') used tt o tt); [apply move_same|done]. }
    apply (rtc_l _ _ s4).
    { apply (step_register _ _ t s3 o id _ (mkClient (ns_of t)) "c" (mkImageConfiguration None [])
        create_opts_default [] []); [apply move_same|done..]. }
    apply rtc_once, (step_release _ _ t s4). unfold s4. cbn [position]. by rewrite move_same.
  - intros t' Hn. unfold s4, s3, p2, s1. cbn [position]. by rewrite !move_other.
Qed.

(** The scan sees one namespace, the bridge is shared by all: two
    containers of different namespaces can be given the same address. *)
Theorem alloc_collides_across_namespaces :
  exists s c1 c2 o, reachable demo_ns demo_choose s /\
    registry s !! ("a", "c") = Some c1 /\ registry s !! ("b", "c") = Some c2 /\
    bridge_mode c1 /\ bridge_mode c2 /\ octet_of c1 = Some o /\ octet_of c2 = Some o.
Proof.
  destruct (alloc_during demo_ns 0 alloc_start ∅ 2 "c" ∅) as (p1 & H1 & E1);
    [done..|by vm_compute|done|].
  destruct (alloc_during demo_ns 1 (mkAlloc None p1 {[ ("a", "c") := bridged_record "a" 2 ]}) ∅ 2 "c"
    {[ ("a", "c") := bridged_record "a" 2 ]})
    as (p2 & H2 & _); [by apply E1|done|by vm_compute|by vm_compute|done|done|].
  eexists _, (bridged_record "a" 2), (bridged_record "b" 2), 2%N. split.
  - exists alloc_start. split; [done|]. etransitivity; [exact H1|exact H2].
  - cbn. split_and!; by vm_compute.
Qed.

(** Two creations in namespace "a"; between the scan and the registration of
    the first, a container in host mode is registered with a label for the
    very octet the first is about to take. *)
Definition alloc_end : Registry :=
  <[("a", "c1") := bridged_record "a" 3]>
    (<[("a", "c0") := bridged_record "a" 2]> {[ ("a", "h") := labelled_record 2 ]}).

Lemma alloc_end_reachable : exists s, reachable (fun _ => "a") demo_choose s /\ registry s = alloc_end.
Proof.
  destruct (alloc_during (fun _ => "a") 0 alloc_start ∅ 2 "c0" {[ ("a", "h") := labelled_record 2 ]})
    as (p1 & H1 & E1); [done..|by vm_compute| |by vm_compute|].
  { intros ow p. apply rtc_once.
    apply (step_other _ _ (mkAlloc ow p ∅) ("a", "h") (labelled_record 2)); [|done].
    unfold bridge_mode, labelled_record. cbn [c_labels]. by rewrite create_labels_mode. }
  destruct (alloc_during (fun _ => "a") 1 (mkAlloc None p1
    (<[("a", "c0") := bridged_record "a" 2]> {[ ("a", "h") := labelled_record 2 ]})) {[ 2%N ]} 3 "c1"
    (<[("a", "c0") := bridged_record "a" 2]> {[ ("a", "h") := labelled_record 2 ]}))
    as (p2 & H2 & _); [by apply E1|done|by vm_compute|by vm_compute|done|by vm_compute|].
  exists (mkAlloc None p2 alloc_end). split; [|reflexivity].
  exists alloc_start. split; [done|]. etransitivity; [exact H1|exact H2].
Qed.

Lemma alloc_distinct_witness :
  distinct alloc_end /\
  octet_of <$> alloc_end !! ("a", "c0") = Some (Some 2%N) /\
  octet_of <$> alloc_end !! ("a", "c1") = Some (Some 3%N) /\
  octet_of <$> alloc_end !! ("a", "h") = Some (Some 2%N).
Proof.
  split; [|split_and!; vm_compute; reflexivity].
  destruct alloc_end_reachable as (s & Hs & <-).
  exact (proj1 (alloc_distinct (fun _ => "a") demo_choose s demo_choose_lawful Hs)).
Defined.
