(* ===== verification/ClientApi.v ===== *)
(** * The client's container methods ([src/client.rs], lines 229-299 and 402-534)

    What the methods of [Client] add to the functions they delegate to: the
    background tailer of a started task, the cleanup of a deleted container,
    and the watcher behind [container_logs_stream_until_exit].  The watcher is
    a loop without a bound of its own, so it runs with fuel; the theorems say
    how many rounds it takes. *)

From S2P Require Import Prelude RustText RustFmt Errors Effects FileSystem LogFiles Identifier World Loops Bridge ContainerSpec Inspect ClientState Task DemoDaemon.

(** ** The watcher's constants and state *)
Definition BASE_INTERVAL : Duration := from_millis 250.
Definition MAX_INTERVAL : Duration := from_secs 5.
Definition MAX_WATCH_ERRORS : nat := 60.

Record WatchState : Type := mkWatchState { interval : Duration; consecutive_errors : nat }.

Definition watch_start : WatchState := mkWatchState BASE_INTERVAL 0.

(** How the watcher ends: it told the follower to stop, or the follower had
    gone. *)
Inductive Watched : Type := Signalled | FollowerGone.

Section api.
Context {E : Env} {L : Libs} {Meta : Type}.
Abbreviation M := (ST (World Meta)).

(** ** Containers *)
Definition inspect_by_name (client : Client) (name : string) : M (Result ContainerInfo) :=
  id ←? resolve_name client name;
  inspect_container client (as_str id).

(** [Client::start_container]. *)
Definition client_start_container (client : Client) (container_id : ContainerId) :
    M (Result TaskId) :=
  task_id ←? start_container client (as_str container_id);
  start_managed_tailer client (as_str container_id) ;;?
  mret (Ok task_id).

(** [Client::delete_container]: the client's own state goes in any case. *)
Definition client_delete_container (client : Client) (container_id : ContainerId)
    (timeout : Duration) : M (Result unit) :=
  result ← delete_container client (as_str container_id) timeout;
  _ ← stop_managed_forwards (as_str container_id);
  _ ← stop_managed_tailer client (as_str container_id);
  mret result.

(** ** The watcher *)

(** [select!] on the follower's end and a sleep, biased to the former: is the
    follower gone?  [gone_at] is the instant its receiver is dropped. *)
Definition closed_before (gone_at : option N) (t : N) : bool :=
  match gone_at with Some g => (g <=? t)%N | None => false end.

Definition select_sleep (gone_at : option N) (d : Duration) : M bool := fun w =>
  if closed_before gone_at (clock w) then (true, w)
  else
    let w' := (sleep d w).2 in
    match gone_at with
    | Some g => if (g <? clock w')%N then (true, set_clock g w') else (false, w')
    | None => (false, w')
    end.

(** [inspect_container]'s answer: is the watch over, and with which state does
    it go on? *)
Definition watch_step (st : WatchState) (r : Result ContainerInfo) : WatchState + Watched :=
  match r with
  | Ok info =>
      if decide (t_status <$> ci_task info = Some Stopped) then inr Signalled
      else inl (mkWatchState BASE_INTERVAL 0)
  | Err (ContainerNotFound _) => inr Signalled
  | Err _ =>
      let n := S (consecutive_errors st) in
      if MAX_WATCH_ERRORS <=? n then inr Signalled
      else inl (mkWatchState (N.min (interval st * 2) MAX_INTERVAL) n)
  end.

Definition watch_round (gone_at : option N) (client : Client) (watcher_id : string)
    (st : WatchState) : M (WatchState + Watched) :=
  closed ← select_sleep gone_at (interval st);
  if closed : bool then mret (inr FollowerGone)
  else r ← inspect_container client watcher_id; mret (watch_step st r).

Definition watch_until_exit (gone_at : option N) (client : Client) (watcher_id : string)
    (fuel : nat) : M (option Watched) :=
  loop fuel (watch_round gone_at client watcher_id) watch_start.

End api.

(** * Lemmas *)
Section lemmas.
Context {E : Env} {L : Libs} {Meta : Type}.
Abbreviation W := (World Meta).
Abbreviation M := (ST W).
Implicit Types (w : W) (client : Client).

(** ** Keys *)
Lemma last_separator {A} (x : A) l1 l2 r1 r2 :
  x ∉ r1 -> x ∉ r2 -> l1 ++ x :: r1 = l2 ++ x :: r2 -> l1 = l2 /\ r1 = r2.
Proof.
  intros H1 H2. revert l2. induction l1 as [|a l1 IH]; intros [|b l2] H; cbn in H.
  - by injection H as ->.
  - injection H as _ ->. destruct H1. apply elem_of_app. right. by left.
  - injection H as _ <-. destruct H2. apply elem_of_app. right. by left.
  - injection H as -> H. by destruct (IH l2 H) as [-> ->].
Qed.

Lemma slash_free id : validate_identifier id = Ok tt -> x2f ∉ str_bytes id.
Proof.
  intros H%validate_ok_accepts%accepts_bytes Hs. rewrite Forall_forall in H.
  by specialize (H _ Hs).
Qed.

(** ** What the task functions leave alone *)
Definition keeps_handles w w' : Prop :=
  managed_tailers w' = managed_tailers w /\ managed_handles w' = managed_handles w.

#[export] Instance keeps_refl : Reflexive keeps_handles.
Proof. done. Qed.
#[export] Instance keeps_trans : Transitive keeps_handles.
Proof. intros w1 w2 w3 [? ?] [? ?]. split; congruence. Qed.

Lemma keeps_rpc c r : pres keeps_handles (rpc c r).
Proof. intros w. unfold rpc. by destruct (handle _ _ _) as [[a d] e]. Qed.

Lemma keeps_sleep d : pres keeps_handles (sleep d).
Proof. intros w. unfold sleep. by destruct (overshoot _ _). Qed.

End lemmas.

Ltac keep_step :=
  idtac; match goal with
  | |- pres _ (rpc ?c ?r) => exact (keeps_rpc c r)
  | |- pres _ (sleep _) => apply keeps_sleep
  end.
Ltac keep := walk keep_step.

Section keeps.
Context {E : Env} {L : Libs} {Meta : Type}.
Abbreviation W := (World Meta).
Implicit Types (w : W) (client : Client).

Lemma keeps_get_container client id : pres (keeps_handles (Meta := Meta)) (get_container client id).
Proof. unfold get_container. keep. Qed.

Lemma keeps_get_task_info client id : pres (keeps_handles (Meta := Meta)) (get_task_info client id).
Proof. unfold get_task_info. keep. Qed.

Lemma keeps_inspect client id : pres (keeps_handles (Meta := Meta)) (inspect_container client id).
Proof.
  pose proof keeps_get_container. pose proof keeps_get_task_info.
  unfold inspect_container. keep.
Qed.

Lemma keeps_delete_task client id : pres (keeps_handles (Meta := Meta)) (delete_task client id).
Proof. unfold delete_task, forget_task_start. keep. Qed.

Lemma keeps_stop client id t : pres (keeps_handles (Meta := Meta)) (stop_container client id t).
Proof.
  pose proof keeps_inspect. pose proof keeps_get_task_info.
  unfold stop_container, stop_task, kill_task, wait_for_task_stop, is_task_running,
    task_has_stopped. keep.
Qed.

Lemma keeps_delete client id t : pres (keeps_handles (Meta := Meta)) (delete_container client id t).
Proof.
  pose proof keeps_inspect. pose proof keeps_delete_task. pose proof keeps_stop.
  unfold delete_container, phase_delete_task, phase_task_record_gone,
    phase_container_record_gone, remove_container. keep.
Qed.

Lemma keeps_start client id : pres (keeps_handles (Meta := Meta)) (start_container client id).
Proof.
  pose proof keeps_get_container. unfold start_container, record_task_start.
  keep.
Qed.

(** ** Start times *)

(** At most the start time of the container is forgotten. *)
Definition forgets key w w' : Prop :=
  task_start_times w' = task_start_times w \/
  task_start_times w' = delete key (task_start_times w).

#[local] Instance forgets_refl key : Reflexive (forgets key).
Proof. by left. Qed.
#[local] Instance forgets_trans key : Transitive (forgets key).
Proof.
  intros w1 w2 w3 [H1|H1] [H2|H2]; unfold forgets; rewrite H2, H1; rewrite ?delete_delete_eq; auto.
Qed.

Ltac forget_step :=
  idtac; match goal with
  | |- pres _ (rpc ?c ?r) =>
      intros ?; left; unfold rpc; by destruct (handle _ _ _) as [[? ?] ?]
  | |- pres _ (sleep _) => intros ?; left; unfold sleep; by destruct (overshoot _ _)
  | |- pres _ (on_files _) => by intros ?; left
  | |- pres _ (modify_st _) => by intros ?; right
  end.
Ltac forgetting := walk forget_step.

Lemma forgets_inspect client id key : pres (forgets key) (inspect_container client id : ST W _).
Proof. unfold inspect_container, get_container, get_task_info. forgetting. Qed.

Lemma forgets_stop client id key t : pres (forgets key) (stop_container client id t : ST W _).
Proof.
  pose proof forgets_inspect. unfold stop_container, stop_task, kill_task, wait_for_task_stop,
    is_task_running, task_has_stopped, get_task_info. forgetting.
Qed.

Lemma forgets_phases client id : let R := forgets (ns_key client id) in
  pres R (phase_delete_task client id : ST W _) /\
  pres R (phase_task_record_gone client id : ST W _) /\
  pres R (remove_container client id : ST W _) /\
  pres R (phase_container_record_gone client id : ST W _).
Proof.
  pose proof forgets_inspect. cbv zeta.
  assert (pres (forgets (ns_key client id)) (remove_container client id : ST W _)).
  { unfold remove_container. forgetting. }
  split_and!; unfold phase_delete_task, phase_task_record_gone, phase_container_record_gone,
    delete_task, forget_task_start; forgetting.
Qed.

Lemma phase_delete_forgets client id w w' :
  phase_delete_task client id w = (true, w') -> task_start_times w' !! ns_key client id = None.
Proof.
  unfold phase_delete_task, delete_task. intros (r & w1 & H & [Hr <-]%ret_inv)%bind_inv.
  apply bind_inv in H as (x & w2 & _ & H). cbv zeta in H.
  destruct (is_ok _) eqn:Eo; [|apply ret_inv in H as [<- _]; congruence].
  apply bind_inv in H as ([] & w3 & H3 & [_ <-]%ret_inv). injection H3 as <-. apply lookup_delete_eq.
Qed.

(** Deleting forgets the start time when it succeeds, and nothing else ever. *)
Lemma delete_forgets client id t w r w' :
  delete_container client id t w = (r, w') ->
  forgets (ns_key client id) w w' /\
  (r = Ok tt -> task_start_times w' = delete (ns_key client id) (task_start_times w)).
Proof.
  set (key := ns_key client id). destruct (forgets_phases client id) as (P1 & P2 & P3 & P4).
  fold key in P1, P2, P3, P4. pose proof (forgets_stop client id key) as P0.
  assert (PP : forall s i m p, pres (forgets key) p -> pres (forgets key) (poll_until s t i m p : ST W _)).
  { intros s i m p Hp. apply pres_poll; [apply _..|done|]. forgetting. }
  intros H. assert (F : forgets key w w').
  { refine (pres_at _ _ _ _ _ _ H). unfold delete_container. cbv zeta. forgetting. }
  split; [done|]. intros ->. revert H. unfold delete_container. cbv zeta.
  intros (? & w1 & _ & H)%bind_inv. apply bind_inv in H as (? & w2 & _ & H).
  apply try_ok_inv in H as ([] & w3 & H3 & H).
  assert (N : task_start_times w3 !! key = None).
  { apply (poll_until_ok _ _ _ _ _ _ _ (fun w => task_start_times w !! key = None) H3).
    apply phase_delete_forgets. }
  assert (forgets key w3 w') as [F3|F3].
  { refine (pres_at _ _ _ _ _ _ H). forgetting. }
  all: destruct F as [F|F]; rewrite F; try done; rewrite <-F, delete_id, ?F3; [done|].
  all: rewrite F3 || rewrite F; by rewrite ?lookup_delete_eq.
Qed.

(** ** Forwards *)
Lemma stopped_trace (hs : list PortForwardHandle) w :
  foldl (fun w h => emit (ForwardStopped h) w) w hs =
  mkWorld (ext w) (clock w) (files w) (managed_handles w) (handles_poisoned w)
    (managed_tailers w) (image_metadata_cache w) (task_start_times w) (exec_counter w)
    (trace w ++ (ForwardStopped <$> hs)).
Proof.
  revert w. induction hs as [|h hs IH]; intros w; cbn [foldl fmap list_fmap].
  - rewrite app_nil_r. by destruct w.
  - rewrite IH. cbn. by rewrite <-app_assoc.
Qed.

(** ** The watcher on a daemon that keeps failing *)

(** What [n] failing rounds sleep from the given interval on, and what they
    send. *)
Fixpoint failing_waits (n : nat) (i : Duration) : Duration :=
  match n with O => 0%N | S n => (i + failing_waits n (N.min (i * 2) MAX_INTERVAL))%N end.

Fixpoint failing_trace (ns id : string) (n : nat) (i : Duration) : list Event :=
  match n with
  | O => []
  | S n => Slept i :: Sent ns (GetContainer id) ::
           failing_trace ns id n (N.min (i * 2) MAX_INTERVAL)
  end.

Section failing.
Context (client : Client) (id : string) (P : Ext -> Prop) (e : Status).
Context (Hget : answers (namespace client) P (GetContainer id) (Err e)).
Context (He : code e <> NotFound) (Hsl : sleeps P).

(** The daemon keeps refusing to show the container. *)
Lemma failing_inspect w :
  P (ext w) ->
  exists w', inspect_container client id w = (Err (into_crate_error e "get_container"), w') /\
    P (ext w') /\ (clock w <= clock w')%N /\
    trace w' = trace w ++ [Sent (namespace client) (GetContainer id)].
Proof.
  intros HP. pose proof (rpc_trace client (GetContainer id) w) as T.
  destruct (rpc_answers _ _ _ _ w Hget HP) as (w1 & H1 & HP1 & S1). rewrite H1 in T.
  exists w1. split_and!; [|done|apply S1|done].
  unfold inspect_container, get_container.
  rewrite (run_try_err _ _ _ (into_crate_error e "get_container") w1); [done|].
  rewrite (run_bind _ _ _ _ _ H1). by rewrite decide_False.
Qed.

Lemma failing_round st w :
  P (ext w) ->
  exists w', P (ext w') /\ (clock w + interval st <= clock w')%N /\
    trace w' = trace w ++ [Slept (interval st); Sent (namespace client) (GetContainer id)] /\
    watch_round None client id st w =
      (if MAX_WATCH_ERRORS <=? S (consecutive_errors st) then inr Signalled
       else inl (mkWatchState (N.min (interval st * 2) MAX_INTERVAL)
                   (S (consecutive_errors st))), w').
Proof.
  intros HP. unfold watch_round, select_sleep. cbn [closed_before].
  assert (T : trace (sleep (interval st) w).2 = trace w ++ [Slept (interval st)]).
  { unfold sleep. by destruct (overshoot _ _). }
  pose proof (sleep_clock (interval st) w) as C.
  destruct (sleep_answers P (interval st) w Hsl HP) as (w1 & H1 & HP1 & _).
  rewrite H1 in T, C. cbn [snd] in T, C.
  destruct (failing_inspect w1 HP1) as (w2 & H2 & HP2 & C2 & T2).
  exists w2. split_and!; [done|lia|by rewrite T2, T, <-app_assoc|].
  rewrite (run_bind _ _ _ false w1) by (cbn; by rewrite H1). cbn iota.
  rewrite (run_bind _ _ _ _ _ H2). unfold into_crate_error, watch_step. cbv zeta.
  by destruct (_ <=? _).
Qed.

Lemma failing_watch n st w fuel :
  P (ext w) -> consecutive_errors st + S n = MAX_WATCH_ERRORS -> S n <= fuel ->
  exists w', loop fuel (watch_round None client id) st w = (Some Signalled, w') /\
    (clock w + failing_waits (S n) (interval st) <= clock w')%N /\
    trace w' = trace w ++ failing_trace (namespace client) id (S n) (interval st).
Proof.
  revert st w fuel. induction n as [|n IH]; intros st w [|fuel] HP Hn Hf; try lia; cbn [loop];
    destruct (failing_round st w HP) as (w1 & HP1 & C1 & T1 & H1); rewrite (run_bind _ _ _ _ _ H1).
  - exists w1. rewrite (proj2 (Nat.leb_le _ _)) by lia. cbn [failing_waits failing_trace].
    split_and!; [done|lia|done].
  - rewrite (proj2 (Nat.leb_gt _ _)) by lia.
    destruct (IH (mkWatchState (N.min (interval st * 2) MAX_INTERVAL) (S (consecutive_errors st)))
      w1 fuel HP1) as (w2 & H2 & C2 & T2); [cbn; lia|lia|].
    exists w2. cbn [interval] in *. split_and!; [exact H2| |].
    + cbn [failing_waits] in *. lia.
    + rewrite T2, T1, <-app_assoc. done.
Qed.

End failing.
End keeps.

(** * Properties *)
Section properties.
Context {E : Env} {L : Libs} {Meta : Type}.
Implicit Types (w : World Meta) (client : Client).

(** The client's per-container state is kept apart: the keys of two
    containers are equal only for the same namespace and the same identifier,
    whatever characters the namespaces have. *)
Theorem ns_key_injective client1 client2 id1 id2 :
  validate_identifier id1 = Ok tt -> validate_identifier id2 = Ok tt ->
  ns_key client1 id1 = ns_key client2 id2 -> client1 = client2 /\ id1 = id2.
Proof.
  intros H1%slash_free H2%slash_free H. apply (f_equal str_bytes) in H. unfold ns_key in H.
  rewrite !str_bytes_app in H. apply last_separator in H as [Hn Hi]; [|done|done].
  destruct client1 as [n1], client2 as [n2]. cbn [namespace] in *.
  apply (f_equal bytes_str) in Hn, Hi. rewrite !bytes_str_bytes in Hn, Hi. by subst.
Qed.

(** C27. Deleting a container cleans the client's own state about it up.  Whether
    the deletion succeeds or not, its tailer is gone and was stopped, the
    forwards of its identifier are gone (in every namespace: the list is shared
    and holds no namespace) and were stopped one by one and in order, and the
    tailers and forwards of other identifiers are untouched.  Its start time is
    forgotten when the deletion succeeds -- a failed one may keep it -- and no
    other start time is ever touched. *)
Theorem client_delete_cleans_up client id timeout w r w' :
  client_delete_container client id timeout w = (r, w') ->
  let key := ns_key client (as_str id) in
  managed_tailers w' = delete key (managed_tailers w) /\
  managed_handles w' =
    List.filter (fun h => negb (belongs (as_str id) h)) (managed_handles w) /\
  (task_start_times w' = delete key (task_start_times w) \/
   is_ok r = false /\ task_start_times w' = task_start_times w) /\
  exists wd, delete_container client (as_str id) timeout w = (r, wd) /\
    trace w' = trace wd
      ++ (ForwardStopped <$> List.filter (belongs (as_str id)) (managed_handles w))
      ++ (match managed_tailers w !! key with Some t => [TailerStopped t] | None => [] end).
Proof.
  unfold client_delete_container. intros (r1 & w1 & H1 & H)%bind_inv. cbv zeta.
  pose proof (keeps_delete client (as_str id) timeout w) as [Ht Hh]. rewrite H1 in Ht, Hh.
  assert (Hs : task_start_times w1 = delete (ns_key client (as_str id)) (task_start_times w) \/
    is_ok r1 = false /\ task_start_times w1 = task_start_times w).
  { destruct (delete_forgets _ _ _ _ _ _ H1) as [[F|F] G]; [|by left].
    destruct r1 as [[]|e]; [left; by apply G|by right]. }
  cbn [snd] in Ht, Hh. unfold stop_managed_forwards, stop_managed_tailer, modify_st, get_st in H.
  unfold mbind, ST_bind in H. cbn [fst snd] in H. rewrite stopped_trace in H. cbn in H.
  rewrite Ht, Hh in H.
  destruct (managed_tailers w !! ns_key client (as_str id)) as [t|] eqn:Et; cbn in H;
    injection H as <- <-; cbn.
  - split_and!; [done|done|done|]. exists w1. split; [done|]. by rewrite <-app_assoc.
  - split_and!; [by rewrite delete_id|done|done|]. exists w1. split; [done|]. by rewrite app_nil_r.
Qed.

(** A started container has its tailer: when [start_container] succeeds
    the client manages one tailer under the container's key, the newest event
    is its start, or the graceful stop of the one it replaced. *)
Theorem client_start_has_tailer client id w t w' :
  client_start_container client id w = (Ok t, w') ->
  exists tl ws, managed_tailers w' = <[ns_key client (as_str id) := tl]> (managed_tailers w) /\
    start_container client (as_str id) w = (Ok t, ws) /\
    trace w' = trace ws ++ TailerStarted tl ::
      match managed_tailers w !! ns_key client (as_str id) with
      | Some old => [TailerStopped old] | None => [] end.
Proof.
  unfold client_start_container. intros (t1 & w1 & H1 & H)%try_ok_inv.
  apply try_ok_inv in H as (u & w2 & H2 & [H ->]%ret_inv). simplify_eq.
  pose proof (keeps_start client (as_str id) w) as [Ht _]. rewrite H1 in Ht. cbn [snd] in Ht.
  unfold start_managed_tailer in H2. apply try_ok_inv in H2 as (tl & w3 & H3 & H2).
  exists tl, w1. unfold log_tailer_start in H3.
  destruct (log_paths_for _ _) as [[o er]|]; [|done].
  destruct (events_path_for _ _) as [ev|]; [|done]. injection H3 as <- <-.
  unfold mbind, ST_bind, get_st, modify_st in H2. cbn in H2. rewrite Ht in H2.
  destruct (managed_tailers w !! ns_key client (as_str id)) as [old|] eqn:Eo; cbn in H2;
    injection H2 as _ <-; cbn; split_and!; try done. by rewrite <-app_assoc.
Qed.

(** On a daemon that keeps failing, the watcher of a log stream gives up
    after exactly 60 inspections, each after a sleep twice as long as the last
    one up to five seconds: no earlier than 282.75 s after it started. *)
Theorem watcher_gives_up client id P e w fuel :
  answers (namespace client) P (GetContainer id) (Err e) -> code e <> NotFound -> sleeps P ->
  P (ext w) -> 60 <= fuel ->
  exists w', watch_until_exit None client id fuel w = (Some Signalled, w') /\
    (clock w + from_millis 282750 <= clock w')%N /\
    trace w' = trace w ++ failing_trace (namespace client) id 60 BASE_INTERVAL.
Proof.
  intros Hg He Hs HP Hf.
  destruct (failing_watch client id P e Hg He Hs 59 watch_start w fuel HP eq_refl Hf)
    as (w' & H & C & T).
  exists w'. split_and!; [exact H| |exact T].
  replace (from_millis 282750) with (failing_waits 60 (interval watch_start)); [exact C|].
  vm_compute. reflexivity.
Qed.

End properties.

(** ** Witnesses *)
Definition demo_tailer : LogTailerHandle := mkLogTailerHandle ["out"] ["err"] ["events"].
Definition demo_forward (id : string) : PortForwardHandle :=
  mkPortForwardHandle id 40000 80 "127.0.0.1:80".

(** A running container with a tailer and a forward, and a forward of another. *)
Definition demo_managed : @World demo_env unit :=
  mkWorld (demo_with_task 2 false : @Ext demo_env) 0 (quiet fs_empty)
    [demo_forward "d"; demo_forward "c"] false {[ "default/c" := demo_tailer ]} ∅ ∅ 0 [].

Lemma client_delete_cleans_up_witness :
  (client_delete_container demo_client (mkContainerId "c") 0 demo_managed).1 = Ok tt /\
  managed_handles (client_delete_container demo_client (mkContainerId "c") 0 demo_managed).2 =
    [demo_forward "d"].
Proof.
  assert (H : (client_delete_container demo_client (mkContainerId "c") 0 demo_managed).1 = Ok tt)
    by (vm_compute; reflexivity).
  split; [exact H|].
  exact (proj1 (proj2 (client_delete_cleans_up demo_client (mkContainerId "c") 0 demo_managed
    _ _ (run_eq _ _ _ H)))).
Defined.

Lemma client_start_has_tailer_witness :
  exists tl, managed_tailers (client_start_container demo_client (mkContainerId "c")
    (set_ext (with_tasks (demo_with_task 2 false) ∅ : @Ext demo_env) demo_managed)).2 =
    {[ "default/c" := tl ]}.
Proof.
  assert (H : (client_start_container demo_client (mkContainerId "c")
    (set_ext (with_tasks (demo_with_task 2 false) ∅ : @Ext demo_env) demo_managed)).1 =
    Ok (mkTaskId "c" 1)) by (vm_compute; reflexivity).
  destruct (client_start_has_tailer demo_client (mkContainerId "c")
    (set_ext (with_tasks (demo_with_task 2 false) ∅ : @Ext demo_env) demo_managed)
    _ _ (run_eq _ _ _ H)) as (tl & ws & Hm & _).
  exists tl. etransitivity; [exact Hm|]. apply insert_singleton_eq.
Defined.

Lemma watcher_gives_up_witness :
  exists w', @watch_until_exit down_env demo_libs unit None demo_client "c" 60
    (mkWorld (demo_empty : @Ext down_env) 0 (quiet fs_empty) [] false ∅ ∅ ∅ 0 []) =
      (Some Signalled, w') /\ (0 + from_millis 282750 <= clock w')%N.
Proof.
  destruct (@watcher_gives_up down_env demo_libs unit demo_client "c" (fun _ => True)
    (st Unavailable)
    (mkWorld (demo_empty : @Ext down_env) 0 (quiet fs_empty) [] false ∅ ∅ ∅ 0 []) 60)
    as (w' & H & C & _); [intros e _; split; done|done|intros d e _; exact I|exact I|lia|].
  exists w'. split; [exact H|exact C].
Defined.

Lemma ns_key_injective_witness :
  ns_key (mkClient "a/b") "c" <> ns_key (mkClient "a") "c".
Proof.
  intros H. destruct (ns_key_injective (mkClient "a/b") (mkClient "a") "c" "c"
    eq_refl eq_refl H) as [H1 _]. discriminate H1.
Defined.
