(* ===== verification/UntilExit.v ===== *)
(** * A stream that ends with the task
    ([container_logs_stream_until_exit] of [src/client.rs])

    Four parties share a container's log: the container prints and exits, the
    tailer moves its output into [events.log], the follower polls that file,
    and the watcher inspects the task and tells the follower to stop.  A
    [Live] is the pipeline of file LogPipeline with the task, the watcher and
    the follower's end; [live_step] is one turn of one party, in any order.

    The follower polls once more after the signal, but nothing waits for the
    tailer: [until_exit_delivers] says the stream is the whole output when the
    tailer had its passes between the last print and that poll, and
    [until_exit_can_miss] that the last output is missing when it had none,
    which the intervals of the three loops allow ([punctual_miss]). *)

From S2P Require Import Prelude RustText RustFmt Errors Effects FileSystem Identifier World Bridge ContainerSpec Inspect ClientState Task ClientApi LogCodec LogFiles LogTailer LogFollower LogPipeline.

(** ** The parties *)
Inductive Step : Type :=
| Print (k : LogStream) (b : bytes)  (* the container *)
| Exit
| Pass (k : LogStream) (now : SystemTime)  (* the tailer *)
| Inspected (r : Result ContainerInfo)  (* the watcher *)
| Turn  (* the follower, after its sleep *)
| LastTurn.  (* the follower, on the signal *)

Record Live : Type := mkLive {
  pipe : Pipe;
  running : bool;
  watcher : WatchState + Watched;
  ended : bool
}.

(** What an inspection may answer: [Stopped] or [ContainerNotFound] only for a
    task that has exited.  It may fail. *)
Definition truthful (running : bool) (r : Result ContainerInfo) : bool :=
  match r with
  | Ok info => negb (running && bool_decide (t_status <$> ci_task info = Some Inspect.Stopped))
  | Err (ContainerNotFound _) => negb running
  | Err _ => true
  end.

Section live.
Context (so se ev : path) (hs : Handles).

Definition act (a : Action) (x : Live) : Live :=
  mkLive (pipe_act so se ev hs a (pipe x)).2 (running x) (watcher x) (ended x).

(** The poll at the head of [follow_loop], and the returns behind it. *)
Definition follower_turn (x : Live) : Live :=
  let x' := act Poll x in
  match (pipe_act so se ev hs Poll (pipe x)).1 with
  | OPolled ReceiverDropped => mkLive (pipe x') (running x) (watcher x) true
  | OPolled (Fatal e) =>
      let p := pipe x' in
      let st := (send (Err e) (mkFollow (feed_state p) (chan p) (pdisk p))).2 in
      mkLive (mkPipe (tails p) (ets st) (tx st) (disk st)) (running x) (watcher x) true
  | _ => x'
  end.

(** One turn, if it is that party's to take. *)
Definition live_step (a : Step) (x : Live) : option Live :=
  match a with
  | Print k b => if running x then Some (act (Write k b) x) else None
  | Exit => if running x then Some (mkLive (pipe x) false (watcher x) (ended x)) else None
  | Pass k now => Some (act (Drain k now) x)
  | Inspected r =>
      match watcher x with
      | inl st => if truthful (running x) r
                  then Some (mkLive (pipe x) (running x) (watch_step st r) (ended x)) else None
      | inr _ => None
      end
  | Turn => if ended x then None else Some (follower_turn x)
  | LastTurn =>
      if ended x then None
      else match watcher x with
           | inr Signalled => Some (mkLive (pipe (act Poll x)) (running x) (watcher x) true)
           | _ => None
           end
  end.

Fixpoint live_run (steps : list Step) (x : Live) : option Live :=
  match steps with
  | [] => Some x
  | a :: steps => match live_step a x with Some x' => live_run steps x' | None => None end
  end.

(** What the call of [container_logs_stream_until_exit] starts. *)
Definition live_start (s : FS) : Live := mkLive (pipe_start s) true (inl watch_start) false.

(** What a turn is to the pipeline. *)
Definition acts_of (a : Step) : list Action :=
  match a with
  | Print k b => [Write k b]
  | Pass k now => [Drain k now]
  | Turn | LastTurn => [Poll]
  | Exit | Inspected _ => []
  end.

Definition acts (steps : list Step) : list Action := steps ≫= acts_of.

Lemma live_run_app xs ys x :
  live_run (xs ++ ys) x = match live_run xs x with Some y => live_run ys y | None => None end.
Proof.
  revert x. induction xs as [|a xs IH]; intros x; [done|]. cbn [app live_run].
  destruct (live_step a x); [apply IH|done].
Qed.

Lemma acts_app xs ys : acts (xs ++ ys) = acts xs ++ acts ys.
Proof. apply bind_app. Qed.

Lemma acts_cons a steps : acts (a :: steps) = acts_of a ++ acts steps.
Proof. done. Qed.

End live.

Lemma keeps_up_app f xs ys :
  keeps_up f (xs ++ ys) = keeps_up f xs && keeps_up (feed_run xs f) ys.
Proof.
  revert f. induction xs as [|a xs IH]; intros f; cbn [app keeps_up].
  - rewrite andb_true_r. cbn [feed_run foldl]. destruct ys; cbn [keeps_up];
      by destruct (_ <=? _)%N.
  - rewrite IH, andb_assoc. done.
Qed.

(** * Lemmas *)

(** ** What cannot happen any more *)
Section over.
Context (so se ev : path) (hs : Handles).
Implicit Types (x y : Live) (steps : list Step).

(** A container that has exited prints nothing. *)
Lemma exited_prints_nothing k steps x y :
  live_run so se ev hs steps x = Some y -> running x = false ->
  running y = false /\ concat (wrote k <$> acts steps) = [].
Proof.
  revert x. induction steps as [|a steps IH]; intros x H Hr; [by simplify_eq/=|].
  cbn [live_run] in H. destruct (live_step so se ev hs a x) as [x'|] eqn:Ha; [|done].
  assert (running x' = false /\ concat (wrote k <$> acts_of a) = []) as [Hx Hw].
  { destruct a; cbn [live_step acts_of] in *; rewrite ?Hr in Ha; simplify_eq.
    - done.
    - destruct (watcher x); [|done]. destruct (truthful _ _); by simplify_eq.
    - destruct (ended x); simplify_eq. split; [|done]. unfold follower_turn.
      by destruct (pipe_act so se ev hs Poll (pipe x)) as [[| |[]] q].
    - destruct (ended x); [done|]. destruct (watcher x) as [|[]]; by simplify_eq. }
  destruct (IH x' H Hx) as [Hy Hws].
  rewrite acts_cons, fmap_app, concat_app, Hw, Hws. done.
Qed.

(** A stream that has ended delivers nothing. *)
Lemma ended_delivers_nothing steps x y :
  live_run so se ev hs steps x = Some y -> ended x = true ->
  chan (pipe y) = chan (pipe x) /\ ended y = true.
Proof.
  revert x. induction steps as [|a steps IH]; intros x H He; [by simplify_eq/=|].
  cbn [live_run] in H. destruct (live_step so se ev hs a x) as [x'|] eqn:Ha; [|done].
  assert (chan (pipe x') = chan (pipe x) /\ ended x' = true) as [Hc Hx].
  { destruct a; cbn [live_step] in *; rewrite ?He in Ha.
    - destruct (running x); by simplify_eq.
    - destruct (running x); by simplify_eq.
    - simplify_eq. unfold act. cbn [pipe_act pipe ended].
      by destruct (drain_of so se ev k now (tails (pipe x), pdisk (pipe x))) as [r [l dk]].
    - destruct (watcher x); [|done]. destruct (truthful _ _); by simplify_eq.
    - done.
    - done. }
  rewrite <-Hc. by apply (IH x').
Qed.

Lemma last_turn_ends steps x y :
  live_run so se ev hs (steps ++ [LastTurn]) x = Some y -> ended y = true.
Proof.
  rewrite live_run_app. destruct (live_run _ _ _ _ steps x) as [z|]; [|done]. cbn.
  destruct (ended z); [done|]. destruct (watcher z) as [|[]]; [done| |done]. by intros [= <-].
Qed.

(** The follower's part of the system. *)
Definition follow_part (p : Pipe) : Follow := mkFollow (feed_state p) (chan p) (pdisk p).

Lemma act_poll x :
  let r := poll_events_once ev (follow_part (pipe x)) in
  (pipe_act so se ev hs Poll (pipe x)).1 = OPolled r.1 /\
  follow_part (pipe (act so se ev hs Poll x)) = r.2 /\
  ended (act so se ev hs Poll x) = ended x.
Proof.
  unfold act, follow_part. cbn [pipe_act pipe ended].
  destruct (poll_events_once ev _) as [o [e t dk]]. done.
Qed.

(** Its turns, one after the other, are [follow_loop]. *)
Lemma follow_loop_turns n x y :
  live_run so se ev hs (replicate (S n) Turn ++ [LastTurn]) x = Some y ->
  follow_loop ev (replicate n FSlept ++ [FStop]) (follow_part (pipe x)) = (FDone, follow_part (pipe y)).
Proof.
  revert x. induction n as [|n IH]; intros x; cbn [replicate app live_run live_step follow_loop];
    (destruct (ended x); [done|]); destruct (act_poll x) as (Ho & Hp & _); unfold follower_turn;
    destruct (poll_events_once ev (follow_part (pipe x))) as [o st] eqn:E; cbn [fst snd] in *;
    rewrite Ho, (run_bind _ _ _ _ _ E); (destruct o; [|done..]).
  - destruct (act_poll (act so se ev hs Poll x)) as (_ & Hp' & _). rewrite Hp in Hp'.
    destruct (ended (act _ _ _ _ _ x)); [done|]. cbn [watcher act].
    destruct (watcher x) as [|[]]; [done| |done]. intros [= <-].
    unfold mbind, ST_bind. destruct (poll_events_once ev st). cbn in *. by rewrite <-Hp'.
  - rewrite <-Hp. apply IH.
Qed.

(** The tailer can always take its turn. *)
Lemma passes_run late x :
  exists y, live_run so se ev hs ((fun p => Pass p.1 p.2) <$> late) x = Some y.
Proof.
  revert x. induction late as [|[k now] late IH]; intros x; [by eexists|]. apply IH.
Qed.

(** The container's last words, seen by the watcher and the follower only. *)
Lemma last_words_run k b info st x :
  running x = true -> ended x = false -> watcher x = inl st ->
  t_status <$> ci_task info = Some Inspect.Stopped ->
  exists y, live_run so se ev hs [Print k b; Exit; Inspected (Ok info); LastTurn] x = Some y /\
    ended y = true.
Proof.
  intros Hr He Hw Hi. destruct x as [p r w e]. cbn [running ended watcher] in *. subst.
  cbn [live_run live_step act running ended watcher pipe truthful negb andb watch_step].
  rewrite decide_True by done. by eexists.
Qed.

End over.

(** ** The pipeline under a run *)
Section lemmas.
Context (d so se : path) (hs : Handles) (Hhs : h_out hs <> h_err hs).
Abbreviation ev := (d ++ ["events.log"]).
Abbreviation sim := (LogPipeline.sim d so se hs).
Implicit Types (x y : Live) (steps : list Step).

Lemma keeps_up_head f xs : keeps_up f xs = true -> backlog_ok f.
Proof. destruct xs; cbn [keeps_up]; intros [H _]%andb_true_iff; by apply N.leb_le. Qed.

(** A turn of the follower that keeps up is a poll. *)
Lemma follower_turn_polls x f :
  sim (pipe x) f -> backlog_ok f -> follower_turn so se ev hs x = act so se ev hs Poll x.
Proof.
  intros Hs Hb. destruct (poll_act_sim d so se hs (pipe x) f Hs Hb) as [Ho _].
  unfold follower_turn. destruct (pipe_act so se ev hs Poll (pipe x)) as [[| |[]] q]; by simplify_eq/=.
Qed.

(** A turn is its actions on the pipeline. *)
Lemma live_step_pipe a x y f :
  live_step so se ev hs a x = Some y -> sim (pipe x) f -> keeps_up f (acts_of a) = true ->
  sim (pipe y) (feed_run (acts_of a) f) /\
  (ended y = match a with LastTurn => true | _ => ended x end).
Proof.
  intros H Hs Hk. destruct (run_sim d so se hs Hhs (acts_of a) _ f Hs Hk) as [_ Hr].
  destruct a as [k b| |k now|r| |]; cbn [live_step acts_of] in *.
  - destruct (running x); by simplify_eq.
  - destruct (running x); by simplify_eq.
  - by simplify_eq.
  - destruct (watcher x); [|done]. destruct (truthful _ _); by simplify_eq.
  - destruct (ended x) eqn:Ee; simplify_eq.
    rewrite (follower_turn_polls x f) by (done || by eapply keeps_up_head). by split.
  - destruct (ended x); [done|]. destruct (watcher x) as [|[]]; by simplify_eq.
Qed.

Lemma live_run_pipe steps x y f :
  live_run so se ev hs steps x = Some y -> sim (pipe x) f -> keeps_up f (acts steps) = true ->
  sim (pipe y) (feed_run (acts steps) f).
Proof.
  revert x f. induction steps as [|a steps IH]; intros x f H Hs Hk; [by simplify_eq/=|].
  cbn [live_run] in H. destruct (live_step so se ev hs a x) as [x'|] eqn:Ha; [|done].
  rewrite acts_cons, keeps_up_app in Hk. apply andb_true_iff in Hk as [Hk1 Hk2].
  destruct (live_step_pipe a x x' f Ha Hs Hk1) as [Hs' _].
  rewrite acts_cons, feed_run_app. by apply (IH x').
Qed.

End lemmas.

(** * Properties *)

(** C6. A stream that ended with the task has delivered the output, if the tailer
    had its passes in time.  However the turns of the container, the tailer,
    the watcher and the follower fall: when after the last print on a stream
    (as is anything after the exit) and before the last turn of the follower
    the tailer drained the stream often enough for what it had not read, then
    whatever follows, the stream has ended and the receiver got that stream's
    whole output, in order and once, except a last line that has no newline
    (provided the follower is not left more than [EVENTS_ROTATE_BYTES]
    behind). *)
Theorem until_exit_delivers d so se hs s printing draining rest x k
    (f0 := feed_start (contents s (h_out hs)) (contents s (h_err hs)))
    (output := contents s (handle_of hs k) ++ concat (wrote k <$> acts printing)) :
  h_out hs <> h_err hs -> fresh d so se hs s ->
  live_run so se (d ++ ["events.log"]) hs
    (printing ++ draining ++ [LastTurn] ++ rest) (live_start s) = Some x ->
  keeps_up f0 (acts (printing ++ draining ++ [LastTurn])) = true ->
  concat (wrote k <$> acts draining) = [] ->
  (blen output <= taken (source k (feed_run (acts printing) f0)) +
     N.of_nat (drains k (acts draining)) * MAX_READ_CHUNK)%N ->
  ended x = true /\ exists unfinished,
    of_stream k (received (chan (pipe x))) ++ unfinished = output /\
    no_nl unfinished /\ (blen unfinished < MAX_LEFTOVER_BYTES)%N.
Proof.
  intros Hhs Hf Hrun Hk Hw Hb.
  rewrite !app_assoc, live_run_app in Hrun. rewrite <-!app_assoc in Hrun.
  destruct (live_run _ _ _ _ (printing ++ _) _) as [y|] eqn:Hy; [|done].
  pose proof (live_run_pipe d so se hs Hhs _ _ _ f0 Hy (start_sim d so se hs s Hf) Hk) as Hs.
  rewrite app_assoc in Hy. apply last_turn_ends in Hy.
  destruct (ended_delivers_nothing so se _ hs _ _ _ Hrun Hy) as [Hx He]. split; [done|].
  rewrite Hx, (sm_chan _ _ _ _ _ _ Hs), received_ok, of_stream_trunc.
  rewrite !acts_app, !feed_run_app. cbn [acts_of acts mbind list_bind app].
  set (f := feed_run (acts printing) f0) in *.
  assert (Hok : source_ok k f) by apply feed_run_ok, source_ok_start.
  assert (Hwf : written (source k f) = output) by (unfold f; rewrite feed_run_written; by destruct k).
  pose proof (feed_run_ok k (acts draining) f Hok) as (Hd & _ & Hl & Hn).
  rewrite drains_catch_up in Hd by (done || by rewrite Hwf).
  rewrite Hwf, feed_run_written, Hw, app_nil_r, Hwf, to_nat_blen, take_ge in Hd by done.
  eexists. split_and!; [exact Hd|exact Hn|exact Hl].
Qed.

(** C17. Without those passes the last output is missing, although the watcher
    saw a task that had exited and the follower polled once more: after any run
    in which the container is up, it may print and exit, the watcher see it and
    the follower take its last turn, before the tailer's next pass; the stream
    has then ended with what was published before, and whatever the tailer
    publishes later does not reach it. *)
Theorem until_exit_can_miss d so se hs s steps x st info k b late
    (f0 := feed_start (contents s (h_out hs)) (contents s (h_err hs)))
    (f := feed_run (acts steps) f0) :
  h_out hs <> h_err hs -> fresh d so se hs s ->
  live_run so se (d ++ ["events.log"]) hs steps (live_start s) = Some x ->
  keeps_up f0 (acts steps) = true ->
  running x = true -> ended x = false -> watcher x = inl st ->
  t_status <$> ci_task info = Some Inspect.Stopped ->
  exists y, live_run so se (d ++ ["events.log"]) hs
      (steps ++ [Print k b; Exit; Inspected (Ok info); LastTurn] ++
       ((fun p => Pass p.1 p.2) <$> late)) (live_start s) = Some y /\
    ended y = true /\
    received (chan (pipe y)) = trunc_entry <$> (delivered f ++ pending f).
Proof.
  intros Hhs Hf Hrun Hk Hr He Hw Hi.
  pose proof (live_run_pipe d so se hs Hhs _ _ _ f0 Hrun (start_sim d so se hs s Hf) Hk) as Hs.
  destruct (last_words_run so se (d ++ ["events.log"]) hs k b info st x Hr He Hw Hi) as (y & Hy & Hey).
  destruct (passes_run so se (d ++ ["events.log"]) hs late y) as (z & Hz).
  destruct (ended_delivers_nothing so se _ hs _ _ _ Hz Hey) as [Hc Hez].
  assert (Hb : backlog_ok f).
  { rewrite <-(app_nil_r (acts steps)), keeps_up_app in Hk. apply andb_true_iff in Hk as [_ Hk].
    by apply keeps_up_head in Hk. }
  exists z. split_and!; [by rewrite live_run_app, Hrun, live_run_app, Hy|done|].
  rewrite Hc. apply (live_run_pipe d so se hs Hhs _ _ _ f) in Hy; [|done|].
  - rewrite (sm_chan _ _ _ _ _ _ Hy), received_ok. by destruct k.
  - apply N.leb_le in Hb. cbn [acts mbind list_bind acts_of app keeps_up].
    replace (pending (feed_act (Write k b) f)) with (pending f) by by destruct k.
    by rewrite Hb.
Qed.

(** ** The intervals *)

(** A schedule gives each turn an instant. *)
Definition Schedule : Type := list (Duration * Step).

(** The instants of a loop that sleeps [interval] in each round. *)
Definition ticks (first interval : Duration) (n : nat) : list Duration :=
  (fun i => first + N.of_nat i * interval)%N <$> seq 0 n.

Definition turns_of (p : Step -> bool) (sched : Schedule) : list Duration :=
  fst <$> List.filter (fun ts => p ts.2) sched.

Definition drains_of (k : LogStream) (a : Step) : bool :=
  match a with Pass j _ => bool_decide (j = k) | _ => false end.
Definition polls (a : Step) : bool := match a with Turn => true | _ => false end.
Definition inspects (a : Step) : bool := match a with Inspected _ => true | _ => false end.

(** Every loop sleeps exactly its interval (the watcher before its first turn),
    and the turns are in order. *)
Definition punctual (sched : Schedule) : bool :=
  let loops p first interval :=
    let ts := turns_of p sched in bool_decide (ts = ticks first interval (length ts)) in
  loops (drains_of Stdout) 0%N TAILER_INTERVAL && loops (drains_of Stderr) 0%N TAILER_INTERVAL &&
  loops polls 0%N FOLLOW_INTERVAL && loops inspects BASE_INTERVAL BASE_INTERVAL &&
  bool_decide (StronglySorted N.le (fst <$> sched)).

(** ** Witnesses *)
Definition demo_live : Live := live_start demo_pipe_fs.

Definition exited : ContainerInfo :=
  mkContainerInfo (mkContainerId "c1") "c1" "busybox" ∅ ∅ [] (Some (mkTaskInfo 7 Inspect.Stopped (Some 0%Z))) [].

(** The container prints and exits between the tailer's pass at 200 ms and the
    inspection at 250 ms. *)
Definition close_call : Schedule :=
  (fun ts => (from_millis ts.1, ts.2)) <$>
  [(0, Pass Stdout 0); (0, Pass Stderr 0); (0, Turn);
   (100, Pass Stdout 100000000); (100, Pass Stderr 100000000); (100, Turn);
   (200, Pass Stdout 200000000); (200, Pass Stderr 200000000); (200, Turn);
   (210, Print Stdout (str_bytes " done" ++ [NL])); (220, Exit);
   (250, Inspected (Ok exited)); (250, LastTurn);
   (300, Pass Stdout 300000000); (300, Pass Stderr 300000000)]%N.

Abbreviation demo_run := (live_run ["/"; "d"; "stdout"] ["/"; "d"; "stderr"]
  (["/"; "d"] ++ ["events.log"]) demo_handles).

(** The intervals of the source do not rule the loss out: the stream ends
    empty, the log has the line. *)
Lemma punctual_miss :
  punctual close_call = true /\
  match demo_run (snd <$> close_call) demo_live with
  | Some x => ended x = true /\ received (chan (pipe x)) = [] /\
      history (fs (pdisk (pipe x))) (["/"; "d"] ++ ["events.log"]) =
        [mkLogEntry Stdout 300000000 (str_bytes "boot done" ++ [NL])]
  | None => False
  end.
Proof. vm_compute. auto. Qed.

(** A container that prints three lines and sleeps before it exits, as in the
    integration test of the stream. *)
Lemma until_exit_delivers_witness :
  match demo_run ([Pass Stdout 1; Turn; Print Stdout (str_bytes "ed" ++ [NL] ++ str_bytes "two" ++ [NL])] ++
      [Pass Stdout 200000000; Exit; Inspected (Ok exited)] ++ [LastTurn] ++ [Pass Stderr 300000000])
      demo_live with
  | Some x => exists unfinished,
      of_stream Stdout (received (chan (pipe x))) ++ unfinished =
        str_bytes "booted" ++ [NL] ++ str_bytes "two" ++ [NL]
  | None => False
  end.
Proof.
  destruct (demo_run _ demo_live) as [x|] eqn:E; [|by vm_compute in E].
  destruct (until_exit_delivers ["/"; "d"] ["/"; "d"; "stdout"] ["/"; "d"; "stderr"] demo_handles
    demo_pipe_fs
    [Pass Stdout 1; Turn; Print Stdout (str_bytes "ed" ++ [NL] ++ str_bytes "two" ++ [NL])]
    [Pass Stdout 200000000; Exit; Inspected (Ok exited)] [Pass Stderr 300000000] x Stdout)
    as (_ & u & H & _).
  - discriminate.
  - exact demo_fresh.
  - exact E.
  - vm_compute. reflexivity.
  - reflexivity.
  - vm_compute. discriminate.
  - exists u. exact H.
Defined.

Lemma until_exit_can_miss_witness :
  exists y, demo_run ([Pass Stdout 1; Turn] ++
      [Print Stdout (str_bytes " done" ++ [NL]); Exit; Inspected (Ok exited); LastTurn] ++
      [Pass Stdout 200000000]) demo_live = Some y /\
    ended y = true /\ received (chan (pipe y)) = [].
Proof.
  destruct (demo_run [Pass Stdout 1; Turn] demo_live) as [x|] eqn:E; [|by vm_compute in E].
  assert (H : running x = true /\ ended x = false /\ watcher x = inl watch_start)
    by (vm_compute in E; injection E as <-; auto).
  destruct H as (Hr & He & Hw).
  exact (until_exit_can_miss ["/"; "d"] ["/"; "d"; "stdout"] ["/"; "d"; "stderr"] demo_handles
    demo_pipe_fs [Pass Stdout 1; Turn] x watch_start exited Stdout
    (str_bytes " done" ++ [NL]) [(Stdout, 200000000%Z)] ltac:(discriminate) demo_fresh E eq_refl
    Hr He Hw eq_refl).
Defined.
