(* ===== verification/Layers.v ===== *)
(** * The snapshotter's contract

    The snapshot code ([src/clone.rs], [src/snapshot.rs]) moves layers of a
    container's file system around through the daemon's snapshot service.
    Class [Snapshotter] is what it relies on of that service: a map of layers
    that preparing, committing and removing change the way containerd documents
    it.  Any of the three may be refused; in particular a removal may be, also
    that of an active layer, as the code expects (it ignores or logs such an
    error).  Class [Undisturbed] is the proviso under which a theorem can say
    what a whole function does to the layers: nobody else changes them while it
    runs -- no other client, no unpacking of a pull, and no garbage collection,
    by which containerd removes, some time after a deletion, layers that no
    container, child layer, label or lease refers to (the crate sets no such
    label and takes no lease).  The demonstration daemon is an instance of
    both.  The section below says of every function the snapshot code calls
    that it leaves the layers alone. *)

From S2P Require Import Prelude RustText RustFmt Errors Effects FileSystem Identifier World DemoDaemon Loops Bridge ContainerSpec Inspect ClientState Task Create ClientApi.

(** A layer: active ones are writable and hold a container's data, committed
    ones are frozen and can be parents. *)
Record Layer : Type := mkLayer { ly_parent : string; ly_labels : labels_map; ly_committed : bool }.

Abbreviation Layers := (gmap (string * string) Layer).

(** The requests that change layers; pulling an image unpacks it. *)
Definition writes_layers (r : Req) : bool :=
  match r with
  | Prepare _ _ _ _ | Commit _ _ _ _ | RemoveSnapshot _ _ | Transfer _ => true
  | _ => false
  end.

Class Snapshotter (E : Env) : Type := mkSnapshotter {
  layers : string -> Ext -> Layers;
  on_prepare : forall ns sn key parent l e,
    match handle ns (Prepare sn key parent l) e with
    | (Ok _, _, e') => layers ns e !! (sn, key) = None /\
        layers ns e' = <[(sn, key) := mkLayer parent l false]> (layers ns e)
    | (Err s, _, e') => layers ns e' = layers ns e /\
        (code s = AlreadyExists -> is_Some (layers ns e !! (sn, key)))
    end;
  on_commit : forall ns sn name key l e,
    match handle ns (Commit sn name key l) e with
    | (Ok _, _, e') => layers ns e !! (sn, name) = None /\
        exists p lb, layers ns e !! (sn, key) = Some (mkLayer p lb false) /\
        layers ns e' = <[(sn, name) := mkLayer p l true]> (delete (sn, key) (layers ns e))
    | (Err s, _, e') => layers ns e' = layers ns e /\
        (code s = AlreadyExists -> is_Some (layers ns e !! (sn, name)))
    end;
  on_remove : forall ns sn key e,
    match handle ns (RemoveSnapshot sn key) e with
    | (Ok _, _, e') => layers ns e' = delete (sn, key) (layers ns e)
    | (Err s, _, e') => layers ns e' = layers ns e /\
        (code s = NotFound -> layers ns e !! (sn, key) = None)
    end;
  on_stat : forall ns sn key e,
    match handle ns (StatSnapshot sn key) e with
    | (Ok (Some i), _, _) => exists p c, layers ns e !! (sn, key) = Some (mkLayer p (s_labels i) c)
    | (Ok None, _, _) => True
    | (Err s, _, _) => code s = NotFound -> layers ns e !! (sn, key) = None
    end
}.

(** Nothing but these requests changes a layer: neither another request, nor
    what goes on in the time a request or a pause takes. *)
Class Undisturbed (E : Env) {SN : Snapshotter E} : Prop := mkUndisturbed {
  keeps_req : forall ns ns' r e, writes_layers r = false ->
    layers ns (handle ns' r e).2 = layers ns e;
  keeps_overshoot : forall ns d e, layers ns (overshoot d e).2 = layers ns e;
  keeps_uuid : forall ns e, layers ns (fresh_uuid e).2 = layers ns e;
  keeps_choose : forall ns l e, layers ns (choose l e).2 = layers ns e;
  keeps_bind : forall ns e, layers ns (bind_ephemeral e).2 = layers ns e
}.

Section layers.
Context {E : Env} {SN : Snapshotter E} {UD : Undisturbed E} {Meta : Type}.
Abbreviation W := (World Meta).
Implicit Types (w : W) (client : Client).

Definition layers_of (client : Client) w : Layers := layers (namespace client) (ext w).

Definition same_layers client w w' : Prop := layers_of client w' = layers_of client w.

#[export] Instance same_layers_refl client : Reflexive (same_layers client).
Proof. done. Qed.
#[export] Instance same_layers_trans client : Transitive (same_layers client).
Proof. intros w1 w2 w3. unfold same_layers. congruence. Qed.

Lemma same_rpc client c r : writes_layers r = false -> pres (same_layers client) (rpc c r).
Proof.
  intros Hr w. unfold rpc, same_layers, layers_of.
  pose proof (keeps_req (namespace client) (namespace c) r (ext w) Hr) as H.
  destruct (handle _ _ _) as [[a d] e]. exact H.
Qed.

Lemma same_sleep client d : pres (same_layers client) (sleep d).
Proof.
  intros w. unfold sleep, same_layers, layers_of.
  pose proof (keeps_overshoot (namespace client) d (ext w)) as H.
  destruct (overshoot _ _). exact H.
Qed.

Lemma same_uuid client : pres (same_layers client) (outside fresh_uuid).
Proof. intros w. apply keeps_uuid. Qed.

Lemma same_bind client : pres (same_layers client) (outside bind_ephemeral).
Proof. intros w. apply keeps_bind. Qed.

Lemma same_choose client used : pres (same_layers client) (outside (pick_free_octet choose used)).
Proof.
  intros w. unfold outside, same_layers, layers_of, pick_free_octet.
  pose proof (keeps_choose (namespace client) (free_octets used) (ext w)) as H.
  destruct (choose _ _). exact H.
Qed.

(** Past a step that leaves the layers alone. *)
Lemma same_try {A B} client (m : ST W (Result A)) (k : A -> ST W (Result B)) w r w' :
  pres (same_layers client) m -> try_st m k w = (r, w') ->
  (exists a w1, m w = (Ok a, w1) /\ layers_of client w1 = layers_of client w /\
     k a w1 = (r, w')) \/
  (is_ok r = false /\ layers_of client w' = layers_of client w).
Proof.
  intros Hm [(a & w1 & H1 & H)|(e & H1 & ->)]%try_inv; specialize (Hm w); rewrite H1 in Hm.
  - left. exists a, w1. done.
  - by right.
Qed.

Lemma same_then {A B} client (m : ST W A) (k : A -> ST W B) w r w' :
  pres (same_layers client) m -> (m ≫= k) w = (r, w') ->
  exists a w1, m w = (a, w1) /\ layers_of client w1 = layers_of client w /\ k a w1 = (r, w').
Proof.
  intros Hm (a & w1 & H1 & H)%bind_inv. specialize (Hm w). rewrite H1 in Hm. by exists a, w1.
Qed.

(** ** The three writes *)
Lemma rpc_prepare client sn key parent l w :
  match rpc client (Prepare sn key parent l) w with
  | (Ok _, w') => layers_of client w !! (sn, key) = None /\
      layers_of client w' = <[(sn, key) := mkLayer parent l false]> (layers_of client w)
  | (Err s, w') => same_layers client w w' /\
      (code s = AlreadyExists -> is_Some (layers_of client w !! (sn, key)))
  end.
Proof.
  unfold rpc, same_layers, layers_of. pose proof (on_prepare (namespace client) sn key parent l (ext w)) as H.
  destruct (handle _ _ _) as [[[u|s] d] e]; exact H.
Qed.

Lemma rpc_commit client sn name key l w :
  match rpc client (Commit sn name key l) w with
  | (Ok _, w') => layers_of client w !! (sn, name) = None /\
      exists p lb, layers_of client w !! (sn, key) = Some (mkLayer p lb false) /\
      layers_of client w' =
        <[(sn, name) := mkLayer p l true]> (delete (sn, key) (layers_of client w))
  | (Err s, w') => same_layers client w w' /\
      (code s = AlreadyExists -> is_Some (layers_of client w !! (sn, name)))
  end.
Proof.
  unfold rpc, same_layers, layers_of. pose proof (on_commit (namespace client) sn name key l (ext w)) as H.
  destruct (handle _ _ _) as [[[u|s] d] e]; exact H.
Qed.

Lemma rpc_remove client sn key w :
  match rpc client (RemoveSnapshot sn key) w with
  | (Ok _, w') => layers_of client w' = delete (sn, key) (layers_of client w)
  | (Err s, w') => same_layers client w w' /\
      (code s = NotFound -> layers_of client w !! (sn, key) = None)
  end.
Proof.
  unfold rpc, same_layers, layers_of. pose proof (on_remove (namespace client) sn key (ext w)) as H.
  destruct (handle _ _ _) as [[[u|s] d] e]; exact H.
Qed.

Lemma rpc_stat client sn key w :
  match rpc client (StatSnapshot sn key) w with
  | (Ok (Some i), _) => exists p c,
      layers_of client w !! (sn, key) = Some (mkLayer p (s_labels i) c)
  | (Ok None, _) => True
  | (Err s, _) => code s = NotFound -> layers_of client w !! (sn, key) = None
  end.
Proof.
  unfold rpc, layers_of. pose proof (on_stat (namespace client) sn key (ext w)) as H.
  destruct (handle _ _ _) as [[[[i|]|s] d] e]; exact H.
Qed.

(** The removal of layer [key] was refused, other than because it is not
    there. *)
Definition removal_refused client sn key w w' : Prop :=
  exists s, rpc client (RemoveSnapshot sn key) w = (Err s, w') /\ code s <> NotFound.

(** A layer that is there is removed when asked, or the removal is refused. *)
Lemma remove_or_refused client sn key ly w r w' :
  layers_of client w !! (sn, key) = Some ly -> rpc client (RemoveSnapshot sn key) w = (r, w') ->
  layers_of client w' = delete (sn, key) (layers_of client w) \/
  layers_of client w' = layers_of client w /\ removal_refused client sn key w w'.
Proof.
  intros Hl H. pose proof (rpc_remove client sn key w) as Hr. rewrite H in Hr.
  destruct r as [u|s]; [by left|right]. destruct Hr as [Hr Hn]. split; [exact Hr|].
  exists s. split; [done|]. intros Hc. by rewrite Hn in Hl.
Qed.

End layers.

Ltac same_step :=
  idtac; match goal with
  | |- pres (same_layers ?cl) (rpc ?c ?r) => exact (same_rpc cl c r eq_refl)
  | |- pres _ (sleep _) => apply same_sleep
  | |- pres _ (outside fresh_uuid) => apply same_uuid
  | |- pres _ (outside bind_ephemeral) => apply same_bind
  | |- pres _ (outside (pick_free_octet choose _)) => apply same_choose
  end.
Ltac same := walk same_step.

(** ** What leaves the layers alone *)
Section frame.
Context {E : Env} {L : Libs} {SN : Snapshotter E} {UD : Undisturbed E} {Meta : Type}.
Implicit Types (w : World Meta) (client cl : Client).

Lemma same_inspect cl client id :
  pres (same_layers (Meta := Meta) cl) (inspect_container client id).
Proof. unfold inspect_container, get_container, get_task_info. same. Qed.

Lemma same_stop cl client id t :
  pres (same_layers (Meta := Meta) cl) (stop_container client id t).
Proof.
  pose proof same_inspect. unfold stop_container, stop_task, kill_task, wait_for_task_stop,
    is_task_running, task_has_stopped, get_task_info. same.
Qed.

Lemma same_retry_delete cl client id t :
  pres (same_layers (Meta := Meta) cl) (retry_delete_task client id t).
Proof.
  unfold retry_delete_task, retry_round, delete_task, forget_task_start. same.
Qed.

Lemma same_client_start cl client id :
  pres (same_layers (Meta := Meta) cl) (client_start_container client id).
Proof.
  unfold client_start_container, start_container, get_container, record_task_start,
    start_managed_tailer, log_tailer_start, log_tailer_stop. same.
  intros w. by repeat case_match.
Qed.

Lemma same_stop_forwards cl id :
  pres (same_layers (Meta := Meta) cl) (stop_managed_forwards id).
Proof.
  unfold stop_managed_forwards. apply pres_bind; [apply _|by intros w|]. intros w0.
  apply pres_bind; [apply _|by intros w|]. intros [].
  intros w. unfold modify_st. rewrite stopped_trace. done.
Qed.

End frame.

(** ** What a deletion asks to have removed *)
Section own.
Context {E : Env} {L : Libs} {Meta : Type} (client : Client) (id : string).
Abbreviation M := (ST (World Meta)).

(** The only layer whose removal is asked for is the container's own. *)
Definition own_removal (ev : Event) : Prop :=
  match ev with Sent _ (RemoveSnapshot _ key) => key = snapshot_key_for id | _ => True end.

Ltac own_step := idtac; first
  [ match goal with |- pres _ (rpc ?c ?r) =>
      first [exact (emits_rpc own_removal c r I) | exact (emits_rpc own_removal c r eq_refl)]
    end
  | apply emits_sleep; exact I
  | intros ?; apply emits_same; reflexivity ].
Ltac own := walk own_step.

Lemma own_inspect : pres (emits own_removal) (inspect_container client id : M _).
Proof. unfold inspect_container, get_container, get_task_info. own. Qed.

Lemma own_stop t : pres (emits own_removal) (stop_container client id t : M _).
Proof.
  pose proof own_inspect. unfold stop_container, stop_task, kill_task, wait_for_task_stop,
    is_task_running, task_has_stopped, get_task_info. own.
Qed.

Lemma own_phase_task : pres (emits own_removal) (phase_delete_task client id : M _).
Proof. unfold phase_delete_task, delete_task, forget_task_start. own. Qed.

Lemma own_phase_record : pres (emits own_removal) (phase_task_record_gone client id : M _).
Proof.
  pose proof own_inspect. unfold phase_task_record_gone, delete_task, forget_task_start. own.
Qed.

Lemma own_remove : pres (emits own_removal) (remove_container client id : M _).
Proof. unfold remove_container. own. Qed.

Lemma own_phase_container : pres (emits own_removal) (phase_container_record_gone client id : M _).
Proof.
  pose proof own_inspect. pose proof own_remove. unfold phase_container_record_gone. own.
Qed.

Lemma own_delete t : pres (emits own_removal) (delete_container client id t : M _).
Proof.
  pose proof own_stop. pose proof own_phase_task. pose proof own_phase_record.
  pose proof own_remove. pose proof own_phase_container. unfold delete_container. cbv zeta. own.
Qed.

End own.

(** Deleting a container asks for the removal of its own layer only. *)
Lemma own_client_delete {E : Env} {L : Libs} {Meta} client (id : ContainerId) t :
  pres (emits (Meta := Meta) (own_removal (as_str id))) (client_delete_container client id t).
Proof.
  pose proof (own_delete (Meta := Meta) client (as_str id)).
  unfold client_delete_container, stop_managed_forwards, stop_managed_tailer, log_tailer_stop.
  walk ltac:(intros ?; apply emits_same; reflexivity).
  - intros w. unfold modify_st. rewrite stopped_trace. eexists. split; [done|].
    by apply Forall_fmap, Forall_true.
  - intros w. eexists [_]. by repeat constructor.
Qed.

Section frame_create.
Context {E : Env} {L : Libs} {SN : Snapshotter E} {UD : Undisturbed E}.
Implicit Types (w : World ImageMetadata) (client cl : Client).

Lemma same_metadata cl client d ns :
  pres (same_layers cl) (get_image_metadata client d ns).
Proof.
  unfold get_image_metadata, fetch_image_metadata, config_digest_of, read_content,
    lookup_image_metadata, store_image_metadata, lift_res. same.
Qed.

Lemma same_bridge cl client opts : pres (same_layers cl) (bridge_config_for client opts).
Proof.
  assert (H : forall cps, pres (same_layers (Meta := ImageMetadata) cl) (pick_ports cps)).
  { induction cps; cbn [pick_ports]; unfold pick_free_port; same. }
  unfold bridge_config_for, alloc_bridge_ip, used_octets. same.
Qed.

Lemma same_steps cl client id name image opts :
  from_existing_snapshot opts <> None ->
  pres (same_layers cl) (create_steps client id name image opts).
Proof.
  intros Hs. unfold create_steps, prepare_for, image_target, lift_res.
  pose proof same_metadata. pose proof same_bridge.
  destruct (from_existing_snapshot opts) as [k|]; [|done].
  pres_step; [same|]. pres_step; [exact (same_rpc cl client (ListContainers _) eq_refl)|].
  pres_step; [by pres_step|]. same.
Qed.

(** Creating a container on an adopted snapshot touches no layer, whatever
    its outcome. *)
Lemma same_create cl client id name image opts :
  from_existing_snapshot opts <> None ->
  pres (same_layers cl) (create_container_with_id client id name image opts).
Proof.
  intros Hs w. rewrite create_split. pose proof (same_steps cl client (as_str id) name image opts Hs w) as Hw.
  unfold try_st, mbind, ST_bind at 1.
  destruct (create_steps client (as_str id) name image opts w) as [[[c ours]|e] w1] eqn:H1; [|exact Hw].
  apply steps_inv in H1 as (_ & -> & _). cbn [fst snd] in *. etransitivity; [exact Hw|].
  destruct (from_existing_snapshot opts) as [k|]; [|done]. unfold register.
  enough (G : pres (same_layers cl) (register client name c false ;;? mret (Ok id))) by apply G.
  unfold register. same.
Qed.

End frame_create.

(** ** The demonstration daemon is a snapshotter *)
Definition layer_of (s : Snap) : Layer :=
  mkLayer (s_parent (sn_info s)) (s_labels (sn_info s)) (sn_committed s).

Definition demo_layers (d : Demo) : Layers := layer_of <$> d_snaps d.

Lemma demo_keeps ns r d :
  writes_layers r = false -> d_snaps (demo_handle ns r d).2 = d_snaps d.
Proof.
  intros Hr. destruct r; try discriminate Hr; cbn; try done;
    unfold demo_set_task, demo_kill; repeat case_match; done.
Qed.

#[export] Program Instance demo_snapshotter : Snapshotter demo_env := {|
  layers := fun _ d => demo_layers d
|}.
Next Obligation.
  intros ns sn key parent l d. cbn. unfold demo_prepare, demo_layers.
  destruct (decide (is_Some (d_snaps d !! (sn, key)))) as [H|H].
  - split; [done|]. intros _. rewrite lookup_fmap. by apply fmap_is_Some.
  - destruct (decide (d_snaps d !! (sn, parent) = None)); [done|]. cbn.
    rewrite lookup_fmap, fmap_insert. split; [|done].
    destruct (d_snaps d !! (sn, key)); [|done]. by destruct H.
Qed.
Next Obligation.
  intros ns sn name key l d. cbn. unfold demo_commit, demo_layers.
  destruct (decide (is_Some (d_snaps d !! (sn, name)))) as [H|H].
  - split; [done|]. intros _. rewrite lookup_fmap. by apply fmap_is_Some.
  - destruct (d_snaps d !! (sn, key)) as [s|] eqn:Es; [|done].
    destruct (sn_committed s) eqn:Ec; [done|]. rewrite !lookup_fmap, Es. split.
    + destruct (d_snaps d !! (sn, name)); [|done]. by destruct H.
    + exists (s_parent (sn_info s)), (s_labels (sn_info s)). split.
      * cbn. unfold layer_of. by rewrite Ec.
      * cbn. by rewrite fmap_insert, fmap_delete.
Qed.
Next Obligation.
  intros ns sn key d. cbn. unfold demo_remove, demo_layers.
  destruct (d_snaps d !! (sn, key)) as [s|] eqn:Es.
  - destruct (sn_committed s && has_child d sn key) eqn:Eh; cbn.
    + by split.
    + by rewrite fmap_delete.
  - rewrite lookup_fmap, Es. done.
Qed.
Next Obligation.
  intros ns sn key d. cbn. unfold demo_layers, found. rewrite lookup_fmap.
  destruct (d_snaps d !! (sn, key)) as [s|]; cbn; [|done].
  by eexists _, _.
Qed.


#[export] Instance demo_undisturbed : Undisturbed demo_env.
Proof.
  split; [|done..]. intros ns ns' r d Hr. pose proof (demo_keeps ns' r d Hr) as H. cbn.
  destruct (demo_handle ns' r d) as [a d']. unfold demo_layers. cbn in *. by rewrite H.
Qed.
