(* ===== verification/Clone.v ===== *)
(** * Cloning ([src/clone.rs], [src/snapshot_util.rs])

    A clone freezes its source's writable layer once, as [<src>-clone-base],
    and starts from a layer of its own on top.  Loops over a [HashMap] are
    folds over [map_to_list]. *)

From S2P Require Import Prelude RustText RustFmt Errors Effects FileSystem Identifier World DemoDaemon Loops Bridge ContainerSpec Inspect ClientState Task Create ClientApi Layers.

(** ** [snapshot_util] *)
Definition network_from_labels (labels : labels_map) : NetworkMode :=
  match labels !! NETWORK_MODE_LABEL with
  | Some "host" => Host
  | _ => Bridge
  end.

Definition is_managed_label (key : string) : bool :=
  String.eqb key NETWORK_MODE_LABEL || String.eqb key BRIDGE_IP_LABEL
  || starts_with PORT_BINDING_LABEL_PREFIX key.

(** ** Options *)
Definition CLONE_BASE_SUFFIX : string := "-clone-base".
Definition SNAPSHOT_OP_STOP_TIMEOUT : Duration := from_secs 10.

Record CloneContainerOpts : Type := mkCloneContainerOpts {
  restart_src : bool;
  inherit_src_ports : bool;
  clone_ports : list N;
  clone_network : option NetworkMode;
  extra_env : labels_map;
  label_overrides : labels_map
}.

Definition clone_opts_default : CloneContainerOpts :=
  mkCloneContainerOpts false true [] None ∅ ∅.

(** The builder's mutators. *)
Definition clone_env (key value : string) (o : CloneContainerOpts) : CloneContainerOpts :=
  mkCloneContainerOpts (restart_src o) (inherit_src_ports o) (clone_ports o) (clone_network o)
    (<[key := value]> (extra_env o)) (label_overrides o).

Definition clone_label (key value : string) (o : CloneContainerOpts) : CloneContainerOpts :=
  mkCloneContainerOpts (restart_src o) (inherit_src_ports o) (clone_ports o) (clone_network o)
    (extra_env o) (<[key := value]> (label_overrides o)).

(** ** The options of the clone's creation *)
Definition insert_pair (m : labels_map) (kv : string * string) : labels_map := <[kv.1 := kv.2]> m.

Definition copy_label (m : labels_map) (kv : string * string) : labels_map :=
  if is_managed_label kv.1 then m else insert_pair m kv.

(** The overrides, last; the loop returns at the first managed one. *)
Fixpoint override_labels (overrides : list (string * string)) (m : labels_map) :
    Result labels_map :=
  match overrides with
  | [] => Ok m
  | kv :: overrides =>
      if is_managed_label kv.1 then
        Err (InvalidArgument ("label '" +:+ kv.1 +:+
          "' is managed by containerd-manager and cannot be overridden"))
      else override_labels overrides (insert_pair m kv)
  end.

Definition clone_create_opts (src_info : ContainerInfo) (dst_snapshot_key : string)
    (opts : CloneContainerOpts) : Result CreateContainerOpts :=
  let network_mode := default (network_from_labels (ci_labels src_info)) (clone_network opts) in
  let container_ports :=
    if inherit_src_ports opts then snd <$> ci_port_forwards src_info else clone_ports opts in
  let env := foldl insert_pair ∅ (map_to_list (ci_env src_info)) in
  let env := foldl insert_pair env (map_to_list (extra_env opts)) in
  let labels := foldl copy_label ∅ (map_to_list (ci_labels src_info)) in
  let? labels := override_labels (map_to_list (label_overrides opts)) labels in
  Ok (mkCreateContainerOpts env labels [] network_mode None
        ((fun cp => (0%N, cp)) <$> container_ports) (Some dst_snapshot_key)).

Section clone.
Context {E : Env} {L : Libs}.
Abbreviation M := (ST (World ImageMetadata)).

(** [ContainerRecord] wraps the container. *)
Definition fetch_container_record (client : Client) (container_id : string) :
    M (Result Container) :=
  r ← rpc client (GetContainer container_id);
  mret (match r with
        | Ok (Some c) => Ok c
        | Ok None => Err (ContainerNotFound container_id)
        | Err e => Err (if decide (code e = NotFound) then ContainerNotFound container_id
                        else into_crate_error e "get_container")
        end).

Definition ensure_clone_base (client : Client) (snapshotter src_active_key base_key : string) :
    M (Result unit) :=
  s ← rpc client (StatSnapshot snapshotter base_key);
  match s with
  | Ok _ => mret (Ok tt)
  | Err e =>
      if decide (code e <> NotFound) then mret (Err (into_crate_error e "clone_stat_base"))
      else
        c ← rpc client (Commit snapshotter base_key src_active_key ∅);
        match c with
        | Err e => mret (if decide (code e = AlreadyExists) then Ok tt
                         else Err (into_crate_error e "clone_commit_src"))
        | Ok _ =>
            p ← rpc client (Prepare snapshotter src_active_key base_key ∅);
            mret (match p with
                  | Ok _ => Ok tt
                  | Err e => if decide (code e = AlreadyExists) then Ok tt
                             else Err (into_crate_error e "clone_reprepare_src")
                  end)
        end
  end.

Definition prepare_clone_snapshot (client : Client)
    (snapshotter dst_key parent_key dst_id : string) : M (Result unit) :=
  p ← rpc client (Prepare snapshotter dst_key parent_key ∅);
  mret (map_err (fun e => if decide (code e = AlreadyExists) then ContainerAlreadyExists dst_id
                          else into_crate_error e "clone_prepare_dst") p).

Definition remove_snapshot (client : Client) (snapshotter key : string) : M (Result unit) :=
  r ← rpc client (RemoveSnapshot snapshotter key);
  mret (map_err (fun e => into_crate_error e "clone_remove_dst_snapshot") r).

Definition create_clone_record (client : Client) (dst_id : ContainerId) (dst_name : string)
    (src_info : ContainerInfo) (dst_snapshot_key : string) (opts : CloneContainerOpts) :
    M (Result unit) :=
  create_opts ←? lift_res (clone_create_opts src_info dst_snapshot_key opts);
  r ← create_container_with_id client dst_id dst_name (ci_image src_info) create_opts;
  mret (match r with Ok _ => Ok tt | Err e => Err e end).

Definition clone_inner (client : Client) (src : ContainerId) (dst_name : string)
    (src_info : ContainerInfo) (opts : CloneContainerOpts) : M (Result ContainerId) :=
  record ←? fetch_container_record client (as_str src);
  let snapshotter := c_snapshotter record in
  let src_snapshot_key := c_snapshot_key record in
  let base_key := as_str src +:+ CLONE_BASE_SUFFIX in
  uuid ← outside fresh_uuid;
  let dst_id := generate uuid in
  let dst_snapshot_key := snapshot_key_for (as_str dst_id) in
  ensure_clone_base client snapshotter src_snapshot_key base_key ;;?
  prepare_clone_snapshot client snapshotter dst_snapshot_key base_key dst_name ;;?
  r ← create_clone_record client dst_id dst_name src_info dst_snapshot_key opts;
  match r with
  | Err e => _ ← remove_snapshot client snapshotter dst_snapshot_key; mret (Err e)
  | Ok _ => mret (Ok dst_id)
  end.

(** Was the container's task running? *)
Definition was_running (info : ContainerInfo) : bool :=
  bool_decide (t_status <$> ci_task info = Some Running).

(** Stop a running source and drop its task. *)
Definition stop_source (client : Client) (src : string) (running : bool) : M (Result unit) :=
  if running then
    stop_container client src SNAPSHOT_OP_STOP_TIMEOUT ;;?
    retry_delete_task client src SNAPSHOT_OP_STOP_TIMEOUT
  else mret (Ok tt).

(** Start it again when asked; a failure is only logged. *)
Definition restart_source (client : Client) (src : ContainerId) (again : bool) : M unit :=
  if again then _ ← client_start_container client src; mret tt else mret tt.

Definition clone_container (client : Client) (src : ContainerId) (dst_name : string)
    (opts : CloneContainerOpts) : M (Result ContainerId) :=
  src_info ←? inspect_container client (as_str src);
  stop_source client (as_str src) (was_running src_info) ;;?
  result ← clone_inner client src dst_name src_info opts;
  _ ← restart_source client src (was_running src_info && restart_src opts);
  mret result.

End clone.

(** * Lemmas *)
Section options.

(** Inserting a list without duplicate keys is a union. *)
Lemma foldl_insert_list (l : list (string * string)) (acc : labels_map) :
  NoDup l.*1 -> foldl insert_pair acc l = list_to_map l ∪ acc.
Proof.
  revert acc. induction l as [|[k v] l IH]; intros acc; cbn; [by rewrite (left_id_L ∅ (∪))|].
  intros [Hk Hl]%NoDup_cons. rewrite IH by done. unfold insert_pair. cbn [fst snd].
  rewrite <-insert_union_l, insert_union_r; [done|]. by apply not_elem_of_list_to_map_1.
Qed.

Lemma foldl_insert_pair (m acc : labels_map) :
  foldl insert_pair acc (map_to_list m) = m ∪ acc.
Proof. rewrite foldl_insert_list, list_to_map_to_list; [done|]. apply NoDup_fst_map_to_list. Qed.

(** The labels a user may set. *)
Definition user_label (kv : string * string) : Prop := is_managed_label kv.1 = false.

Lemma foldl_copy_label (m : labels_map) :
  foldl copy_label ∅ (map_to_list m) = filter user_label m.
Proof.
  rewrite map_filter_alt. set (l := map_to_list m).
  assert (H : forall acc, foldl copy_label acc l = foldl insert_pair acc (filter user_label l)).
  { clearbody l. clear m. induction l as [|kv l IH]; intros acc; [done|]. cbn [foldl].
    rewrite IH, filter_cons. unfold copy_label.
    destruct (decide (user_label kv)) as [Hu|Hu]; unfold user_label in Hu.
    - by rewrite Hu.
    - apply not_false_iff_true in Hu. by rewrite Hu. }
  rewrite H, foldl_insert_list; [apply (right_id_L ∅ (∪))|].
  apply (sublist_NoDup _ l.*1); [apply NoDup_fst_map_to_list|].
  apply fmap_sublist, sublist_filter.
Qed.

Lemma override_labels_spec l m :
  match override_labels l m with
  | Ok m' => Forall user_label l /\ m' = foldl insert_pair m l
  | Err e => exists k v, (k, v) ∈ l /\ is_managed_label k = true /\
      e = InvalidArgument ("label '" +:+ k +:+
            "' is managed by containerd-manager and cannot be overridden")
  end.
Proof.
  revert m. induction l as [|[k v] l IH]; intros m; cbn; [done|].
  destruct (is_managed_label k) eqn:Ek.
  - exists k, v. split_and!; [left|done|done].
  - specialize (IH (insert_pair m (k, v))). destruct (override_labels _ _).
    + destruct IH as [H ->]. split; [|done]. by constructor.
    + destruct IH as (k' & v' & ? & ? & ?). exists k', v'. split_and!; [by right|done|done].
Qed.

End options.

(** ** The layers of a clone *)
Section layers.
Context {E : Env} {L : Libs} {SN : Snapshotter E} {UD : Undisturbed E}.
Abbreviation W := (World ImageMetadata).
Implicit Types (w : W) (client : Client).

(** The active layer [key] (on parent [p]) committed as [name], and gone. *)
Definition committed (sn key name p : string) (labels : labels_map) (m : Layers) : Layers :=
  <[(sn, name) := mkLayer p labels true]> (delete (sn, key) m).

(** ... and prepared again on top of it. *)
Definition frozen (sn key name p : string) (labels : labels_map) (m : Layers) : Layers :=
  <[(sn, key) := mkLayer name ∅ false]> (committed sn key name p labels m).

Lemma ensure_layers client sn key base w r w' :
  ensure_clone_base client sn key base w = (r, w') ->
  (layers_of client w' = layers_of client w /\
    (r = Ok tt -> exists i, (rpc client (StatSnapshot sn base) w).1 = Ok i)) \/
  exists p lb, layers_of client w !! (sn, key) = Some (mkLayer p lb false) /\
    layers_of client w !! (sn, base) = None /\
    (r = Ok tt /\ layers_of client w' = frozen sn key base p ∅ (layers_of client w) \/
     (exists e, r = Err e) /\
       layers_of client w' = committed sn key base p ∅ (layers_of client w)).
Proof.
  unfold ensure_clone_base. intros (s & w1 & H1 & H)%bind_inv.
  pose proof (same_rpc client client (StatSnapshot sn base) eq_refl w) as S1.
  rewrite H1 in *. cbn [fst snd] in *. unfold same_layers in S1.
  destruct s as [i|e]; [apply ret_inv in H as [<- <-]; left; eauto|].
  destruct (decide (code e <> NotFound)); [apply ret_inv in H as [<- <-]; left; by split|].
  apply bind_inv in H as (c & w2 & H2 & H).
  pose proof (rpc_commit client sn base key ∅ w1) as C. rewrite H2 in C.
  destruct c as [u|e2].
  - destruct C as (Hb & p & lb & Hk & C). rewrite S1 in *. right. exists p, lb.
    split_and!; [done..|].
    apply bind_inv in H as (q & w3 & H3 & H).
    pose proof (rpc_prepare client sn key base ∅ w2) as Q. rewrite H3 in Q.
    apply ret_inv in H as [<- <-]. destruct q as [u2|e3].
    + left. split; [done|]. destruct Q as [_ ->]. by rewrite C.
    + destruct Q as [Q HA]. unfold same_layers in Q. rewrite Q.
      destruct (decide (code e3 = AlreadyExists)) as [Ha|Ha]; [|right; split; [eauto|done]].
      exfalso. apply HA in Ha as [? Ha]. rewrite C in Ha.
      assert (Hne : key <> base) by (intros ->; congruence).
      rewrite lookup_insert_ne, lookup_delete_eq in Ha by congruence. done.
  - apply ret_inv in H as [<- <-]. left. destruct C as [C HA]. unfold same_layers in C.
    split; [congruence|]. destruct (decide (code e2 = AlreadyExists)) as [Ha|]; [|done].
    apply HA in Ha as [l Ha]. rewrite S1 in Ha. exfalso.
    pose proof (rpc_stat client sn base w) as St. rewrite H1 in St.
    rewrite St in Ha; [done|]. by destruct (decide (code e = NotFound)) as [|?]; [|exfalso].
Qed.

(** Undoing a preparation: the layer is gone, or its removal -- the last
    request -- was refused and it stays. *)
Definition undone client (sn key : string) (ly : Layer) (m : Layers) w' : Prop :=
  layers_of client w' = m \/
  (exists w, removal_refused client sn key w w') /\
    layers_of client w' = <[(sn, key) := ly]> m.

Lemma remove_layers client sn key w r w' m ly :
  layers_of client w = <[(sn, key) := ly]> m -> m !! (sn, key) = None ->
  rpc client (RemoveSnapshot sn key) w = (r, w') -> undone client sn key ly m w'.
Proof.
  intros Hw Hm H. apply (remove_or_refused client sn key ly) in H as [H|[H Hr]].
  - left. by rewrite H, Hw, delete_insert_id.
  - right. split; [by exists w|]. by rewrite H.
  - by rewrite Hw, lookup_insert_eq.
Qed.

Lemma same_fetch client id : pres (same_layers (Meta := ImageMetadata) client) (fetch_container_record client id).
Proof. unfold fetch_container_record. same. Qed.

Lemma same_record client dst name info key opts :
  pres (same_layers client) (create_clone_record client dst name info key opts).
Proof.
  intros w. unfold create_clone_record, lift_res.
  destruct (clone_create_opts info key opts) as [co|e] eqn:Hc; [|done].
  rewrite (run_try_ok _ _ w co w) by done.
  assert (Hk : from_existing_snapshot co <> None).
  { unfold clone_create_opts in Hc. apply bind_ok in Hc as (? & _ & [= <-]). done. }
  pose proof (same_create client client dst name (ci_image info) co Hk w) as H.
  unfold mbind, ST_bind. exact H.
Qed.

(** Once the base is there: prepare, create, and undo if that fails. *)
Definition clone_on_base (client : Client) (sn base : string) (dst_id : ContainerId)
    (dst_name : string) (src_info : ContainerInfo) (opts : CloneContainerOpts) :
    ST W (Result ContainerId) :=
  let key := snapshot_key_for (as_str dst_id) in
  prepare_clone_snapshot client sn key base dst_name ;;?
  r ← create_clone_record client dst_id dst_name src_info key opts;
  match r with
  | Err e => _ ← remove_snapshot client sn key; mret (Err e)
  | Ok _ => mret (Ok dst_id)
  end.

Lemma on_base_layers client sn base dst name info opts w r w' :
  clone_on_base client sn base dst name info opts w = (r, w') ->
  match r with
  | Ok d => d = dst /\ layers_of client w !! (sn, snapshot_key_for (as_str dst)) = None /\
      layers_of client w' =
        <[(sn, snapshot_key_for (as_str dst)) := mkLayer base ∅ false]> (layers_of client w)
  | Err _ =>
      undone client sn (snapshot_key_for (as_str dst)) (mkLayer base ∅ false) (layers_of client w) w'
  end.
Proof.
  unfold clone_on_base. cbv zeta. set (key := snapshot_key_for _). intros H.
  unfold prepare_clone_snapshot in H.
  apply try_inv in H as [(u & w1 & H1 & H)|(e & H1 & ->)];
    apply bind_inv in H1 as (q & wq & H1 & [Hq <-]%ret_inv);
    pose proof (rpc_prepare client sn key base ∅ w) as P; rewrite H1 in P;
    destruct q as [v|s]; try discriminate.
  - destruct P as [Hn P]. apply bind_inv in H as (r2 & w2 & H2 & H).
    pose proof (same_record client dst name info key opts wq) as S2. rewrite H2 in S2.
    unfold same_layers in S2. cbn [snd] in S2. destruct r2 as [v2|e2].
    + apply ret_inv in H as [<- <-]. split_and!; [done|done|]. by rewrite S2.
    + apply bind_inv in H as (r3 & w3 & H3 & [<- <-]%ret_inv). unfold remove_snapshot in H3. apply bind_inv in H3 as (r4 & w4 & H3 & [_ <-]%ret_inv).
      eapply remove_layers; [rewrite S2; exact P|done|exact H3].
  - left. apply P.
Qed.

Lemma clone_inner_split client src name info opts w :
  clone_inner client src name info opts w =
  (record ←? fetch_container_record client (as_str src);
   uuid ← outside fresh_uuid;
   ensure_clone_base client (c_snapshotter record) (c_snapshot_key record)
     (as_str src +:+ CLONE_BASE_SUFFIX) ;;?
   clone_on_base client (c_snapshotter record) (as_str src +:+ CLONE_BASE_SUFFIX)
     (generate uuid) name info opts) w.
Proof. done. Qed.

End layers.

(** * Properties *)

(** What a clone is created with: the environment of its source with the
    extra variables on top, the source's user labels with the overrides on
    top, the container ports of the source (or the given ones) with host ports
    to be chosen, the source's network mode unless one is given -- and an
    error exactly when an override names a label the crate manages. *)
Theorem clone_create_opts_spec src_info key opts :
  match clone_create_opts src_info key opts with
  | Ok co =>
      (forall k v, label_overrides opts !! k = Some v -> is_managed_label k = false) /\
      env co = extra_env opts ∪ ci_env src_info /\
      labels co = label_overrides opts ∪ filter user_label (ci_labels src_info) /\
      network_mode co = default (network_from_labels (ci_labels src_info)) (clone_network opts) /\
      snd <$> port_bindings co =
        (if inherit_src_ports opts then snd <$> ci_port_forwards src_info else clone_ports opts) /\
      Forall (fun p => p.1 = 0%N) (port_bindings co) /\
      from_existing_snapshot co = Some key
  | Err e =>
      exists k, is_Some (label_overrides opts !! k) /\ is_managed_label k = true /\
        e = InvalidArgument ("label '" +:+ k +:+
              "' is managed by containerd-manager and cannot be overridden")
  end.
Proof.
  unfold clone_create_opts. cbv zeta. set (ls := foldl copy_label ∅ _).
  pose proof (override_labels_spec (map_to_list (label_overrides opts)) ls) as H.
  destruct (override_labels _ ls) as [l|e]; cbn [try_bind].
  - destruct H as [Hu ->]. cbn. split_and!; try done.
    + intros k v Hk%elem_of_map_to_list. by apply (proj1 (Forall_forall _ _) Hu) in Hk.
    + by rewrite !foldl_insert_pair, (right_id_L ∅ (∪)).
    + unfold ls. by rewrite foldl_insert_pair, foldl_copy_label.
    + rewrite <-list_fmap_compose. apply list_fmap_id.
    + apply Forall_fmap, Forall_true. done.
  - destruct H as (k & v & Hk%elem_of_map_to_list & ? & ?). exists k. split_and!; eauto.
Qed.

(** C20. What cloning does to the layers, when nobody else (containerd's
    garbage collector included) changes any meanwhile.  Success adds the
    clone's layer on top of the base, the source being frozen into the base
    first unless the base was there.  After a failure the clone's layer is gone
    again -- unless the very removal the clean-up sends was refused, which the
    code ignores -- and the source is either untouched, or frozen and usable,
    or, when its layer could not be prepared again, without a writable one. *)
Theorem clone_inner_layers {E : Env} {L : Libs} {SN : Snapshotter E} {UD : Undisturbed E} client src dst_name info opts
    (w : World ImageMetadata) r w' :
  clone_inner client src dst_name info opts w = (r, w') ->
  match (fetch_container_record client (as_str src) w).1 with
  | Err e => r = Err e /\ layers_of client w' = layers_of client w
  | Ok rec =>
      let sn := c_snapshotter rec in
      let key := c_snapshot_key rec in
      let base := as_str src +:+ "-clone-base" in
      exists m,
        (m = layers_of client w \/
         exists p lb, layers_of client w !! (sn, key) = Some (mkLayer p lb false) /\
           m = frozen sn key base p ∅ (layers_of client w)) /\
        match r with
        | Ok dst => m !! (sn, snapshot_key_for (as_str dst)) = None /\
            layers_of client w' = <[(sn, snapshot_key_for (as_str dst)) := mkLayer base ∅ false]> m
        | Err e =>
            (exists dst, undone client sn (snapshot_key_for dst) (mkLayer base ∅ false) m w') \/
            exists p lb, layers_of client w !! (sn, key) = Some (mkLayer p lb false) /\
              layers_of client w' = committed sn key base p ∅ (layers_of client w)
        end
  end.
Proof.
  rewrite clone_inner_split. intros H. pose proof (same_fetch client (as_str src) w) as S0.
  destruct (fetch_container_record client (as_str src) w) as [[rec|e] w0] eqn:H0; cbn [fst snd] in *.
  2:{ rewrite (run_try_err _ _ _ _ _ H0) in H. injection H as <- <-. done. }
  rewrite (run_try_ok _ _ _ _ _ H0) in H. cbv zeta in *. fold CLONE_BASE_SUFFIX.
  set (base := as_str src +:+ CLONE_BASE_SUFFIX) in *.
  apply bind_inv in H as (uuid & w1 & H1 & H).
  pose proof (same_uuid client w0) as S1. rewrite H1 in S1. cbn [snd] in S1.
  unfold same_layers in *. rewrite S0 in S1.
  apply try_inv in H as [(u & w2 & H2 & H)|(e & H2 & ->)];
    apply ensure_layers in H2 as [[S2 _]|(p & lb & Hk & Hb & [[? S2]|[[e2 ?] S2]])];
    try discriminate; rewrite S1 in *.
  - exists (layers_of client w). split; [by left|]. apply on_base_layers in H.
    rewrite S2 in H. destruct r as [d|e]; [by destruct H as (-> & Hn & H)|].
    left. by exists (as_str (generate uuid)).
  - exists (frozen (c_snapshotter rec) (c_snapshot_key rec) base p ∅ (layers_of client w)).
    split; [eauto|]. apply on_base_layers in H.
    rewrite S2 in H. destruct r as [d|e']; [by destruct H as (-> & Hn & H)|].
    left. by exists (as_str (generate uuid)).
  - exists (layers_of client w). split; [by left|]. left. exists "". by left.
  - exists (layers_of client w). split; [by left|]. right. eauto.
Qed.

(** A clone inherits its source's network mode only if that is host or
    bridge: the labels of a container created isolated are read back as
    bridge mode, so its clone gets a bridge address and host ports. *)
Theorem isolated_is_not_inherited {E : Env} {L : Libs} client id name image md opts key bc c :
  build_container client id name image md opts key bc = Ok c ->
  network_from_labels (c_labels c) =
    match network_mode opts with Host => Host | Bridge | Isolated => Bridge end.
Proof.
  intros (_ & _ & _ & _ & -> & _)%build_container_inv. unfold network_from_labels.
  rewrite create_labels_mode. by destruct (network_mode opts).
Qed.

(** ** Witnesses *)
Definition demo_source : Demo :=
  mkDemo {[ ("default", "c") := demo_container ]} ∅
    {[ (DEFAULT_SNAPSHOTTER, "sha256:layer") :=
         mkSnap (mkSnapInfo "sha256:layer" "" ∅ None) true;
       (DEFAULT_SNAPSHOTTER, "c-snapshot") :=
         mkSnap (mkSnapInfo "c-snapshot" "sha256:layer" ∅ None) false ]}
    {[ "mongo" := mkImage "mongo" (Some "mdig"); "img" := mkImage "img" (Some "mdig") ]}
    {[ "mdig" := str_bytes "manifest"; "cfg" := str_bytes "config" ]} 1 false.

Definition demo_source_info : ContainerInfo :=
  mkContainerInfo (mkContainerId "c") "c" "mongo" {[ "team" := "db"; BRIDGE_IP_LABEL := "10.88.1.9" ]}
    {[ "LANG" := "de" ]} [] None [].

Definition demo_clone_opts : CloneContainerOpts :=
  mkCloneContainerOpts false true [] (Some Host) ∅ ∅.

Definition demo_clone_world : CreateWorld := demo_world demo_source.

Lemma clone_inner_layers_witness :
  exists m dst,
    (clone_inner demo_client (mkContainerId "c") "copy" demo_source_info demo_clone_opts
       demo_clone_world).1 = Ok dst /\
    layers_of demo_client (clone_inner demo_client (mkContainerId "c") "copy" demo_source_info
       demo_clone_opts demo_clone_world).2 =
      <[(DEFAULT_SNAPSHOTTER, snapshot_key_for (as_str dst)) := mkLayer "c-clone-base" ∅ false]> m.
Proof.
  assert (H : (clone_inner demo_client (mkContainerId "c") "copy" demo_source_info
    demo_clone_opts demo_clone_world).1 = Ok demo_cid) by (vm_compute; reflexivity).
  assert (Hf : (fetch_container_record demo_client "c" demo_clone_world).1 = Ok demo_container)
    by (vm_compute; reflexivity).
  pose proof (clone_inner_layers demo_client (mkContainerId "c") "copy" demo_source_info
    demo_clone_opts demo_clone_world _ _ (run_eq _ _ _ H)) as G.
  cbn [as_str] in G. rewrite Hf in G. destruct G as (m & _ & _ & G).
  exists m, demo_cid. split; [exact H|exact G].
Defined.

(** A container created isolated. *)
Definition demo_isolated_result : Result Container :=
  build_container demo_client "c" "c" "mongo" (mkImageMetadata "x" demo_image_config [])
    demo_isolated_opts "k" None.
Definition demo_isolated : Container :=
  match demo_isolated_result with Ok c => c | Err _ => demo_container end.

Lemma isolated_is_not_inherited_witness :
  demo_isolated_result = Ok demo_isolated /\ network_from_labels (c_labels demo_isolated) = Bridge.
Proof.
  assert (H : demo_isolated_result = Ok demo_isolated) by (vm_compute; reflexivity).
  split; [exact H|].
  exact (isolated_is_not_inherited demo_client "c" "c" "mongo"
    (mkImageMetadata "x" demo_image_config []) demo_isolated_opts "k" None _ H).
Defined.
