(* ===== verification/Snapshot.v ===== *)
(** * Named snapshots ([src/snapshot.rs])

    Freezing a container's layer under a name, making containers from it,
    rewinding a container to it, listing and deleting snapshots.  Logging is
    left out. *)

From S2P Require Import Prelude RustText RustFmt Errors Effects FileSystem Identifier World DemoDaemon Loops Bridge ContainerSpec Inspect ClientState Task Create ClientApi Layers Clone.

Definition IMAGE_LABEL : string := "containerd-manager.snapshot.image".
Definition MANAGED_LABEL : string := "containerd-manager.snapshot.managed".
Definition DESCRIPTION_LABEL : string := "containerd-manager.snapshot.description".

Record SnapshotContainerOpts : Type := mkSnapshotContainerOpts {
  sc_restart_src : bool;
  description : option string
}.

Record RestoreContainerOpts : Type := mkRestoreContainerOpts {
  rc_network : option NetworkMode;
  rc_port_bindings : list N;
  rc_env : labels_map;
  rc_labels : labels_map
}.

Record ResetToSnapshotOpts : Type := mkResetToSnapshotOpts { restart : bool }.

(** The defaults, and the builder's mutators. *)
Definition snapshot_opts_default : SnapshotContainerOpts := mkSnapshotContainerOpts false None.
Definition restore_opts_default : RestoreContainerOpts := mkRestoreContainerOpts None [] ∅ ∅.
Definition reset_opts_default : ResetToSnapshotOpts := mkResetToSnapshotOpts false.

Definition restore_env (key value : string) (o : RestoreContainerOpts) : RestoreContainerOpts :=
  mkRestoreContainerOpts (rc_network o) (rc_port_bindings o) (<[key := value]> (rc_env o))
    (rc_labels o).

Definition restore_label (key value : string) (o : RestoreContainerOpts) : RestoreContainerOpts :=
  mkRestoreContainerOpts (rc_network o) (rc_port_bindings o) (rc_env o)
    (<[key := value]> (rc_labels o)).

(** [created_at]: nanoseconds since the epoch. *)
Record SnapshotInfo : Type := mkSnapshotInfo {
  si_name : string;
  si_image : option string;
  si_description : option string;
  si_created_at : option N;
  si_parent : string
}.

Definition snapshot_name_empty : Error := InvalidArgument "snapshot name must not be empty".

(** [u64::try_from] and [u32::try_from] refuse what is negative; the sum is
    that of [SystemTime], here without its upper end. *)
Definition timestamp_to_systemtime (ts : Timestamp) : option N :=
  if (ts_seconds ts <? 0)%Z then None
  else if (ts_nanos ts <? 0)%Z then None
  else Some (from_secs (Z.to_N (ts_seconds ts)) + Z.to_N (ts_nanos ts))%N.

Definition info_of (info : SnapInfo) : SnapshotInfo :=
  mkSnapshotInfo (s_name info) (s_labels info !! IMAGE_LABEL)
    (s_labels info !! DESCRIPTION_LABEL)
    (s_created_at info ≫= timestamp_to_systemtime) (s_parent info).

Definition snapshot_labels (image : string) (opts : SnapshotContainerOpts) : labels_map :=
  let labels := <[IMAGE_LABEL := image]> ∅ in
  let labels := <[MANAGED_LABEL := "1"]> labels in
  match description opts with Some d => <[DESCRIPTION_LABEL := d]> labels | None => labels end.

Definition restore_create_opts (dst_snapshot_key : string) (opts : RestoreContainerOpts) :
    CreateContainerOpts :=
  mkCreateContainerOpts (foldl insert_pair ∅ (map_to_list (rc_env opts)))
    (foldl insert_pair ∅ (map_to_list (rc_labels opts))) []
    (default Bridge (rc_network opts)) None ((fun cp => (0%N, cp)) <$> rc_port_bindings opts)
    (Some dst_snapshot_key).

Section snapshot.
Context {E : Env} {L : Libs}.
Abbreviation M := (ST (World ImageMetadata)).

Definition stat_managed_snapshot (client : Client) (snapshotter name : string) :
    M (Result string) :=
  s ← rpc client (StatSnapshot snapshotter name);
  mret (match s with
        | Err e => Err (if decide (code e = NotFound) then SnapshotNotFound name
                        else into_crate_error e "snapshot_stat")
        | Ok None => Err (SnapshotNotFound name)
        | Ok (Some info) =>
            if decide (s_labels info !! MANAGED_LABEL = Some "1") then
              ok_or (InvalidArgument ("managed snapshot '" +:+ name +:+
                       "' missing required " +:+ IMAGE_LABEL +:+ " label"))
                (s_labels info !! IMAGE_LABEL)
            else Err (SnapshotNotManaged name)
        end).

Definition snapshot_container (client : Client) (src : ContainerId) (name : string)
    (opts : SnapshotContainerOpts) : M (Result unit) :=
  if decide (name = "") then mret (Err snapshot_name_empty)
  else
    src_info ←? inspect_container client (as_str src);
    let running := was_running src_info in
    stop_source client (as_str src) running ;;?
    record ←? fetch_container_record client (as_str src);
    let snapshotter := c_snapshotter record in
    let snapshot_key := c_snapshot_key record in
    c ← rpc client (Commit snapshotter name snapshot_key (snapshot_labels (c_image record) opts));
    match c with
    | Err e =>
        let mapped := if decide (code e = AlreadyExists) then SnapshotAlreadyExists name
                      else into_crate_error e "snapshot_commit" in
        _ ← restart_source client src (running && sc_restart_src opts);
        mret (Err mapped)
    | Ok _ =>
        p ← rpc client (Prepare snapshotter snapshot_key name ∅);
        match p with
        | Err e =>
            _ ← rpc client (RemoveSnapshot snapshotter name);
            mret (Err (into_crate_error e "snapshot_reprepare_src"))
        | Ok _ =>
            _ ← restart_source client src (running && sc_restart_src opts);
            mret (Ok tt)
        end
    end.

Definition restore_container (client : Client) (snapshot_name dst_name : string)
    (opts : RestoreContainerOpts) : M (Result ContainerId) :=
  if decide (snapshot_name = "") then mret (Err snapshot_name_empty)
  else
    let snapshotter := DEFAULT_SNAPSHOTTER in
    image ←? stat_managed_snapshot client snapshotter snapshot_name;
    uuid ← outside fresh_uuid;
    let dst_id := generate uuid in
    let dst_snapshot_key := snapshot_key_for (as_str dst_id) in
    p ← rpc client (Prepare snapshotter dst_snapshot_key snapshot_name ∅);
    mret (map_err (fun e => if decide (code e = AlreadyExists) then ContainerAlreadyExists dst_name
                            else into_crate_error e "restore_prepare_dst") p) ;;?
    r ← create_container_with_id client dst_id dst_name image
          (restore_create_opts dst_snapshot_key opts);
    match r with
    | Ok id => mret (Ok id)
    | Err e => _ ← rpc client (RemoveSnapshot snapshotter dst_snapshot_key); mret (Err e)
    end.

(** The attempts to prepare the active layer again; each failure waits, the
    last one too. *)
Fixpoint prepare_attempts (client : Client) (snapshotter key parent : string)
    (attempts : list N) (last_err : option Status) : M (option Status) :=
  match attempts with
  | [] => mret last_err
  | attempt :: attempts =>
      p ← rpc client (Prepare snapshotter key parent ∅);
      match p with
      | Ok _ => mret None
      | Err e =>
          _ ← sleep (from_millis (100 * (attempt + 1)));
          prepare_attempts client snapshotter key parent attempts (Some e)
      end
  end.

Definition reset_to_snapshot (client : Client) (container_id : ContainerId)
    (snapshot_name : string) (opts : ResetToSnapshotOpts) : M (Result unit) :=
  if decide (snapshot_name = "") then mret (Err snapshot_name_empty)
  else
    record ←? fetch_container_record client (as_str container_id);
    let snapshotter := c_snapshotter record in
    let snapshot_key := c_snapshot_key record in
    let image := c_image record in
    snapshot_image ←? stat_managed_snapshot client snapshotter snapshot_name;
    if decide (snapshot_image <> image) then
      mret (Err (InvalidArgument ("snapshot image '" +:+ snapshot_image +:+
        "' does not match container image '" +:+ image +:+ "'")))
    else
      _ ← stop_container client (as_str container_id) SNAPSHOT_OP_STOP_TIMEOUT;
      retry_delete_task client (as_str container_id) SNAPSHOT_OP_STOP_TIMEOUT ;;?
      _ ← stop_managed_forwards (as_str container_id);
      d ← rpc client (RemoveSnapshot snapshotter snapshot_key);
      match d with
      | Err e =>
          if decide (code e <> NotFound) then mret (Err (into_crate_error e "reset_remove_active"))
          else mret (Ok tt)
      | Ok _ => mret (Ok tt)
      end ;;?
      last_err ← prepare_attempts client snapshotter snapshot_key snapshot_name [0; 1; 2; 3; 4]%N None;
      match last_err with
      | Some e => mret (Err (into_crate_error e "reset_prepare_active"))
      | None =>
          if restart opts then client_start_container client container_id ;;? mret (Ok tt)
          else mret (Ok tt)
      end.

Definition list_snapshots (client : Client) : M (Result (list SnapshotInfo)) :=
  r ← rpc client (ListSnapshots DEFAULT_SNAPSHOTTER
        ["labels." +:+ DQ +:+ MANAGED_LABEL +:+ DQ +:+ "==1"]);
  mret (match r with
        | Err e => Err (into_crate_error e "snapshot_list")
        | Ok (_, Some e) => Err (into_crate_error e "snapshot_list_stream")
        | Ok (msgs, None) => Ok (info_of <$> concat msgs)
        end).

Definition delete_snapshot (client : Client) (name : string) : M (Result unit) :=
  stat_managed_snapshot client DEFAULT_SNAPSHOTTER name ;;?
  r ← rpc client (RemoveSnapshot DEFAULT_SNAPSHOTTER name);
  mret (map_err (fun e => if decide (code e = NotFound) then SnapshotNotFound name
                          else into_crate_error e "snapshot_delete") r).

End snapshot.

(** * Lemmas *)
Section lemmas.
Context {E : Env} {L : Libs} {SN : Snapshotter E} {UD : Undisturbed E}.
Abbreviation W := (World ImageMetadata).
Implicit Types (w : W) (client : Client).

Lemma same_stop_source client src b :
  pres (same_layers (Meta := ImageMetadata) client) (stop_source client src b).
Proof.
  unfold stop_source. pose proof (same_stop (Meta := ImageMetadata)).
  pose proof (same_retry_delete (Meta := ImageMetadata)). same.
Qed.

Lemma same_restart client src b :
  pres (same_layers (Meta := ImageMetadata) client) (restart_source client src b).
Proof. unfold restart_source. pose proof (same_client_start (Meta := ImageMetadata)). same. Qed.

Lemma same_stat client sn name :
  pres (same_layers (Meta := ImageMetadata) client) (stat_managed_snapshot client sn name).
Proof. unfold stat_managed_snapshot. same. Qed.

(** What a managed snapshot is. *)
Definition managed_layer (image : string) (l : Layer) : Prop :=
  ly_labels l !! MANAGED_LABEL = Some "1" /\ ly_labels l !! IMAGE_LABEL = Some image.

Lemma stat_managed_ok client sn name w image w' :
  stat_managed_snapshot client sn name w = (Ok image, w') ->
  exists l, layers_of client w !! (sn, name) = Some l /\ managed_layer image l.
Proof.
  unfold stat_managed_snapshot. intros (s & w1 & H1 & [H _]%ret_inv)%bind_inv.
  pose proof (rpc_stat client sn name w) as St. rewrite H1 in St.
  destruct s as [[i|]|e]; [|done|done]. destruct St as (p & c & St).
  destruct (decide (_ = Some "1")) as [Hm|]; [|done].
  exists (mkLayer p (s_labels i) c). split_and!; [done|split; [done|]].
  cbn. by destruct (s_labels i !! IMAGE_LABEL); cbn in H; simplify_eq.
Qed.

(** The label of a fresh snapshot. *)
Lemma snapshot_labels_managed image opts p c :
  managed_layer image (mkLayer p (snapshot_labels image opts) c).
Proof.
  unfold snapshot_labels, managed_layer. cbn. destruct (description opts); split;
    repeat (rewrite lookup_insert_ne by done); apply lookup_insert_eq || done.
Qed.

Lemma prepare_attempts_layers client sn key parent l e0 w r w' :
  prepare_attempts client sn key parent l e0 w = (r, w') ->
  layers_of client w' = layers_of client w /\ (r = None -> l = [] /\ e0 = None) \/
  r = None /\ layers_of client w' = <[(sn, key) := mkLayer parent ∅ false]> (layers_of client w).
Proof.
  revert e0 w. induction l as [|a l IH]; intros e0 w; cbn [prepare_attempts].
  - intros [<- <-]%ret_inv. left. by split.
  - intros (p & w1 & H1 & H)%bind_inv.
    pose proof (rpc_prepare client sn key parent ∅ w) as P. rewrite H1 in P. destruct p as [u|s].
    + apply ret_inv in H as [<- <-]. right. split; [done|]. apply P.
    + apply bind_inv in H as (u & w2 & H2 & H). destruct P as [P _].
      pose proof (same_sleep client (from_millis (100 * (a + 1))) w1) as S. rewrite H2 in S.
      unfold same_layers in *. cbn [snd] in S.
      apply IH in H as [[H Hr]|[-> H]]; [left|right].
      * split; [congruence|]. intros ->. by destruct (Hr eq_refl).
      * split; [done|]. by rewrite H, S, P.
Qed.

(** The layers of a reset, from the removal on. *)
Lemma reset_rest_layers client id (sn key name : string) (opts : ResetToSnapshotOpts) w
    (r : Result unit) w' :
  (d ← rpc client (RemoveSnapshot sn key);
   match d with
   | Err e =>
       if decide (code e <> NotFound) then mret (Err (into_crate_error e "reset_remove_active"))
       else mret (Ok tt)
   | Ok _ => mret (Ok tt)
   end ;;?
   last_err ← prepare_attempts client sn key name [0; 1; 2; 3; 4]%N None;
   match last_err with
   | Some e => mret (Err (into_crate_error e "reset_prepare_active"))
   | None =>
       if restart opts then client_start_container client id ;;? mret (Ok tt)
       else mret (Ok tt)
   end) w = (r, w') ->
  layers_of client w' = layers_of client w /\ is_ok r = false \/
  match r with
  | Ok _ => layers_of client w' = <[(sn, key) := mkLayer name ∅ false]> (layers_of client w)
  | Err _ => layers_of client w' = delete (sn, key) (layers_of client w) \/
      layers_of client w' = <[(sn, key) := mkLayer name ∅ false]> (layers_of client w)
  end.
Proof.
  intros (d & w1 & H1 & H)%bind_inv. pose proof (rpc_remove client sn key w) as R. rewrite H1 in R.
  unfold same_layers in R.
  assert (G : layers_of client w1 = layers_of client w /\ is_ok r = false /\ w' = w1 \/
    layers_of client w1 = delete (sn, key) (layers_of client w) /\
    (last_err ← prepare_attempts client sn key name [0; 1; 2; 3; 4]%N None;
     match last_err with
     | Some e => mret (Err (into_crate_error e "reset_prepare_active"))
     | None =>
         if restart opts then client_start_container client id ;;? mret (Ok tt)
         else mret (Ok tt)
     end) w1 = (r, w')).
  { destruct d as [u|e]; [by right|]. destruct R as [R HN].
    destruct (decide (code e <> NotFound)) as [|He].
    - apply try_inv in H as [(? & ? & [? _]%ret_inv & _)|(e2 & [_ ->]%ret_inv & ->)]; [done|].
      by left.
    - right. split; [|done]. rewrite R, delete_id; [done|]. apply HN.
      by destruct (decide (code e = NotFound)). }
  clear H R H1. destruct G as [(G & Hr & ->)|[G (le & w2 & H2 & H)%bind_inv]]; [by left|right].
  apply prepare_attempts_layers in H2 as [[S2 Hl]|[-> S2]]; rewrite G in S2.
  - destruct le as [e|]; [|by destruct (Hl eq_refl)]. apply ret_inv in H as [<- <-]. by left.
  - rewrite insert_delete_eq in S2. destruct (restart opts).
    + apply (same_try client) in H as [(t & w3 & _ & S3 & [<- <-]%ret_inv)|[Hr S3]];
        [congruence| |apply same_client_start]. destruct r; [done|]. right. congruence.
    + by apply ret_inv in H as [<- <-].
Qed.

(** The record of a container as it is once the container is stopped: what
    [snapshot_container] reads before it commits. *)
Definition stopped_record (client : Client) (src : ContainerId) (w : W) : Result Container :=
  ((src_info ←? inspect_container client (as_str src);
   stop_source client (as_str src) (was_running src_info) ;;?
   fetch_container_record client (as_str src)) w).1.

(** After the commit: prepare the fresh layer, or roll the snapshot back. *)
Lemma freeze_rest_layers client (src : ContainerId) (sn key name : string) (again : bool)
    (p : string) (lbs lb : labels_map) (m : Layers) w (r : Result unit) w' :
  m !! (sn, key) = Some (mkLayer p lb false) -> m !! (sn, name) = None ->
  layers_of client w = committed sn key name p lbs m ->
  (q ← rpc client (Prepare sn key name ∅);
   match q with
   | Err e =>
       _ ← rpc client (RemoveSnapshot sn name);
       mret (Err (into_crate_error e "snapshot_reprepare_src"))
   | Ok _ => _ ← restart_source client src again; mret (Ok tt)
   end) w = (r, w') ->
  match r with
  | Ok _ => layers_of client w' = frozen sn key name p lbs m
  | Err _ => layers_of client w' = delete (sn, key) m \/
      layers_of client w' = committed sn key name p lbs m
  end.
Proof.
  intros Hk Hno Hw (q & w1 & H1 & H)%bind_inv.
  pose proof (rpc_prepare client sn key name ∅ w) as P. rewrite H1 in P.
  unfold same_layers in P. rewrite Hw in P. destruct q as [u|e].
  - apply (same_then client) in H as (x & w2 & _ & S2 & [<- <-]%ret_inv);
      [|apply same_restart]. rewrite S2. apply P.
  - destruct P as [P _]. apply bind_inv in H as (d & w2 & H2 & [<- <-]%ret_inv).
    pose proof (rpc_remove client sn name w1) as R. rewrite H2 in R. unfold same_layers in R.
    destruct d as [v|e2]; rewrite P in R; [left|right; apply R]. rewrite R. unfold committed.
    rewrite delete_insert_id; [done|]. rewrite lookup_delete_ne; [done|]. congruence.
Qed.

End lemmas.

(** * Properties *)
Section properties.
Context {E : Env} {L : Libs} {SN : Snapshotter E} {UD : Undisturbed E}.
Implicit Types (w : World ImageMetadata) (client : Client).

(** C22. What [snapshot_container] does to the layers, when nobody else
    (containerd's garbage collector included) changes any meanwhile.  Success
    freezes the active layer that the record of this very container names --
    the record read once the container is stopped -- under the given name,
    labelled with the image of that record, and gives the container a fresh
    layer on top.  A failure changes nothing -- except when the fresh layer
    cannot be prepared: then rolling the snapshot back removes the only copy of
    the container's data (or, if that removal is refused, leaves it in the
    snapshot). *)
Theorem snapshot_container_layers client src name opts w r w' :
  snapshot_container client src name opts w = (r, w') ->
  layers_of client w' = layers_of client w /\ is_ok r = false \/
  exists rec p lb,
    let sn := c_snapshotter rec in
    let key := c_snapshot_key rec in
    stopped_record client src w = Ok rec /\
    layers_of client w !! (sn, key) = Some (mkLayer p lb false) /\
    layers_of client w !! (sn, name) = None /\
    match r with
    | Ok _ => layers_of client w' =
        frozen sn key name p (snapshot_labels (c_image rec) opts) (layers_of client w)
    | Err _ => layers_of client w' = delete (sn, key) (layers_of client w) \/
        layers_of client w' =
          committed sn key name p (snapshot_labels (c_image rec) opts) (layers_of client w)
    end.
Proof.
  unfold snapshot_container. destruct (decide (name = "")) as [|Hn].
  { intros [<- <-]%ret_inv. by left. }
  intros [(info & w1 & R1 & S1 & H)|[? ?]]%(same_try client); [|by left|apply same_inspect].
  apply (same_try client) in H as [([] & w2 & R2 & S2 & H)|[? ?]];
    [|left; split; [congruence|done]|apply same_stop_source].
  apply (same_try client) in H as [(rec & w3 & R3 & S3 & H)|[? ?]];
    [|left; split; [congruence|done]|apply same_fetch].
  assert (Hrec : stopped_record client src w = Ok rec).
  { unfold stopped_record. by rewrite (run_try_ok _ _ _ _ _ R1), (run_try_ok _ _ _ _ _ R2), R3. }
  clear R1 R2 R3.
  rewrite S1 in S2. rewrite S2 in S3. clear S1 S2 w1 w2.
  apply bind_inv in H as (c & w4 & H4 & H). pose proof (rpc_commit client (c_snapshotter rec) name
    (c_snapshot_key rec) (snapshot_labels (c_image rec) opts) w3) as C. rewrite H4 in C.
  unfold same_layers in C. rewrite S3 in C. clear S3. destruct c as [v|e].
  - destruct C as (Hno & p & lb & Hk & C). right. exists rec, p, lb. split_and!; [done..|].
    by eapply freeze_rest_layers.
  - destruct C as [C _]. apply (same_then client) in H as (x & w5 & _ & S5 & [<- <-]%ret_inv);
      [|apply same_restart]. left. split; [congruence|done].
Qed.

(** C23. What [reset_to_snapshot] does, when nobody else (containerd's garbage
    collector included) changes a layer meanwhile.  Unless the snapshot is
    there, carries the managed label and was taken from the very image that the
    record of this container names when the reset begins, the layers stay as
    they are and the call fails.  Success leaves the container with a fresh
    layer on the snapshot; every other layer is as before.  A failure leaves
    the layers alone, or the container without its layer, or (when only the
    restart failed) with the fresh one. *)
Theorem reset_to_snapshot_layers client id name opts w r w' :
  reset_to_snapshot client id name opts w = (r, w') ->
  layers_of client w' = layers_of client w /\ is_ok r = false \/
  exists rec ly,
    let slot := (c_snapshotter rec, c_snapshot_key rec) in
    (fetch_container_record client (as_str id) w).1 = Ok rec /\
    layers_of client w !! (c_snapshotter rec, name) = Some ly /\
    managed_layer (c_image rec) ly /\
    match r with
    | Ok _ => layers_of client w' = <[slot := mkLayer name ∅ false]> (layers_of client w)
    | Err _ => layers_of client w' = delete slot (layers_of client w) \/
        layers_of client w' = <[slot := mkLayer name ∅ false]> (layers_of client w)
    end.
Proof.
  unfold reset_to_snapshot. destruct (decide (name = "")) as [|Hn].
  { intros [<- <-]%ret_inv. by left. }
  intros [(rec & w1 & R1 & S1 & H)|[? ?]]%(same_try client); [|by left|apply same_fetch].
  apply (same_try client) in H as [(image & w2 & H2 & S2 & H)|[? ?]];
    [|left; split; [congruence|done]|apply same_stat].
  apply stat_managed_ok in H2 as (ly & Hly & Hm). rewrite S1 in *.
  assert (Hrec : (fetch_container_record client (as_str id) w).1 = Ok rec) by by rewrite R1.
  clear R1 S1 w1.
  destruct (decide (image <> c_image rec)) as [|Hi]; [apply ret_inv in H as [<- <-]; by left|].
  assert (image = c_image rec) as -> by (destruct (decide (image = c_image rec)); done).
  apply (same_then client) in H as (x & w3 & _ & S3 & H); [|apply same_stop].
  apply (same_try client) in H as [(u & w4 & _ & S4 & H)|[? ?]];
    [|left; split; [congruence|done]|apply same_retry_delete].
  apply (same_then client) in H as (u5 & w5 & _ & S5 & H); [|apply same_stop_forwards].
  rewrite S2 in S3. rewrite S3 in S4. rewrite S4 in S5. clear S2 S3 S4 w2 w3 w4.
  apply reset_rest_layers in H as [[H1 H2]|H]; [left; split; [congruence|done]|].
  right. exists rec, ly. rewrite S5 in H. done.
Qed.

(** C31. What [restore_container] does to the layers, when nobody else
    (containerd's garbage collector included) changes any meanwhile.  When it
    succeeds the new container's layer is the only change, on top of a snapshot
    that carries the managed label and the image the container is created with.
    When it fails, no layer is left behind -- unless the very removal the
    clean-up sends was refused, which the code ignores. *)
Theorem restore_container_layers client name dst opts w r w' :
  restore_container client name dst opts w = (r, w') ->
  match r with
  | Ok id =>
      let slot := (DEFAULT_SNAPSHOTTER, snapshot_key_for (as_str id)) in
      layers_of client w !! slot = None /\
      layers_of client w' = <[slot := mkLayer name ∅ false]> (layers_of client w) /\
      exists ly image, layers_of client w !! (DEFAULT_SNAPSHOTTER, name) = Some ly /\
        managed_layer image ly /\
        exists c pre, trace w' = pre ++ [Sent (namespace client) (CreateContainer (Some c))] /\
          c_id c = as_str id /\ c_image c = image
  | Err _ => exists dst_id, undone client DEFAULT_SNAPSHOTTER (snapshot_key_for dst_id)
      (mkLayer name ∅ false) (layers_of client w) w'
  end.
Proof.
  unfold restore_container. destruct (decide (name = "")) as [|Hn].
  { intros [<- <-]%ret_inv. exists "". by left. }
  intros [(image & w1 & H1 & S1 & H)|[Hr ?]]%(same_try client);
    [|destruct r; [done|]; exists ""; by left|apply same_stat].
  apply stat_managed_ok in H1 as (ly & Hly & Hm).
  apply (same_then client) in H as (uuid & w2 & _ & S2 & H); [|apply same_uuid].
  rewrite S1 in S2. clear S1 w1. cbv zeta in H. set (id := generate uuid) in H.
  apply bind_inv in H as (p & w3 & H3 & H).
  pose proof (rpc_prepare client DEFAULT_SNAPSHOTTER (snapshot_key_for (as_str id)) name ∅ w2) as P.
  rewrite H3 in P. unfold same_layers in P. rewrite S2 in P. destruct p as [u|e].
  2:{ apply try_inv in H as [(? & ? & [? _]%ret_inv & _)|(e2 & [_ <-]%ret_inv & ->)]; [done|].
      exists "". left. apply P. }
  destruct P as [Hno P].
  apply try_inv in H as [(u2 & w3' & [_ <-]%ret_inv & H)|(e & [? _]%ret_inv & _)]; [|done].
  apply (same_then client) in H as (res & w4 & H4 & S4 & H);
    [|by apply same_create]. rewrite P in S4. destruct res as [d|e].
  - apply ret_inv in H as [<- <-].
    apply create_ok_inv in H4 as (-> & _ & c & pre & md & bc & T & _ & Hc & _).
    split_and!; [done|done|]. exists ly, image. split_and!; [done..|].
    apply build_container_inv in Hc as (? & ? & _). exists c, (trace w3 ++ pre).
    by rewrite T, app_assoc.
  - apply bind_inv in H as (q & w5 & H5 & [<- <-]%ret_inv).
    exists (as_str id). eapply remove_layers; [by rewrite S4|done|exact H5].
Qed.

(** [delete_snapshot] only ever removes a layer that carries the managed
    label, and only the one it is asked for. *)
Theorem delete_snapshot_layers client name w r w' :
  delete_snapshot client name w = (r, w') ->
  match r with
  | Ok _ => exists ly image, layers_of client w !! (DEFAULT_SNAPSHOTTER, name) = Some ly /\
      managed_layer image ly /\
      layers_of client w' = delete (DEFAULT_SNAPSHOTTER, name) (layers_of client w)
  | Err _ => layers_of client w' = layers_of client w
  end.
Proof.
  unfold delete_snapshot.
  intros [(image & w1 & H1 & S1 & H)|[Hr ?]]%(same_try client); [|by destruct r|apply same_stat].
  apply stat_managed_ok in H1 as (ly & Hly & Hm).
  apply bind_inv in H as (d & w2 & H2 & [<- <-]%ret_inv).
  pose proof (rpc_remove client DEFAULT_SNAPSHOTTER name w1) as R. rewrite H2 in R.
  unfold same_layers in R. rewrite S1 in R. destruct d; cbn [map_err]; [eauto|apply R].
Qed.

End properties.

(** ** Removing containers and snapshots *)
Inductive Removal : Type :=
| RemoveContainer (id : ContainerId) (timeout : Duration)
| RemoveNamed (name : string).

Definition remove_one {E : Env} {L : Libs} (client : Client) (r : Removal) :
    ST (World ImageMetadata) (Result unit) :=
  match r with
  | RemoveContainer id timeout => client_delete_container client id timeout
  | RemoveNamed name => delete_snapshot client name
  end.

Fixpoint remove_all {E : Env} {L : Libs} (client : Client) (rs : list Removal) :
    ST (World ImageMetadata) unit :=
  match rs with
  | [] => mret tt
  | r :: rs => _ ← remove_one client r; remove_all client rs
  end.

Section removal.
Context {E : Env} {L : Libs} (client : Client) (src : string).
Abbreviation W := (World ImageMetadata).
Abbreviation base := (src +:+ CLONE_BASE_SUFFIX).
Implicit Types (w : W).

(** Not a request that removes the base. *)
Definition spares_base (ev : Event) : Prop :=
  match ev with Sent _ (RemoveSnapshot _ key) => key <> base | _ => True end.

(** Every removal of the base comes right after the daemon answered that the
    base carries the managed label. *)
Definition only_if_managed w w' : Prop :=
  exists evs, trace w' = trace w ++ evs /\
  forall pre ns sn post, evs = pre ++ Sent ns (RemoveSnapshot sn base) :: post ->
    exists (wa wb : W) i, rpc client (StatSnapshot sn base) wa = (Ok (Some i), wb) /\
      s_labels i !! MANAGED_LABEL = Some "1" /\ trace wb = trace w ++ pre.

#[local] Instance only_if_managed_refl : Reflexive only_if_managed.
Proof.
  intros w. exists []. split; [by rewrite app_nil_r|]. by intros [] ? ? ? ?.
Qed.
#[local] Instance only_if_managed_trans : Transitive only_if_managed.
Proof.
  intros w1 w2 w3 (e1 & H1 & F1) (e2 & H2 & F2). exists (e1 ++ e2). split.
  { by rewrite H2, H1, app_assoc. }
  intros pre ns sn post H. apply app_eq_inv in H as [(k & -> & Hk)|(k & -> & Hk)].
  - destruct k as [|ev k]; [|injection Hk as <- _; by eapply F1].
    rewrite app_nil_r in *. destruct (F2 [] ns sn post) as (wa & wb & i & ? & ? & Ht); [done|].
    exists wa, wb, i. split_and!; [done..|]. by rewrite Ht, H1, app_nil_r.
  - destruct (F2 k ns sn post Hk) as (wa & wb & i & ? & ? & Ht).
    exists wa, wb, i. split_and!; [done..|]. by rewrite Ht, H1, app_assoc.
Qed.

Lemma spares_only_if w w' : emits spares_base w w' -> only_if_managed w w'.
Proof.
  intros (evs & H & F). exists evs. split; [done|]. intros pre ns sn post ->. exfalso.
  apply Forall_app in F as [_ F]. apply Forall_cons in F as [F _]. by apply F.
Qed.

Lemma base_not_own id : snapshot_key_for id <> base.
Proof.
  intros H. apply (f_equal (fun s => last (str_bytes s))) in H. unfold snapshot_key_for in H.
  rewrite !str_bytes_app in H.
  change (str_bytes "-snapshot") with (str_bytes "-snapsho" ++ [Byte.x74]) in H.
  change (str_bytes CLONE_BASE_SUFFIX) with (str_bytes "-clone-bas" ++ [Byte.x65]) in H.
  by rewrite !app_assoc, !last_snoc in H.
Qed.

Lemma delete_snapshot_base name : pres only_if_managed (delete_snapshot client name).
Proof.
  intros w. unfold delete_snapshot.
  destruct (stat_managed_snapshot client DEFAULT_SNAPSHOTTER name w) as [r w1] eqn:H1.
  pose proof H1 as Hs. unfold stat_managed_snapshot in Hs.
  apply bind_inv in Hs as (s & w0 & H0 & [Hr <-]%ret_inv).
  pose proof (rpc_trace client (StatSnapshot DEFAULT_SNAPSHOTTER name) w) as T1.
  rewrite H0 in T1. cbn [snd] in T1. destruct r as [image|e].
  - rewrite (run_try_ok _ _ _ _ _ H1). unfold mbind, ST_bind.
    pose proof (rpc_trace client (RemoveSnapshot DEFAULT_SNAPSHOTTER name) w0) as T2.
    destruct (rpc client (RemoveSnapshot DEFAULT_SNAPSHOTTER name) w0) as [d w2]. cbn [snd] in *.
    exists ([Sent (namespace client) (StatSnapshot DEFAULT_SNAPSHOTTER name)] ++
      [Sent (namespace client) (RemoveSnapshot DEFAULT_SNAPSHOTTER name)]).
    split; [cbn [snd mret ST_ret]; by rewrite T2, T1, app_assoc|].
    intros [|ev pre] ns sn post H; [done|]. injection H as <- H.
    destruct pre as [|ev pre]; [|by destruct pre]. injection H as _ <- -> _.
    destruct s as [[i|]|e]; try done. exists w, w0, i. split_and!; [done| |done].
    by destruct (decide (_ = Some "1")).
  - rewrite (run_try_err _ _ _ _ _ H1). apply spares_only_if. cbn [snd].
    eexists. split; [exact T1|]. by repeat constructor.
Qed.

(** C33. In every history of deletions of containers and snapshots, a removal of
    the frozen base of [src] is only ever sent by [delete_snapshot], right after
    the daemon answered that the base carries the managed label -- and the
    crate commits the base without any label.  So of its own accord the crate
    never removes a base that a first clone committed, even after the source
    and all its clones are deleted. *)
Theorem clone_bases_stay sn key (rs : list Removal) w :
  only_if_managed w (remove_all client rs w).2 /\
  emits (fun ev => ev ∈ Sent (namespace client) <$>
           [StatSnapshot sn base; Commit sn base key ∅; Prepare sn key base ∅])
    w (ensure_clone_base client sn key base w).2.
Proof.
  split.
  - revert w. enough (pres only_if_managed (remove_all client rs)) as H by exact H.
    induction rs as [|[id t|name] rs IH]; cbn [remove_all remove_one];
      [by apply pres_ret, _|apply pres_bind; [apply _| |done]..].
    + intros w. apply spares_only_if. refine (emits_weaken _ _ _ _ _ (own_client_delete client id t w)).
      intros [ns []| | | | | | |]; try done. cbn. intros ->. apply base_not_own.
    + apply delete_snapshot_base.
  - enough (pres (emits (fun ev => ev ∈ Sent (namespace client) <$>
      [StatSnapshot sn base; Commit sn base key ∅; Prepare sn key base ∅]))
      (ensure_clone_base client sn key base)) as H by apply H.
    unfold ensure_clone_base. walk ltac:(idtac; match goal with |- pres _ (rpc ?c ?r) =>
      refine (emits_rpc _ c r _); apply list_elem_of_fmap_2; set_solver end).
Qed.

End removal.

(** ** Witnesses *)
Definition demo_snap_opts : SnapshotContainerOpts := mkSnapshotContainerOpts false (Some "first").

(** The demonstration source, snapshotted as [s1]. *)
Definition demo_snapped : CreateWorld :=
  (snapshot_container demo_client (mkContainerId "c") "s1" demo_snap_opts demo_clone_world).2.

Lemma snapshot_container_layers_witness :
  exists p, layers_of demo_client demo_snapped =
    frozen (c_snapshotter demo_container) (c_snapshot_key demo_container) "s1" p
      (snapshot_labels (c_image demo_container) demo_snap_opts)
      (layers_of demo_client demo_clone_world).
Proof.
  assert (H : (snapshot_container demo_client (mkContainerId "c") "s1" demo_snap_opts
    demo_clone_world).1 = Ok tt) by (vm_compute; reflexivity).
  assert (Hr : stopped_record demo_client (mkContainerId "c") demo_clone_world = Ok demo_container)
    by (vm_compute; reflexivity).
  destruct (snapshot_container_layers demo_client (mkContainerId "c") "s1" demo_snap_opts
    demo_clone_world _ _ (run_eq _ _ _ H)) as [[_ Hf]|(rec & p & lb & Hrec & _ & _ & Hl)];
    [discriminate Hf|].
  rewrite Hr in Hrec. injection Hrec as <-. exists p. exact Hl.
Defined.

Lemma reset_to_snapshot_layers_witness :
  layers_of demo_client (reset_to_snapshot demo_client (mkContainerId "c") "s1"
      (mkResetToSnapshotOpts false) demo_snapped).2 =
    <[(c_snapshotter demo_container, c_snapshot_key demo_container) := mkLayer "s1" ∅ false]>
      (layers_of demo_client demo_snapped).
Proof.
  assert (H : (reset_to_snapshot demo_client (mkContainerId "c") "s1"
    (mkResetToSnapshotOpts false) demo_snapped).1 = Ok tt) by (vm_compute; reflexivity).
  assert (Hr : (fetch_container_record demo_client "c" demo_snapped).1 = Ok demo_container)
    by (vm_compute; reflexivity).
  destruct (reset_to_snapshot_layers demo_client (mkContainerId "c") "s1"
    (mkResetToSnapshotOpts false) demo_snapped _ _ (run_eq _ _ _ H))
    as [[_ Hf]|(rec & ly & Hrec & _ & _ & Hl)]; [discriminate Hf|].
  cbn [as_str] in Hrec. rewrite Hr in Hrec. injection Hrec as <-. exact Hl.
Defined.

Definition demo_restore_opts : RestoreContainerOpts :=
  mkRestoreContainerOpts (Some Host) [] {[ "LANG" := "de" ]} ∅.

Lemma restore_container_layers_witness :
  (restore_container demo_client "s1" "r" demo_restore_opts demo_snapped).1 = Ok demo_cid /\
  layers_of demo_client demo_snapped !! (DEFAULT_SNAPSHOTTER, snapshot_key_for demo_id) = None.
Proof.
  assert (H : (restore_container demo_client "s1" "r" demo_restore_opts demo_snapped).1 =
    Ok demo_cid) by (vm_compute; reflexivity).
  split; [exact H|].
  exact (proj1 (restore_container_layers demo_client "s1" "r" demo_restore_opts demo_snapped
    _ _ (run_eq _ _ _ H))).
Defined.

(** The base layer of the image is not ours to delete. *)
Lemma delete_snapshot_layers_witness :
  (delete_snapshot demo_client "sha256:layer" demo_snapped).1 =
    Err (SnapshotNotManaged "sha256:layer") /\
  layers_of demo_client (delete_snapshot demo_client "sha256:layer" demo_snapped).2 =
    layers_of demo_client demo_snapped.
Proof.
  assert (H : (delete_snapshot demo_client "sha256:layer" demo_snapped).1 =
    Err (SnapshotNotManaged "sha256:layer")) by (vm_compute; reflexivity).
  split; [exact H|].
  exact (delete_snapshot_layers demo_client "sha256:layer" demo_snapped _ _ (run_eq _ _ _ H)).
Defined.

(** A daemon that prepares nothing: the failed snapshot of the demonstration
    source leaves neither its layer nor the snapshot. *)
Definition no_prepare_env : Env :=
  demo_answering (fun ns r d =>
    match r as r return result Status (resp_of r) * Duration * Demo with
    | Prepare _ _ _ _ => (Err (st Unavailable), from_millis 1, d)
    | r => @handle demo_env ns r d
    end).

Definition no_prepare_world : @World no_prepare_env ImageMetadata :=
  mkWorld (demo_source : @Ext no_prepare_env) 0 (quiet fs_empty) [] false ∅ ∅ ∅ 0 [].

Example rollback_loses_the_layer :
  let run := snapshot_container demo_client (mkContainerId "c") "s1" demo_snap_opts
               no_prepare_world in
  is_ok run.1 = false /\
  d_snaps demo_source !! (DEFAULT_SNAPSHOTTER, "c-snapshot") <> None /\
  d_snaps (ext run.2 : Demo) !! (DEFAULT_SNAPSHOTTER, "c-snapshot") = None /\
  d_snaps (ext run.2 : Demo) !! (DEFAULT_SNAPSHOTTER, "s1") = None.
Proof. vm_compute. split_and!; done. Qed.

(** The clone of the demonstration source froze it into [c-clone-base]. *)
Definition demo_cloned : CreateWorld :=
  (clone_inner demo_client (mkContainerId "c") "copy" demo_source_info demo_clone_opts
     demo_clone_world).2.

Example clone_base_outlives_all :
  layers_of demo_client (remove_all demo_client
    [RemoveContainer demo_cid (from_secs 1); RemoveContainer (mkContainerId "c") (from_secs 1);
     RemoveNamed "c-clone-base"] demo_cloned).2
    !! (DEFAULT_SNAPSHOTTER, "c" +:+ CLONE_BASE_SUFFIX) = Some (mkLayer "sha256:layer" ∅ true).
Proof. vm_compute. reflexivity. Qed.
