(* ===== verification/CloneRace.v ===== *)
(** * Concurrent clones of one source ([src/clone.rs], [ensure_clone_base])

    Any number of clones of the same source race to freeze it.  A clone is cut
    at its requests: [clone_step] sends the next one and [clone_steps_spec]
    shows that the steps of one clone in a row are [ensure_clone_base] and
    [prepare_clone_snapshot]; [race] interleaves the steps of several in the
    order of a schedule.  With a snapshotter that only refuses what it must
    ([Reliable]), every clone gets its layer on the same base, whoever wins. *)

From S2P Require Import Prelude RustText RustFmt Errors Effects FileSystem Identifier World DemoDaemon Loops Bridge ContainerSpec Inspect ClientState Task Create ClientApi Layers Clone.

(** Where a clone is: about to look for the base, to commit the source, to
    prepare the source again, to prepare its own layer; or over. *)
Inductive Phase : Type :=
| PStat | PCommit | PReprepare | PPrepare | PEnd (r : Result unit).

(** The key of the clone's layer, and its phase. *)
Abbreviation Job := (string * Phase)%type.

Section race.
Context {E : Env} {L : Libs}.
Abbreviation W := (World ImageMetadata).
Abbreviation M := (ST W).
Context (client : Client) (sn key base name : string).

(** The next request of a clone whose layer is [dst]. *)
Definition clone_step (dst : string) (p : Phase) : M Phase :=
  match p with
  | PStat =>
      s ← rpc client (StatSnapshot sn base);
      mret (match s with
            | Ok _ => PPrepare
            | Err e => if decide (code e <> NotFound)
                       then PEnd (Err (into_crate_error e "clone_stat_base")) else PCommit
            end)
  | PCommit =>
      c ← rpc client (Commit sn base key ∅);
      mret (match c with
            | Ok _ => PReprepare
            | Err e => if decide (code e = AlreadyExists) then PPrepare
                       else PEnd (Err (into_crate_error e "clone_commit_src"))
            end)
  | PReprepare =>
      p ← rpc client (Prepare sn key base ∅);
      mret (match p with
            | Ok _ => PPrepare
            | Err e => if decide (code e = AlreadyExists) then PPrepare
                       else PEnd (Err (into_crate_error e "clone_reprepare_src"))
            end)
  | PPrepare => r ← prepare_clone_snapshot client sn dst base name; mret (PEnd r)
  | PEnd r => mret (PEnd r)
  end.

Fixpoint clone_steps (n : nat) (dst : string) (p : Phase) : M Phase :=
  match n with
  | O => mret p
  | S n => p ← clone_step dst p; clone_steps n dst p
  end.

(** One step of the clone [i] for every entry [i] of the schedule. *)
Definition race : list nat -> list Job -> M (list Job) := interleave clone_step.

(** ** The steps are the code *)
Lemma clone_steps_end n dst r w : clone_steps n dst (PEnd r) w = (PEnd r, w).
Proof. induction n; [done|]. exact IHn. Qed.

Lemma clone_steps_next n dst p w p' w' :
  clone_step dst p w = (p', w') -> clone_steps (S n) dst p w = clone_steps n dst p' w'.
Proof. intros H. cbn [clone_steps]. by rewrite (run_bind _ _ _ _ _ H). Qed.

Lemma clone_steps_last n dst w :
  clone_steps (S n) dst PPrepare w =
  (r ← prepare_clone_snapshot client sn dst base name; mret (PEnd r)) w.
Proof.
  destruct (prepare_clone_snapshot client sn dst base name w) as [r w1] eqn:H.
  rewrite (run_bind _ _ _ _ _ H), (clone_steps_next _ _ _ _ (PEnd r) w1).
  - apply clone_steps_end.
  - cbn [clone_step]. by rewrite (run_bind _ _ _ _ _ H).
Qed.

(** The requests of one clone in a row are those of the source. *)
Lemma clone_steps_spec dst w :
  clone_steps 4 dst PStat w =
  (r ← (ensure_clone_base client sn key base ;;? prepare_clone_snapshot client sn dst base name);
   mret (PEnd r)) w.
Proof.
  pose proof (fun n w => clone_steps_last n dst w) as HL.
  destruct (ensure_clone_base client sn key base w) as [r w'] eqn:He.
  assert (Hr : (r0 ← (ensure_clone_base client sn key base ;;?
      prepare_clone_snapshot client sn dst base name); mret (PEnd r0)) w =
    match r with
    | Ok _ => (r0 ← prepare_clone_snapshot client sn dst base name; mret (PEnd r0)) w'
    | Err e => (PEnd (Err e), w')
    end).
  { unfold try_st. unfold mbind, ST_bind. rewrite He. by destruct r. }
  rewrite Hr. clear Hr. unfold ensure_clone_base in He.
  apply bind_inv in He as (s & w1 & H1 & He).
  assert (S1 : clone_step dst PStat w = (match s with Ok _ => PPrepare | Err e =>
      if decide (code e <> NotFound) then PEnd (Err (into_crate_error e "clone_stat_base"))
      else PCommit end, w1)) by (cbn [clone_step]; by rewrite (run_bind _ _ _ _ _ H1)).
  rewrite (clone_steps_next _ _ _ _ _ _ S1). clear S1.
  destruct s as [i|e]; [apply ret_inv in He as [<- <-]; apply HL|].
  destruct (decide _); [apply ret_inv in He as [<- <-]; apply clone_steps_end|].
  apply bind_inv in He as (c & w2 & H2 & He).
  assert (S2 : clone_step dst PCommit w1 = (match c with Ok _ => PReprepare | Err e =>
      if decide (code e = AlreadyExists) then PPrepare
      else PEnd (Err (into_crate_error e "clone_commit_src")) end, w2))
    by (cbn [clone_step]; by rewrite (run_bind _ _ _ _ _ H2)).
  rewrite (clone_steps_next _ _ _ _ _ _ S2). clear S2. destruct c as [u|e2].
  2:{ apply ret_inv in He as [<- <-].
      destruct (decide _); [apply HL|apply clone_steps_end]. }
  apply bind_inv in He as (q & w3 & H3 & [<- <-]%ret_inv).
  assert (S3 : clone_step dst PReprepare w2 = (match q with Ok _ => PPrepare | Err e =>
      if decide (code e = AlreadyExists) then PPrepare
      else PEnd (Err (into_crate_error e "clone_reprepare_src")) end, w3))
    by (cbn [clone_step]; by rewrite (run_bind _ _ _ _ _ H3)).
  rewrite (clone_steps_next _ _ _ _ _ _ S3). clear S3.
  destruct q as [u3|e3]; [apply HL|]. destruct (decide _); [apply HL|apply clone_steps_end].
Qed.

End race.

(** ** A snapshotter that only refuses what it must

    A query answers for what is there; a commit and a preparation succeed when
    their source is there and their target is not, and say [AlreadyExists]
    when the target is. *)
Class Reliable (E : Env) {SN : Snapshotter E} : Prop := mkReliable {
  stat_reliable : forall ns sn key e,
    match handle ns (StatSnapshot sn key) e with
    | (Ok _, _, _) => is_Some (layers ns e !! (sn, key))
    | (Err s, _, _) => code s = NotFound
    end;
  commit_reliable : forall ns sn name key l e,
    match handle ns (Commit sn name key l) e with
    | (Ok _, _, _) => True
    | (Err s, _, _) => (is_Some (layers ns e !! (sn, name)) -> code s = AlreadyExists) /\
        (layers ns e !! (sn, name) = None ->
         forall p lb, layers ns e !! (sn, key) <> Some (mkLayer p lb false))
    end;
  prepare_reliable : forall ns sn key parent l e,
    match handle ns (Prepare sn key parent l) e with
    | (Ok _, _, _) => True
    | (Err s, _, _) => layers ns e !! (sn, key) = None ->
        forall p lb, layers ns e !! (sn, parent) <> Some (mkLayer p lb true)
    end
}.

Section invariant.
Context {E : Env} {L : Libs} {SN : Snapshotter E} {UD : Undisturbed E} {RL : Reliable E}.
Abbreviation W := (World ImageMetadata).
Context (client : Client) (sn key base name : string) (Hkb : key <> base).
Abbreviation step := (clone_step client sn key base name).
Abbreviation lay := (layers_of (Meta := ImageMetadata) client).
Implicit Types (w : W) (jobs : list Job).

(** The clones' layers are their own. *)
Definition distinct jobs : Prop :=
  let ks := jobs.*1 in NoDup ks /\ (key ∉ ks) /\ (base ∉ ks).

(** Before anyone committed: the source has its layer, no clone has one. *)
Definition fresh p0 w jobs : Prop :=
  lay w !! (sn, base) = None /\ (exists lb, lay w !! (sn, key) = Some (mkLayer p0 lb false)) /\
  forall i j, jobs !! i = Some j ->
    (j.2 = PStat \/ j.2 = PCommit) /\ lay w !! (sn, j.1) = None.

(** What a clone has, by its phase. *)
Definition job_ok w (j : Job) : Prop :=
  match j.2 with
  | PEnd (Ok _) => lay w !! (sn, j.1) = Some (mkLayer base ∅ false)
  | PEnd (Err _) => False
  | _ => lay w !! (sn, j.1) = None
  end.

(** After that: the base is frozen, and the source has a layer on it unless
    the winner is about to prepare it. *)
Definition frozen_by p0 w jobs (winner : option nat) : Prop :=
  lay w !! (sn, base) = Some (mkLayer p0 ∅ true) /\
  lay w !! (sn, key) = match winner with Some _ => None | None => Some (mkLayer base ∅ false) end /\
  (forall i, winner = Some i -> i < length jobs) /\
  forall i j, jobs !! i = Some j ->
    job_ok w j /\ (j.2 = PReprepare <-> winner = Some i).

Definition race_inv p0 w jobs : Prop :=
  distinct jobs /\ (fresh p0 w jobs \/ exists winner, frozen_by p0 w jobs winner).

(** ** The requests *)
Lemma do_stat w s w' :
  rpc client (StatSnapshot sn base) w = (s, w') ->
  lay w' = lay w /\
  match s with Ok _ => is_Some (lay w !! (sn, base)) | Err e => code e = NotFound end.
Proof.
  intros H. split.
  - exact (pres_at _ _ _ _ _ (same_rpc client client (StatSnapshot sn base) eq_refl) H).
  - revert H. unfold rpc, layers_of. pose proof (stat_reliable (namespace client) sn base (ext w)) as R.
    by destruct (handle _ _ _) as [[[i|s'] d] e]; intros [= <- <-].
Qed.

Lemma do_commit w c w' :
  rpc client (Commit sn base key ∅) w = (c, w') ->
  match c with
  | Ok _ => exists p lb, lay w !! (sn, key) = Some (mkLayer p lb false) /\
      lay w !! (sn, base) = None /\ lay w' = committed sn key base p ∅ (lay w)
  | Err s => lay w' = lay w /\ (is_Some (lay w !! (sn, base)) -> code s = AlreadyExists) /\
      (lay w !! (sn, base) = None -> forall p lb, lay w !! (sn, key) <> Some (mkLayer p lb false))
  end.
Proof.
  intros H. pose proof (rpc_commit client sn base key ∅ w) as C. rewrite H in C. destruct c as [u|s].
  - destruct C as (? & p & lb & ? & ?). exists p, lb. done.
  - destruct C as [C _]. split; [exact C|]. revert H. unfold rpc, layers_of.
    pose proof (commit_reliable (namespace client) sn base key ∅ (ext w)) as R.
    destruct (handle _ _ _) as [[[i|s'] d] e]; intros [= <- <-]; done.
Qed.

Lemma do_prepare k w c w' (p : string) :
  rpc client (Prepare sn k base ∅) w = (c, w') ->
  lay w !! (sn, base) = Some (mkLayer p ∅ true) -> lay w !! (sn, k) = None ->
  is_ok c = true /\ lay w' = <[(sn, k) := mkLayer base ∅ false]> (lay w).
Proof.
  intros H Hb Hk. pose proof (rpc_prepare client sn k base ∅ w) as C. rewrite H in C.
  destruct c as [u|s]; [split; [done|apply C]|]. exfalso. revert H. unfold rpc.
  pose proof (prepare_reliable (namespace client) sn k base ∅ (ext w)) as R.
  destruct (handle _ _ _) as [[[i|s'] d] e]; [by intros [=]|]. intros _.
  by eapply (R Hk p ∅).
Qed.

(** ** One step *)
Lemma keys_insert jobs i x p' :
  jobs !! i = Some x -> (<[i := (x.1, p')]> jobs).*1 = jobs.*1.
Proof. intros H. rewrite list_fmap_insert. apply list_insert_id. by rewrite list_lookup_fmap, H. Qed.

Lemma own_keys jobs i j x y :
  distinct jobs -> jobs !! i = Some x -> jobs !! j = Some y ->
  x.1 <> key /\ x.1 <> base /\ (i <> j -> x.1 <> y.1).
Proof.
  intros (Hn & Hk & Hb) Hi Hj.
  assert (Hi' : jobs.*1 !! i = Some x.1) by by rewrite list_lookup_fmap, Hi.
  assert (Hj' : jobs.*1 !! j = Some y.1) by by rewrite list_lookup_fmap, Hj.
  split_and!.
  - intros H. apply Hk. rewrite <- H. by eapply list_elem_of_lookup_2.
  - intros H. apply Hb. rewrite <- H. by eapply list_elem_of_lookup_2.
  - intros Hij H. apply Hij, (NoDup_lookup _ _ _ x.1 Hn Hi'). by rewrite Hj', H.
Qed.

(** The clone that moved, and all others. *)
Lemma after_insert jobs i y (P : nat -> Job -> Prop) :
  P i y -> (forall j z, j <> i -> jobs !! j = Some z -> P j z) ->
  forall j z, <[i := y]> jobs !! j = Some z -> P j z.
Proof.
  intros Hy Hz j z [(-> & <- & _)|[? ?]]%list_lookup_insert_Some; auto.
Qed.

(** A layer other than the source's and the base. *)
Lemma committed_other p k m :
  k <> key -> k <> base -> committed sn key base p ∅ m !! (sn, k) = m !! (sn, k).
Proof. intros. unfold committed. by rewrite lookup_insert_ne, lookup_delete_ne by congruence. Qed.

Lemma fresh_step p0 w jobs i dst p p' w' :
  distinct jobs -> fresh p0 w jobs -> jobs !! i = Some (dst, p) -> step dst p w = (p', w') ->
  fresh p0 w' (<[i := (dst, p')]> jobs) \/
  exists winner, frozen_by p0 w' (<[i := (dst, p')]> jobs) winner.
Proof.
  intros Hd (Hb & (lb & Hk) & Hj) Hi H.
  destruct (Hj _ _ Hi) as [[Hp|Hp] Hdst]; cbn in Hp, Hdst; subst p; cbn [clone_step] in H;
    apply bind_inv in H as (s & w1 & H1 & [<- <-]%ret_inv).
  - apply do_stat in H1 as [E1 S]. destruct s as [x|e]; [rewrite Hb in S; by destruct S|].
    left. rewrite decide_False by auto. unfold fresh. rewrite E1. split_and!; [done|eauto|].
    apply after_insert; [by split; [right|]|]. intros j z _ Hz. by apply (Hj j).
  - apply do_commit in H1. destruct s as [u|e]; [|destruct H1 as (_ & _ & H1); by apply H1 in Hk].
    destruct H1 as (q & lb' & Hk' & _ & E1). rewrite Hk in Hk'. injection Hk' as <- <-.
    right. exists (Some i). unfold frozen_by, job_ok. rewrite E1. split_and!.
    + unfold committed. by rewrite lookup_insert_eq.
    + unfold committed. by rewrite lookup_insert_ne, lookup_delete_eq by congruence.
    + intros j [= <-]. rewrite length_insert. by eapply lookup_lt_Some.
    + destruct (own_keys _ _ _ _ _ Hd Hi Hi) as (? & ? & _). apply after_insert; cbn.
      { by rewrite committed_other. }
      intros j z Hne Hz. destruct (own_keys _ _ _ _ _ Hd Hz Hz) as (? & ? & _).
      rewrite committed_other by done. destruct (Hj _ _ Hz) as [[-> | ->] Hn];
        (split; [done|split; [done|congruence]]).
Qed.

(** A move that leaves the layers alone. *)
Lemma frozen_same p0 w w' jobs winner i dst p p' :
  frozen_by p0 w jobs winner -> jobs !! i = Some (dst, p) -> lay w' = lay w ->
  p <> PReprepare -> p' <> PReprepare -> job_ok w (dst, p') ->
  frozen_by p0 w' (<[i := (dst, p')]> jobs) winner.
Proof.
  intros (Hb & Hk & Hl & Hj) Hi E1 Hp Hp' Hok. unfold frozen_by, job_ok in *.
  rewrite E1, length_insert.
  split_and!; [done..|]. apply after_insert; cbn.
  - split; [exact Hok|]. destruct (Hj _ _ Hi) as [_ Hw]. cbn in Hw. tauto.
  - intros j z _ Hz. by apply Hj.
Qed.

(** A clone prepares its own layer, or the winner the source's. *)
Lemma frozen_new p0 w w' jobs winner winner' i k dst p p' :
  distinct jobs -> frozen_by p0 w jobs winner -> jobs !! i = Some (dst, p) ->
  lay w' = <[(sn, k) := mkLayer base ∅ false]> (lay w) -> k <> base ->
  (k = key /\ winner = Some i /\ winner' = None /\ p' = PPrepare \/
   k = dst /\ winner' = winner /\ p = PPrepare /\ p' = PEnd (Ok tt)) ->
  frozen_by p0 w' (<[i := (dst, p')]> jobs) winner'.
Proof.
  intros Hd (Hb & Hk & Hl & Hj) Hi E1 Hkb' Hc. destruct (own_keys _ _ _ _ _ Hd Hi Hi) as (D1 & D2 & _).
  destruct (Hj _ _ Hi) as [Hok Hw]. unfold frozen_by, job_ok in *. cbn in *. rewrite E1.
  split_and!.
  - by rewrite lookup_insert_ne by congruence.
  - destruct Hc as [(-> & -> & -> & _)|(-> & -> & _)]; [by rewrite lookup_insert_eq|].
    by rewrite lookup_insert_ne by congruence.
  - rewrite length_insert. destruct Hc as [(_ & _ & -> & _)|(_ & -> & _)]; [done|exact Hl].
  - apply after_insert; cbn.
    + destruct Hc as [(-> & -> & -> & ->)|(-> & -> & -> & ->)].
      * destruct Hw as [_ Hw]. rewrite Hw in Hok by done. by rewrite lookup_insert_ne by congruence.
      * rewrite lookup_insert_eq. split; [done|]. split; [done|]. intros Hz2. by apply Hw in Hz2.
    + intros j z Hne Hz. destruct (Hj _ _ Hz) as [Ho Hv].
      destruct (own_keys _ _ _ _ _ Hd Hz Hi) as (F1 & _ & F3). specialize (F3 Hne). cbn in F3.
      assert (k <> z.1) by (destruct Hc as [(-> & _)|(-> & _)]; congruence).
      rewrite lookup_insert_ne by congruence. split; [done|].
      destruct Hc as [(_ & -> & -> & _)|(_ & -> & _)]; [|done]. split; [|done].
      intros Hz2. apply Hv in Hz2. congruence.
Qed.

Lemma frozen_step p0 w jobs winner i dst p p' w' :
  distinct jobs -> frozen_by p0 w jobs winner -> jobs !! i = Some (dst, p) ->
  step dst p w = (p', w') ->
  exists winner', frozen_by p0 w' (<[i := (dst, p')]> jobs) winner'.
Proof.
  intros Hd Hf Hi H. pose proof Hf as (Hb & Hk & _ & Hj). destruct (Hj _ _ Hi) as [Hok Hw].
  destruct (own_keys _ _ _ _ _ Hd Hi Hi) as (D1 & D2 & _). cbn in D1, D2, Hok, Hw.
  unfold job_ok in Hok. cbn in Hok.
  destruct p; cbn [clone_step] in H; [apply bind_inv in H as (s & w1 & H1 & [<- <-]%ret_inv)..|].
  - apply do_stat in H1 as [E1 S]. exists winner.
    eapply frozen_same; try done; repeat case_match; done.
  - apply do_commit in H1. destruct s as [u|e].
    { destruct H1 as (? & ? & _ & H1 & _). congruence. }
    destruct H1 as (E1 & H1 & _). rewrite decide_True by (apply H1; eauto). exists winner.
    by eapply frozen_same.
  - destruct Hw as [Hw _]. specialize (Hw eq_refl). subst winner.
    eapply do_prepare in H1 as [Ho E1]; [|exact Hb|exact Hk].
    destruct s; [|done]. exists None.
    eapply (frozen_new _ _ _ _ (Some i) None _ key); try done. left. auto.
  - unfold prepare_clone_snapshot in H1. apply bind_inv in H1 as (q & w2 & H1 & [<- <-]%ret_inv).
    eapply do_prepare in H1 as [Ho E1]; [|exact Hb|exact Hok]. destruct q as [u|]; [|done].
    exists winner. destruct u. eapply (frozen_new _ _ _ _ winner winner _ dst); try done. right. auto.
  - apply ret_inv in H as [<- <-]. exists winner. by eapply frozen_same.
Qed.

Lemma race_step p0 w jobs i dst p p' w' :
  race_inv p0 w jobs -> jobs !! i = Some (dst, p) -> step dst p w = (p', w') ->
  race_inv p0 w' (<[i := (dst, p')]> jobs).
Proof.
  intros [Hd Hr] Hi H. split.
  - unfold distinct. rewrite (keys_insert jobs i (dst, p)) by done. exact Hd.
  - destruct Hr as [Hf|[winner Hf]]; [by eapply fresh_step|right]. by eapply frozen_step.
Qed.

Lemma race_keeps p0 sched w jobs :
  race_inv p0 w jobs ->
  let r := race client sn key base name sched jobs w in race_inv p0 r.2 r.1.
Proof.
  intros H. cbv zeta. apply (interleave_inv _ (race_inv p0)); [|done].
  intros w1 jobs1 i dst p H1 Hi. by eapply race_step; [..|apply surjective_pairing].
Qed.

(** When every clone is over. *)
Lemma race_over p0 w jobs dsts :
  race_inv p0 w jobs -> dsts <> [] -> length jobs = length dsts ->
  (forall i d, dsts !! i = Some d -> exists r, jobs !! i = Some (d, PEnd r)) ->
  jobs = (fun d => (d, PEnd (Ok tt))) <$> dsts /\
  lay w !! (sn, base) = Some (mkLayer p0 ∅ true) /\
  lay w !! (sn, key) = Some (mkLayer base ∅ false) /\
  forall dst, dst ∈ dsts -> lay w !! (sn, dst) = Some (mkLayer base ∅ false).
Proof.
  intros [_ [(_ & _ & Hj)|[winner (Hb & Hk & Hl & Hj)]]] Hne Hlen He.
  { destruct dsts as [|d ds]; [done|]. destruct (He 0 d eq_refl) as [r Hr].
    by destruct (Hj _ _ Hr) as [[?|?] _]. }
  assert (Hok : forall i d, dsts !! i = Some d ->
    jobs !! i = Some (d, PEnd (Ok tt)) /\ lay w !! (sn, d) = Some (mkLayer base ∅ false)).
  { intros i d Hi. destruct (He i d Hi) as [r Hr]. destruct (Hj _ _ Hr) as [Ho _].
    unfold job_ok in Ho. cbn in Ho. by destruct r as [[]|]. }
  split_and!; [|done| |].
  - apply list_eq. intros i. rewrite list_lookup_fmap. destruct (dsts !! i) as [d|] eqn:Hi; cbn.
    + by apply Hok.
    + apply lookup_ge_None in Hi. apply lookup_ge_None. lia.
  - destruct winner as [i|]; [|done]. exfalso. specialize (Hl i eq_refl). rewrite Hlen in Hl.
    apply lookup_lt_is_Some in Hl as [d Hi]. destruct (Hok i d Hi) as [Hr _].
    destruct (Hj _ _ Hr) as [_ Hw]. cbn in Hw. by destruct Hw as [_ Hw]; specialize (Hw eq_refl).
  - intros d [i Hi]%list_elem_of_lookup_1. by apply (Hok i).
Qed.

End invariant.

(** ** Every clone gets there *)
Section progress.
Context {E : Env} {L : Libs}.
Context (client : Client) (sn key base name : string).
Implicit Types (w : World ImageMetadata) (jobs : list Job).

(** Requests still to send, at most. *)
Definition rank (p : Phase) : nat :=
  match p with PStat => 4 | PCommit => 3 | PReprepare => 2 | PPrepare => 1 | PEnd _ => 0 end.

Definition turns_of (i : nat) (sched : list nat) : nat := length (filter (fun j => j = i) sched).

Lemma step_rank dst p w : rank (clone_step client sn key base name dst p w).1 <= rank p - 1.
Proof.
  destruct p; cbn [clone_step]; [unfold mbind, ST_bind; cbn [fst mret ST_ret]..|done];
    repeat case_match; cbn; lia.
Qed.

Lemma race_rank sched jobs w i dst p :
  jobs !! i = Some (dst, p) ->
  exists p', (race client sn key base name sched jobs w).1 !! i = Some (dst, p') /\
    rank p' <= rank p - turns_of i sched.
Proof.
  unfold race. revert jobs w p. induction sched as [|j sched IH]; intros jobs w p Hi;
    cbn [interleave].
  { exists p. split; [done|]. cbn. lia. }
  unfold turns_of. rewrite filter_cons. fold (turns_of i sched).
  destruct (jobs !! j) as [[d q]|] eqn:Hj.
  - pose proof (step_rank d q w) as R. unfold mbind, ST_bind.
    destruct (clone_step _ _ _ _ _ d q w) as [q' w1]. cbn [fst snd] in *.
    destruct (decide (j = i)) as [->|Hne].
    + rewrite Hi in Hj. injection Hj as <- <-.
      destruct (IH (<[i := (dst, q')]> jobs) w1 q') as (p' & H1 & H2).
      { apply list_lookup_insert_eq. by eapply lookup_lt_Some. }
      exists p'. split; [done|]. cbn [length]. fold (turns_of i sched). lia.
    + destruct (IH (<[j := (d, q')]> jobs) w1 p) as (p' & H1 & H2).
      { by rewrite list_lookup_insert_ne. }
      by exists p'.
  - rewrite decide_False by congruence. by apply IH.
Qed.

Lemma race_length sched jobs w :
  length (race client sn key base name sched jobs w).1 = length jobs.
Proof.
  unfold race. revert jobs w. induction sched as [|j sched IH]; intros jobs w;
    cbn [interleave]; [done|].
  destruct (jobs !! j) as [[d q]|]; [|apply IH]. unfold mbind, ST_bind.
  destruct (clone_step _ _ _ _ _ d q w) as [q' w1]. cbn [fst snd]. by rewrite IH, length_insert.
Qed.

End progress.

(** * Properties *)

(** C19. Concurrent clones of one source are tolerated: however their requests
    interleave, once each clone has had its four turns every one of them
    succeeded with a layer of its own on the frozen base, the base holds what
    the source had, and the source has a fresh layer on the base again (as long
    as nobody else, containerd's garbage collector included, changes layers
    meanwhile, and the snapshotter refuses only what it must). *)
Theorem concurrent_clones_share_base {E : Env} {L : Libs} {SN : Snapshotter E} {UD : Undisturbed E} {RL : Reliable E}
    client sn key base name dsts p0 lb sched (w : World ImageMetadata) :
  key <> base -> NoDup (key :: base :: dsts) ->
  layers_of client w !! (sn, key) = Some (mkLayer p0 lb false) ->
  layers_of client w !! (sn, base) = None ->
  (forall dst, dst ∈ dsts -> layers_of client w !! (sn, dst) = None) ->
  dsts <> [] -> (forall i, i < length dsts -> 4 <= turns_of i sched) ->
  let r := race client sn key base name sched ((fun d => (d, PStat)) <$> dsts) w in
  r.1 = (fun d => (d, PEnd (Ok tt))) <$> dsts /\
  layers_of client r.2 !! (sn, base) = Some (mkLayer p0 ∅ true) /\
  layers_of client r.2 !! (sn, key) = Some (mkLayer base ∅ false) /\
  forall dst, dst ∈ dsts -> layers_of client r.2 !! (sn, dst) = Some (mkLayer base ∅ false).
Proof.
  intros Hkb Hn Hk Hb Hd Hne Ht. set (jobs := (fun d => (d, PStat)) <$> dsts).
  assert (Hj : forall i d, dsts !! i = Some d -> jobs !! i = Some (d, PStat)).
  { intros i d H. unfold jobs. by rewrite list_lookup_fmap, H. }
  assert (Hks : jobs.*1 = dsts) by (unfold jobs; rewrite <- list_fmap_compose; apply list_fmap_id).
  assert (I0 : race_inv client sn key base p0 w jobs).
  { apply NoDup_cons in Hn as [Hn1 Hn]. apply NoDup_cons in Hn as [Hn2 Hn]. split.
    - unfold distinct. rewrite Hks. split_and!; [done| |done]. set_solver.
    - left. split_and!; [done|eauto|]. intros i j Hij. unfold jobs in Hij.
      apply list_lookup_fmap_Some in Hij as (d & -> & Hij). split; [by left|].
      apply Hd. by eapply list_elem_of_lookup_2. }
  pose proof (race_keeps client sn key base name Hkb p0 sched w jobs I0) as I1.
  assert (Hend : forall i d, dsts !! i = Some d ->
    exists r, (race client sn key base name sched jobs w).1 !! i = Some (d, PEnd r)).
  { intros i d Hi. destruct (race_rank client sn key base name sched jobs w i d PStat (Hj i d Hi))
      as (p & H1 & H2). specialize (Ht i (lookup_lt_Some _ _ _ Hi)). cbn in H2.
    destruct p; cbn in H2; try lia. by exists r. }
  pose proof (race_length client sn key base name sched jobs w) as Hlen.
  cbv zeta. destruct (race _ _ _ _ _ sched jobs w) as [js w1]. cbn [fst snd] in *.
  apply (race_over client sn key base p0); [done|done| |done]. rewrite Hlen. unfold jobs. by rewrite length_fmap.
Qed.

(** ** The demonstration daemon *)
#[export] Instance demo_reliable : Reliable demo_env.
Proof.
  split; intros ns sn; intros; cbn.
  - unfold found, demo_layers. rewrite lookup_fmap. destruct (d_snaps e !! (sn, key)); cbn; [by eexists|done].
  - unfold demo_commit, demo_layers. rewrite !lookup_fmap.
    destruct (d_snaps e !! (sn, name)) as [x|]; cbn; [split; [done|by intros [=]]|].
    destruct (decide _) as [[? ?]|]; [done|].
    destruct (d_snaps e !! (sn, key)) as [y|]; [|split; [by intros [? ?]|done]].
    destruct (sn_committed y) eqn:Hy; [|done]. split; [by intros [? ?]|].
    intros _ p lb [= _ _ H]. congruence.
  - unfold demo_prepare, demo_layers. rewrite !lookup_fmap.
    destruct (decide _) as [[x Hx]|]; [intros H; by rewrite Hx in H|].
    destruct (decide (d_snaps e !! (sn, parent) = None)) as [->|]; done.
Qed.

Abbreviation race_demo :=
  (race demo_client DEFAULT_SNAPSHOTTER "c-snapshot" "c-clone-base" "copy").
Definition two_clones : list Job := [("d1", PStat); ("d2", PStat)].

(** What the loser of the race to commit may rely on: the winner has made the
    base, but not yet prepared the source again; the source has no layer when
    the loser goes on. *)
Lemma loser_overtakes_winner :
  let r := race_demo [0; 1; 0; 1] two_clones demo_clone_world in
  r.1 = [("d1", PReprepare); ("d2", PPrepare)] /\
  layers_of demo_client r.2 !! (DEFAULT_SNAPSHOTTER, "c-snapshot") = None.
Proof. vm_compute. auto. Qed.

Lemma concurrent_clones_share_base_witness :
  (race_demo [0; 1; 0; 1; 1; 0; 1; 0] two_clones demo_clone_world).1 =
    [("d1", PEnd (Ok tt)); ("d2", PEnd (Ok tt))].
Proof.
  apply (concurrent_clones_share_base demo_client DEFAULT_SNAPSHOTTER "c-snapshot" "c-clone-base"
    "copy" ["d1"; "d2"] "sha256:layer" ∅ [0; 1; 0; 1; 1; 0; 1; 0] demo_clone_world).
  - discriminate.
  - apply (bool_decide_unpack _). vm_compute. exact I.
  - vm_compute. reflexivity.
  - vm_compute. reflexivity.
  - intros dst H. apply elem_of_cons in H as [->|H]; [vm_compute; reflexivity|].
    apply elem_of_cons in H as [->|H]; [vm_compute; reflexivity|]. by apply elem_of_nil in H.
  - discriminate.
  - intros [|[|i]] H; [vm_compute; lia..|]. cbn in H. lia.
Defined.
