(* ===== verification/Exec.v ===== *)
(** * Running a command in a task ([src/exec.rs])

    The readiness checks run [exec] under [tokio::time::timeout], which drops
    it at an await.  So its awaits are marked here ([await]): with a deadline,
    the await that is not over by then is cut, its request sent but its answer
    lost, and nothing after it happens but the cleanup of [IoDir]. *)

From S2P Require Import Prelude RustText Utf8Lossy RustFmt Errors Effects FileSystem Identifier World DemoDaemon Loops Bridge ContainerSpec Inspect Task Create.

Definition DEFAULT_EXEC_MAX_OUTPUT_BYTES : N := 16 * 1024 * 1024.
Definition U64 : N := 18446744073709551616.

Record ExecOpts : Type := mkExecOpts { max_output_bytes : N }.

Definition exec_opts_default : ExecOpts := mkExecOpts DEFAULT_EXEC_MAX_OUTPUT_BYTES.

Record ExecOutput : Type := mkExecOutput {
  stdout : bytes;
  stderr : bytes;
  exit_code : Z;
  truncated_stdout : bool;
  truncated_stderr : bool
}.

(** [ExecOutput::stdout_str] and [stderr_str]. *)
Definition stdout_str (o : ExecOutput) : string := bytes_str (from_utf8_lossy (stdout o)).
Definition stderr_str (o : ExecOutput) : string := bytes_str (from_utf8_lossy (stderr o)).

(** ** Computations that a timeout can drop *)
Section timed.
Context {E : Env} {Meta : Type}.
Abbreviation M := (ST (World Meta)).

(** Nothing: dropped. *)
Definition Timed (A : Type) : Type := option N -> M (option A).

(** An await, cut at the deadline (at once, when that is past). *)
Definition await {A} (m : M A) : Timed A := fun deadline w =>
  let '(a, w') := m w in
  match deadline with
  | Some d => if (d <? clock w')%N then (None, set_clock (N.max d (clock w)) w')
              else (Some a, w')
  | None => (Some a, w')
  end.

(** Code between awaits. *)
Definition run {A} (m : M A) : Timed A := fun _ w => let '(a, w') := m w in (Some a, w').

(** [m?] *)
Definition timed_try {A B} (m : Timed (Result A)) (k : A -> Timed (Result B)) :
    Timed (Result B) := fun deadline =>
  r ← m deadline;
  match r with
  | None => mret None
  | Some (Err e) => mret (Some (Err e))
  | Some (Ok a) => k a deadline
  end.

(** A guard's [Drop], on every way out. *)
Definition finally {A} (m : Timed A) (cleanup : M unit) : Timed A := fun deadline =>
  r ← m deadline; _ ← cleanup; mret r.

(** [tokio::time::timeout]. *)
Definition with_timeout {A} (t : Duration) (m : Timed A) : M (option A) :=
  start ← now; m (Some (start + t)%N).

End timed.

Notation "x '⇐' m ; k" := (timed_try m (fun x => k))
  (at level 20, m at level 100, k at level 200, format "x  ⇐  m ; '//' k").
Notation "' x '⇐' m ; k" := (timed_try m (fun x => k))
  (at level 20, x pattern, m at level 100, k at level 200).

Section exec.
Context {E : Env} {L : Libs} {Meta : Type}.
Abbreviation M := (ST (World Meta)).
Abbreviation T := (@Timed E Meta).

(** [fetch_add], which wraps. *)
Definition generate_exec_id : M string := fun w =>
  ("exec-" +:+ dec_string process_id +:+ "-" +:+ dec_string (exec_counter w),
   set_execs ((exec_counter w + 1) mod U64)%N w).

(** The guard's directory and the two paths.  An error after the directory
    exists leaves it: the guard is made last. *)
Definition create_io_dir : M (Result (path * path * path)) :=
  home ←? lift_res (ok_or (Io "home directory" KindNotFound) home_dir);
  let base := pjoin (pjoin home ".containerd-manager") "exec-io" in
  on_files (st_map_err (Io "create exec-io base dir") (fs_create_dir_all base)) ;;?
  id ← generate_exec_id;
  let dir := pjoin base id in
  on_files (st_map_err (Io "create exec-io dir") (fs_create_dir_all dir)) ;;?
  let stdout_path := pjoin dir "stdout" in
  let stderr_path := pjoin dir "stderr" in
  on_files (st_map_err (Io "create exec stdout file") (fs_write stdout_path [])) ;;?
  on_files (st_map_err (Io "create exec stderr file") (fs_write stderr_path [])) ;;?
  mret (Ok (dir, stdout_path, stderr_path)).

Definition drop_io_dir (dir : path) : M unit :=
  on_files (_ ← fs_remove_dir_all dir; mret tt).

Definition build_exec_process_spec (command env : list string) : Result Any :=
  let? capabilities := default_exec_capabilities in
  let? process := map_err (fun e => InvalidArgument ("build process spec: " +:+ e))
    (oci_build (mkOciProcess false command (Some env) "/" capabilities)) in
  let? json := map_err (fun e => InvalidArgument ("serialize process spec: " +:+ e))
    (process_to_vec process) in
  Ok (mkAny "types.containerd.io/opencontainers/runtime-spec/1/Process" json).

Definition build_exec_request (container_id exec_id : string) (stdout_path stderr_path : path)
    (spec : Any) : ExecProcessRequest :=
  mkExecProcessRequest container_id "" (path_text stdout_path) (path_text stderr_path) false
    (Some spec) exec_id.

(** Up to [cap] bytes, and whether the file was longer. *)
Definition read_capped (p : path) (cap : N) : FsM (Result (bytes * bool)) :=
  file ←? st_map_err (Io "read exec output: open") (fs_open p);
  total_len ←? st_map_err (Io "read exec output: stat") (handle_len file);
  let truncated := (cap <? total_len)%N in
  let take := N.min total_len cap in
  buf ←? st_map_err (Io "read exec output") (handle_read file 0 (Some take));
  mret (Ok (buf, truncated)).

(** A request whose failure is an error of the given operation. *)
Definition await_rpc (client : Client) (r : Req) (op : string) : T (Result (resp_of r)) :=
  await (x ← rpc client r; mret (map_err (fun e => into_crate_error e op) x)).

(** [exec_with_opts] once the command is known not to be empty; the guard
    lives from [create_io_dir] on. *)
Definition exec_in_dir (client : Client) (container_id exec_id : string) (command : list string)
    (cap : N) (stdout_path stderr_path : path) : T (Result ExecOutput) :=
  info ⇐ await (inspect_container client container_id);
  let env := env_entry <$> map_to_list (ci_env info) in
  spec ⇐ run (lift_res (build_exec_process_spec command env));
  _ ⇐ await_rpc client
        (ExecProcess (build_exec_request container_id exec_id stdout_path stderr_path spec))
        "exec_create";
  _ ⇐ await_rpc client (StartTask container_id exec_id) "exec_start";
  exit_status ⇐ await_rpc client (WaitTask container_id exec_id) "exec_wait";
  let code := i32_wrapping exit_status in
  '(out, truncated_out) ⇐ await (on_files (read_capped stdout_path cap));
  '(err, truncated_err) ⇐ await (on_files (read_capped stderr_path cap));
  _ ⇐ await (_ ← rpc client (DeleteProcess container_id exec_id); mret (Ok tt : Result unit));
  run (mret (Ok (mkExecOutput out err code truncated_out truncated_err))).

Definition exec_with_opts (client : Client) (container_id : string) (command : list string)
    (opts : ExecOpts) : T (Result ExecOutput) :=
  match command with
  | [] => run (mret (Err (InvalidArgument "command must not be empty")))
  | _ =>
      exec_id ⇐ run (id ← generate_exec_id; mret (Ok id : Result string));
      '(dir, stdout_path, stderr_path) ⇐ run create_io_dir;
      finally (exec_in_dir client container_id exec_id command (max_output_bytes opts)
                 stdout_path stderr_path)
        (drop_io_dir dir)
  end.

Definition exec (client : Client) (container_id : string) (command : list string) :
    T (Result ExecOutput) :=
  exec_with_opts client container_id command exec_opts_default.

(** [exec(..).await]: without a deadline it is never dropped. *)
Definition exec_now (client : Client) (container_id : string) (command : list string) :
    M (Result ExecOutput) :=
  r ← exec client container_id command None;
  mret (default (Err NotImplemented) r).

End exec.

(** * Lemmas *)
Section plans.
Context {E : Env} {L : Libs} {Meta : Type}.
Abbreviation W := (World Meta).
Abbreviation T := (@Timed E Meta).
Implicit Types (w : W) (client : Client).

(** A plan: what the requests to come look like, in order.  [along ps evs]:
    the events go along the plan, possibly not to its end. *)
Abbreviation Plan := (list (Event -> Prop)).

Inductive along : Plan -> list Event -> Prop :=
| along_stop ps : along ps []
| along_step (P : Event -> Prop) ps ev evs : P ev -> along ps evs -> along (P :: ps) (ev :: evs).

Lemma along_app ps1 ps2 e1 e2 :
  along ps1 e1 -> length e1 = length ps1 -> along ps2 e2 -> along (ps1 ++ ps2) (e1 ++ e2).
Proof.
  induction 1 as [ps|P ps ev evs HP H IH]; intros Hl H2; cbn in *.
  - by destruct ps.
  - constructor; [done|]. apply IH; [lia|done].
Qed.

Lemma along_weaken ps1 ps2 e1 : along ps1 e1 -> along (ps1 ++ ps2) e1.
Proof. induction 1; by constructor. Qed.

Lemma along_length ps evs : along ps evs -> length evs <= length ps.
Proof. induction 1; cbn; lia. Qed.

(** The computation sends along the plan, and all of it when it succeeds... *)
Definition sends {A} (ps : Plan) (m : T (Result A)) : Prop := forall dl w r w',
  m dl w = (r, w') -> exists evs, trace w' = trace w ++ evs /\ along ps evs /\
    (forall a, r = Some (Ok a) -> length evs = length ps).

(** ... and stops short of its end when it fails. *)
Definition sends_short {A} (ps : Plan) (m : T (Result A)) : Prop := forall dl w r w',
  m dl w = (r, w') -> exists evs, trace w' = trace w ++ evs /\ along ps evs /\
    (forall a, r = Some (Ok a) -> length evs = length ps) /\
    (forall e, r = Some (Err e) -> length evs < length ps).

Definition never_fails {A} (m : T (Result A)) : Prop :=
  forall dl w e, (m dl w).1 <> Some (Err e).

Lemma sends_try {A B} ps1 ps2 (m : T (Result A)) (k : A -> T (Result B)) :
  sends ps1 m -> (forall a, sends_short ps2 (k a)) -> ps2 <> [] \/ never_fails m ->
  sends_short (ps1 ++ ps2) (timed_try m k).
Proof.
  intros Hm Hk Hne dl w r w'. unfold timed_try. intros (r1 & w1 & H1 & H)%bind_inv.
  destruct (Hm dl w r1 w1 H1) as (e1 & T1 & A1 & L1). destruct r1 as [[a|e]|].
  - destruct (Hk a dl w1 r w' H) as (e2 & T2 & A2 & L2 & S2). specialize (L1 a eq_refl).
    exists (e1 ++ e2). rewrite T2, T1, !length_app, app_assoc.
    split_and!; [done|by apply along_app| |]; intros x Hx.
    + by rewrite L1, (L2 x).
    + specialize (S2 x Hx). lia.
  - apply ret_inv in H as [<- <-]. exists e1. apply along_length in A1 as Hl.
    split_and!; [done|by apply along_weaken|done|].
    intros x _. rewrite length_app. destruct Hne as [Hne|Hne].
    + destruct ps2; [done|]. cbn. lia.
    + by destruct (Hne dl w e); rewrite H1.
  - apply ret_inv in H as [<- <-]. exists e1. split_and!; [done|by apply along_weaken|done|done].
Qed.

(** Awaiting a computation with the given events. *)
Lemma sends_await {A} ps (m : ST W (Result A)) :
  (forall w r w', m w = (r, w') -> exists evs, trace w' = trace w ++ evs /\ along ps evs /\
     (forall a, r = Ok a -> length evs = length ps)) ->
  sends ps (await m).
Proof.
  intros Hm dl w r w' H. unfold await in H. destruct (m w) as [a w1] eqn:H1.
  destruct (Hm _ _ _ H1) as (evs & T1 & A1 & L1).
  exists evs. destruct dl as [d|]; [destruct (_ <? _)%N|]; injection H as <- <-;
    (split_and!; [done|done|]); intros x Hx; try done; apply (L1 x); congruence.
Qed.

Lemma sends_run {A} (m : ST W (Result A)) :
  (forall w, trace (m w).2 = trace w) -> sends [] (run m).
Proof.
  intros Hm dl w r w' H. unfold run in H. specialize (Hm w). destruct (m w) as [a w1].
  injection H as <- <-. exists []. rewrite app_nil_r. split_and!; [done|constructor|done].
Qed.

Lemma sends_rpc client r op (P : Event -> Prop) :
  P (Sent (namespace client) r) -> sends [P] (await_rpc client r op).
Proof.
  intros HP. apply sends_await. intros w x w' (a & w1 & H1 & [_ <-]%ret_inv)%bind_inv.
  pose proof (rpc_trace client r w) as Ht. rewrite H1 in Ht.
  exists [Sent (namespace client) r]. split_and!; [done|by repeat constructor|done].
Qed.

Lemma sends_files {A} (m : FsM (Result A)) : sends [] (await (on_files m)).
Proof.
  apply sends_await. intros w r w' H. injection H as _ <-. exists [].
  rewrite app_nil_r. split_and!; [done|constructor|done].
Qed.

(** The requests of an inspection. *)
Definition inspect_plan (client : Client) (id : string) : Plan :=
  [fun ev => ev = Sent (namespace client) (GetContainer id);
   fun ev => exists c, ev = Sent (namespace client) (GetTask c "")].

Lemma sends_inspect client id : sends (inspect_plan client id) (await (inspect_container client id)).
Proof.
  apply sends_await. intros w r w' H. unfold inspect_container, get_container in H.
  pose proof (rpc_trace client (GetContainer id) w) as T1.
  apply try_inv in H as [(c & w1 & (x & w2 & H2 & [_ <-]%ret_inv)%bind_inv & H)
                        |(e & (x & w2 & H2 & [_ <-]%ret_inv)%bind_inv & ->)];
    rewrite H2 in T1; cbn [snd] in T1.
  - apply bind_inv in H as (t & w3 & H3 & [<- <-]%ret_inv). unfold get_task_info in H3.
    apply bind_inv in H3 as (y & w4 & H4 & [_ <-]%ret_inv).
    pose proof (rpc_trace client (GetTask (c_id c) "") w2) as T2. rewrite H4 in T2.
    cbn [snd] in T2. eexists [_; _]. rewrite T2, T1, <-app_assoc.
    split_and!; [done|repeat constructor; eauto|done].
  - eexists [_]. split_and!; [exact T1|repeat constructor|done].
Qed.

(** The requests of an execution. *)
Definition exec_plan (client : Client) (id exec_id : string) : Plan :=
  inspect_plan client id ++
  [fun ev => exists r, ev = Sent (namespace client) (ExecProcess r) /\
      ep_container_id r = id /\ ep_exec_id r = exec_id;
   fun ev => ev = Sent (namespace client) (StartTask id exec_id);
   fun ev => ev = Sent (namespace client) (WaitTask id exec_id);
   fun ev => ev = Sent (namespace client) (DeleteProcess id exec_id)].

Lemma sends_exec client id exec_id command cap so se :
  sends_short (exec_plan client id exec_id)
    (exec_in_dir client id exec_id command cap so se).
Proof.
  unfold exec_in_dir, exec_plan. apply sends_try; [apply sends_inspect| |by left]. intros info.
  apply (sends_try [] _); [by apply sends_run| |by left]. intros spec.
  apply (sends_try [_] _); [by apply sends_rpc; eauto| |by left]. intros _.
  apply (sends_try [_] _); [by apply sends_rpc| |by left]. intros _.
  apply (sends_try [_] _); [by apply sends_rpc| |by left]. intros st.
  apply (sends_try [] _); [apply sends_files| |by left]. intros [o to].
  apply (sends_try [] _); [apply sends_files| |by left]. intros [er te].
  apply (sends_try [_] []).
  - apply sends_await. intros w r w' (a & w1 & H1 & [_ <-]%ret_inv)%bind_inv.
    pose proof (rpc_trace client (DeleteProcess id exec_id) w) as Ht. rewrite H1 in Ht.
    eexists [_]. split_and!; [exact Ht|by repeat constructor|done].
  - intros _ dl w r w' H. injection H as <- <-. exists []. rewrite app_nil_r.
    split_and!; [done|constructor|done|done].
  - right. intros dl w e. unfold await, mbind, ST_bind. cbn.
    destruct (rpc _ _ w) as [x w1]. cbn. by destruct dl as [d|]; [destruct (_ <? _)%N|].
Qed.

(** ** Time does not go back *)
Definition later_timed {A} (m : T A) : Prop := forall dl, pres later (m dl).

Lemma later_await {A} (m : ST W A) : pres later m -> later_timed (await m).
Proof.
  intros Hm dl w. specialize (Hm w). unfold await, later in *. destruct (m w) as [a w'].
  cbn in Hm. destruct dl as [d|]; [|done]. destruct (_ <? _)%N; cbn; lia.
Qed.

Lemma later_run {A} (m : ST W A) : pres later m -> later_timed (run m).
Proof. intros Hm dl w. specialize (Hm w). unfold run. by destruct (m w). Qed.

Lemma later_timed_try {A B} (m : T (Result A)) (k : A -> T (Result B)) :
  later_timed m -> (forall a, later_timed (k a)) -> later_timed (timed_try m k).
Proof.
  intros Hm Hk dl. unfold timed_try. apply pres_bind; [apply _|apply Hm|].
  intros [[a|e]|]; [apply Hk|by apply pres_ret, _..].
Qed.

Lemma later_await_rpc client r op : later_timed (await_rpc client r op).
Proof.
  apply later_await. apply pres_bind; [apply _|apply later_rpc|]. intros x. by apply pres_ret, _.
Qed.

Lemma later_exec client id command : later_timed (exec (Meta := Meta) client id command).
Proof.
  unfold exec, exec_with_opts. destruct command as [|c cs].
  { apply later_run. by apply pres_ret, _. }
  apply later_timed_try; [apply later_run; pres_step; intros w; apply N.le_refl|]. intros xid.
  apply later_timed_try.
  - apply later_run. unfold create_io_dir, lift_res. repeat pres_step; try (by intros ?; unfold later; cbn; lia).
  - intros [[dir so] se] dl. unfold finally. apply pres_bind; [apply _| |].
    + revert dl. unfold exec_in_dir.
      repeat first
        [ apply later_timed_try; [|intros ?]
        | apply later_await_rpc
        | apply later_await, later_inspect
        | apply later_await, later_files
        | apply later_run; by apply pres_ret, _
        | case_match ].
      apply later_await. apply pres_bind; [apply _|apply later_rpc|]. intros x.
      by apply pres_ret, _.
    + intros r. apply pres_bind; [apply _|apply later_files|]. intros u. by apply pres_ret, _.
Qed.

End plans.

(** * Properties *)
Section properties.
Context {E : Env} {L : Libs} {Meta : Type}.
Implicit Types (w : World Meta) (client : Client).

(** The identifier the next execution gets. *)
Definition exec_id_at w : string :=
  "exec-" +:+ dec_string process_id +:+ "-" +:+ dec_string (exec_counter w).

Lemma create_io_dir_trace w r w' : create_io_dir w = (r, w') -> trace w' = trace w.
Proof.
  unfold create_io_dir. intros H.
  assert (G : pres (fun w w' : World Meta => trace w' = trace w) create_io_dir).
  { assert (Reflexive (fun w w' : World Meta => trace w' = trace w)) by done.
    assert (Transitive (fun w w' : World Meta => trace w' = trace w)) by (intros ? ? ?; congruence).
    unfold create_io_dir, lift_res. repeat pres_step; by intros ?. }
  specialize (G w). unfold create_io_dir in G. by rewrite H in G.
Qed.

(** C35. An execution sends, in order and each at most once, the two requests
    of an inspection, then create, start, wait and delete of its process under
    its own identifier; success means all six.  A failure means the process
    was not deleted: once created, its record stays with the daemon. *)
Theorem exec_requests client id command opts dl w r w' :
  exec_with_opts client id command opts dl w = (r, w') ->
  exists evs, trace w' = trace w ++ evs /\ along (exec_plan client id (exec_id_at w)) evs /\
    (forall out, r = Some (Ok out) -> length evs = 6) /\
    (forall e, r = Some (Err e) -> length evs < 6).
Proof.
  unfold exec_with_opts. destruct command as [|c cs].
  { intros [= <- <-]. exists []. rewrite app_nil_r. split_and!; [done|constructor|done|].
    intros; cbn; lia. }
  unfold timed_try. intros (x & w1 & H1 & H)%bind_inv. injection H1 as <- <-.
  apply bind_inv in H as (y & w2 & H2 & H). unfold run in H2.
  set (w0 := set_execs _ w) in *. destruct (create_io_dir w0) as [d w2'] eqn:H3.
  injection H2 as <- ->. apply create_io_dir_trace in H3. cbn in H3.
  destruct d as [[[dir so] se]|e].
  - unfold finally in H. apply bind_inv in H as (z & w3 & H4 & H).
    apply bind_inv in H as ([] & w4 & H5 & [<- <-]%ret_inv). injection H5 as <-.
    apply sends_exec in H4 as (evs & T & A & Hok & Her). exists evs.
    split_and!; [by rewrite <-H3|done|done|done].
  - apply ret_inv in H as [<- <-]. exists []. rewrite H3, app_nil_r.
    split_and!; [done|constructor|done|intros; cbn; lia].
Qed.

(** Captured output never exceeds the cap, whatever happens to the file
    meanwhile. *)
Lemma read_capped_bound p cap st b t st' :
  read_capped p cap st = (Ok (b, t), st') -> (blen b <= cap)%N.
Proof.
  unfold read_capped, st_map_err. intros H.
  apply try_ok_inv in H as (f & s1 & _ & H). apply try_ok_inv in H as (n & s2 & _ & H).
  cbv zeta in H. apply try_ok_inv in H as (buf & s3 & H3 & [H _]%ret_inv). simplify_eq.
  apply bind_inv in H3 as (x & s4 & H4 & [H5 _]%ret_inv).
  destruct x as [y|]; [|done]. cbn in H5. simplify_eq.
  assert (G : exists l, b = take (N.to_nat (N.min n cap)) l).
  { unfold handle_read, op, op_with in H4. destruct (sched s2) as [|tk ts];
      [|destruct (tick_fault tk)]; simplify_eq/=; eauto. }
  destruct G as [l ->]. unfold blen. rewrite length_take. lia.
Qed.

(** On a quiet file system it is the file's beginning, flagged exactly when the
    file is longer. *)
Lemma read_capped_quiet p cap s i :
  fs_dir s !! p = Some i ->
  read_capped p cap (quiet s) =
    (Ok (take (N.to_nat cap) (contents s i), (cap <? blen (contents s i))%N), quiet s).
Proof.
  intros Hi. unfold read_capped, st_map_err, try_st, mbind, ST_bind, fs_open, handle_len,
    handle_read. rewrite !op_quiet. cbn. rewrite Hi. cbn. rewrite drop_0. f_equal. f_equal.
  f_equal. unfold blen. destruct (N.min_spec (N.of_nat (length (contents s i))) cap) as [[? ->]|[? ->]];
    [|done]. rewrite !firstn_all2; [done|lia|lia].
Qed.

(** C40. What a caller reads of a command's output, when the command printed
    well-formed text into the file that is captured: the text itself if it is
    within the cap; otherwise its characters up to the cap, and one U+FFFD if
    the cap cuts a character.  Whatever was printed, the text is well-formed
    and has at most three times as many bytes as the cap. *)
Theorem output_text p cap out t err code te st st' :
  read_capped p cap st = (Ok (out, t), st') ->
  let text := str_bytes (stdout_str (mkExecOutput out err code t te)) in
  utf8_valid text = true /\ (blen text <= 3 * cap)%N /\
  forall s i, st = quiet s -> fs_dir s !! p = Some i -> utf8_valid (contents s i) = true ->
    (t = false -> text = contents s i) /\
    (t = true -> exists chars cut, take (N.to_nat cap) (contents s i) = chars ++ cut /\
       utf8_valid chars = true /\ length cut <= 3 /\
       text = chars ++ match cut with [] => [] | _ => REPLACEMENT end).
Proof.
  intros H. cbv zeta. unfold stdout_str. cbn [stdout]. rewrite str_bytes_str.
  pose proof (read_capped_bound p cap st out t st' H) as Hb.
  pose proof (lossy_length out) as Hl. split_and!; [apply lossy_is_valid|unfold blen in *; lia|].
  intros s i -> Hp Hv. rewrite (read_capped_quiet p cap s i Hp) in H. injection H as <- <- _.
  split; intros Ht.
  - simp_eqs. rewrite take_ge by (unfold blen in *; lia). by apply lossy_valid.
  - by apply lossy_cut.
Qed.

End properties.

(** ** Witnesses *)
Definition demo_running : @World demo_env unit := demo_world (demo_with_task 2 false).

Lemma exec_requests_witness :
  exists evs, trace (exec_with_opts demo_client "c" ["true"] (mkExecOpts 10) None demo_running).2 = evs /\
    along (exec_plan demo_client "c" "exec-7-0") evs /\ length evs = 6.
Proof.
  assert (H : exists out, (exec_with_opts demo_client "c" ["true"] (mkExecOpts 10) None demo_running).1 =
    Some (Ok out)) by (vm_compute; eexists; reflexivity).
  destruct H as [out H].
  destruct (exec_requests demo_client "c" ["true"] (mkExecOpts 10) None demo_running _ _ (run_eq _ _ _ H))
    as (evs & T & A & Hok & _).
  exists evs. split_and!; [exact T|exact A|exact (Hok out eq_refl)].
Defined.

(** A cap of two bytes keeps the first character and cuts the second. *)
Lemma output_text_witness :
  stdout_str (mkExecOutput [x6f; xc3] [] 0 true false) = bytes_str (x6f :: REPLACEMENT) /\
  (blen (str_bytes (stdout_str (mkExecOutput [x6f; xc3] [] 0 true false))) <= 3 * 2)%N.
Proof.
  set (s := create_at ["f"] [x6f; xc3; xa9] fs_empty).
  destruct (output_text ["f"] 2 [x6f; xc3] true [] 0 false (quiet s) (quiet s)) as (_ & Hb & H).
  - vm_compute. reflexivity.
  - split; [|exact Hb]. destruct (H s 0%N) as [_ Ht]; [reflexivity..|].
    destruct (Ht eq_refl) as (chars & cut & He & _ & _ & Htext). vm_compute. reflexivity.
Defined.
