(* ===== verification/ExecFiles.v ===== *)
(** * The files of an execution ([src/exec.rs])

    An execution makes a directory with a file for each output stream, lets the
    shim write to them, reads them up to the cap and removes the directory, on
    every way out.  The shim is not part of the crate: what it writes is an
    action of the file system's schedule, between the requests and the first
    read. *)

From S2P Require Import Prelude RustText RustFmt Errors Effects FileSystem Identifier World DemoDaemon Loops Bridge ContainerSpec Inspect ClientState Task Exec.

Section inversion.
Context {E : Env} {Meta : Type}.
Abbreviation W := (World Meta).
Abbreviation T := (@Timed E Meta).

Lemma timed_ok_inv {A B} (m : T (Result A)) (k : A -> T (Result B)) dl w b w' :
  timed_try m k dl w = (Some (Ok b), w') ->
  exists a w1, m dl w = (Some (Ok a), w1) /\ k a dl w1 = (Some (Ok b), w').
Proof.
  unfold timed_try. intros ([[a|e]|] & w1 & H1 & H)%bind_inv; [eauto|..];
    by apply ret_inv in H as [? _].
Qed.

Lemma await_inv {A} (m : ST W A) dl w a w' : await m dl w = (Some a, w') -> m w = (a, w').
Proof.
  unfold await. destruct (m w) as [x w1]. destruct dl as [d|]; [destruct (_ <? _)%N|]; congruence.
Qed.

Lemma run_inv {A} (m : ST W A) dl w a w' : run m dl w = (Some a, w') -> m w = (a, w').
Proof. unfold run. destruct (m w). congruence. Qed.

(** ** What leaves the files alone *)
Definition same_files (w w' : W) : Prop := files w' = files w.

#[local] Instance same_files_refl : Reflexive same_files.
Proof. done. Qed.
#[local] Instance same_files_trans : Transitive same_files.
Proof. unfold same_files. intros ? ? ?. congruence. Qed.

Lemma same_files_rpc c r : pres same_files (rpc c r).
Proof. intros w. unfold rpc. by destruct (handle _ _ _) as [[a d] e]. Qed.

Ltac files_step :=
  idtac; match goal with |- pres _ (rpc ?c ?r) => exact (same_files_rpc c r) end.

Lemma same_files_inspect `{L : Libs} client id : pres same_files (inspect_container client id).
Proof.
  unfold inspect_container, get_container, get_task_info. walk files_step.
Qed.

Lemma same_files_request c r op :
  pres same_files (x ← rpc c r; mret (map_err (fun e => into_crate_error e op) x)).
Proof. walk files_step. Qed.

Lemma same_files_forget {A} c r (a : A) : pres same_files (_ ← rpc c r; mret a).
Proof. walk files_step. Qed.

Lemma await_files {A} (m : ST W A) dl w a w' :
  pres same_files m -> await m dl w = (Some a, w') -> files w' = files w.
Proof. intros Hm H%await_inv. specialize (Hm w). by rewrite H in Hm. Qed.

End inversion.

(** ** Reading *)
Section reading.
Context {E : Env} {L : Libs} {Meta : Type}.
Abbreviation W := (World Meta).
Implicit Types (w : W) (client : Client).

(** What a successful execution returns is what it reads from its two files. *)
Lemma exec_in_dir_reads client id xid command cap so se dl w o w' :
  exec_in_dir client id xid command cap so se dl w = (Some (Ok o), w') ->
  exists f1, read_capped so cap (files w) = (Ok (stdout o, truncated_stdout o), f1) /\
    read_capped se cap f1 = (Ok (stderr o, truncated_stderr o), files w') /\
    exists status w1 w2, rpc client (WaitTask id xid) w1 = (Ok status, w2) /\
      exit_code o = i32_wrapping status.
Proof.
  unfold exec_in_dir, await_rpc. intros H.
  apply timed_ok_inv in H as (info & w1 & H1 & H).
  apply await_files in H1; [|apply same_files_inspect].
  apply timed_ok_inv in H as (spec & w2 & H2 & H). apply run_inv in H2. injection H2 as _ <-.
  apply timed_ok_inv in H as (c & w3 & H3 & H). apply await_files in H3; [|apply same_files_request].
  apply timed_ok_inv in H as (t & w4 & H4 & H). apply await_files in H4; [|apply same_files_request].
  apply timed_ok_inv in H as (status & w5 & H5 & H). pose proof H5 as H5'%await_inv.
  apply await_files in H5; [|apply same_files_request].
  apply timed_ok_inv in H as ([out to] & w6 & H6%await_inv & H). unfold on_files, zoom in H6.
  destruct (read_capped so cap (files w5)) as [r6 f6] eqn:E6. injection H6 as -> <-.
  apply timed_ok_inv in H as ([err te] & w7 & H7%await_inv & H). unfold on_files, zoom in H7.
  destruct (read_capped se cap _) as [r7 f7] eqn:E7. injection H7 as -> <-.
  apply timed_ok_inv in H as (u & w8 & H8 & H).
  apply await_files in H8; [|apply same_files_forget].
  apply run_inv in H. injection H as <- <-. exists f6.
  replace (files w5) with (files w) in E6 by congruence. cbn [files set_files] in *.
  rewrite H8. split_and!; [done|done|].
  apply bind_inv in H5' as (x & w9 & H9 & H5'). apply ret_inv in H5' as [H5' _].
  destruct x as [x|x]; [|done]. injection H5' as ->. eauto.
Qed.

(** ** The directory *)

(** The path of the directory, by the identifier the guard draws. *)
Definition exec_io_base (home : path) : path := pjoin (pjoin home ".containerd-manager") "exec-io".
Definition io_dir (home : path) (id : string) : path := pjoin (exec_io_base home) id.

(** The shim opens the two files by name and writes what the command prints. *)
Definition print_to (p : path) (b : bytes) (s : FS) : FS :=
  match fs_dir s !! p with Some i => set_contents i b s | None => s end.

Definition command_prints (dir : path) (out err : bytes) (s : FS) : FS :=
  print_to (dir ++ ["stderr"]) err (print_to (dir ++ ["stdout"]) out s).

Definition shim_tick (dir : path) (out err : bytes) : Tick := mkTick (command_prints dir out err) None 0.

(** The two empty files. *)
Definition io_files (dir : path) (s : FS) : FS :=
  create_at (dir ++ ["stderr"]) [] (create_at (dir ++ ["stdout"]) [] s).

Definition no_entries (dir : path) (s : FS) : Prop := forall p, under dir p = true -> fs_dir s !! p = None.

Lemma under_app dir q : under dir (dir ++ q) = true.
Proof. unfold under. rewrite take_app_length. by rewrite bool_decide_eq_true. Qed.

(** One operation of the file system, undisturbed. *)
Lemma files_op {A} (f : ErrorKind -> Error) (g : FS -> io A * FS) a s s' ts w :
  files w = mkFsSt s (tick_ok :: ts) -> g s = (Ok a, s') ->
  on_files (st_map_err f (op g)) w = (Ok a, set_files (mkFsSt s' ts) w).
Proof.
  intros Hf Hg. unfold on_files, zoom. rewrite Hf. unfold st_map_err, op, op_with, mbind, ST_bind.
  cbn. by rewrite Hg.
Qed.

Lemma create_io_dir_files home s ts w :
  home_dir = Some home -> files w = mkFsSt s (replicate 4 tick_ok ++ ts) ->
  let dir := io_dir home (exec_id_at w) in
  no_entries dir s ->
  exists w', create_io_dir w = (Ok (dir, dir ++ ["stdout"], dir ++ ["stderr"]), w') /\
    files w' = mkFsSt (io_files dir s) ts.
Proof.
  intros Hh Hf dir Hn. unfold create_io_dir, lift_res. rewrite Hh. cbn [ok_or].
  pose proof (Hn _ (under_app dir ["stdout"])) as Ho. pose proof (Hn _ (under_app dir ["stderr"])) as He.
  rewrite (run_try_ok _ _ w home w) by done. cbv zeta. fold (exec_io_base home).
  unfold fs_create_dir_all, fs_write.
  erewrite run_try_ok; [|eapply files_op; [exact Hf|done]].
  erewrite run_bind by done. cbn [exec_counter set_files]. fold (exec_id_at w).
  change (pjoin (exec_io_base home) (exec_id_at w)) with dir.
  change (pjoin dir "stdout") with (dir ++ ["stdout"]).
  change (pjoin dir "stderr") with (dir ++ ["stderr"]).
  erewrite run_try_ok; [|eapply files_op; [done|done]].
  erewrite run_try_ok; [|eapply files_op; [done|cbn; by rewrite Ho]].
  erewrite run_try_ok.
  2:{ eapply files_op; [done|]. cbn [fs_dir create_at]. rewrite lookup_insert_ne; [by rewrite He|].
      by intros [_ [=]]%app_inj_2. }
  eexists. split; [done|]. done.
Qed.

(** ** The way out *)
Section way_out.
Context (s : FS) (t : Tick) (Ht : tick_fault t = None).

(** The shim has yet to write, or has written, and nothing else happened. *)
Definition only_shim (f : FsSt) : Prop := f = mkFsSt s [t] \/ f = quiet (tick_env t s).

Definition keeps_shim (f f' : FsSt) : Prop := only_shim f -> only_shim f'.

#[local] Instance keeps_shim_refl : Reflexive keeps_shim.
Proof. by intros f H. Qed.
#[local] Instance keeps_shim_trans : Transitive keeps_shim.
Proof. intros f g h H1 H2 H. auto. Qed.

Lemma op_keeps_shim {A} (g : FS -> io A) : pres keeps_shim (op (fun s => (g s, s))).
Proof. intros f [->| ->]; right; unfold op, op_with; cbn; by rewrite ?Ht. Qed.

Lemma read_keeps_shim p cap : pres keeps_shim (read_capped p cap).
Proof.
  unfold read_capped, fs_open, handle_len, handle_read.
  repeat first [pres_step | apply op_keeps_shim | intros ?; done].
Qed.

Definition world_keeps w w' : Prop := keeps_shim (files w) (files w').

#[local] Instance world_keeps_refl : Reflexive world_keeps.
Proof. by intros w H. Qed.
#[local] Instance world_keeps_trans : Transitive world_keeps.
Proof. intros x y z H1 H2 H. auto. Qed.

Lemma same_files_keep {A} (m : ST W A) : pres same_files m -> pres world_keeps m.
Proof. intros Hm w H. by rewrite (Hm w). Qed.

Lemma await_keeps {A} (m : ST W A) dl : pres world_keeps m -> pres world_keeps (await m dl).
Proof.
  intros Hm w. specialize (Hm w). unfold await. destruct (m w) as [a w'].
  destruct dl as [d|]; [destruct (_ <? _)%N|]; done.
Qed.

Lemma timed_try_keeps {A B} (m : @Timed E Meta (Result A)) (k : A -> Timed (Result B)) dl :
  pres world_keeps (m dl) -> (forall a, pres world_keeps (k a dl)) -> pres world_keeps (timed_try m k dl).
Proof.
  intros Hm Hk. unfold timed_try. apply pres_bind; [apply _|done|].
  intros [[a|e]|]; [apply Hk|by apply pres_ret, _..].
Qed.

Lemma run_keeps {A} (m : ST W A) dl : pres world_keeps m -> pres world_keeps (run m dl).
Proof. intros Hm w. specialize (Hm w). unfold run. by destruct (m w). Qed.

Lemma exec_in_dir_keeps client id xid command cap so se dl :
  pres world_keeps (exec_in_dir client id xid command cap so se dl).
Proof.
  unfold exec_in_dir, await_rpc.
  repeat first
    [ apply timed_try_keeps; [|intros ?]
    | apply await_keeps, same_files_keep, same_files_inspect
    | apply await_keeps, same_files_keep, same_files_request
    | apply await_keeps, same_files_keep, same_files_forget
    | apply await_keeps; intros w; apply read_keeps_shim
    | apply run_keeps; by intros ?
    | case_match ].
Qed.

(** Removing the directory ends the schedule. *)
Lemma drop_io_dir_files dir w :
  only_shim (files w) ->
  files (drop_io_dir dir w).2 =
    quiet (mkFS (filter (fun e => under dir e.1 = false) (fs_dir (tick_env t s)))
      (fs_inodes (tick_env t s)) (fs_next (tick_env t s))).
Proof.
  unfold drop_io_dir, on_files, zoom, fs_remove_dir_all, mbind, ST_bind, op, op_with.
  intros [E'|E']; rewrite E'; cbn; by rewrite ?Ht.
Qed.

End way_out.

(** ** What is read, what is left *)
Section shim.
Context (dir : path) (out err : bytes) (s : FS) (Hn : no_entries dir s).
Abbreviation so := (dir ++ ["stdout"]).
Abbreviation se := (dir ++ ["stderr"]).
Abbreviation s' := (command_prints dir out err (io_files dir s)).

Lemma print_to_dir p b s1 : fs_dir (print_to p b s1) = fs_dir s1.
Proof. unfold print_to. by destruct (fs_dir s1 !! p). Qed.

Lemma stdout_printed : fs_dir s' !! so = Some (fs_next s) /\ contents s' (fs_next s) = out.
Proof.
  assert (Ho : fs_dir (io_files dir s) !! so = Some (fs_next s)).
  { cbn. rewrite lookup_insert_ne by (by intros [_ [=]]%app_inj_2). apply lookup_insert_eq. }
  assert (He : fs_dir (io_files dir s) !! se = Some (fs_next s + 1)%N) by apply lookup_insert_eq.
  unfold command_prints. rewrite !print_to_dir. split; [done|].
  unfold print_to. rewrite Ho. cbn [fs_dir set_contents]. rewrite He.
  rewrite contents_set_ne by lia. apply contents_set_eq.
Qed.

Lemma stderr_printed : fs_dir s' !! se = Some (fs_next s + 1)%N /\ contents s' (fs_next s + 1) = err.
Proof.
  assert (He : fs_dir (io_files dir s) !! se = Some (fs_next s + 1)%N) by apply lookup_insert_eq.
  unfold command_prints. rewrite !print_to_dir. split; [done|].
  unfold print_to at 1. rewrite print_to_dir, He. apply contents_set_eq.
Qed.

Lemma dir_removed : filter (fun e : path * N => under dir e.1 = false) (fs_dir s') = fs_dir s.
Proof.
  unfold command_prints. rewrite !print_to_dir. cbn [io_files create_at fs_dir].
  apply map_eq. intros q. apply option_eq. intros j. rewrite map_lookup_filter_Some. cbn [fst].
  split.
  - intros [H Hu]. apply lookup_insert_Some in H as [[<- _]|[_ H]]; [by rewrite under_app in Hu|].
    apply lookup_insert_Some in H as [[<- _]|[_ H]]; [by rewrite under_app in Hu|done].
  - intros H. destruct (under dir q) eqn:Hu; [by rewrite (Hn q Hu) in H|]. split; [|done].
    rewrite !lookup_insert_ne by (intros <-; by rewrite under_app in Hu). done.
Qed.

End shim.

(** The first operation lets the shim write. *)
Lemma read_capped_tick p cap s t :
  tick_fault t = None -> read_capped p cap (mkFsSt s [t]) = read_capped p cap (quiet (tick_env t s)).
Proof.
  intros Ht. unfold read_capped, try_st, st_map_err, mbind, ST_bind, fs_open, op, op_with. cbn.
  by rewrite Ht.
Qed.

End reading.

(** * Property *)

(** C34. An execution returns what the command printed and leaves no files.  In a
    directory that has none of its files before, with a shim that writes to
    the two files the execution made and no other disturbance: whatever the
    daemon answers and wherever a deadline cuts it, the directory is as it was
    when the execution is over; and if it succeeds, its output is what the
    command printed on each stream up to the cap, flagged when there was more,
    with the exit status that the wait answered. *)
Theorem exec_captures_output {E : Env} {L : Libs} {Meta} client id command opts dl
    (w w' : World Meta) r home s out err
    (dir := io_dir home (exec_id_at (generate_exec_id w).2)) :
  home_dir = Some home -> no_entries dir s ->
  files w = mkFsSt s (replicate 4 tick_ok ++ [shim_tick dir out err]) -> command <> [] ->
  exec_with_opts client id command opts dl w = (r, w') ->
  fs_dir (fs (files w')) = fs_dir s /\
  forall o, r = Some (Ok o) ->
    let captured b := (take (N.to_nat (max_output_bytes opts)) b, (max_output_bytes opts <? blen b)%N) in
    (stdout o, truncated_stdout o) = captured out /\
    (stderr o, truncated_stderr o) = captured err /\
    exists status (w1 w2 : World Meta), rpc client (WaitTask id (exec_id_at w)) w1 = (Ok status, w2) /\
      exit_code o = i32_wrapping status.
Proof.
  intros Hh Hn Hf Hc H. unfold exec_with_opts in H. destruct command as [|c cs]; [done|]. clear Hc.
  unfold timed_try in H. apply bind_inv in H as (x & w1 & H1 & H). injection H1 as <- <-.
  apply bind_inv in H as (y & w2 & H2 & H). unfold run in H2.
  destruct (create_io_dir_files home s [shim_tick dir out err]
    (set_execs ((exec_counter w + 1) mod U64) w)) as (w2' & E2 & Hf2); [done|done|done|].
  rewrite E2 in H2. injection H2 as <- <-. cbn [fst snd] in H.
  unfold finally in H. apply bind_inv in H as (z & w3 & H4 & H).
  apply bind_inv in H as ([] & w4 & H5 & [<- <-]%ret_inv). split.
  - assert (K : only_shim (io_files dir s) (shim_tick dir out err) (files w3)).
    { refine (pres_at _ _ _ _ _ (exec_in_dir_keeps (io_files dir s) (shim_tick dir out err)
        eq_refl client id _ (c :: cs) _ _ _ dl) H4 _). by left. }
    pose proof (drop_io_dir_files (io_files dir s) (shim_tick dir out err) eq_refl dir w3 K) as D.
    change (drop_io_dir dir w3 = (tt, w4)) in H5. rewrite H5 in D. cbn [snd] in D. rewrite D. cbn [fs quiet fs_dir tick_env shim_tick].
    by apply dir_removed.
  - intros o ->. apply exec_in_dir_reads in H4 as (f1 & R1 & R2 & Hw).
    rewrite Hf2, read_capped_tick in R1 by done. cbn [tick_env shim_tick] in R1.
    destruct (stdout_printed dir out err s) as [So Co].
    destruct (stderr_printed dir out err s) as [Se Ce].
    rewrite (read_capped_quiet _ _ _ _ So), Co in R1. injection R1 as <- <- <-.
    rewrite (read_capped_quiet _ _ _ _ Se), Ce in R2. injection R2 as <- <- _.
    by split_and!.
Qed.

(** ** Witness *)
Definition demo_exec_dir : path := io_dir ["/"; "root"] "exec-7-1".

(** [echo hello] under a cap of five bytes. *)
Definition demo_echo : @World demo_env unit :=
  set_files (mkFsSt fs_empty (replicate 4 tick_ok ++
    [shim_tick demo_exec_dir (str_bytes "hello" ++ [NL]) []])) demo_running.

Lemma exec_captures_output_witness :
  let r := exec_with_opts demo_client "c" ["echo"; "hello"] (mkExecOpts 5) None demo_echo in
  fs_dir (fs (files r.2)) = ∅ /\
  exists o, r.1 = Some (Ok o) /\ stdout o = str_bytes "hello" /\ truncated_stdout o = true /\ stderr o = [].
Proof.
  cbv zeta. destruct (exec_captures_output (E := demo_env) demo_client "c" ["echo"; "hello"]
    (mkExecOpts 5) None demo_echo _ _ ["/"; "root"] fs_empty (str_bytes "hello" ++ [NL]) []
    eq_refl (fun _ _ => eq_refl) eq_refl ltac:(discriminate) (surjective_pairing _)) as [Hd Ho].
  split; [exact Hd|].
  assert (H : exists o, (exec_with_opts demo_client "c" ["echo"; "hello"] (mkExecOpts 5) None demo_echo).1 =
    Some (Ok o)) by (vm_compute; eexists; reflexivity).
  destruct H as [o H]. exists o. destruct (Ho o H) as (H1 & H2 & _).
  injection H1 as H1 H1'. injection H2 as H2 _.
  split_and!; [exact H|exact H1|exact H1'|exact H2].
Defined.
