(* ===== verification/Readiness.v ===== *)
(** * Readiness and health ([src/readiness.rs], [Client::image_healthcheck])

    Waiting for a container by one of four strategies, and probing its
    [HEALTHCHECK] once.  [wait_ready] is a loop whose pace may come from an
    image, so it takes fuel; with a pace above zero the rounds that fit in the
    time limit are enough. *)

#[local] Set Warnings "-clear-no-such-hyp".

From S2P Require Import Prelude RustText RustFmt Errors Effects FileSystem Identifier World DemoDaemon Loops Bridge ContainerSpec Inspect ClientState Task Create Exec.

Definition DEFAULT_HC_INTERVAL : Duration := from_secs 30.
Definition DEFAULT_HC_TIMEOUT : Duration := from_secs 30.
Definition TCP_CONNECT_TIMEOUT : Duration := from_secs 5.
Definition INITIAL_INTERVAL : Duration := from_millis 100.
Definition MAX_BACKOFF : Duration := from_secs 2.
Definition MULTIPLIER : N := 2.

Inductive ReadinessStrategy : Type :=
| SProcessRunning | STcpPort (port : N) | SExec (command : list string) | SImageHealthcheck.

Record HealthCheck : Type := mkHealthCheck {
  hc_test : list string;
  hc_interval : Duration;
  hc_timeout : Duration;
  hc_start_period : Duration
}.

Inductive HealthStatus : Type := Healthy | Starting | Unhealthy | NoHealthcheck.

Record PollTiming : Type := mkPollTiming {
  initial_interval : Duration;
  start_period : Duration;
  check_timeout : option Duration;
  use_backoff : bool
}.

Definition poll_timing_default : PollTiming := mkPollTiming INITIAL_INTERVAL 0 None true.

Inductive ResolvedCheck : Type :=
| CProcessRunning | CTcpPort (port : N) | CExec (command : list string).

(** ** The image's [HEALTHCHECK] *)

(** The command of a [Test] array. *)
Definition exec_args (test : list string) : option (list string) :=
  match test with
  | [] => None
  | "NONE" :: _ => None
  | "CMD" :: args => match args with [] => None | _ => Some args end
  | "CMD-SHELL" :: args =>
      match args with [] => None | script :: _ => Some ["/bin/sh"; "-c"; script] end
  | _ => Some test
  end.

Definition parse_healthcheck {L : Libs} (raw_config : bytes) : option HealthCheck :=
  v ← ok (json_from_slice raw_config);
  c ← jget "config" v;
  hc ← jget "Healthcheck" c;
  t ← jget "Test" hc;
  l ← jas_array t;
  args ← exec_args (omap jas_str l);
  let nanos_to_dur key := n ← jget key hc; jas_u64 n in
  Some (mkHealthCheck args
    (default DEFAULT_HC_INTERVAL (nanos_to_dur "Interval"))
    (default DEFAULT_HC_TIMEOUT (nanos_to_dur "Timeout"))
    (default 0%N (nanos_to_dur "StartPeriod"))).

Section readiness.
Context {E : Env} {L : Libs}.
Abbreviation M := (ST (World ImageMetadata)).

(** [Client::image_healthcheck]. *)
Definition image_healthcheck (client : Client) (image : string) : M (Result (option HealthCheck)) :=
  raw ←? get_raw_image_config client image;
  mret (Ok (parse_healthcheck raw)).

Definition resolve_strategy (client : Client) (container_id : string)
    (strategy : ReadinessStrategy) : M (Result (ResolvedCheck * PollTiming)) :=
  match strategy with
  | SProcessRunning => mret (Ok (CProcessRunning, poll_timing_default))
  | STcpPort port => mret (Ok (CTcpPort port, poll_timing_default))
  | SExec cmd => mret (Ok (CExec cmd, poll_timing_default))
  | SImageHealthcheck =>
      info ←? inspect_container client container_id;
      raw_config ←? get_raw_image_config client (ci_image info);
      mret (Ok (match parse_healthcheck raw_config with
                | Some hc => (CExec (hc_test hc),
                              mkPollTiming (hc_interval hc) (hc_start_period hc)
                                (Some (hc_timeout hc)) false)
                | None => (CProcessRunning, poll_timing_default)
                end))
  end.

(** [TcpStream::connect] to the loopback port within its limit. *)
Definition tcp_check (port : N) : M bool := fun w =>
  let '(b, d, e) := tcp_connect port TCP_CONNECT_TIMEOUT (ext w) in
  (b, set_clock (clock w + d)%N (set_ext e w)).

(** [Ok(output) if output.exit_code == 0]. *)
Definition exited_zero (r : option (Result ExecOutput)) : bool :=
  match r with Some (Ok output) => (exit_code output =? 0)%Z | _ => false end.

Definition run_check (client : Client) (container_id : string) (check : ResolvedCheck)
    (check_timeout : option Duration) : M bool :=
  match check with
  | CProcessRunning => mret true
  | CTcpPort port => tcp_check port
  | CExec command =>
      r ← match check_timeout with
          | Some t => with_timeout t (exec client container_id command)
          | None => exec client container_id command None
          end;
      mret (exited_zero r)
  end.

(** ** Waiting *)
Definition ready_timeout (container_id : string) (timeout : Duration) : Error :=
  Timeout ("container " +:+ container_id +:+ " did not become ready within " +:+
    debug_duration timeout).

Definition next_interval (timing : PollTiming) (interval : Duration) : Duration :=
  if use_backoff timing then N.min (interval * MULTIPLIER) MAX_BACKOFF else interval.

(** A round: the loop's state is the interval. *)
Definition ready_round (client : Client) (container_id : string) (check : ResolvedCheck)
    (timing : PollTiming) (start : N) (timeout : Duration) (interval : Duration) :
    M (Duration + Result unit) :=
  r ← inspect_container client container_id;
  match r with
  | Err e => mret (inr (Err e))
  | Ok info =>
      match ci_task info with
      | None => mret (inr (Err (TaskNotFound container_id)))
      | Some task =>
          if decide (t_status task = Stopped) then mret (inr (Err (TaskExited container_id)))
          else
            ready ← (if decide (t_status task = Running)
                     then run_check client container_id check (check_timeout timing)
                     else mret false);
            if ready : bool then mret (inr (Ok tt))
            else
              e ← elapsed start;
              if (timeout <? e)%N then mret (inr (Err (ready_timeout container_id timeout)))
              else _ ← sleep interval; mret (inl (next_interval timing interval))
      end
  end.

Definition wait_ready (client : Client) (container_id : string) (timeout : Duration)
    (strategy : ReadinessStrategy) (fuel : nat) : M (option (Result unit)) :=
  r ← resolve_strategy client container_id strategy;
  match r with
  | Err e => mret (Some (Err e))
  | Ok (check, timing) =>
      _ ← (if decide (start_period timing = 0%N) then mret tt else sleep (start_period timing));
      start ← now;
      loop fuel (ready_round client container_id check timing start timeout)
        (initial_interval timing)
  end.

(** ** Probing *)
Definition probe_health (client : Client) (container_id : string) : M (Result HealthStatus) :=
  info ←? inspect_container client container_id;
  raw_config ←? get_raw_image_config client (ci_image info);
  match parse_healthcheck raw_config with
  | None => mret (Ok NoHealthcheck)
  | Some hc =>
      exec_result ← with_timeout (hc_timeout hc) (exec client container_id (hc_test hc));
      if exited_zero exec_result then mret (Ok Healthy)
      else if decide (hc_start_period hc <> 0%N) then
        up ← task_uptime client container_id;
        mret (Ok (match up with
                  | Some elapsed => if (elapsed <? hc_start_period hc)%N then Starting
                                    else Unhealthy
                  | None => Unhealthy
                  end))
      else mret (Ok Unhealthy)
  end.

End readiness.

(** * Lemmas *)
Section lemmas.
Context {E : Env} {L : Libs}.
Abbreviation W := (World ImageMetadata).
Implicit Types (w : W) (client : Client).

Lemma later_check client id check t : pres later (run_check client id check t).
Proof.
  destruct check; cbn [run_check]; [by apply pres_ret, _| |].
  - intros w. unfold tcp_check, later. destruct (tcp_connect _ _ _) as [[b d] e]. cbn. lia.
  - apply pres_bind; [apply _| |intros r; by apply pres_ret, _].
    destruct t as [t|]; [|apply later_exec]. unfold with_timeout.
    apply pres_bind; [apply _|intros w; apply N.le_refl|]. intros s. apply later_exec.
Qed.

(** A round that goes on saw a task that is not stopped, within the limit, and
    slept. *)
Lemma ready_round_more client id check timing start timeout i w i' w' :
  ready_round client id check timing start timeout i w = (inl i', w') ->
  i' = next_interval timing i /\ (clock w - start <= timeout)%N /\ (clock w + i <= clock w')%N.
Proof.
  unfold ready_round. intros (r & w1 & H1 & H)%bind_inv.
  pose proof (later_inspect (Meta := ImageMetadata) client id w) as L1. rewrite H1 in L1. unfold later in L1. cbn in L1.
  destruct r as [info|e]; [|by apply ret_inv in H as [? _]].
  destruct (ci_task info) as [task|]; [|by apply ret_inv in H as [? _]].
  destruct (decide (t_status task = Stopped)); [by apply ret_inv in H as [? _]|].
  apply bind_inv in H as (ready & w2 & H2 & H).
  assert (L2 : (clock w1 <= clock w2)%N).
  { destruct (decide (t_status task = Running)).
    - pose proof (later_check client id check (check_timeout timing) w1) as L2.
      by rewrite H2 in L2.
    - apply ret_inv in H2 as [_ <-]. done. }
  destruct ready; [by apply ret_inv in H as [? _]|].
  apply bind_inv in H as (e & w3 & H3 & H). injection H3 as <- <-.
  destruct (timeout <? _)%N eqn:Et; [by apply ret_inv in H as [? _]|].
  apply bind_inv in H as (u & w4 & H4 & H).
  pose proof (sleep_clock i w2) as L3. rewrite H4 in L3. apply ret_inv in H as [H <-].
  simp_eqs. split_and!; [done|lia|lia].
Qed.

(** The intervals stay above the first one, or the cap. *)
Lemma next_interval_floor timing i0 i :
  (N.min i0 MAX_BACKOFF <= i)%N -> (N.min i0 MAX_BACKOFF <= next_interval timing i)%N.
Proof. unfold next_interval, MULTIPLIER. destruct (use_backoff timing); lia. Qed.

Lemma ready_loop_ends client id check timing start timeout w fuel :
  (0 < initial_interval timing)%N -> (start <= clock w)%N ->
  rounds_within timeout (N.min (initial_interval timing) MAX_BACKOFF) <= fuel ->
  exists r w', loop fuel (ready_round client id check timing start timeout)
    (initial_interval timing) w = (Some r, w').
Proof.
  intros Hi Hs Hf. set (i0 := N.min (initial_interval timing) MAX_BACKOFF) in *.
  assert (Hi0 : (0 < i0)%N).
  { unfold i0. assert (0 < MAX_BACKOFF)%N by done. lia. }
  destruct (loop_ends (fun i w => (i0 <= i)%N /\ (start <= clock w)%N)
    (fun _ => rounds_left start timeout i0) (ready_round client id check timing start timeout))
    with (f := rounds_within timeout i0) (s := initial_interval timing) (w := w)
    as (r & w' & H).
  - intros i w1 [Hi1 Hs1]. destruct (ready_round _ _ _ _ _ _ i w1) as [[i'|r] w2] eqn:Hr; [|done].
    apply ready_round_more in Hr as (-> & Ht & Hc). split; [split; [|lia]|].
    + by apply next_interval_floor.
    + apply rounds_left_dec; lia.
  - split; [unfold i0; lia|done].
  - by apply rounds_left_fuel.
  - exists r, w'. by apply (loop_more (rounds_within timeout i0)).
Qed.

(** What a round that ends found. *)
Definition ready_answer (client : Client) (id : string) (check : ResolvedCheck)
    (timing : PollTiming) (start timeout : N) (r : Result unit) (w' : W) : Prop :=
  exists w1 w2 res, inspect_container client id w1 = (res, w2) /\
  match r with
  | Ok _ => exists info task, res = Ok info /\ ci_task info = Some task /\
      t_status task = Running /\
      run_check client id check (check_timeout timing) w2 = (true, w')
  | Err e =>
      (res = Err e /\ w' = w2) \/
      (e = TaskNotFound id /\ w' = w2 /\ exists info, res = Ok info /\ ci_task info = None) \/
      (e = TaskExited id /\ w' = w2 /\ exists info task, res = Ok info /\
         ci_task info = Some task /\ t_status task = Stopped) \/
      (e = ready_timeout id timeout /\ (start + timeout < clock w')%N)
  end.

Lemma ready_round_done client id check timing start timeout i w r w' :
  ready_round client id check timing start timeout i w = (inr r, w') ->
  ready_answer client id check timing start timeout r w'.
Proof.
  unfold ready_round. intros (res & w1 & H1 & H)%bind_inv. exists w, w1, res. split; [done|].
  destruct res as [info|e]; [|apply ret_inv in H as [[= <-] <-]; by left].
  destruct (ci_task info) as [task|] eqn:Et.
  2:{ apply ret_inv in H as [[= <-] <-]. right. left. eauto. }
  destruct (decide (t_status task = Stopped)).
  { apply ret_inv in H as [[= <-] <-]. right. right. left. naive_solver. }
  apply bind_inv in H as (ready & w2 & H2 & H). destruct ready.
  - apply ret_inv in H as [[= <-] <-]. destruct (decide (t_status task = Running)); [naive_solver|].
    by apply ret_inv in H2 as [? _].
  - apply bind_inv in H as (el & w3 & H3 & H). injection H3 as <- <-.
    destruct (timeout <? _)%N eqn:Ht.
    + apply ret_inv in H as [[= <-] <-]. right. right. right. simp_eqs. split; [done|lia].
    + apply bind_inv in H as (? & ? & _ & [? _]%ret_inv). done.
Qed.

(** An inspection takes time when every request does. *)
Lemma inspect_takes_time client id :
  (forall r e, (0 < (handle (namespace client) r e).1.2)%N) ->
  forall w, (clock w < clock (inspect_container client id w).2)%N.
Proof.
  intros Hpos w. unfold inspect_container, get_container.
  assert (H1 : (clock w < clock (rpc client (GetContainer id) w).2)%N).
  { unfold rpc. specialize (Hpos (GetContainer id) (ext w)).
    destruct (handle _ _ _) as [[a d] e]. cbn in *. lia. }
  unfold try_st, mbind, ST_bind. cbn [fst snd mret ST_ret].
  destruct (rpc client (GetContainer id) w) as [[[c|]|s] w1]; cbn in *; [|done|done].
  assert (H2 : pres (later (Meta := ImageMetadata)) (get_task_info client (c_id c)))
    by (unfold get_task_info; pres_tac).
  specialize (H2 w1). unfold later in H2.
  destruct (get_task_info client (c_id c) w1) as [t w2]. cbn in *. lia.
Qed.

End lemmas.

(** * Properties *)
Section properties.
Context {E : Env} {L : Libs}.
Implicit Types (w : World ImageMetadata) (client : Client).

(** C24. [wait_ready] answers, and its answers are true: with a positive first
    interval the rounds that fit in the limit are enough, and it says ready
    only right after the check passed on a task seen running, says exited or
    missing only right after an inspection that showed it, and gives up only
    once the limit, counted after the grace period, has passed. *)
Theorem wait_ready_spec client id timeout strategy check timing w w0 fuel :
  resolve_strategy client id strategy w = (Ok (check, timing), w0) ->
  (0 < initial_interval timing)%N ->
  rounds_within timeout (N.min (initial_interval timing) MAX_BACKOFF) <= fuel ->
  exists r w' start, wait_ready client id timeout strategy fuel w = (Some r, w') /\
    (clock w0 + start_period timing <= start)%N /\
    ready_answer client id check timing start timeout r w'.
Proof.
  intros Hres Hi Hf. unfold wait_ready. rewrite (run_bind _ _ _ _ _ Hres).
  set (pause := if decide _ then _ else _).
  assert (Hp : (clock w0 + start_period timing <= clock (pause w0).2)%N).
  { unfold pause. destruct (decide _) as [->|]; [cbn; lia|]. apply sleep_clock. }
  destruct (pause w0) as [u w1] eqn:Epause. rewrite (run_bind _ _ _ _ _ Epause).
  cbn in Hp. rewrite (run_bind now _ w1 (clock w1) w1) by done.
  destruct (ready_loop_ends client id check timing (clock w1) timeout w1 fuel Hi
    (N.le_refl _) Hf) as (r & w' & H).
  exists r, w', (clock w1). split_and!; [done|done|].
  destruct (loop_answer _ _ _ _ _ _ (fun _ => True) I (fun _ _ _ _ _ _ => I) H)
    as (i & w2 & _ & Hr).
  by eapply ready_round_done.
Qed.

(** A probe reports healthy exactly when the check exits with zero in
    time, starting only for a task whose recorded start is within the grace
    period, and otherwise unhealthy; no healthcheck, no verdict. *)
Theorem probe_health_spec client id w s w' :
  probe_health client id w = (Ok s, w') ->
  exists info raw w1, (inspect_container client id w).1 = Ok info /\
    match parse_healthcheck raw with
    | None => s = NoHealthcheck
    | Some hc => exists w2,
        let '(r, w3) := with_timeout (hc_timeout hc) (exec client id (hc_test hc)) w2 in
        w1 = w3 /\
        (s = Healthy <-> exited_zero r = true) /\
        (s = Starting <-> exited_zero r = false /\ exists t,
           task_start_times w3 !! ns_key client id = Some t /\
           (clock w3 - t < hc_start_period hc)%N) /\
        s <> NoHealthcheck
    end.
Proof.
  unfold probe_health. intros (info & w1 & H1 & H)%try_ok_inv.
  apply try_ok_inv in H as (raw & w2 & H2 & H).
  destruct (parse_healthcheck raw) as [hc|] eqn:Ehc.
  2:{ apply ret_inv in H as [[= <-] <-]. exists info, raw, w2. rewrite H1, Ehc. done. }
  apply bind_inv in H as (r & w3 & H3 & H). exists info, raw, w3. rewrite H1, Ehc.
  split; [done|]. exists w2. rewrite H3. split; [done|].
  destruct (exited_zero r) eqn:Er.
  { apply ret_inv in H as [[= <-] _]. naive_solver. }
  destruct (decide (hc_start_period hc <> 0%N)) as [Hz|Hz].
  - apply bind_inv in H as (up & w4 & H4 & [H _]%ret_inv). unfold task_uptime in H4.
    injection H4 as <- <-. injection H as <-.
    destruct (task_start_times w3 !! ns_key client id) as [t|] eqn:Et; cbn; [|naive_solver].
    destruct (clock w3 - t <? hc_start_period hc)%N eqn:El; simp_eqs; [naive_solver|].
    naive_solver lia.
  - apply ret_inv in H as [[= <-] _]. assert (hc_start_period hc = 0)%N by lia.
    naive_solver lia.
Qed.

(** An image whose [HEALTHCHECK] has a zero [Timeout] can never pass it:
    the check runs under that limit, which any request that takes time at all
    exceeds.  (To the image's author a zero stands for the default.) *)
Theorem zero_timeout_never_ready client id command w :
  (forall r e, (0 < (handle (namespace client) r e).1.2)%N) ->
  (run_check client id (CExec command) (Some 0%N) w).1 = false.
Proof.
  intros Hpos. cbn [run_check]. unfold with_timeout.
  rewrite (run_bind _ _ w (exec client id command (Some (clock w + 0)%N) w).1
    (exec client id command (Some (clock w + 0)%N) w).2)
    by (unfold mbind, ST_bind; cbn; apply surjective_pairing).
  cbn. rewrite N.add_0_r. unfold exec, exec_with_opts. destruct command as [|c cs]; [done|].
  unfold timed_try at 1, mbind, ST_bind. cbn.
  set (w0 := set_execs _ w).
  assert (Er : run create_io_dir (Some (clock w)) w0 =
    (Some (create_io_dir w0).1, (create_io_dir w0).2)).
  { unfold run. by destruct (create_io_dir w0). }
  unfold timed_try at 1, mbind, ST_bind. rewrite Er. clear Er. cbn [fst snd].
  assert (Hc : clock (create_io_dir w0).2 = clock w).
  { unfold create_io_dir, lift_res.
    enough (G : pres (fun w w' : World ImageMetadata => clock w' = clock w) create_io_dir)
      by apply (G w0).
    assert (Reflexive (fun w w' : World ImageMetadata => clock w' = clock w)) by done.
    assert (Transitive (fun w w' : World ImageMetadata => clock w' = clock w))
      by (intros ? ? ?; congruence).
    unfold create_io_dir, lift_res. repeat pres_step; by intros ?. }
  destruct (create_io_dir w0) as [[[[dir so] se]|e] w1]; cbn [fst snd] in Hc |- *; [|done].
  unfold finally, mbind, ST_bind. cbn [fst snd mret ST_ret].
  unfold exec_in_dir, timed_try at 1, mbind, ST_bind, await at 1.
  pose proof (inspect_takes_time client id Hpos w1) as Ht. rewrite Hc in Ht.
  destruct (inspect_container client id w1) as [r w2]. cbn in Ht.
  cbn [fst snd]. by rewrite (proj2 (N.ltb_lt _ _)) by done.
Qed.

End properties.

(** ** Witnesses *)

(** A running container of an image with a [HEALTHCHECK]. *)
Definition demo_healthy : CreateWorld :=
  demo_world (mkDemo {[ ("default", "c") := demo_container ]}
    {[ ("default", "c") := mkProcess "c" 7 ST_RUNNING 0 ]} ∅
    {[ "img" := mkImage "img" (Some "mdig") ]}
    {[ "mdig" := str_bytes "manifest"; "cfg" := str_bytes "config" ]} 1 false).

Lemma wait_ready_spec_witness :
  exists r w' start, wait_ready demo_client "c" (from_secs 1) (SExec ["true"]) 13 demo_healthy =
      (Some r, w') /\
    ready_answer demo_client "c" (CExec ["true"]) poll_timing_default start (from_secs 1) r w'.
Proof.
  destruct (wait_ready_spec demo_client "c" (from_secs 1) (SExec ["true"]) (CExec ["true"])
    poll_timing_default demo_healthy demo_healthy 13 eq_refl ltac:(done)
    ltac:(vm_compute; lia)) as (r & w' & start & H & _ & A).
  exists r, w', start. split; [exact H|exact A].
Defined.

Lemma probe_health_spec_witness :
  (probe_health demo_client "c" demo_healthy).1 = Ok Healthy /\
  exists raw, is_Some (parse_healthcheck raw).
Proof.
  assert (H : (probe_health demo_client "c" demo_healthy).1 = Ok Healthy)
    by (vm_compute; reflexivity).
  split; [exact H|].
  destruct (probe_health_spec demo_client "c" demo_healthy _ _ (run_eq _ _ _ H))
    as (info & raw & w1 & _ & G).
  exists raw. destruct (parse_healthcheck raw); [eauto|discriminate G].
Defined.

Lemma zero_timeout_never_ready_witness :
  (run_check demo_client "c" (CExec ["true"]) (Some 0%N) demo_healthy).1 = false.
Proof.
  apply (zero_timeout_never_ready demo_client "c" ["true"] demo_healthy).
  intros r e. unfold handle. cbn. destruct (demo_handle _ _ _). reflexivity.
Defined.
