(* ===== verification/PortForward.v ===== *)
(** * The forwarder's accept loop ([src/port_forward.rs], lines 144-187)

    A background task owns the listener and the set of connections being
    proxied.  Each round of its [select!] takes the first branch that is ready,
    in the order written ([biased]): shutdown, accept, reap.  A connection's
    task opens the target and copies; what [tokio] copies is a parameter. *)

From S2P Require Import Prelude Errors Effects FileSystem.

(** ** A connection's task *)

(** [tokio]'s streams: [TcpStream::connect] and [copy_bidirectional], over a
    network of their own. *)
Class Tcp : Type := mkTcp {
  Net : Type;
  TcpStream : Type;
  tcp_open : string -> Net -> io TcpStream * Net;
  copy_bidirectional : TcpStream -> TcpStream -> Net -> io (N * N) * Net
}.

Section connection.
Context {T : Tcp}.

Definition proxy (client target : TcpStream) : ST Net unit := fun n =>
  (tt, (copy_bidirectional client target n).2).

Definition connection_task (target : string) (client_stream : TcpStream) : ST Net unit :=
  r ← tcp_open target;
  match r with
  | Ok target_stream => proxy client_stream target_stream
  | Err _ => mret tt
  end.

End connection.

(** ** The accept loop *)

(** The listener and the [JoinSet]: its tasks, finished or not. *)
Record Forwarder : Type := mkForwarder { listening : bool; connections : list N }.

(** What is ready when the loop polls: the shutdown signal, an accepted
    connection or an accept error, a finished task. *)
Record Ready : Type := mkReady {
  shutdown : bool;
  accept : option (result unit N);
  finished : option N
}.

(** One round; nothing ready leaves the loop waiting. *)
Definition forward_round (s : Forwarder) (r : Ready) : Forwarder :=
  if negb (listening s) then s
  else if shutdown r then mkForwarder false []
  else
    match accept r with
    | Some (Ok conn) => mkForwarder true (connections s ++ [conn])
    | Some (Err _) => s
    | None =>
        match finished r with
        | Some conn => mkForwarder true (List.filter (fun c => negb (c =? conn)%N) (connections s))
        | None => s
        end
    end.

Definition forward_loop : Forwarder -> list Ready -> Forwarder := foldl forward_round.

Definition forwarder_start : Forwarder := mkForwarder true [].

(** * Lemmas *)
Lemma forward_closed rs : forward_loop (mkForwarder false []) rs = mkForwarder false [].
Proof. induction rs; done. Qed.

Lemma forward_quiet rs s :
  listening s = true -> Forall (fun r => shutdown r = false) rs ->
  listening (forward_loop s rs) = true.
Proof.
  intros Hs H. revert s Hs. induction H as [|r rs Hr _ IH]; intros s Hs; cbn; [done|].
  apply IH. unfold forward_round. rewrite Hs, Hr. cbn.
  destruct (accept r) as [[c|u]|]; [done..|]. by destruct (finished r).
Qed.

(** * Properties *)

(** A shutdown signal is never starved: in the first round that sees it
    the listener closes and every connection is aborted, whatever else is
    ready, and it stays that way. *)
Theorem shutdown_takes_priority before r after s :
  listening s = true -> Forall (fun r => shutdown r = false) before -> shutdown r = true ->
  forward_loop s (before ++ r :: after) = mkForwarder false [].
Proof.
  intros Hs Hb Hr. unfold forward_loop. rewrite foldl_app. cbn [foldl].
  unfold forward_round at 2. pose proof (forward_quiet before s Hs Hb) as Hq.
  unfold forward_loop in Hq. rewrite Hq, Hr. apply forward_closed.
Qed.

(** Reaping has the lowest priority: while every round finds a connection
    to accept, finished tasks stay in the set, which grows by one a round. *)
Theorem reaping_starves conns done_ s :
  listening s = true -> length done_ = length conns ->
  forward_loop s (zip_with (fun c d => mkReady false (Some (Ok c)) d) conns done_) =
    mkForwarder true (connections s ++ conns).
Proof.
  revert done_ s. induction conns as [|c conns IH]; intros [|d done_] s Hs Hl; try done; cbn.
  - destruct s. cbn in *. by rewrite Hs, app_nil_r.
  - unfold forward_loop in IH. rewrite IH; [|by unfold forward_round; rewrite Hs|by injection Hl].
    unfold forward_round. rewrite Hs. cbn. by rewrite <-app_assoc.
Qed.

Lemma shutdown_takes_priority_witness :
  forward_loop forwarder_start
    [mkReady false (Some (Ok 1%N)) None; mkReady true (Some (Ok 2%N)) (Some 1%N);
     mkReady false (Some (Ok 3%N)) None] = mkForwarder false [].
Proof.
  apply (shutdown_takes_priority [mkReady false (Some (Ok 1%N)) None]
    (mkReady true (Some (Ok 2%N)) (Some 1%N)) [mkReady false (Some (Ok 3%N)) None]);
    [reflexivity|repeat constructor|reflexivity].
Defined.

Lemma reaping_starves_witness :
  connections (forward_loop forwarder_start
    [mkReady false (Some (Ok 1%N)) None; mkReady false (Some (Ok 2%N)) (Some 1%N);
     mkReady false (Some (Ok 3%N)) (Some 1%N)]) = [1; 2; 3]%N.
Proof.
  exact (f_equal connections (reaping_starves [1; 2; 3]%N [None; Some 1%N; Some 1%N]
    forwarder_start eq_refl eq_refl)).
Defined.
