(* ===== verification/Connect.v ===== *)
(** * Connecting and pulling ([src/connect.rs], [src/image.rs])

    Finding containerd's socket, probing it, and pulling an image once.  The
    operating system's answers (does a path exist, does a connection to it
    open, what does a directory list) are arguments; so is the platform. *)

From S2P Require Import Prelude RustText RustFmt Errors Effects FileSystem World DemoDaemon Loops ContainerSpec ClientState.
From stdpp Require Import sorting.

(** The compilation target. *)
Inductive Platform : Type := MacOs | OtherUnix | NotUnix.

Definition SOCKET_ENV_VAR : string := "CONTAINERD_SOCKET".

(** A directory entry: its name, whether it is a directory, whether it holds a
    [containerd.sock]. *)
Record DirEntry : Type := mkDirEntry { de_name : string; de_is_dir : bool; de_has_sock : bool }.

Definition by_name (a b : string * path) : Prop := String.le a.1 b.1.
#[export] Instance by_name_dec a b : Decision (by_name a b).
Proof. unfold by_name, String.le, Is_true. apply _. Defined.

(** The entries that are directories with a socket, under their names. *)
Definition colima_candidates (colima_dir : path) (entries : list DirEntry) :
    list (string * path) :=
  (fun e => (de_name e, pjoin (pjoin colima_dir (de_name e)) "containerd.sock"))
    <$> filter (fun e => de_is_dir e && de_has_sock e = true) entries.

(** The loop over the sorted candidates. *)
Fixpoint select_socket (candidates : list (string * path)) (default_sock : option path) :
    option path :=
  match candidates with
  | [] => default_sock
  | (name, sock) :: rest =>
      if String.eqb name "default" then select_socket rest (Some sock) else Some sock
  end.

Definition find_colima_socket_in (colima_dir : path) (entries : option (list DirEntry)) :
    option path :=
  entries ← entries;
  select_socket (merge_sort by_name (colima_candidates colima_dir entries)) None.

Section connect.
Context {E : Env} (platform : Platform) (list_dir : path -> option (list DirEntry)).

Definition find_colima_socket : option path :=
  home ← home_dir; let d := pjoin home ".colima" in find_colima_socket_in d (list_dir d).

Definition default_socket_path : path :=
  match platform with
  | MacOs => match find_colima_socket with
             | Some p => p
             | None => ["/"; "var"; "run"; "containerd"; "containerd.sock"]
             end
  | OtherUnix | NotUnix => ["/"; "run"; "containerd"; "containerd.sock"]
  end.

(** [parse_path] is [PathBuf::from]. *)
Definition resolve_socket_path_with (parse_path : string -> path) (socket_path : option path)
    (env_val : option string) : path :=
  match socket_path with
  | Some p => p
  | None =>
      match env_val with
      | Some val => if decide (val = "") then default_socket_path else parse_path val
      | None => default_socket_path
      end
  end.

(** [exists_] and [open_socket] are [Path::exists] and [UnixStream::connect];
    the channel connects lazily. *)
Definition connect_unix (exists_ : path -> bool) (open_socket : path -> io unit) (p : path) :
    Result Client :=
  if negb (exists_ p) then Err (SocketNotFound p)
  else
    match open_socket p with
    | Err KindConnectionRefused => Err (ConnectionRefused p)
    | Err e => Err (Io "connect socket" e)
    | Ok _ => Ok from_parts
    end.

(** [env_var] is [std::env::var(..).ok()]. *)
Definition resolve_socket_path (parse_path : string -> path) (env_var : string -> option string)
    (socket_path : option path) : path :=
  resolve_socket_path_with parse_path socket_path (env_var SOCKET_ENV_VAR).

Definition connect (parse_path : string -> path) (env_var : string -> option string)
    (exists_ : path -> bool) (open_socket : path -> io unit) (socket_path : option path) :
    Result Client :=
  match platform with
  | NotUnix =>
      Err (InvalidArgument ("containerd-manager requires a Unix-socket-capable target. " +:+
        "On Windows, build and run inside WSL2."))
  | _ => connect_unix exists_ open_socket (resolve_socket_path parse_path env_var socket_path)
  end.

End connect.

(** ** Pulling *)
Section pull.
Context {E : Env} {L : Libs} {Meta : Type}.
Abbreviation M := (ST (World Meta)).

Definition build_source (image : string) : OciRegistry := mkOciRegistry image.

Definition build_destination (image : string) : ImageStore :=
  mkImageStore image
    [mkUnpackConfiguration DEFAULT_SNAPSHOTTER (Some (mkImagePlatform "linux" oci_arch))].

Definition build_transfer_request (image : string) : TransferRequest :=
  mkTransferRequest (build_source image) (build_destination image).

Definition image_exists (client : Client) (image : string) : M (Result bool) :=
  r ← rpc client (GetImage image);
  mret (match r with
        | Ok _ => Ok true
        | Err e => if decide (code e = NotFound) then Ok false
                   else Err (into_crate_error e "image_exists")
        end).

Definition pull_image (client : Client) (image : string) : M (Result unit) :=
  there ←? image_exists client image;
  if there : bool then mret (Ok tt)
  else
    r ← rpc client (Transfer (build_transfer_request image));
    mret (map_err (fun e => into_crate_error e "pull_image") r).

(** The one request without a namespace header. *)
Definition server_version (client : Client) : M (Result string) :=
  r ← rpc (mkClient "") Version;
  mret (map_err (fun e => into_crate_error e "server_version") r).

End pull.

(** * Lemmas *)
Section sorting.

#[export] Instance by_name_total : Total by_name.
Proof. intros a b. unfold by_name. apply (total String.le). Qed.
#[export] Instance by_name_trans : Transitive by_name.
Proof. intros a b c. unfold by_name. apply (transitivity (R := String.le)). Qed.

(** Two sorted lists with the same entries, no name twice, are the same. *)
Lemma sorted_unique (l1 l2 : list (string * path)) :
  l1 ≡ₚ l2 -> NoDup l1.*1 -> StronglySorted by_name l1 -> StronglySorted by_name l2 -> l1 = l2.
Proof.
  intros Hp Hn H1. revert l2 Hp. induction H1 as [|a l1 H1 IH Ha]; intros l2 Hp H2.
  { symmetry in Hp. by apply Permutation_nil_r in Hp as ->. }
  destruct l2 as [|b l2]; [by apply Permutation_nil_r in Hp|].
  cbn in Hn. apply NoDup_cons in Hn as [Hna Hn].
  apply StronglySorted_inv in H2 as [H2 Hb].
  assert (a = b) as <-.
  { assert (Hb1 : b ∈ a :: l1) by (rewrite Hp; left).
    assert (Ha2 : a ∈ b :: l2) by (rewrite <-Hp; left).
    apply elem_of_cons in Hb1 as [->|Hb1]; [done|].
    apply elem_of_cons in Ha2 as [->|Ha2]; [done|].
    rewrite Forall_forall in Ha. rewrite Forall_forall in Hb.
    specialize (Ha b Hb1). specialize (Hb a Ha2). unfold by_name in *.
    assert (E : a.1 = b.1) by by apply (anti_symm String.le).
    destruct Hna. rewrite E. by apply list_elem_of_fmap_2. }
  f_equal. apply IH; [done| |done]. by apply Permutation_cons_inv in Hp.
Qed.

Lemma select_default l d :
  match select_socket l d with
  | Some s => (exists n, (n, s) ∈ l /\ n <> "default") \/
      (Forall (fun e => e.1 = "default") l /\ (d = Some s \/ ("default", s) ∈ l))
  | None => l = [] /\ d = None
  end.
Proof.
  revert d. induction l as [|[n s] l IH]; intros d; cbn [select_socket].
  - destruct d; [right; split; [constructor|by left]|done].
  - destruct (String.eqb_spec n "default") as [->|Hn].
    + specialize (IH (Some s)). destruct (select_socket l (Some s)); [|by destruct IH].
      destruct IH as [(m & Hm & Hd)|[Hf [[= ->]|Hd]]].
      * left. exists m. split; [by right|done].
      * right. split; [by constructor|]. right. left.
      * right. split; [by constructor|]. right. by right.
    + left. exists n. split; [left|done].
Qed.

End sorting.

(** * Properties *)

(** The choice of a colima socket does not depend on the order in which
    the directory lists its profiles, and it takes a profile other than
    [default] whenever one has a socket. *)
Theorem colima_choice colima_dir entries entries' :
  entries ≡ₚ entries' -> NoDup (de_name <$> entries) ->
  find_colima_socket_in colima_dir (Some entries) =
    find_colima_socket_in colima_dir (Some entries') /\
  match find_colima_socket_in colima_dir (Some entries) with
  | Some s =>
      (exists n, (n, s) ∈ colima_candidates colima_dir entries /\ n <> "default") \/
      (Forall (fun e => e.1 = "default") (colima_candidates colima_dir entries) /\
       ("default", s) ∈ colima_candidates colima_dir entries)
  | None => colima_candidates colima_dir entries = []
  end.
Proof.
  intros Hp Hn. cbn. set (c := colima_candidates colima_dir entries).
  assert (Hc : c ≡ₚ colima_candidates colima_dir entries').
  { unfold c, colima_candidates. by rewrite Hp. }
  assert (Hd : NoDup c.*1).
  { unfold c, colima_candidates. rewrite <-list_fmap_compose.
    apply (sublist_NoDup _ (de_name <$> entries)); [done|].
    apply fmap_sublist, sublist_filter. }
  split.
  - f_equal. apply sorted_unique; try apply (StronglySorted_merge_sort by_name).
    + by rewrite !merge_sort_Permutation.
    + by rewrite merge_sort_Permutation.
  - pose proof (select_default (merge_sort by_name c) None) as H.
    pose proof (merge_sort_Permutation by_name c) as Hm.
    destruct (select_socket _ None) as [s|].
    + destruct H as [(n & Hs & Hx)|[Hf [[=]|Hs]]]; [left|right].
      * exists n. by rewrite <-Hm.
      * split; [by rewrite <-Hm|by rewrite <-Hm].
    + destruct H as [H _]. rewrite H in Hm. by apply Permutation_nil_l in Hm.
Qed.

(** [pull_image] is idempotent: it asks whether the image is there and
    transfers it only when the daemon says it is not; success without a
    transfer means the daemon has it. *)
Theorem pull_image_spec {E : Env} {L : Libs} {Meta} client image (w : World Meta) r w' :
  pull_image client image w = (r, w') ->
  match (rpc client (GetImage image) w).1 with
  | Ok _ => r = Ok tt /\ trace w' = trace w ++ [Sent (namespace client) (GetImage image)]
  | Err e =>
      if decide (code e = NotFound) then
        trace w' = trace w ++ [Sent (namespace client) (GetImage image);
                               Sent (namespace client) (Transfer (build_transfer_request image))]
      else is_ok r = false /\ trace w' = trace w ++ [Sent (namespace client) (GetImage image)]
  end.
Proof.
  unfold pull_image, image_exists. intros H. pose proof (rpc_trace client (GetImage image) w) as T.
  destruct (rpc client (GetImage image) w) as [x w1] eqn:H1. cbn [fst snd] in *.
  unfold try_st, mbind, ST_bind in H. rewrite H1 in H. cbn [fst snd mret ST_ret] in H.
  destruct x as [i|e]; [by injection H as <- <-|].
  destruct (decide (code e = NotFound)); [|by injection H as <- <-].
  cbn [fst snd] in H. pose proof (rpc_trace client (Transfer (build_transfer_request image)) w1) as T2.
  destruct (rpc client (Transfer _) w1) as [y w2]. injection H as <- <-. cbn [snd] in T2.
  by rewrite T2, T, <-app_assoc.
Qed.

Lemma colima_choice_witness :
  find_colima_socket_in ["c"] (Some [mkDirEntry "default" true true; mkDirEntry "dev" true true;
      mkDirEntry "alpha" true false; mkDirEntry "beta" true true]) =
    find_colima_socket_in ["c"] (Some [mkDirEntry "beta" true true; mkDirEntry "default" true true;
      mkDirEntry "dev" true true; mkDirEntry "alpha" true false]) /\
  find_colima_socket_in ["c"] (Some [mkDirEntry "default" true true; mkDirEntry "dev" true true;
      mkDirEntry "alpha" true false; mkDirEntry "beta" true true]) =
    Some ["c"; "beta"; "containerd.sock"].
Proof.
  split; [|vm_compute; reflexivity].
  refine (proj1 (colima_choice ["c"] _ _
    (Permutation_app_comm
       [mkDirEntry "default" true true; mkDirEntry "dev" true true; mkDirEntry "alpha" true false]
       [mkDirEntry "beta" true true]) _)).
  apply (bool_decide_unpack _). vm_compute. exact I.
Defined.

Lemma pull_image_spec_witness :
  trace (pull_image demo_client "mongo" (demo_world (Meta := unit) demo_empty)).2 =
    [Sent "default" (GetImage "mongo");
     Sent "default" (Transfer (build_transfer_request "mongo"))].
Proof.
  exact (pull_image_spec demo_client "mongo" (demo_world (Meta := unit) demo_empty) _ _
    (surjective_pairing _)).
Defined.
