(* ===== verification/ClientMethods.v ===== *)
(** * The public methods of the client ([src/client.rs], lines 85-661)

    One definition per method of [Client] that is not in [ClientState] or
    [ClientApi], each in terms of the function it delegates to; then [Call],
    the type of all calls of the public interface with the type of their
    answers, and [call], which runs one.  A history of a process is a list of
    calls, each made through some client: [calls] runs it. *)

From S2P Require Import Prelude RustText RustFmt Errors Effects FileSystem LogCodec LogFiles Identifier World Loops Bridge ContainerSpec Inspect ClientState Task Create ClientApi Clone Snapshot Exec Readiness Connect.

Section methods.
Context {E : Env} {L : Libs}.
Abbreviation M := (ST (World ImageMetadata)).

(** [Client::clone]: the maps are shared, so a clone is the same client. *)
Definition client_clone (self : Client) : Client := mkClient (namespace self).

(** ** Images *)
Definition client_pull_image (client : Client) (image : string) : M (Result unit) :=
  pull_image client image.

(** ** Containers *)
Definition client_create_container (client : Client) (name image : string)
    (opts : CreateContainerOpts) : M (Result ContainerId) :=
  create_container client name image opts.

Definition client_resolve_name (client : Client) (name : string) : M (Result ContainerId) :=
  resolve_name client name.

Definition client_stop_container (client : Client) (container_id : ContainerId)
    (timeout : Duration) : M (Result unit) :=
  stop_container client (as_str container_id) timeout.

Definition client_inspect_container (client : Client) (container_id : ContainerId) :
    M (Result ContainerInfo) := inspect_container client (as_str container_id).

Definition client_list_containers (client : Client) (label_filters : list string) :
    M (Result (list ContainerInfo)) := list_containers client label_filters.

Definition client_pause_container (client : Client) (container_id : ContainerId) :
    M (Result unit) := pause_container client (as_str container_id).

Definition client_unpause_container (client : Client) (container_id : ContainerId) :
    M (Result unit) := unpause_container client (as_str container_id).

Definition client_wait_for_exit (client : Client) (container_id : ContainerId)
    (timeout : Duration) : M (Result Z) :=
  wait_for_exit client (as_str container_id) timeout.

Definition client_wait_ready (client : Client) (container_id : ContainerId)
    (timeout : Duration) (strategy : ReadinessStrategy) (fuel : nat) : M (option (Result unit)) :=
  wait_ready client (as_str container_id) timeout strategy fuel.

Definition client_probe_health (client : Client) (container_id : ContainerId) :
    M (Result HealthStatus) := probe_health client (as_str container_id).

Definition client_exec (client : Client) (container_id : ContainerId) (command : list string) :
    M (Result ExecOutput) := exec_now client (as_str container_id) command.

(** ** Port forwards *)
Record PortForwardOpts : Type := mkPortForwardOpts { target_addr : string }.

Definition port_forward_opts_default : PortForwardOpts := mkPortForwardOpts default_target_addr.

Definition client_start_port_forward (container_id : ContainerId)
    (host_port container_port : N) (opts : PortForwardOpts) : M (Result PortForwardHandle) :=
  start_port_forward (as_str container_id) host_port container_port (target_addr opts).

Definition client_start_managed_port_forward (container_id : ContainerId)
    (host_port container_port : N) (opts : PortForwardOpts) : M (Result unit) :=
  start_managed_port_forward (as_str container_id) host_port container_port (target_addr opts).

(** [PortForwardHandle::stop] and [drop]: only the former waits for the port
    to be released. *)
Definition port_forward_stop (h : PortForwardHandle) : M unit :=
  modify_st (emit (ForwardStopped h)).
Definition port_forward_drop (h : PortForwardHandle) : M unit :=
  modify_st (emit (ForwardDropped h)).

(** ** Logs *)
Definition client_container_logs (container_id : ContainerId) : M (Result (list LogEntry)) :=
  on_files (container_logs home_dir (as_str container_id)).

Definition client_container_logs_filtered (container_id : ContainerId) (flt : LogsFilter) :
    M (Result (list LogEntry)) :=
  on_files (container_logs_filtered home_dir (as_str container_id) flt).

(** [LogFollower::start_inner]: spawns [follow_loop]. *)
Definition follower_start_inner (events_path : path) (stop : bool) : M LogFollowerHandle :=
  let f := mkLogFollowerHandle events_path stop in
  _ ← modify_st (emit (FollowerStarted f)); mret f.

Definition follower_start (events_path : path) : M LogFollowerHandle :=
  follower_start_inner events_path false.
Definition follower_start_with_stop (events_path : path) : M LogFollowerHandle :=
  follower_start_inner events_path true.

Definition container_logs_stream (container_id : ContainerId) : M (Result LogFollowerHandle) :=
  events_path ←? lift_res (events_path_for home_dir (as_str container_id));
  f ← follower_start events_path;
  mret (Ok f).

(** The spawned watcher is [watch_until_exit]. *)
Definition container_logs_stream_until_exit (client : Client) (container_id : ContainerId) :
    M (Result LogFollowerHandle) :=
  events_path ←? lift_res (events_path_for home_dir (as_str container_id));
  _ ← modify_st (emit (WatcherStarted (namespace (client_clone client)) (as_str container_id)));
  f ← follower_start_with_stop events_path;
  mret (Ok f).

(** ** Clones and snapshots *)
Definition client_clone_container (client : Client) (src : ContainerId) (dst_name : string) :
    M (Result ContainerId) := clone_container client src dst_name clone_opts_default.

Definition clone_container_with_opts (client : Client) (src : ContainerId) (dst_name : string)
    (opts : CloneContainerOpts) : M (Result ContainerId) :=
  clone_container client src dst_name opts.

Definition client_snapshot_container (client : Client) (src : ContainerId) (name : string) :
    M (Result unit) := snapshot_container client src name snapshot_opts_default.

Definition snapshot_container_with_opts (client : Client) (src : ContainerId) (name : string)
    (opts : SnapshotContainerOpts) : M (Result unit) :=
  snapshot_container client src name opts.

Definition client_restore_container (client : Client) (snapshot_name dst_name : string) :
    M (Result ContainerId) := restore_container client snapshot_name dst_name restore_opts_default.

Definition restore_container_with_opts (client : Client) (snapshot_name dst_name : string)
    (opts : RestoreContainerOpts) : M (Result ContainerId) :=
  restore_container client snapshot_name dst_name opts.

Definition client_reset_to_snapshot (client : Client) (container_id : ContainerId)
    (snapshot_name : string) : M (Result unit) :=
  reset_to_snapshot client container_id snapshot_name reset_opts_default.

Definition reset_to_snapshot_with_opts (client : Client) (container_id : ContainerId)
    (snapshot_name : string) (opts : ResetToSnapshotOpts) : M (Result unit) :=
  reset_to_snapshot client container_id snapshot_name opts.

Definition client_list_snapshots (client : Client) : M (Result (list SnapshotInfo)) :=
  list_snapshots client.

Definition client_delete_snapshot (client : Client) (name : string) : M (Result unit) :=
  delete_snapshot client name.

End methods.

(** ** Calls *)
Inductive Call : Type :=
| CServerVersion
| CPullImage (image : string)
| CClearImageCache
| CImageCacheLen
| CImageHealthcheck (image : string)
| CCreate (name image : string) (opts : CreateContainerOpts)
| CResolveName (name : string)
| CInspectByName (name : string)
| CStart (id : ContainerId)
| CDelete (id : ContainerId) (timeout : Duration)
| CStop (id : ContainerId) (timeout : Duration)
| CInspect (id : ContainerId)
| CList (label_filters : list string)
| CStartPortForward (id : ContainerId) (host_port container_port : N) (opts : PortForwardOpts)
| CStartManagedPortForward (id : ContainerId) (host_port container_port : N)
    (opts : PortForwardOpts)
| CProbeHealth (id : ContainerId)
| CRunExec (id : ContainerId) (command : list string)
| CLogs (id : ContainerId)
| CLogsFiltered (id : ContainerId) (flt : LogsFilter)
| CLogsStream (id : ContainerId)
| CLogsStreamUntilExit (id : ContainerId)
| CPause (id : ContainerId)
| CUnpause (id : ContainerId)
| CWaitReady (id : ContainerId) (timeout : Duration) (strategy : ReadinessStrategy) (fuel : nat)
| CWaitForExit (id : ContainerId) (timeout : Duration)
| CClone (src : ContainerId) (dst_name : string) (opts : option CloneContainerOpts)
| CSnapshot (src : ContainerId) (name : string) (opts : option SnapshotContainerOpts)
| CRestore (snapshot_name dst_name : string) (opts : option RestoreContainerOpts)
| CReset (id : ContainerId) (snapshot_name : string) (opts : option ResetToSnapshotOpts)
| CListSnapshots
| CDeleteSnapshot (name : string).

Definition answer (c : Call) : Type :=
  match c with
  | CServerVersion => Result string
  | CClearImageCache => unit
  | CImageCacheLen => nat
  | CImageHealthcheck _ => Result (option HealthCheck)
  | CCreate _ _ _ | CResolveName _ | CClone _ _ _ | CRestore _ _ _ => Result ContainerId
  | CInspectByName _ | CInspect _ => Result ContainerInfo
  | CStart _ => Result TaskId
  | CList _ => Result (list ContainerInfo)
  | CStartPortForward _ _ _ _ => Result PortForwardHandle
  | CProbeHealth _ => Result HealthStatus
  | CRunExec _ _ => Result ExecOutput
  | CLogs _ | CLogsFiltered _ _ => Result (list LogEntry)
  | CLogsStream _ | CLogsStreamUntilExit _ => Result LogFollowerHandle
  | CWaitReady _ _ _ _ => option (Result unit)
  | CWaitForExit _ _ => Result Z
  | CListSnapshots => Result (list SnapshotInfo)
  | _ => Result unit
  end.

Section calls.
Context {E : Env} {L : Libs}.
Abbreviation M := (ST (World ImageMetadata)).

Definition call (client : Client) (c : Call) : M (answer c) :=
  match c with
  | CServerVersion => server_version client
  | CPullImage image => client_pull_image client image
  | CClearImageCache => clear_image_cache
  | CImageCacheLen => image_cache_len
  | CImageHealthcheck image => image_healthcheck client image
  | CCreate name image opts => client_create_container client name image opts
  | CResolveName name => client_resolve_name client name
  | CInspectByName name => inspect_by_name client name
  | CStart id => client_start_container client id
  | CDelete id timeout => client_delete_container client id timeout
  | CStop id timeout => client_stop_container client id timeout
  | CInspect id => client_inspect_container client id
  | CList label_filters => client_list_containers client label_filters
  | CStartPortForward id hp cp opts => client_start_port_forward id hp cp opts
  | CStartManagedPortForward id hp cp opts => client_start_managed_port_forward id hp cp opts
  | CProbeHealth id => client_probe_health client id
  | CRunExec id command => client_exec client id command
  | CLogs id => client_container_logs id
  | CLogsFiltered id flt => client_container_logs_filtered id flt
  | CLogsStream id => container_logs_stream id
  | CLogsStreamUntilExit id => container_logs_stream_until_exit client id
  | CPause id => client_pause_container client id
  | CUnpause id => client_unpause_container client id
  | CWaitReady id timeout strategy fuel => client_wait_ready client id timeout strategy fuel
  | CWaitForExit id timeout => client_wait_for_exit client id timeout
  | CClone src dst None => client_clone_container client src dst
  | CClone src dst (Some opts) => clone_container_with_opts client src dst opts
  | CSnapshot src name None => client_snapshot_container client src name
  | CSnapshot src name (Some opts) => snapshot_container_with_opts client src name opts
  | CRestore name dst None => client_restore_container client name dst
  | CRestore name dst (Some opts) => restore_container_with_opts client name dst opts
  | CReset id name None => client_reset_to_snapshot client id name
  | CReset id name (Some opts) => reset_to_snapshot_with_opts client id name opts
  | CListSnapshots => client_list_snapshots client
  | CDeleteSnapshot name => client_delete_snapshot client name
  end.

(** A process's history. *)
Fixpoint calls (cs : list (Client * Call)) : M unit :=
  match cs with
  | [] => mret tt
  | (client, c) :: cs => _ ← call client c; calls cs
  end.

End calls.
