(* ===== verification/Footprint.v ===== *)
(** * What a call may touch

    [Footprint client id R]: the relation [R] on worlds contains everything a
    function of the crate does on its own account when it works for [client]
    on the container [id] - its requests, sleeps, clock readings, file
    operations, and the accesses to the client's shared maps.  Every function
    is shown to stay within any such [R] once, by walking its definition; a
    new relation on worlds then holds of every public method as soon as it
    holds of these few primitives. *)

From S2P Require Import Prelude RustText RustFmt Errors Effects FileSystem LogCodec LogFiles Identifier World Loops Bridge ContainerSpec Inspect ClientState Task Create ClientApi Clone Snapshot Exec Readiness Connect ClientMethods.

(** Cached metadata agrees with itself. *)
Definition image_ok `{L : Libs} (m : ImageMetadata) : Prop :=
  diff_ids (im_config m) <> [] /\ chain_id m = compute_chain_id (diff_ids (im_config m)) /\
  image_config_from_slice (raw_config m) = Ok (im_config m).

(** A managed forward: ports of 16 bits, none of them 0, and the address it
    forwards to. *)
Definition port_ok (p : N) : Prop := (0 < p <= U16_MAX)%N.

Definition handle_ok (h : PortForwardHandle) : Prop :=
  port_ok (pf_host_port h) /\ port_ok (pf_container_port h) /\
  exists addr, pf_target h = addr +:+ ":" +:+ dec_string (pf_container_port h).

(** What a method records besides requests, sleeps and tailers. *)
Definition noted (client : Client) (ev : Event) : Prop :=
  match ev with
  | FollowerStarted _ | ForwardDropped _ => True
  | WatcherStarted ns _ => ns = namespace client
  | _ => False
  end.

(** The dealings with the outside that are not requests. *)
Definition connects {E : Env} (port : N) (e : Ext) : bool * Duration * Ext :=
  tcp_connect port TCP_CONNECT_TIMEOUT e.

Inductive Outside {E : Env} : forall A : Type, (Ext -> A * Ext) -> Prop :=
| OUuid : Outside string fresh_uuid
| OOctet used : Outside _ (pick_free_octet choose used)
| OEphemeral : Outside _ bind_ephemeral
| OPort port : Outside _ (bind_port port)
| OConnect port : Outside _ (connects port).

(** The request that adds a container record, which creations send last. *)
Definition registers (r : Req) : bool :=
  match r with CreateContainer _ => true | _ => false end.

Class Primitives {E : Env} {L : Libs} (client : Client) (id : string)
    (R : relation (World ImageMetadata)) : Prop := {
  fp_refl :: Reflexive R;
  fp_trans :: Transitive R;
  fp_rpc r : registers r = false -> pres R (rpc client r);
  fp_version : pres R (rpc (mkClient "") Version);
  fp_sleep d : pres R (sleep d);
  (** a deadline cuts an await short *)
  fp_cut w w' c : R w w' -> task_start_times w' = task_start_times w -> (clock w <= c)%N ->
    R w (set_clock c w');
  fp_outside {A} (f : Ext -> A * Ext) : Outside A f -> pres R (outside f);
  fp_files {A} (m : FsM A) : pres R (on_files m);
  fp_exec_id : pres R generate_exec_id;
  fp_store d m : image_ok m -> pres R (store_image_metadata d m);
  fp_record : pres R (record_task_start client id);
  fp_forget : pres R (forget_task_start client id);
  fp_tailer : pres R (start_managed_tailer client id);
  fp_no_tailer : pres R (stop_managed_tailer client id);
  fp_no_forwards : pres R (stop_managed_forwards id);
  fp_clear : pres R clear_image_cache;
  fp_note ev : noted client ev -> pres R (modify_st (emit ev));
  fp_add h : handle_ok h -> pf_container_id h = id ->
    pres R (modify_st (fun w => set_handles (managed_handles w ++ [h]) w))
}.

(** Registering a record is a primitive too, but only as the end of a creation,
    whose check of the name comes first. *)
Class Footprint {E : Env} {L : Libs} (client : Client) (id : string)
    (R : relation (World ImageMetadata)) : Prop := {
  fp_primitives :: Primitives client id R;
  fp_create_with_id i name image opts :
    pres R (create_container_with_id client i name image opts)
}.

Section walk.
Context {E : Env} {L : Libs} {client : Client} {id : string}.
Context {R : relation (World ImageMetadata)} `{F : !Primitives client id R}.
Abbreviation W := (World ImageMetadata).
Abbreviation P := (pres R).
Implicit Types (w : W).

Lemma fp_clock c w : (clock w <= c)%N -> R w (set_clock c w).
Proof. by apply fp_cut. Qed.
Lemma fp_now : P now.
Proof. by intros w. Qed.
Lemma fp_elapsed t : P (elapsed t).
Proof. by intros w. Qed.
Lemma fp_get : P get_st.
Proof. by intros w. Qed.
Lemma fp_lift {Er A} (r : result Er A) : P (lift_res r).
Proof. by intros w. Qed.
Lemma fp_lookup d : P (lookup_image_metadata d).
Proof. by intros w. Qed.
Lemma fp_uptime i : P (task_uptime client i).
Proof. by intros w. Qed.

End walk.

Create HintDb fp.
#[export] Hint Constructors Outside : fp.
#[export] Hint Resolve fp_sleep fp_outside fp_files fp_exec_id fp_record fp_forget fp_tailer
  fp_primitives fp_no_tailer fp_no_forwards fp_now fp_elapsed fp_get fp_lift fp_lookup fp_uptime : fp.

(** [rpc]'s type hides the response type from unification. *)
Ltac fp_step := first
  [ match goal with |- pres _ (rpc _ ?r) => exact (fp_rpc r eq_refl) end
  | exact fp_version | solve [eauto 3 with fp nocore] ].
Ltac fp := walk fp_step.

(** ** Before the registration *)
Section creation.
Context {E : Env} {L : Libs} {client : Client} {id : string}.
Context {R : relation (World ImageMetadata)} `{F : !Primitives client id R}.
Abbreviation W := (World ImageMetadata).
Abbreviation P := (pres R).
Implicit Types (w : W).

Lemma fp_read_content d : P (read_content d (namespace client)).
Proof.
  unfold read_content. replace (mkClient (namespace client)) with client by by destruct client. fp.
Qed.
#[local] Hint Resolve fp_read_content : fp.

(** What is fetched agrees with itself. *)
Lemma fetched_ok d ns w m w' : fetch_image_metadata d ns w = (Ok m, w') -> image_ok m.
Proof.
  unfold fetch_image_metadata. intros H. run_inv.
  match goal with H : lift_res (map_err _ (image_config_from_slice ?b)) _ = _ |- _ =>
    destruct (image_config_from_slice b) as [c|] eqn:Ec; [|done]; injection H as <- <- end.
  destruct (decide _) as [|Hd]; simplify_eq. done.
Qed.

Lemma fp_fetch d : P (fetch_image_metadata d (namespace client)).
Proof. unfold fetch_image_metadata, config_digest_of. fp. Qed.
#[local] Hint Resolve fp_fetch : fp.

Lemma fp_image_metadata d : P (get_image_metadata client d (namespace client)).
Proof.
  unfold get_image_metadata. apply pres_bind; [apply _|apply fp_lookup|].
  intros [c|]; [fp|]. intros w. unfold try_st, mbind, ST_bind.
  pose proof (fp_fetch d w) as Hf.
  destruct (fetch_image_metadata d (namespace client) w) as [[m|e] w1] eqn:Ef; cbn in *; [|done].
  transitivity w1; [done|]. apply fp_store. by eapply fetched_ok.
Qed.
#[local] Hint Resolve fp_image_metadata : fp.

Lemma fp_image_target image e : P (image_target client image e).
Proof. unfold image_target. fp. Qed.
#[local] Hint Resolve fp_image_target : fp.
Lemma fp_raw_config image : P (get_raw_image_config client image).
Proof. unfold get_raw_image_config. fp. Qed.
#[local] Hint Resolve fp_raw_config : fp.
Lemma fp_pick_ports ps : P (pick_ports ps).
Proof. induction ps; cbn [pick_ports]; unfold pick_free_port; fp. Qed.
#[local] Hint Resolve fp_pick_ports : fp.
Lemma fp_bridge_config opts : P (bridge_config_for client opts).
Proof. unfold bridge_config_for, alloc_bridge_ip, used_octets. fp. Qed.
#[local] Hint Resolve fp_bridge_config : fp.

(** A relation that holds of the registration on its own account. *)
Lemma footprint_of_requests :
  (forall c, P (rpc client (CreateContainer c))) -> Footprint client id R.
Proof.
  intros Hc. constructor; [done|]. intros i name image opts.
  unfold create_container_with_id, prepare_for, register.
  walk ltac:(first [ exact (Hc _) | fp_step ]).
Qed.

End creation.

Section functions.
Context {E : Env} {L : Libs} {client : Client} {id : string}.
Context {R : relation (World ImageMetadata)} `{F : !Footprint client id R}.
Abbreviation W := (World ImageMetadata).
Abbreviation P := (pres R).
Implicit Types (w : W).

(** ** Inspection *)
Lemma fp_get_container i : P (get_container client i).
Proof. unfold get_container. fp. Qed.
#[local] Hint Resolve fp_get_container : fp.
Lemma fp_get_task_info i : P (get_task_info client i).
Proof. unfold get_task_info. fp. Qed.
#[local] Hint Resolve fp_get_task_info : fp.
Lemma fp_inspect i : P (inspect_container client i).
Proof. unfold inspect_container. fp. Qed.
#[local] Hint Resolve fp_inspect : fp.
Lemma fp_resolve name : P (resolve_name client name).
Proof. unfold resolve_name. fp. Qed.
#[local] Hint Resolve fp_resolve : fp.
Lemma fp_list filters : P (list_containers client filters).
Proof. unfold list_containers, fetch_task_map. fp. Qed.

(** ** Tasks *)
Lemma fp_start : P (start_container client id).
Proof. unfold start_container. fp. Qed.
#[local] Hint Resolve fp_start : fp.
Lemma fp_delete_task : P (delete_task client id).
Proof. unfold delete_task. fp. Qed.
#[local] Hint Resolve fp_delete_task : fp.
Lemma fp_stop i t : P (stop_container client i t).
Proof.
  unfold stop_container, stop_task, kill_task, wait_for_task_stop, is_task_running,
    task_has_stopped. fp.
Qed.
#[local] Hint Resolve fp_stop : fp.
Lemma fp_wait_for_exit i t : P (wait_for_exit client i t).
Proof. unfold wait_for_exit, wait_round. fp. Qed.
Lemma fp_retry_delete t : P (retry_delete_task client id t).
Proof. unfold retry_delete_task, retry_round. fp. Qed.
#[local] Hint Resolve fp_retry_delete : fp.
Lemma fp_remove i : P (remove_container client i).
Proof. unfold remove_container. fp. Qed.
#[local] Hint Resolve fp_remove : fp.
Lemma fp_delete t : P (delete_container client id t).
Proof.
  unfold delete_container, phase_delete_task, phase_task_record_gone,
    phase_container_record_gone. fp.
Qed.
#[local] Hint Resolve fp_delete : fp.
Lemma fp_pause i : P (pause_container client i).
Proof. unfold pause_container. fp. Qed.
Lemma fp_unpause i : P (unpause_container client i).
Proof. unfold unpause_container. fp. Qed.
Lemma fp_client_start (i : ContainerId) : as_str i = id -> P (client_start_container client i).
Proof. intros Hi. unfold client_start_container. rewrite Hi. fp. Qed.
Lemma fp_client_delete (i : ContainerId) t :
  as_str i = id -> P (client_delete_container client i t).
Proof. intros Hi. unfold client_delete_container. rewrite Hi. fp. Qed.
#[local] Hint Resolve fp_client_start fp_client_delete : fp.

(** ** Creation *)
#[local] Hint Resolve fp_image_metadata fp_image_target fp_raw_config fp_create_with_id : fp.
Lemma fp_create name image opts : P (create_container client name image opts).
Proof. unfold create_container. fp. Qed.

(** ** Clones and snapshots *)
Lemma fp_fetch_record i : P (fetch_container_record client i).
Proof. unfold fetch_container_record. fp. Qed.
#[local] Hint Resolve fp_fetch_record : fp.
Lemma fp_stop_source b : P (stop_source client id b).
Proof. unfold stop_source. fp. Qed.
#[local] Hint Resolve fp_stop_source : fp.
Lemma fp_restart (i : ContainerId) b : as_str i = id -> P (restart_source client i b).
Proof. intros Hi. unfold restart_source. destruct b; [|fp]. pose proof (fp_client_start i Hi). fp. Qed.
Lemma fp_clone_inner src name info opts : P (clone_inner client src name info opts).
Proof.
  unfold clone_inner, ensure_clone_base, prepare_clone_snapshot, create_clone_record,
    remove_snapshot. fp.
Qed.
#[local] Hint Resolve fp_clone_inner : fp.
Lemma fp_clone (src : ContainerId) name opts :
  as_str src = id -> P (clone_container client src name opts).
Proof.
  intros Hi. pose proof (fun b => fp_restart src b Hi). unfold clone_container.
  rewrite Hi. fp.
Qed.
Lemma fp_snapshot (src : ContainerId) name opts :
  as_str src = id -> P (snapshot_container client src name opts).
Proof.
  intros Hi. pose proof (fun b => fp_restart src b Hi). unfold snapshot_container.
  rewrite Hi. fp.
Qed.
Lemma fp_stat sn name : P (stat_managed_snapshot client sn name).
Proof. unfold stat_managed_snapshot. fp. Qed.
#[local] Hint Resolve fp_stat : fp.
Lemma fp_restore name dst opts : P (restore_container client name dst opts).
Proof. unfold restore_container. fp. Qed.
Lemma fp_attempts sn key parent l e : P (prepare_attempts client sn key parent l e).
Proof. revert e. induction l; intros e; cbn [prepare_attempts]; fp. Qed.
#[local] Hint Resolve fp_attempts : fp.
Lemma fp_reset (i : ContainerId) name opts : as_str i = id -> P (reset_to_snapshot client i name opts).
Proof.
  intros Hi. pose proof (fp_client_start i Hi). unfold reset_to_snapshot.
  rewrite Hi. fp.
Qed.
Lemma fp_list_snapshots : P (list_snapshots client).
Proof. unfold list_snapshots. fp. Qed.
Lemma fp_delete_snapshot name : P (delete_snapshot client name).
Proof. unfold delete_snapshot. fp. Qed.
Lemma fp_pull image : P (pull_image client image).
Proof. unfold pull_image, image_exists. fp. Qed.
#[local] Hint Resolve fp_pull : fp.

(** ** Execution, and what a deadline may cut *)
Definition within {A} (m : @Timed E ImageMetadata A) : Prop := forall dl, P (m dl).

Definition same_starts w w' : Prop := task_start_times w' = task_start_times w.

#[export] Instance same_starts_refl : Reflexive same_starts.
Proof. done. Qed.
#[export] Instance same_starts_trans : Transitive same_starts.
Proof. intros w1 w2 w3 H1 H2. unfold same_starts in *. by rewrite H2. Qed.

Lemma same_starts_rpc c r : pres same_starts (rpc c r).
Proof. intros w. unfold rpc. by destruct (handle _ _ _) as [[a d] e]. Qed.

Lemma within_await {A} (m : ST W A) : P m -> pres same_starts m -> within (await m).
Proof.
  intros Hm Hs dl w. specialize (Hm w). specialize (Hs w). unfold await.
  destruct (m w) as [a w']. cbn in *. destruct dl as [d|]; [|done].
  destruct (_ <? _)%N; cbn; [|done]. apply fp_cut; [done|done|]. lia.
Qed.

Lemma within_run {A} (m : ST W A) : P m -> within (run m).
Proof. intros Hm dl w. specialize (Hm w). unfold run. by destruct (m w). Qed.

Lemma within_try {A B} (m : Timed (Result A)) (k : A -> Timed (Result B)) :
  within m -> (forall a, within (k a)) -> within (timed_try m k).
Proof.
  intros Hm Hk dl. unfold timed_try. apply pres_bind; [apply _|apply Hm|].
  intros [[a|e]|]; [apply Hk|fp..].
Qed.

Lemma within_finally {A} (m : Timed A) cleanup : within m -> P cleanup -> within (finally m cleanup).
Proof. intros Hm Hc dl. specialize (Hm dl). unfold finally. fp. Qed.

Lemma fp_exec_in_dir i xid command cap so se :
  within (exec_in_dir client i xid command cap so se).
Proof.
  unfold exec_in_dir, await_rpc.
  repeat first [ apply within_try; [|intros ?] | apply within_await | apply within_run
               | progress case_match ]; try fp.
  all: unfold inspect_container, get_container, get_task_info.
  all: walk ltac:(first [ exact (same_starts_rpc _ _) | by intros ? ]).
Qed.

Lemma fp_exec i command : within (exec client i command).
Proof.
  unfold exec, exec_with_opts. destruct command as [|c cs]; [apply within_run; fp|].
  apply within_try; [apply within_run; fp|]. intros xid.
  apply within_try; [apply within_run; unfold create_io_dir; fp|]. intros [[dir so] se].
  apply within_finally; [apply fp_exec_in_dir|]. unfold drop_io_dir. fp.
Qed.

Lemma fp_exec_now i command : P (exec_now client i command).
Proof. unfold exec_now. pose proof (fp_exec i command None). fp. Qed.

(** ** Readiness *)
Lemma fp_healthcheck image : P (image_healthcheck client image).
Proof. unfold image_healthcheck. fp. Qed.
#[local] Hint Resolve fp_healthcheck : fp.

Lemma fp_tcp_check p : P (tcp_check p).
Proof.
  intros w. unfold tcp_check.
  pose proof (fp_outside (connects p) (OConnect p) w) as Ho.
  unfold outside, connects in Ho. destruct (tcp_connect _ _ _) as [[b d] e]. cbn in *.
  etransitivity; [exact Ho|]. apply fp_clock. cbn. lia.
Qed.
#[local] Hint Resolve fp_tcp_check : fp.

Lemma fp_check i check t : P (run_check client i check t).
Proof.
  pose proof (fp_exec i). unfold within in *. destruct check; cbn [run_check]; unfold with_timeout; fp.
Qed.
#[local] Hint Resolve fp_check : fp.

Lemma fp_wait_ready i t strategy fuel : P (wait_ready client i t strategy fuel).
Proof. unfold wait_ready, resolve_strategy, ready_round. fp. Qed.

Lemma fp_probe i : P (probe_health client i).
Proof. pose proof (fp_exec i). unfold within in *. unfold probe_health, with_timeout. fp. Qed.

(** ** Every public method *)

(** The container a call works on. *)
Definition call_subject (c : Call) : option ContainerId :=
  match c with
  | CStart i | CDelete i _ | CStop i _ | CInspect i | CStartPortForward i _ _ _
  | CStartManagedPortForward i _ _ _ | CProbeHealth i | CRunExec i _ | CLogs i
  | CLogsFiltered i _ | CLogsStream i | CLogsStreamUntilExit i | CPause i | CUnpause i
  | CWaitReady i _ _ _ | CWaitForExit i _ | CClone i _ _ | CSnapshot i _ _ | CReset i _ _ =>
      Some i
  | _ => None
  end.

Definition concerns (c : Call) : Prop :=
  match call_subject c with Some i => as_str i = id | None => True end.

(** Arguments of the width of their types. *)
Definition call_typed (c : Call) : Prop :=
  match c with
  | CStartPortForward _ hp cp _ | CStartManagedPortForward _ hp cp _ =>
      (hp <= U16_MAX)%N /\ (cp <= U16_MAX)%N
  | _ => True
  end.

Lemma forward_ok i hp cp addr w h w' :
  (hp <= U16_MAX)%N -> (cp <= U16_MAX)%N ->
  start_port_forward i hp cp addr w = (Ok h, w') -> handle_ok h /\ pf_container_id h = i.
Proof.
  intros Hh Hc. unfold start_port_forward.
  destruct (hp =? 0)%N eqn:E1; [done|]. destruct (cp =? 0)%N eqn:E2; [done|]. simp_eqs.
  intros H. run_inv. destruct a as [[]|[]]; simplify_eq. cbn.
  split; [|done]. unfold handle_ok, port_ok. cbn. split_and!; try lia. by eexists.
Qed.

Lemma fp_forward i hp cp addr : P (start_port_forward i hp cp addr).
Proof. unfold start_port_forward. fp. Qed.

Lemma fp_managed_forward hp cp addr :
  (hp <= U16_MAX)%N -> (cp <= U16_MAX)%N -> P (start_managed_port_forward id hp cp addr).
Proof.
  intros Hh Hc w. unfold start_managed_port_forward, try_st, mbind, ST_bind.
  pose proof (fp_forward id hp cp addr w) as Hf.
  destruct (start_port_forward id hp cp addr w) as [[h|e] w1] eqn:Ef; cbn in *; [|done].
  etransitivity; [exact Hf|]. destruct (forward_ok _ _ _ _ _ _ _ Hh Hc Ef) as [Hok Hid].
  destruct (handles_poisoned w1); cbn; [by apply (fp_note (ForwardDropped h))|by apply fp_add].
Qed.

Lemma fp_logs_stream i : P (container_logs_stream i).
Proof.
  unfold container_logs_stream, follower_start, follower_start_inner. fp. by apply fp_note.
Qed.

Lemma fp_logs_until_exit i : P (container_logs_stream_until_exit client i).
Proof.
  unfold container_logs_stream_until_exit, follower_start_with_stop, follower_start_inner. fp;
    by apply fp_note.
Qed.

Lemma fp_call c : concerns c -> call_typed c -> P (call client c).
Proof.
  unfold concerns. intros Hi Ht. destruct c; cbn [call call_subject call_typed] in *;
    repeat match goal with o : option _ |- _ => destruct o end.
  all: try (by apply fp_clear). all: try (by intros w).
  all: first
    [ apply fp_list | apply fp_wait_for_exit | apply fp_pause | apply fp_unpause
    | apply fp_create | by apply fp_client_start | by apply fp_client_delete
    | by apply fp_clone | by apply fp_snapshot | by apply fp_restore | by apply fp_reset
    | apply fp_list_snapshots | apply fp_delete_snapshot | apply fp_exec_now
    | apply fp_wait_ready | apply fp_probe | apply fp_forward | apply fp_logs_stream
    | apply fp_logs_until_exit | apply fp_files
    | unfold server_version, inspect_by_name; fp ].
  unfold client_start_managed_port_forward. rewrite Hi. destruct Ht.
  by apply fp_managed_forward.
Qed.

End functions.
