(* ===== verification/ClientInv.v ===== *)
(** * Invariants of the client's state under every public method
    ([src/client.rs])

    Two relations on worlds are shown to be footprints, so that they hold of
    every call: [keeps_ok], under which the well-typed client state
    [client_ok] stays well typed, and [stays], under which a call keeps to its
    own namespace and container. *)

From S2P Require Import Prelude RustText RustFmt Errors Effects FileSystem LogCodec LogFiles Identifier World DemoDaemon Loops Bridge ContainerSpec Inspect ClientState Task Create ClientApi Clone Snapshot Exec Readiness Connect ClientMethods Footprint.

(** * Well-typed client state *)
Section typed.
Context {E : Env} {L : Libs}.
Abbreviation W := (World ImageMetadata).
Implicit Types (w : W) (client : Client).

(** A managed tailer sits under the key of the container whose files it
    works on. *)
Definition tailer_ok (key : string) (t : LogTailerHandle) : Prop :=
  exists client id, key = ns_key client id /\
    log_paths_for home_dir id = Ok (lt_stdout t, lt_stderr t) /\
    events_path_for home_dir id = Ok (lt_events t).

Record client_ok w : Prop := mkClientOk {
  co_handles : Forall handle_ok (managed_handles w);
  co_tailers : map_Forall tailer_ok (managed_tailers w);
  co_cache : map_Forall (fun _ m => image_ok m) (image_metadata_cache w);
  co_starts : map_Forall (fun _ t => (t <= clock w)%N) (task_start_times w);
  co_execs : (exec_counter w < U64)%N
}.

Definition keeps_ok w w' : Prop := (clock w <= clock w')%N /\ (client_ok w -> client_ok w').

#[export] Instance keeps_ok_refl : Reflexive keeps_ok.
Proof. intros w. split; [lia|done]. Qed.
#[export] Instance keeps_ok_trans : Transitive keeps_ok.
Proof. intros w1 w2 w3 [? ?] [? ?]. split; [lia|auto]. Qed.

(** Nothing typed changes but the clock, which advances. *)
Lemma keeps_ok_later w w' :
  (clock w <= clock w')%N -> managed_handles w' = managed_handles w ->
  managed_tailers w' = managed_tailers w -> image_metadata_cache w' = image_metadata_cache w ->
  task_start_times w' = task_start_times w -> exec_counter w' = exec_counter w -> keeps_ok w w'.
Proof.
  intros Hc Hh Ht Hi Hs He. split; [done|]. intros [H1 H2 H3 H4 H5].
  constructor; rewrite ?Hh, ?Ht, ?Hi, ?Hs, ?He; try done.
  intros k t Hk. specialize (H4 k t Hk). cbn in H4. lia.
Qed.

Lemma tailer_started client id w t w' :
  log_tailer_start id w = (Ok t, w') -> tailer_ok (ns_key client id) t /\ w' = emit (TailerStarted t) w.
Proof.
  unfold log_tailer_start. destruct (log_paths_for home_dir id) as [[o er]|] eqn:E1; [|done].
  destruct (events_path_for home_dir id) as [ev|] eqn:E2; [|done]. intros [= <- <-].
  split; [|done]. by exists client, id.
Qed.

Lemma keeps_ok_tailer client id : pres keeps_ok (start_managed_tailer (Meta := ImageMetadata) client id).
Proof.
  intros w. unfold start_managed_tailer, try_st, mbind, ST_bind.
  destruct (log_tailer_start id w) as [[t|e] w1] eqn:Et; cbn [fst snd].
  - destruct (tailer_started client id w t w1 Et) as [Hok ->].
    assert (K : keeps_ok w (set_tailers (<[ns_key client id := t]> (managed_tailers w))
      (emit (TailerStarted t) w))).
    { split; [done|]. intros [H1 H2 H3 H4 H5]. constructor; try done. cbn.
      by apply map_Forall_insert_2. }
    unfold get_st, modify_st. cbn. destruct (managed_tailers w !! ns_key client id) as [old|]; [|done].
    cbn. etransitivity; [exact K|]. by apply keeps_ok_later.
  - unfold log_tailer_start in Et. destruct (log_paths_for home_dir id) as [[o er]|]; [|by simplify_eq].
    by destruct (events_path_for home_dir id); simplify_eq.
Qed.

Lemma keeps_ok_no_tailer client id :
  pres keeps_ok (stop_managed_tailer (Meta := ImageMetadata) client id).
Proof.
  intros w. unfold stop_managed_tailer, mbind, ST_bind, get_st. cbn.
  destruct (managed_tailers w !! ns_key client id) as [t|]; [|done]. cbn.
  split; [done|]. intros [H1 H2 H3 H4 H5]. constructor; try done. cbn. by apply map_Forall_delete.
Qed.

Lemma keeps_ok_no_forwards id : pres keeps_ok (stop_managed_forwards (Meta := ImageMetadata) id).
Proof.
  intros w. unfold stop_managed_forwards, mbind, ST_bind, get_st, modify_st. cbn.
  rewrite stopped_trace. split; [done|]. intros [H1 H2 H3 H4 H5]. constructor; try done. cbn.
  rewrite Forall_forall in H1 |- *. intros h Hh. apply H1.
  rewrite list_elem_of_In in Hh |- *. by apply filter_In in Hh as [? _].
Qed.

Lemma keeps_ok_rpc client r : pres keeps_ok (rpc client r).
Proof.
  intros w. unfold rpc. destruct (handle _ _ _) as [[a d] e]. cbn.
  apply keeps_ok_later; cbn; done || lia.
Qed.

#[export] Instance keeps_ok_primitives client id : Primitives client id keeps_ok.
Proof.
  constructor; try apply _.
  - intros r _. apply keeps_ok_rpc.
  - apply keeps_ok_rpc.
  - intros d w. unfold sleep. destruct (overshoot _ _) as [o e]. cbn.
    apply keeps_ok_later; cbn; done || lia.
  - intros w w' c [_ Hok] Hs Hc. split; [done|]. intros Hw. destruct (Hok Hw) as [H1 H2 H3 H4 H5].
    constructor; try done. cbn. rewrite Hs. intros k t Hk. apply (co_starts _ Hw) in Hk. lia.
  - intros A f _ w. by apply keeps_ok_later.
  - intros A m w. by apply keeps_ok_later.
  - intros w. split; [done|]. intros [H1 H2 H3 H4 H5]. constructor; try done. cbn.
    by apply N.mod_lt.
  - intros d m Hm w. split; [done|]. intros [H1 H2 H3 H4 H5]. constructor; try done. cbn.
    by apply map_Forall_insert_2.
  - intros w. split; [done|]. intros [H1 H2 H3 H4 H5]. constructor; try done. cbn.
    apply map_Forall_insert_2; [apply N.le_refl|done].
  - intros w. split; [done|]. intros [H1 H2 H3 H4 H5]. constructor; try done. cbn.
    by apply map_Forall_delete.
  - apply keeps_ok_tailer.
  - apply keeps_ok_no_tailer.
  - apply keeps_ok_no_forwards.
  - intros w. split; [done|]. intros [H1 H2 H3 H4 H5]. constructor; try done.
  - intros ev _ w. by apply keeps_ok_later.
  - intros h Hh _ w. split; [done|]. intros [H1 H2 H3 H4 H5]. constructor; try done. cbn.
    apply Forall_app. split; [done|by apply Forall_singleton].
Qed.

#[export] Instance keeps_ok_footprint client id : Footprint client id keeps_ok.
Proof. apply footprint_of_requests. intros c. apply keeps_ok_rpc. Qed.

(** A relation that is a footprint for every client and container holds of a
    whole history. *)
Lemma calls_pres (R : relation W) `{!Reflexive R, !Transitive R} cs :
  (forall client c, (client, c) ∈ cs -> pres R (call client c)) -> pres R (calls cs).
Proof.
  induction cs as [|[client c] cs IH]; intros H; cbn [calls]; [by apply pres_ret|].
  apply pres_bind; [apply _|apply H; left|]. intros _. apply IH. intros client' c' Hin.
  apply H. by right.
Qed.

End typed.

(** * Keeping to one's own *)
Section own.
Context {E : Env} {L : Libs}.
Abbreviation W := (World ImageMetadata).
Implicit Types (w : W) (client : Client).

(** What a call of [client] on the container [id] may do: requests of its
    namespace (the version request has none), watchers of its namespace,
    forwards of the container. *)
Definition own (client : Client) (id : string) (ev : Event) : Prop :=
  match ev with
  | Sent ns r => ns = namespace client \/ (ns = "" /\ r = Version)
  | WatcherStarted ns _ => ns = namespace client
  | ForwardStopped h => pf_container_id h = id
  | _ => True
  end.

Record stays (client : Client) (id : string) (w w' : W) : Prop := mkStays {
  st_trace : emits (own client id) w w';
  st_maps : forall k, k <> ns_key client id ->
    managed_tailers w' !! k = managed_tailers w !! k /\
    task_start_times w' !! k = task_start_times w !! k;
  st_forwards : forall i, i <> id ->
    List.filter (belongs i) (managed_handles w') = List.filter (belongs i) (managed_handles w)
}.

#[export] Instance stays_refl client id : Reflexive (stays client id).
Proof. intros w. by constructor. Qed.
#[export] Instance stays_trans client id : Transitive (stays client id).
Proof.
  intros w1 w2 w3 [T1 M1 F1] [T2 M2 F2]. constructor.
  - by etransitivity.
  - intros k Hk. destruct (M1 k Hk), (M2 k Hk). split; congruence.
  - intros i Hi. by rewrite F2, F1.
Qed.

(** Only the trace grows. *)
Lemma stays_emits client id w w' :
  emits (own client id) w w' -> managed_tailers w' = managed_tailers w ->
  task_start_times w' = task_start_times w -> managed_handles w' = managed_handles w ->
  stays client id w w'.
Proof. intros He Ht Hs Hh. constructor; [done|by rewrite Ht, Hs|by rewrite Hh]. Qed.

Lemma stays_same client id w w' :
  trace w' = trace w -> managed_tailers w' = managed_tailers w ->
  task_start_times w' = task_start_times w -> managed_handles w' = managed_handles w ->
  stays client id w w'.
Proof. intros Ht. apply stays_emits. by apply emits_same. Qed.

Lemma emits_one (P : Event -> Prop) w w' ev : trace w' = trace w ++ [ev] -> P ev -> emits P w w'.
Proof. intros Ht H. exists [ev]. split; [done|by apply Forall_singleton]. Qed.

Lemma emits_foldl (P : Event -> Prop) (hs : list PortForwardHandle) w w' :
  Forall (fun h => P (ForwardStopped h)) hs ->
  trace w' = trace w ++ (ForwardStopped <$> hs) -> emits P w w'.
Proof. intros H Ht. eexists. split; [exact Ht|]. by apply Forall_fmap. Qed.

Lemma filter_belongs_ne i id (hs : list PortForwardHandle) :
  i <> id ->
  List.filter (belongs i) (List.filter (fun h => negb (belongs id h)) hs) =
  List.filter (belongs i) hs.
Proof.
  intros Hne. rewrite filter_filter_and. apply List.filter_ext. intros h. unfold belongs.
  destruct (String.eqb_spec (pf_container_id h) i) as [<-|]; [|by rewrite andb_false_r].
  destruct (String.eqb_spec (pf_container_id h) id); done.
Qed.

Lemma stays_tailer client id : pres (stays client id) (start_managed_tailer client id).
Proof.
  intros w. unfold start_managed_tailer, try_st, mbind, ST_bind.
  destruct (log_tailer_start id w) as [[t|e] w1] eqn:Et; cbn [fst snd].
  - destruct (tailer_started client id w t w1 Et) as [_ ->].
    unfold get_st, modify_st. cbn. destruct (managed_tailers w !! ns_key client id) as [old|];
      (constructor; [|intros k Hk; cbn; by rewrite lookup_insert_ne|done]).
    + exists [TailerStarted t; TailerStopped old]. cbn. rewrite <-app_assoc.
      split; [done|]. by repeat constructor.
    + by eapply emits_one.
  - unfold log_tailer_start in Et. destruct (log_paths_for home_dir id) as [[o er]|]; [|by simplify_eq].
    by destruct (events_path_for home_dir id); simplify_eq.
Qed.

Lemma stays_no_tailer client id : pres (stays client id) (stop_managed_tailer client id).
Proof.
  intros w. unfold stop_managed_tailer, mbind, ST_bind, get_st. cbn.
  destruct (managed_tailers w !! ns_key client id) as [t|]; [|done]. cbn.
  constructor; [by eapply emits_one|intros k Hk; cbn; by rewrite lookup_delete_ne|done].
Qed.

Lemma stays_no_forwards client id : pres (stays client id) (stop_managed_forwards id).
Proof.
  intros w. unfold stop_managed_forwards, mbind, ST_bind, get_st, modify_st. cbn.
  rewrite stopped_trace. constructor; [|done|intros i Hi; by apply filter_belongs_ne].
  eapply emits_foldl; [|done]. apply Forall_forall. intros h Hh.
  rewrite list_elem_of_In in Hh. apply filter_In in Hh as [_ Hb]. by apply String.eqb_eq in Hb.
Qed.

Lemma stays_rpc client id r : pres (stays client id) (rpc client r).
Proof.
  intros w. unfold rpc. destruct (handle _ _ _) as [[a d] e].
  apply stays_emits; try done. eapply emits_one; [done|]. by left.
Qed.

#[export] Instance stays_primitives client id : Primitives client id (stays client id).
Proof.
  constructor; try apply _.
  - intros r _. apply stays_rpc.
  - intros w. unfold rpc. destruct (handle _ _ _) as [[a d] e].
    apply stays_emits; try done. eapply emits_one; [done|]. by right.
  - intros d w. unfold sleep. destruct (overshoot _ _) as [o e].
    apply stays_emits; try done. by eapply emits_one.
  - intros w w' c [T M F] _ _. constructor; [|done..].
    destruct T as (evs & T & HT). by exists evs.
  - intros A f _ w. by apply stays_same.
  - intros A m w. by apply stays_same.
  - intros w. by apply stays_same.
  - intros d m _ w. by apply stays_same.
  - intros w. constructor; [by apply emits_same| |done]. intros k Hk. split; [done|].
    by apply lookup_insert_ne.
  - intros w. constructor; [by apply emits_same| |done]. intros k Hk. split; [done|].
    by apply lookup_delete_ne.
  - apply stays_tailer.
  - apply stays_no_tailer.
  - apply stays_no_forwards.
  - intros w. by apply stays_same.
  - intros ev Hev w. apply stays_emits; try done. eapply emits_one; [done|]. by destruct ev.
  - intros h _ Hid w. constructor; [by apply emits_same|done|]. intros i Hi. cbn.
    rewrite List.filter_app. cbn. unfold belongs at 2. rewrite Hid.
    destruct (String.eqb_spec id i); [congruence|]. by rewrite app_nil_r.
Qed.

#[export] Instance stays_footprint client id : Footprint client id (stays client id).
Proof. apply footprint_of_requests. intros c. apply stays_rpc. Qed.

(** The client's state about a container of a namespace. *)
Definition same_keys (ns id : string) w w' : Prop :=
  managed_tailers w' !! ns_key (mkClient ns) id = managed_tailers w !! ns_key (mkClient ns) id /\
  task_start_times w' !! ns_key (mkClient ns) id = task_start_times w !! ns_key (mkClient ns) id.

#[export] Instance same_keys_refl ns id : Reflexive (same_keys ns id).
Proof. done. Qed.
#[export] Instance same_keys_trans ns id : Transitive (same_keys ns id).
Proof. intros w1 w2 w3 [? ?] [? ?]. split; congruence. Qed.

(** The forwards of an identifier. *)
Definition same_forwards (id : string) w w' : Prop :=
  List.filter (belongs id) (managed_handles w') = List.filter (belongs id) (managed_handles w).

#[export] Instance same_forwards_refl id : Reflexive (same_forwards id).
Proof. done. Qed.
#[export] Instance same_forwards_trans id : Transitive (same_forwards id).
Proof. intros w1 w2 w3 ? ?. unfold same_forwards in *. congruence. Qed.

(** A call without a container works on any. *)
Lemma call_stays client c id w :
  call_typed c ->
  stays client (default id (as_str <$> call_subject c)) w (call client c w).2.
Proof.
  intros Ht. apply fp_call; [|done]. unfold concerns. by destruct (call_subject c).
Qed.

End own.

(** * Properties *)
Section properties.
Context {E : Env} {L : Libs}.
Abbreviation W := (World ImageMetadata).
Implicit Types (w : W) (client : Client).

(** C13. The client's state stays well typed through every history of calls of
    the public interface, whatever the daemon answers: forwards have ports of
    16 bits that are not 0, every tailer sits under the key of the container
    whose files it works on, cached image metadata agrees with itself (parsed
    configuration, chain id), no task started in the future, the exec counter
    is a 64-bit number; and the clock never goes back. *)
Theorem api_keeps_client_ok (cs : list (Client * Call)) w :
  Forall (fun x => call_typed x.2) cs -> client_ok w ->
  client_ok (calls cs w).2 /\ (clock w <= clock (calls cs w).2)%N.
Proof.
  intros Ht Hw. rewrite Forall_forall in Ht.
  destruct (calls_pres keeps_ok cs) with (s := w) as [Hc Hok]; [|auto].
  intros client c Hin. apply (fp_call (id := default "" (as_str <$> call_subject c)));
    [|by apply (Ht _ Hin)].
  unfold concerns. by destruct (call_subject c).
Qed.

(** C14. Namespaces are kept apart: whatever clients of other namespaces do, no
    request is sent in [ns], and the tailers and task start times of its
    containers stay as they are.  The forwards of a container are only touched
    by calls about a container with the same identifier, in any namespace. *)
Theorem namespaces_isolated (cs : list (Client * Call)) w ns :
  ns <> "" -> Forall (fun x => namespace x.1 <> ns) cs -> Forall (fun x => call_typed x.2) cs ->
  Forall (fun x => match call_subject x.2 with
                   | Some i => validate_identifier (as_str i) = Ok tt | None => True end) cs ->
  let w' := (calls cs w).2 in
  emits (fun ev => match ev with Sent n _ => n <> ns | _ => True end) w w' /\
  (forall id, validate_identifier id = Ok tt -> same_keys ns id w w') /\
  (forall id, Forall (fun x => as_str <$> call_subject x.2 <> Some id) cs ->
     same_forwards id w w').
Proof.
  intros Hns Hc Ht Hv. rewrite Forall_forall in Hc, Ht, Hv. cbv zeta. split_and!.
  - revert w. apply (calls_pres (emits _)). intros client c Hin w.
    specialize (Hc _ Hin). destruct (call_stays client c "" w (Ht _ Hin)) as [T _ _].
    eapply emits_weaken; [|exact T]. cbn in Hc. intros []; cbn; try done. by intros [->|[-> _]].
  - intros id Hid. revert w. apply (calls_pres (same_keys ns id)). intros client c Hin w.
    specialize (Hc _ Hin). specialize (Hv _ Hin). cbn in Hc, Hv.
    destruct (call_stays client c "x" w (Ht _ Hin)) as [_ M _]. apply M.
    intros Hk. apply ns_key_injective in Hk as [<- _]; [done|done|].
    by destruct (call_subject c).
  - intros id Hs. rewrite Forall_forall in Hs. revert w.
    apply (calls_pres (same_forwards id)). intros client c Hin w. specialize (Hs _ Hin).
    destruct (call_stays client c ("x" +:+ id) w (Ht _ Hin)) as [_ _ F]. apply F.
    cbn in Hs. destruct (call_subject c); cbn in *; [congruence|].
    intros H. apply (f_equal String.length) in H. rewrite str_length_app in H. cbn in H. lia.
Qed.

End properties.

(** ** Witnesses *)
Definition demo_history : list (Client * Call) :=
  [(demo_client, CStart (mkContainerId "c"));
   (demo_client, CStartManagedPortForward (mkContainerId "c") 40000 80 port_forward_opts_default);
   (demo_client, CClone (mkContainerId "c") "copy" (Some demo_clone_opts));
   (demo_client, CStop (mkContainerId "c") (from_secs 1))].

(** The same, and a client of another namespace. *)
Definition other_history : list (Client * Call) :=
  (mkClient "other", CDelete (mkContainerId "c") 0) :: demo_history.

Lemma demo_client_ok : client_ok (demo_clone_world : World ImageMetadata).
Proof. by constructor. Qed.

Lemma api_keeps_client_ok_witness :
  client_ok (calls demo_history demo_clone_world).2 /\
  managed_handles (calls demo_history demo_clone_world).2 = [demo_forward "c"].
Proof.
  split; [|vm_compute; reflexivity].
  refine (proj1 (api_keeps_client_ok demo_history demo_clone_world _ demo_client_ok)).
  repeat constructor; vm_compute; discriminate.
Defined.

Lemma namespaces_isolated_witness :
  same_keys "elsewhere" "c" demo_clone_world (calls other_history demo_clone_world).2 /\
  same_forwards "d" demo_clone_world (calls other_history demo_clone_world).2.
Proof.
  destruct (namespaces_isolated other_history demo_clone_world "elsewhere") as (_ & H1 & H2);
    [discriminate| | | |split; [by apply H1|apply H2]];
    repeat constructor; cbn; done.
Defined.
