(* ===== verification/Registry.v ===== *)
(** * The container service's contract

    What the crate relies on of containerd's container service: a map of
    records for each namespace, that only creating and deleting change, each
    the way containerd documents it, and that nobody else touches meanwhile.
    The demonstration daemon is an instance.  The section below says of every
    function that neither creates nor removes a container that it leaves the
    records alone, and what [remove_container] and [delete_container] do to
    records and layers. *)

From S2P Require Import Prelude RustText RustFmt Errors Effects FileSystem Identifier World DemoDaemon Loops Bridge ContainerSpec Inspect ClientState Task Create ClientApi Layers Clone Snapshot Footprint.

Abbreviation Records := (gmap string Container).

Definition writes_records (r : Req) : bool :=
  match r with CreateContainer _ | DeleteContainer _ => true | _ => false end.

Class Registry (E : Env) : Type := mkRegistry {
  records : string -> Ext -> Records;
  rg_keeps ns ns' r e : writes_records r = false ->
    records ns (handle ns' r e).2 = records ns e;
  rg_apart ns ns' r e : ns' <> ns -> records ns (handle ns' r e).2 = records ns e;
  rg_overshoot ns d e : records ns (overshoot d e).2 = records ns e;
  rg_uuid ns e : records ns (fresh_uuid e).2 = records ns e;
  rg_choose ns l e : records ns (choose l e).2 = records ns e;
  rg_bind ns e : records ns (bind_ephemeral e).2 = records ns e;
  rg_port ns p e : records ns (bind_port p e).2 = records ns e;
  rg_connect ns p d e : records ns (tcp_connect p d e).2 = records ns e;
  (** a new record is filed under its own id *)
  rg_create ns c e :
    match handle ns (CreateContainer (Some c)) e with
    | (Ok _, _, e') => records ns e !! c_id c = None /\
        records ns e' = <[c_id c := c]> (records ns e)
    | (Err _, _, e') => records ns e' = records ns e
    end;
  rg_delete ns id e :
    match handle ns (DeleteContainer id) e with
    | (Ok _, _, e') => records ns e' = delete id (records ns e)
    | (Err _, _, e') => records ns e' = records ns e
    end;
  rg_get ns id e :
    match handle ns (GetContainer id) e with
    | (Ok o, _, _) => o = records ns e !! id
    | (Err s, _, _) => code s = NotFound -> records ns e !! id = None
    end;
  (** a filter on the label of a name, which needs no quoting *)
  rg_list ns n e : validate_identifier n = Ok tt ->
    match handle ns (ListContainers [filter_for NAME_LABEL n]) e with
    | (Ok l, _, _) => forall c, c ∈ l <->
        (exists id, records ns e !! id = Some c) /\ c_labels c !! NAME_LABEL = Some n
    | (Err _, _, _) => True
    end
}.

Section registry.
Context {E : Env} {RG : Registry E} {Meta : Type}.
Abbreviation W := (World Meta).
Implicit Types (w : W) (client : Client).

Definition records_of (client : Client) w : Records := records (namespace client) (ext w).

Definition same_records w w' : Prop := forall ns, records ns (ext w') = records ns (ext w).

#[export] Instance same_records_refl : Reflexive same_records.
Proof. done. Qed.
#[export] Instance same_records_trans : Transitive same_records.
Proof. intros w1 w2 w3 H1 H2 ns. by rewrite H2, H1. Qed.

Lemma kept_rpc c r : writes_records r = false -> pres same_records (rpc c r).
Proof.
  intros Hr w ns. unfold rpc. pose proof (rg_keeps ns (namespace c) r (ext w) Hr) as H.
  destruct (handle _ _ _) as [[a d] e]. exact H.
Qed.

Lemma kept_sleep d : pres same_records (sleep d).
Proof.
  intros w ns. unfold sleep. pose proof (rg_overshoot ns d (ext w)) as H.
  destruct (overshoot _ _). exact H.
Qed.

Lemma kept_outside {A} (f : Ext -> A * Ext) : Outside A f -> pres same_records (outside f).
Proof.
  intros H w ns. unfold outside. cbn. destruct H.
  - apply rg_uuid.
  - unfold pick_free_octet. pose proof (rg_choose ns (free_octets used) (ext w)) as H.
    by destruct (choose _ _).
  - apply rg_bind.
  - apply rg_port.
  - apply rg_connect.
Qed.

(** ** The two writes and the two reads *)
Lemma rpc_create client c w :
  match rpc client (CreateContainer (Some c)) w with
  | (Ok _, w') => records_of client w !! c_id c = None /\
      records_of client w' = <[c_id c := c]> (records_of client w)
  | (Err _, w') => records_of client w' = records_of client w
  end.
Proof.
  unfold rpc, records_of. pose proof (rg_create (namespace client) c (ext w)) as H.
  destruct (handle _ _ _) as [[[u|s] d] e]; exact H.
Qed.

Lemma rpc_delete client id w :
  match rpc client (DeleteContainer id) w with
  | (Ok _, w') => records_of client w' = delete id (records_of client w)
  | (Err _, w') => records_of client w' = records_of client w
  end.
Proof.
  unfold rpc, records_of. pose proof (rg_delete (namespace client) id (ext w)) as H.
  destruct (handle _ _ _) as [[[u|s] d] e]; exact H.
Qed.

Lemma rpc_get client id w :
  match rpc client (GetContainer id) w with
  | (Ok o, _) => o = records_of client w !! id
  | (Err s, _) => code s = NotFound -> records_of client w !! id = None
  end.
Proof.
  unfold rpc, records_of. pose proof (rg_get (namespace client) id (ext w)) as H.
  destruct (handle _ _ _) as [[[u|s] d] e]; exact H.
Qed.

Lemma rpc_list_named client n w :
  validate_identifier n = Ok tt ->
  match rpc client (ListContainers [filter_for NAME_LABEL n]) w with
  | (Ok l, _) => forall c, c ∈ l <->
      (exists id, records_of client w !! id = Some c) /\ c_labels c !! NAME_LABEL = Some n
  | (Err _, _) => True
  end.
Proof.
  intros Hn. unfold rpc, records_of. pose proof (rg_list (namespace client) n (ext w) Hn) as H.
  destruct (handle _ _ _) as [[[u|s] d] e]; exact H.
Qed.

(** Other namespaces' records. *)
Lemma rpc_apart client r w ns :
  namespace client <> ns -> records ns (ext (rpc client r w).2) = records ns (ext w).
Proof.
  intros Hn. unfold rpc. pose proof (rg_apart ns (namespace client) r (ext w) Hn) as H.
  destruct (handle _ _ _) as [[a d] e]. exact H.
Qed.

End registry.

Create HintDb kept.
#[export] Hint Resolve kept_sleep kept_outside : kept.
#[export] Hint Constructors Outside : kept.

Ltac kept_step := first
  [ match goal with |- pres _ (rpc ?c ?r) => exact (kept_rpc c r eq_refl) end
  | solve [eauto 3 with kept nocore] ].
Ltac kept := walk kept_step.

(** ** What leaves the records alone *)
Section frame.
Context {E : Env} {L : Libs} {RG : Registry E} {Meta : Type}.
Abbreviation P := (pres (same_records (Meta := Meta))).
Implicit Types (w : World Meta) (client : Client).

Lemma kept_task_info client id : P (get_task_info client id).
Proof. unfold get_task_info. kept. Qed.
#[local] Hint Resolve kept_task_info : kept.

Lemma kept_inspect client id : P (inspect_container client id).
Proof. unfold inspect_container, get_container. kept. Qed.
#[local] Hint Resolve kept_inspect : kept.

Lemma kept_stop client id t : P (stop_container client id t).
Proof.
  unfold stop_container, stop_task, kill_task, wait_for_task_stop, is_task_running,
    task_has_stopped. kept.
Qed.

Lemma kept_delete_task client id : P (delete_task client id).
Proof. unfold delete_task, forget_task_start. kept. Qed.
#[local] Hint Resolve kept_delete_task : kept.

Lemma kept_phase_task client id : P (phase_delete_task client id).
Proof. unfold phase_delete_task. kept. Qed.

Lemma kept_phase_record client id : P (phase_task_record_gone client id).
Proof. unfold phase_task_record_gone. kept. Qed.

Lemma kept_client_start client id : P (client_start_container client id).
Proof.
  unfold client_start_container, start_container, get_container, record_task_start,
    start_managed_tailer, log_tailer_start, log_tailer_stop. kept.
  intros w. by repeat case_match.
Qed.

Lemma kept_stop_forwards id : P (stop_managed_forwards id).
Proof.
  unfold stop_managed_forwards. apply pres_bind; [apply _|by intros w|]. intros w0.
  apply pres_bind; [apply _|by intros w|]. intros [].
  intros w. unfold modify_st. rewrite stopped_trace. done.
Qed.

Lemma kept_stop_tailer client id : P (stop_managed_tailer client id).
Proof. unfold stop_managed_tailer, log_tailer_stop. kept. Qed.

End frame.

Section frame_create.
Context {E : Env} {L : Libs} {RG : Registry E}.
Implicit Types (w : World ImageMetadata) (client : Client).

Lemma kept_metadata client d ns : pres same_records (get_image_metadata client d ns).
Proof.
  unfold get_image_metadata, fetch_image_metadata, config_digest_of, read_content,
    lookup_image_metadata, store_image_metadata, lift_res. kept.
Qed.

Lemma kept_bridge client opts : pres same_records (bridge_config_for client opts).
Proof.
  assert (H : forall cps, pres (same_records (Meta := ImageMetadata)) (pick_ports cps)).
  { induction cps; cbn [pick_ports]; unfold pick_free_port; kept. }
  unfold bridge_config_for, alloc_bridge_ip, used_octets. kept.
Qed.

(** Everything a creation does before it registers the record. *)
Lemma kept_steps client id name image opts :
  pres same_records (create_steps client id name image opts).
Proof.
  unfold create_steps, prepare_for, image_target, lift_res.
  pose proof kept_metadata. pose proof kept_bridge.
  pres_step; [kept|]. pres_step; [exact (kept_rpc client (ListContainers _) eq_refl)|].
  pres_step; [by pres_step|]. kept.
Qed.

End frame_create.

(** ** What a deletion removes *)
Section removal.
Context {E : Env} {L : Libs} {RG : Registry E} {SN : Snapshotter E} {UD : Undisturbed E} {Meta : Type}.
Context (client : Client) (id : string).
Abbreviation W := (World Meta).
Abbreviation M := (ST W).
Implicit Types (w : W).

Definition layer_key : string * string := (DEFAULT_SNAPSHOTTER, snapshot_key_for id).

(** The record, if there is one, names the snapshotter the crate uses. *)
Definition homed w : Prop :=
  forall c, records_of client w !! id = Some c -> c_snapshotter c = DEFAULT_SNAPSHOTTER.

(** At most the record and the layer of the container go. *)
Record only_removes w w' : Prop := mkOnlyRemoves {
  or_records : records_of client w' = records_of client w \/
    records_of client w' = delete id (records_of client w);
  or_layers : layers_of client w' = layers_of client w \/
    layers_of client w' = delete layer_key (layers_of client w);
  or_apart ns : ns <> namespace client -> records ns (ext w') = records ns (ext w)
}.

Definition removal w w' : Prop := homed w -> homed w' /\ only_removes w w'.

#[export] Instance removal_refl : Reflexive removal.
Proof. intros w H. split; [done|]. constructor; auto. Qed.
#[export] Instance removal_trans : Transitive removal.
Proof.
  intros w1 w2 w3 H1 H2 H. destruct (H1 H) as [h2 [R1 L1 A1]].
  destruct (H2 h2) as [h3 [R2 L2 A2]]. split; [done|]. constructor.
  - destruct R1 as [R1|R1], R2 as [R2|R2]; rewrite R2, R1; rewrite ?delete_delete_eq; auto.
  - destruct L1 as [L1|L1], L2 as [L2|L2]; rewrite L2, L1; rewrite ?delete_delete_eq; auto.
  - intros ns Hn. by rewrite A2, A1.
Qed.

Lemma removal_same {A} (m : M A) :
  pres same_records m -> pres (same_layers client) m -> pres removal m.
Proof.
  intros Hr Hl w Hh. specialize (Hr w). specialize (Hl w).
  assert (Er : records_of client (m w).2 = records_of client w) by apply Hr.
  split; [|by constructor; auto].
  intros c Hc. apply Hh. by rewrite <-Er.
Qed.

Lemma removal_delete : pres removal (rpc client (DeleteContainer id)).
Proof.
  intros w Hh. pose proof (rpc_delete client id w) as Hd.
  pose proof (same_rpc client client (DeleteContainer id) eq_refl w) as Hl.
  pose proof (rpc_apart client (DeleteContainer id) w) as Ha.
  destruct (rpc client (DeleteContainer id) w) as [[u|s] w']; cbn in *.
  - split; [|by constructor; eauto]. intros c Hc. rewrite Hd in Hc.
    apply lookup_delete_Some in Hc as [? _]. done.
  - split; [|by constructor; eauto]. intros c Hc. rewrite Hd in Hc. eauto.
Qed.

Lemma removal_layer : pres removal (rpc client (RemoveSnapshot layer_key.1 layer_key.2)).
Proof.
  intros w Hh. pose proof (rpc_remove client layer_key.1 layer_key.2 w) as Hd.
  pose proof (kept_rpc client (RemoveSnapshot layer_key.1 layer_key.2) eq_refl w) as Hr.
  assert (Ho : homed (rpc client (RemoveSnapshot layer_key.1 layer_key.2) w).2).
  { intros c Hc. apply Hh. unfold records_of in *. by rewrite <-Hr. }
  destruct (rpc client (RemoveSnapshot _ _) w) as [[u|s] w']; cbn in *.
  - split; [done|]. constructor; eauto.
  - destruct Hd as [Hl _]. split; [done|]. constructor; eauto.
Qed.

(** On the way from [w] to [w'] the removal of the layer was asked for and
    refused: the leak [remove_container] logs. *)
Definition leaked w w' : Prop := exists wa wb,
  emits (own_removal id) w wa /\ removal_refused client layer_key.1 layer_key.2 wa wb /\
  emits (own_removal id) wb w'.

Lemma leaked_within w1 w2 w3 w4 :
  emits (own_removal id) w1 w2 -> leaked w2 w3 -> emits (own_removal id) w3 w4 -> leaked w1 w4.
Proof.
  intros H1 (wa & wb & Ha & Hr & Hb) H4. exists wa, wb. split_and!; [|done|]; by etransitivity.
Qed.

Lemma own_layer_removal w r w' :
  rpc client (RemoveSnapshot layer_key.1 layer_key.2) w = (r, w') ->
  layers_of client w' !! layer_key = None \/
  removal_refused client layer_key.1 layer_key.2 w w'.
Proof.
  intros H. destruct (layers_of client w !! layer_key) as [ly|] eqn:Hly.
  - destruct (remove_or_refused client _ _ ly _ _ _ Hly H) as [->|[_ ?]]; [left|by right].
    apply lookup_delete_eq.
  - left. pose proof (rpc_remove client layer_key.1 layer_key.2 w) as Hr. rewrite H in Hr.
    destruct r; [rewrite Hr; apply lookup_delete_eq|]. destruct Hr as [Hr _]. by rewrite Hr.
Qed.

Lemma leaked_at w w2 w3 w' :
  emits (own_removal id) w w2 -> trace w' = trace w3 -> layers_of client w' = layers_of client w3 ->
  layers_of client w3 !! layer_key = None \/
    removal_refused client layer_key.1 layer_key.2 w2 w3 ->
  layers_of client w' !! layer_key = None \/ leaked w w'.
Proof.
  intros He Ht Hl [Hn|Hn]; [left; by rewrite Hl|right].
  exists w2, w3. split_and!; [done..|]. by apply emits_same.
Qed.

(** [remove_container] once the snapshotter is known. *)
Lemma remove_container_homed w r w' :
  homed w -> remove_container client id w = (r, w') ->
  homed w' /\ only_removes w w' /\ (layers_of client w' !! layer_key = None \/ leaked w w').
Proof.
  intros Hh. unfold remove_container. intros (g & w1 & H1 & H)%bind_inv.
  pose proof (rpc_get client id w) as Hg.
  pose proof (removal_same _ (kept_rpc client (GetContainer id) eq_refl)
    (same_rpc client client (GetContainer id) eq_refl) w Hh) as R1. rewrite H1 in Hg, R1. cbn in R1.
  assert (Es : match g with Ok (Some c) => c_snapshotter c | _ => DEFAULT_SNAPSHOTTER end =
    DEFAULT_SNAPSHOTTER).
  { destruct g as [[c|]|]; [|done..]. symmetry in Hg. by apply Hh. }
  rewrite Es in H. clear Es Hg. apply bind_inv in H as (d & w2 & H2 & H). cbv zeta in H.
  pose proof (removal_delete w1) as R2. rewrite H2 in R2. cbn in R2.
  apply bind_inv in H as (v & w3 & H3 & H).
  pose proof (removal_layer w2) as R3. cbn [fst snd layer_key] in R3. rewrite H3 in R3. cbn in R3.
  pose proof (own_layer_removal _ _ _ H3) as Hn.
  apply bind_inv in H as (u & w4 & H4 & [_ <-]%ret_inv).
  assert (E4 : ext w4 = ext w3) by (unfold on_files, zoom in H4; by simplify_eq/=).
  assert (R : removal w w4).
  { transitivity w1; [by intros _|]. transitivity w2; [done|]. transitivity w3; [done|].
    intros Hw. split; [intros c; unfold records_of; rewrite E4; apply Hw|].
    constructor; unfold records_of, layers_of; rewrite ?E4; auto. }
  destruct (R Hh). split_and!; [done..|].
  refine (leaked_at w w2 w3 w4 _ _ _ Hn).
  - etransitivity; [exact (pres_at _ _ _ _ _ (emits_rpc (own_removal id) client (GetContainer id) I) H1)|].
    exact (pres_at _ _ _ _ _ (emits_rpc (own_removal id) client (DeleteContainer id) I) H2).
  - unfold on_files, zoom in H4. by simplify_eq/=.
  - unfold layers_of. by rewrite E4.
Qed.

Lemma removal_remove : pres removal (remove_container client id).
Proof.
  intros w Hh. destruct (remove_container client id w) as [r w'] eqn:H.
  by destruct (remove_container_homed w r w' Hh H) as (? & ? & _).
Qed.

Lemma removal_sleep d : pres removal (sleep d).
Proof. apply removal_same; [apply kept_sleep|apply same_sleep]. Qed.

Lemma same_delete_task : pres (same_layers (Meta := Meta) client) (delete_task client id).
Proof. unfold delete_task, forget_task_start. same. Qed.

Lemma removal_phase_task : pres removal (phase_delete_task client id).
Proof.
  apply removal_same; [apply kept_phase_task|]. pose proof same_delete_task.
  unfold phase_delete_task. same.
Qed.

Lemma removal_phase_record : pres removal (phase_task_record_gone client id).
Proof.
  apply removal_same; [apply kept_phase_record|].
  pose proof same_delete_task. pose proof (same_inspect (Meta := Meta) client client id).
  unfold phase_task_record_gone. same.
Qed.

Lemma removal_phase_container : pres removal (phase_container_record_gone client id).
Proof.
  unfold phase_container_record_gone. pose proof removal_remove.
  apply pres_bind; [apply _|apply removal_same; [apply kept_inspect|apply same_inspect]|].
  intros r. walk fail.
Qed.

(** Over a polling loop. *)
Lemma removal_poll start t i msg p w (r : Result unit) w' :
  pres removal p -> poll_until start t i msg p w = (r, w') -> removal w w'.
Proof.
  intros Hp H. refine (pres_at removal _ _ _ _ _ H). apply pres_poll; [apply _..|done|apply removal_sleep].
Qed.

Lemma own_poll start t i msg p w (r : Result unit) w' :
  pres (emits (own_removal id)) p -> poll_until start t i msg p w = (r, w') ->
  emits (own_removal id) w w'.
Proof.
  intros Hp H. refine (pres_at (emits (own_removal id)) _ _ _ _ _ H).
  apply pres_poll; [apply _..|done|by apply emits_sleep].
Qed.

(** A container that is reported gone has no record. *)
Lemma inspect_gone_record w x w' :
  inspect_container client id w = (Err (ContainerNotFound x), w') -> records_of client w' !! id = None.
Proof.
  intros H. pose proof (kept_inspect client id w) as K. rewrite H in K.
  unfold records_of. cbn in K. rewrite K. fold (records_of client w). clear K.
  unfold inspect_container in H. apply try_inv in H as [(c & w1 & H1 & H)|(e & H & E0)].
  - apply bind_inv in H as (t & w2 & _ & [H _]%ret_inv).
    by destruct (container_to_info_cases c t) as [(i & Ei & _)|(m & Ei)]; rewrite Ei in H.
  - injection E0 as <-. unfold get_container in H. apply bind_inv in H as (r & w1 & H1 & [H _]%ret_inv).
    pose proof (rpc_get client id w) as Hg. rewrite H1 in Hg.
    destruct r as [[c|]|s]; [done|done|]. destruct (decide (code s = NotFound)); [auto|done].
Qed.

Lemma phase_gone_record w w' :
  phase_container_record_gone client id w = (true, w') -> records_of client w' !! id = None.
Proof.
  unfold phase_container_record_gone. intros (r & w1 & H1 & H)%bind_inv. destruct r as [i|e].
  - apply bind_inv in H as (? & ? & _ & H). by apply ret_inv in H as [? _].
  - destruct e; apply ret_inv in H as [H <-]; try done. by eapply inspect_gone_record.
Qed.

(** The layer is gone, or its removal was refused on the way. *)
Definition gone_or_leaked w w' : Prop :=
  layers_of client w' !! layer_key = None \/ leaked w w'.

(** What [delete_container] has removed when it succeeds. *)
Lemma delete_container_removes t w w' :
  homed w -> delete_container client id t w = (Ok tt, w') ->
  homed w' /\ only_removes w w' /\ records_of client w' = delete id (records_of client w) /\
  gone_or_leaked w w'.
Proof.
  intros Hh. unfold delete_container. cbv zeta. intros (r0 & w0 & H0 & H)%bind_inv.
  assert (R0 : removal w w0).
  { apply (pres_at removal _ _ _ _ (removal_same _ (kept_stop client id t) (same_stop client client id t)) H0). }
  pose proof (pres_at _ _ _ _ _ (own_stop client id t) H0) as T0.
  apply bind_inv in H as (t1 & w1 & [_ <-]%ret_inv & H). apply try_ok_inv in H as ([] & w2 & H2 & H).
  pose proof (removal_poll _ _ _ _ _ _ _ _ removal_phase_task H2) as R2.
  pose proof (own_poll _ _ _ _ _ _ _ _ (own_phase_task client id) H2) as T2.
  apply bind_inv in H as (t2 & w3 & [_ <-]%ret_inv & H). apply try_ok_inv in H as ([] & w4 & H4 & H).
  pose proof (removal_poll _ _ _ _ _ _ _ _ removal_phase_record H4) as R4.
  pose proof (own_poll _ _ _ _ _ _ _ _ (own_phase_record client id) H4) as T4.
  apply bind_inv in H as (r5 & w5 & H5 & H).
  assert (R : removal w w4) by (do 2 (etransitivity; [eassumption|]); done).
  destruct (R Hh) as [Hh4 _]. destruct (remove_container_homed _ _ _ Hh4 H5) as (Hh5 & R5 & Hn).
  apply bind_inv in H as (t3 & w6 & [_ <-]%ret_inv & H).
  apply try_ok_inv in H as ([] & w7 & H7 & [_ <-]%ret_inv).
  pose proof (removal_poll _ _ _ _ _ _ _ _ removal_phase_container H7) as R7.
  pose proof (own_poll _ _ _ _ _ _ _ _ (own_phase_container client id) H7) as T7.
  pose proof (poll_until_ok _ _ _ _ _ _ _ _ H7 phase_gone_record) as Hg. cbv beta in Hg.
  assert (RT : removal w w7).
  { transitivity w4; [done|]. transitivity w5; [|done]. by intros _. }
  destruct (RT Hh) as [Hh7 O]. split_and!; [done|done| |].
  - destruct O as [[Er|Er] _ _]; [|done]. rewrite Er in Hg |- *. by rewrite delete_id.
  - destruct Hn as [Hn|Hn]; [left|right].
    + destruct (R7 Hh5) as [_ [_ [-> | ->] _]]; [exact Hn|apply lookup_delete_eq].
    + eapply leaked_within; [|exact Hn|exact T7]. etransitivity; [exact T0|]. by etransitivity.
Qed.

(** The same of the client's method, which then drops its own state. *)
Lemma client_delete_removes (i : ContainerId) t w w' :
  as_str i = id -> homed w -> client_delete_container client i t w = (Ok tt, w') ->
  only_removes w w' /\ records_of client w' = delete id (records_of client w) /\
  gone_or_leaked w w'.
Proof.
  intros Hi Hh. unfold client_delete_container. rewrite Hi. intros (r & w1 & H1 & H)%bind_inv.
  assert (T : pres (fun w w' : W => ext w' = ext w /\ emits (own_removal id) w w')
      (_ ← stop_managed_forwards id; _ ← stop_managed_tailer client id; mret r)).
  { intros v. unfold stop_managed_forwards, stop_managed_tailer, mbind, ST_bind, get_st, modify_st.
    cbn. rewrite stopped_trace. cbn. destruct (managed_tailers v !! _); cbn; (split; [done|]).
    - exists ((ForwardStopped <$> List.filter (belongs id) (managed_handles v)) ++ [TailerStopped l]).
      split; [by rewrite app_assoc|]. apply Forall_app. split; [|by repeat constructor].
      by apply Forall_fmap, Forall_true.
    - eexists. split; [done|]. by apply Forall_fmap, Forall_true. }
  specialize (T w1). rewrite H in T. cbn in T. destruct T as [T Te]. pose proof H as Hr.
  apply bind_inv in Hr as (? & ? & _ & Hr). apply bind_inv in Hr as (? & ? & _ & [-> _]%ret_inv).
  destruct (delete_container_removes t w w1 Hh H1) as (_ & [O1 O2 O3] & D & N).
  unfold gone_or_leaked, records_of, layers_of in *. rewrite T. split_and!; [|done|].
  - constructor; unfold records_of, layers_of; rewrite T; done.
  - destruct N as [N|N]; [by left|right]. by eapply leaked_within.
Qed.

End removal.

(** ** The demonstration daemon keeps records *)
Definition demo_by_ns (d : Demo) : gmap string (gmap string Container) :=
  map_curry (M1 := gmap string) (M2 := gmap string) (d_containers d).

Definition demo_records (ns : string) (d : Demo) : Records :=
  filter (fun p => c_id p.2 = p.1) (default ∅ (demo_by_ns d !! ns)).

Lemma demo_records_lookup ns d id : demo_records ns d !! id = demo_record ns id d.
Proof.
  unfold demo_records, demo_record, demo_by_ns.
  rewrite <-(lookup_map_curry (M1 := gmap string) (M2 := gmap string)).
  destruct (map_curry (M1 := gmap string) (M2 := gmap string) (d_containers d) !! ns) as [m|]; cbn; [|by rewrite map_filter_empty].
  rewrite map_lookup_filter. destruct (m !! id) as [c|]; cbn; [|done].
  unfold guard. by repeat case_decide.
Qed.

(** Two states have the same records where their containers agree. *)
Lemma demo_records_eq ns d d' :
  (forall id, d_containers d' !! (ns, id) = d_containers d !! (ns, id)) ->
  demo_records ns d' = demo_records ns d.
Proof.
  intros H. apply map_eq. intros id. rewrite !demo_records_lookup. unfold demo_record.
  by rewrite H.
Qed.

Lemma demo_records_other ns ns' r d :
  ns' <> ns -> demo_records ns (demo_handle ns' r d).2 = demo_records ns d.
Proof.
  intros Hn. apply demo_records_eq. intros id.
  destruct r; cbn; try done;
    unfold demo_set_task, demo_kill, demo_prepare, demo_commit, demo_remove;
    repeat case_match; try done; cbn; rewrite ?lookup_insert_ne, ?lookup_delete_ne by congruence;
    done.
Qed.

Lemma demo_records_kept ns ns' r d :
  writes_records r = false -> demo_records ns (demo_handle ns' r d).2 = demo_records ns d.
Proof.
  intros Hr. apply demo_records_eq. intros id.
  destruct r; try discriminate Hr; cbn; try done;
    unfold demo_set_task, demo_kill, demo_prepare, demo_commit, demo_remove;
    repeat case_match; done.
Qed.

(** The one label a filter on a valid name matches. *)
Lemma quoted_once {A} (x : A) l1 r1 l2 r2 :
  x ∉ l2 -> x ∉ r2 -> l1 ++ x :: r1 = l2 ++ x :: r2 -> l1 = l2 /\ r1 = r2.
Proof.
  intros H1 H2. revert l2 H1. induction l1 as [|a l1 IH]; intros [|b l2] H1 H; cbn in H.
  - by injection H as ->.
  - injection H as -> _. destruct H1. by left.
  - injection H as -> <-. destruct H2. apply elem_of_app. right. by left.
  - injection H as -> H. destruct (IH l2) as [-> ->]; [|done..]. intros Hx. apply H1. by right.
Qed.

Lemma label_filter_exact k v n :
  validate_identifier n = Ok tt ->
  label_filter k v = filter_for NAME_LABEL n <-> k = NAME_LABEL /\ v = n.
Proof.
  intros Hn%validate_ok_accepts%accepts_bytes. split; [|by intros [-> ->]].
  unfold label_filter, filter_for. intros H. apply (f_equal str_bytes) in H.
  rewrite !str_bytes_app in H. apply app_inv_head, app_inv_head in H.
  change (str_bytes DQ) with [x22] in H. cbn [app] in H. apply quoted_once in H as [Hk Hv].
  - apply app_inv_head in Hv. by apply str_bytes_inj in Hk, Hv.
  - vm_compute. intros Hx. repeat (apply elem_of_cons in Hx as [|Hx]; [done|]).
    by apply elem_of_nil in Hx.
  - rewrite elem_of_app. intros [Hx|Hx].
    + vm_compute in Hx. repeat (apply elem_of_cons in Hx as [|Hx]; [done|]). by apply elem_of_nil in Hx.
    + rewrite Forall_forall in Hn. by specialize (Hn _ Hx).
Qed.

Lemma passes_exact n c :
  validate_identifier n = Ok tt ->
  passes [filter_for NAME_LABEL n] (c_labels c) = true <-> c_labels c !! NAME_LABEL = Some n.
Proof.
  intros Hn. cbn [passes existsb]. rewrite orb_false_r, existsb_exists. split.
  - intros ([k v] & Hin & Heq%String.eqb_eq). apply list_elem_of_In, elem_of_map_to_list in Hin.
    symmetry in Heq. cbn [fst snd] in Heq. apply (label_filter_exact _ _ _ Hn) in Heq as [-> ->].
    done.
  - intros H. exists (NAME_LABEL, n). split.
    + by apply list_elem_of_In, elem_of_map_to_list.
    + apply String.eqb_eq. symmetry. by apply (label_filter_exact NAME_LABEL n n Hn).
Qed.

Lemma demo_list_named ns n d c :
  validate_identifier n = Ok tt ->
  c ∈ demo_list ns [filter_for NAME_LABEL n] d <->
    (exists id, demo_records ns d !! id = Some c) /\ c_labels c !! NAME_LABEL = Some n.
Proof.
  intros Hn. unfold demo_list. rewrite list_elem_of_filter, (passes_exact _ _ Hn), list_elem_of_fmap.
  setoid_rewrite demo_records_lookup. unfold demo_record. split.
  - intros (Hl & [[ns' id] c'] & -> & Hin). apply list_elem_of_filter in Hin as [[<- Hc] Hin].
    apply elem_of_map_to_list in Hin. cbn in *. split; [|done]. exists id. rewrite Hin. cbn.
    by rewrite decide_True.
  - intros [(id & H) Hl]. split; [done|]. exists ((ns, id), c). split; [done|].
    destruct (d_containers d !! (ns, id)) as [c'|] eqn:E; cbn in H; [|done].
    destruct (decide (c_id c' = id)); simplify_eq. apply list_elem_of_filter. split; [done|].
    by apply elem_of_map_to_list.
Qed.

#[export] Program Instance demo_registry : Registry demo_env := {| records := demo_records |}.
Next Obligation.
  intros ns ns' r d Hr. pose proof (demo_records_kept ns ns' r d Hr) as H. cbn.
  by destruct (demo_handle ns' r d).
Qed.
Next Obligation.
  intros ns ns' r d Hn. pose proof (demo_records_other ns ns' r d Hn) as H. cbn.
  by destruct (demo_handle ns' r d).
Qed.
Next Obligation. done. Qed.
Next Obligation. done. Qed.
Next Obligation. done. Qed.
Next Obligation. done. Qed.
Next Obligation. done. Qed.
Next Obligation. done. Qed.
Next Obligation.
  intros ns c d. cbn. destruct (d_containers d !! (ns, c_id c)) as [c'|] eqn:E; cbn; [done|].
  split.
  - rewrite demo_records_lookup. unfold demo_record. by rewrite E.
  - apply map_eq. intros id. rewrite demo_records_lookup. unfold demo_record. cbn.
    destruct (decide (c_id c = id)) as [<-|Hne].
    + rewrite !lookup_insert_eq. cbn. by rewrite decide_True.
    + rewrite !lookup_insert_ne, demo_records_lookup by congruence. done.
Qed.
Next Obligation.
  intros ns id d. cbn. destruct (d_containers d !! (ns, id)) as [c'|] eqn:E; cbn; [|done].
  apply map_eq. intros i. rewrite demo_records_lookup. unfold demo_record. cbn.
  destruct (decide (id = i)) as [<-|Hne].
  - by rewrite !lookup_delete_eq.
  - rewrite !lookup_delete_ne, demo_records_lookup by congruence. done.
Qed.
Next Obligation.
  intros ns id d. cbn. rewrite demo_records_lookup. unfold found. by destruct (demo_record ns id d).
Qed.
Next Obligation. intros ns n d Hn c. by apply demo_list_named. Qed.
