(* ===== verification/Names.v ===== *)
(** * Container names ([src/container.rs], [create_container_with_id];
    [src/inspect.rs], [resolve_name])

    A name is a label; that no two containers of a namespace carry the same is
    kept up by a creation's first request, which looks for the name.  Under the
    container service's contract the names stay unique through every history
    of calls, a created container is found by its name, and deleting it undoes
    its creation.  A creation is then cut where another may come in between:
    two of the same name that overlap both succeed. *)

From S2P Require Import Prelude RustText RustFmt Errors Effects FileSystem LogCodec LogFiles Identifier World DemoDaemon Loops Bridge ContainerSpec Inspect ClientState Task Create ClientApi Layers Clone Snapshot Exec Readiness Connect ClientMethods Footprint ClientInv Registry.

(** ** A creation in two halves *)
Section halves.
Context {E : Env} {L : Libs}.
Abbreviation M := (ST (World ImageMetadata)).

(** The check of the name. *)
Definition name_check (client : Client) (name : string) : M (Result unit) :=
  lift_res (validate_identifier name) ;;?
  x ← rpc client (ListContainers [filter_for NAME_LABEL name]);
  existing ←? mret (map_err (fun e => into_crate_error e "list_containers_for_name_check") x);
  if decide (existing <> []) then mret (Err (ContainerAlreadyExists name)) else mret (Ok tt).

(** What is prepared between the check and the registration. *)
Definition create_prepared (client : Client) (id name image : string)
    (opts : CreateContainerOpts) : M (Result (Container * bool)) :=
  manifest_digest ←? image_target client image (InvalidArgument "image has no target");
  image_metadata ←? get_image_metadata client manifest_digest (namespace client);
  '(snapshot_key, we_prepared) ←? prepare_for client id name image_metadata opts;
  bridge_config ←? bridge_config_for client opts;
  container ←? lift_res (build_container client id name image image_metadata
                 opts snapshot_key bridge_config);
  mret (Ok (container, we_prepared)).

Definition create_checked (client : Client) (id : ContainerId) (name image : string)
    (opts : CreateContainerOpts) : M (Result ContainerId) :=
  '(c, ours) ←? create_prepared client (as_str id) name image opts;
  register client name c ours ;;? mret (Ok id).

Lemma create_halves client id name image opts w :
  create_container_with_id client id name image opts w =
    (name_check client name ;;? create_checked client id name image opts) w.
Proof.
  unfold create_container_with_id, name_check. same_steps.
  change (try_st (mret (Ok tt)) (fun _ : unit => create_checked client id name image opts))
    with (create_checked client id name image opts).
  unfold create_checked, create_prepared. same_steps. destruct a4. by same_steps.
Qed.

(** ** Creations that overlap

    A creation is about to check its name, about to create, or over. *)
Record Creation : Type := mkCreation {
  cr_client : Client;
  cr_id : ContainerId;
  cr_name : string;
  cr_image : string;
  cr_opts : CreateContainerOpts
}.

Inductive Stage : Type := Checking | Creating | Over (r : Result ContainerId).

Definition creation_step (c : Creation) (s : Stage) : M Stage :=
  match s with
  | Checking =>
      r ← name_check (cr_client c) (cr_name c);
      mret (match r with Ok _ => Creating | Err e => Over (Err e) end)
  | Creating =>
      r ← create_checked (cr_client c) (cr_id c) (cr_name c) (cr_image c) (cr_opts c);
      mret (Over r)
  | Over r => mret (Over r)
  end.

(** The two steps in a row are the source's function. *)
Lemma creation_steps_spec c w :
  (s ← creation_step c Checking; creation_step c s) w =
  (r ← create_container_with_id (cr_client c) (cr_id c) (cr_name c) (cr_image c) (cr_opts c);
   mret (Over r)) w.
Proof.
  unfold mbind, ST_bind. rewrite create_halves. unfold try_st, mbind, ST_bind. cbn [creation_step].
  unfold mbind, ST_bind. destruct (name_check _ _ w) as [[u|e] w1]; done.
Qed.

Definition creations : list nat -> list (Creation * Stage) -> M (list (Creation * Stage)) :=
  interleave creation_step.

End halves.

(** ** What a creation does to the records *)
Section created.
Context {E : Env} {L : Libs} {RG : Registry E}.
Abbreviation W := (World ImageMetadata).
Implicit Types (w : W) (client : Client).

(** A container carries a name. *)
Definition named (n : string) (c : Container) : Prop := c_labels c !! NAME_LABEL = Some n.

#[export] Instance named_dec n c : Decision (named n c).
Proof. unfold named. apply _. Defined.

Definition name_free (client : Client) (n : string) w : Prop :=
  map_Forall (fun _ c => ~ named n c) (records_of client w).

(** The check answers for the moment it is made. *)
Lemma name_check_free client n w w' :
  name_check client n w = (Ok tt, w') -> name_free client n w /\ same_records w w'.
Proof.
  unfold name_check, lift_res. intros (u & w0 & [Hn <-]%ret_inv & H)%try_ok_inv.
  destruct u. apply bind_inv in H as (x & w1 & H1 & H).
  pose proof (rpc_list_named client n w Hn) as Hl.
  pose proof (kept_rpc client (ListContainers [filter_for NAME_LABEL n]) eq_refl w) as Hk.
  rewrite H1 in Hl, Hk. cbn in Hk.
  apply try_ok_inv in H as (l & w2 & [Hx <-]%ret_inv & H).
  destruct x as [l'|]; [|done]. injection Hx as ->. destruct (decide (l <> [])) as [|Hd].
  { by apply ret_inv in H as [? _]. }
  apply ret_inv in H as [_ <-]. split; [|done]. intros i c Hi Hc.
  apply Hd. destruct l as [|c' l]; [|done]. exfalso.
  assert (Hin : c ∈ []) by (apply Hl; eauto). by apply elem_of_nil in Hin.
Qed.

(** A free name is not refused. *)
Lemma name_free_check client n w r w' :
  name_free client n w -> validate_identifier n = Ok tt -> name_check client n w = (r, w') ->
  r = Ok tt \/ exists s, r = Err (into_crate_error s "list_containers_for_name_check").
Proof.
  intros Hf Hn. unfold name_check, lift_res. rewrite Hn.
  rewrite (run_try_ok _ _ w tt w) by done. intros (x & w1 & H1 & H)%bind_inv.
  pose proof (rpc_list_named client n w Hn) as Hl. rewrite H1 in Hl.
  destruct x as [l|s]; cbn [map_err] in H.
  - rewrite (run_try_ok _ _ w1 l w1) in H by done.
    destruct (decide (l <> [])) as [Hd|]; [|apply ret_inv in H as [<- _]; by left].
    destruct l as [|c l]; [done|]. exfalso.
    destruct (proj1 (Hl c)) as [[i Hi] Hc]; [by left|]. by apply (Hf i c Hi).
  - rewrite (run_try_err _ _ w1 (into_crate_error s "list_containers_for_name_check") w1) in H by done.
    injection H as <- _. right. eauto.
Qed.

Lemma kept_check client n : pres same_records (name_check client n).
Proof.
  unfold name_check, lift_res. pres_step; [kept|].
  pres_step; [exact (kept_rpc client (ListContainers _) eq_refl)|].
  pres_step; [by pres_step|]. kept.
Qed.

Lemma check_valid client n w w' :
  name_check client n w = (Ok tt, w') -> validate_identifier n = Ok tt.
Proof. unfold name_check. by intros ([] & ? & [? _]%ret_inv & _)%try_ok_inv. Qed.

Lemma kept_prepared client id name image opts :
  pres same_records (create_prepared client id name image opts).
Proof.
  unfold create_prepared, prepare_for, image_target, lift_res.
  pose proof kept_metadata. pose proof kept_bridge. kept.
Qed.

Lemma prepared_inv client id name image opts w c ours w' :
  create_prepared client id name image opts w = (Ok (c, ours), w') ->
  c_id c = id /\ named name c /\ c_snapshotter c = DEFAULT_SNAPSHOTTER /\
  c_snapshot_key c = default (snapshot_key_for id) (from_existing_snapshot opts).
Proof.
  unfold create_prepared, lift_res. intros (d & w1 & _ & H)%try_ok_inv.
  apply try_ok_inv in H as (md & w2 & _ & H).
  apply try_ok_inv in H as ([k o] & w3 & Hk%prepare_key & H). destruct Hk as [-> ->].
  apply try_ok_inv in H as (bc & w4 & _ & H).
  apply try_ok_inv in H as (c' & w5 & [Hc _]%ret_inv & [H _]%ret_inv). simplify_eq.
  apply build_container_inv in Hc as (? & _ & ? & ? & Hl & _).
  split_and!; [done| |done..]. unfold named. rewrite Hl. apply create_labels_name.
Qed.

(** The registration adds one record, or none. *)
Lemma register_records client name c ours w r w' :
  register client name c ours w = (r, w') ->
  match r with
  | Ok _ => records_of client w !! c_id c = None /\
      records_of client w' = <[c_id c := c]> (records_of client w)
  | Err _ => records_of client w' = records_of client w
  end.
Proof.
  unfold register. intros (x & w1 & H1 & H)%bind_inv.
  pose proof (rpc_create client c w) as Hc. rewrite H1 in Hc. destruct x as [u|s].
  - apply ret_inv in H as [<- <-]. done.
  - destruct ours.
    + apply bind_inv in H as (y & w2 & H2 & [<- <-]%ret_inv). rewrite <-Hc.
      pose proof (kept_rpc client (RemoveSnapshot DEFAULT_SNAPSHOTTER (c_snapshot_key c)) eq_refl w1) as K.
      rewrite H2 in K. apply K.
    + by apply ret_inv in H as [<- <-].
Qed.

Lemma register_apart client name c ours w ns :
  namespace client <> ns ->
  records ns (ext (register client name c ours w).2) = records ns (ext w).
Proof.
  intros Hn. pose proof (rpc_apart client (CreateContainer (Some c)) w ns Hn) as H1.
  unfold register, mbind, ST_bind. cbn [fst snd].
  destruct (rpc client (CreateContainer (Some c)) w) as [[u|s] w1]; [done|]. cbn in H1.
  destruct ours; [|done]. cbn [fst snd mret ST_ret].
  pose proof (rpc_apart client (RemoveSnapshot DEFAULT_SNAPSHOTTER (c_snapshot_key c)) w1 ns Hn) as H2.
  by rewrite H2.
Qed.

(** The second half of a creation. *)
Lemma create_checked_records client id name image opts w r w' :
  create_checked client id name image opts w = (r, w') ->
  (forall ns, ns <> namespace client -> records ns (ext w') = records ns (ext w)) /\
  match r with
  | Ok i => i = id /\ exists c, c_id c = as_str id /\ named name c /\
      c_snapshotter c = DEFAULT_SNAPSHOTTER /\
      c_snapshot_key c = default (snapshot_key_for (as_str id)) (from_existing_snapshot opts) /\
      records_of client w !! as_str id = None /\
      records_of client w' = <[as_str id := c]> (records_of client w)
  | Err _ => records_of client w' = records_of client w
  end.
Proof.
  unfold create_checked. pose proof (kept_prepared client (as_str id) name image opts w) as K.
  intros [([c ours] & w1 & H1 & H)|(e & H1 & ->)]%try_inv; rewrite H1 in K; cbn in K.
  - pose proof (register_apart client name c ours w1) as A.
    assert (Hr : records_of client w1 = records_of client w) by apply K.
    apply prepared_inv in H1 as (Hid & Hn & Hs & Hk).
    apply try_inv in H as [(u & w2 & H2 & [<- <-]%ret_inv)|(e & H2 & ->)]; rewrite H2 in A;
      (split; [intros ns Hns; rewrite A by done; apply K|]);
      apply register_records in H2; cbv iota beta in H2; rewrite Hr in H2; [|done].
    rewrite Hid in H2. destruct H2 as [H2 H3]. split; [done|]. by exists c.
  - split; [intros; apply K|]. apply K.
Qed.

End created.

(** ** Unique names *)
Section unique.
Context {E : Env} {L : Libs} {RG : Registry E}.
Abbreviation W := (World ImageMetadata).
Implicit Types (w : W) (client : Client).

Definition unique_in (m : Records) : Prop :=
  forall i j ci cj n, m !! i = Some ci -> m !! j = Some cj -> named n ci -> named n cj -> i = j.

Definition names_unique w : Prop := forall ns, unique_in (records ns (ext w)).

Definition keeps_names w w' : Prop := names_unique w -> names_unique w'.

#[export] Instance keeps_names_refl : Reflexive keeps_names.
Proof. intros w H. exact H. Qed.
#[export] Instance keeps_names_trans : Transitive keeps_names.
Proof. intros w1 w2 w3 H1 H2 H. auto. Qed.

Lemma unique_delete id m : unique_in m -> unique_in (delete id m).
Proof.
  intros H i j ci cj n Hi Hj. apply lookup_delete_Some in Hi as [_ Hi], Hj as [_ Hj].
  by apply (H i j ci cj n).
Qed.

Lemma unique_insert id n c m :
  named n c -> map_Forall (fun _ c => ~ named n c) m -> unique_in m -> unique_in (<[id := c]> m).
Proof.
  intros Hc Hf H i j ci cj k Hi Hj Hni Hnj.
  assert (Hk : forall d, named k c -> named k d -> named n d).
  { unfold named in *. intros d H1 H2. by simplify_eq. }
  apply lookup_insert_Some in Hi as [[<- <-]|[Hi Ei]], Hj as [[<- <-]|[Hj Ej]]; [done| | |].
  - exfalso. apply (Hf j cj Ej). by apply Hk.
  - exfalso. apply (Hf i ci Ei). by apply Hk.
  - by apply (H i j ci cj k).
Qed.

Lemma keeps_same {A} (m : ST W A) : pres same_records m -> pres keeps_names m.
Proof. intros Hm w Hw ns. rewrite (Hm w ns). apply Hw. Qed.

Lemma keeps_ext w w' : ext w' = ext w -> keeps_names w w'.
Proof. intros H Hw ns. rewrite H. apply Hw. Qed.

(** A request that is not a registration at most deletes a record. *)
Lemma names_rpc client r : registers r = false -> pres keeps_names (rpc client r).
Proof.
  intros Hr w Hw ns. destruct (writes_records r) eqn:Hwr.
  - destruct r; try discriminate. destruct (decide (namespace client = ns)) as [<-|Hn].
    + pose proof (rpc_delete client id w) as Hd. unfold records_of in Hd.
      destruct (rpc client (DeleteContainer id) w) as [[u|s] w']; cbn in *; rewrite Hd;
        [apply unique_delete|]; apply Hw.
    + rewrite rpc_apart by done. apply Hw.
  - rewrite (kept_rpc client r Hwr w ns). apply Hw.
Qed.

Lemma keeps_create client id name image opts :
  pres keeps_names (create_container_with_id client id name image opts).
Proof.
  intros w Hw. destruct (create_container_with_id client id name image opts w) as [r w'] eqn:H.
  rewrite create_halves in H. cbn.
  apply try_inv in H as [([] & w1 & H1 & H)|(e & H & ->)].
  - apply name_check_free in H1 as [Hf Hs].
    apply create_checked_records in H as [Ha H]. intros ns.
    destruct (decide (ns = namespace client)) as [->|Hn]; [|rewrite Ha, Hs by done; apply Hw].
    assert (Hr : records_of client w1 = records_of client w) by apply Hs.
    fold (records_of client w'). destruct r as [i|e].
    + destruct H as (_ & c & _ & Hc & _ & _ & _ & ->). rewrite Hr.
      apply (unique_insert _ name); [done..|apply Hw].
    + rewrite H, Hr. apply Hw.
  - intros ns. assert (K : same_records w w'); [|rewrite K; apply Hw].
    by apply (pres_at _ _ _ _ _ (kept_check client name) H).
Qed.

#[export] Instance names_primitives client id : Primitives client id keeps_names.
Proof.
  constructor; try apply _.
  - intros r Hr. by apply names_rpc.
  - apply names_rpc. done.
  - intros d. apply keeps_same, kept_sleep.
  - intros w w' c H _ _. transitivity w'; [done|]. by apply keeps_ext.
  - intros A f Hf. by apply keeps_same, kept_outside.
  - intros A m w. by apply keeps_ext.
  - intros w. by apply keeps_ext.
  - intros d m _ w. by apply keeps_ext.
  - intros w. by apply keeps_ext.
  - intros w. by apply keeps_ext.
  - apply keeps_same. unfold start_managed_tailer, log_tailer_start, log_tailer_stop. kept.
    intros w. by repeat case_match.
  - apply keeps_same, kept_stop_tailer.
  - apply keeps_same, kept_stop_forwards.
  - intros w. by apply keeps_ext.
  - intros ev _ w. by apply keeps_ext.
  - intros h _ _ w. by apply keeps_ext.
Qed.

#[export] Instance names_footprint client id : Footprint client id keeps_names.
Proof. constructor; [apply _|]. intros i name image opts. apply keeps_create. Qed.

End unique.

(** ** What a creation does to the layers *)
Section created_layers.
Context {E : Env} {L : Libs} {SN : Snapshotter E} {UD : Undisturbed E}.
Implicit Types (w : World ImageMetadata) (client : Client).

Lemma same_check client n : pres (same_layers client) (name_check client n).
Proof.
  unfold name_check, lift_res. pres_step; [same|].
  pres_step; [exact (same_rpc client client (ListContainers _) eq_refl)|].
  pres_step; [by pres_step|]. same.
Qed.

Lemma prepared_layers client id name image opts w c ours w' :
  from_existing_snapshot opts = None ->
  create_prepared client id name image opts w = (Ok (c, ours), w') ->
  layers_of client w !! layer_key id = None /\
  exists p, layers_of client w' = <[layer_key id := mkLayer p ∅ false]> (layers_of client w).
Proof.
  intros Hn. unfold create_prepared, lift_res. intros H.
  assert (T : forall e, pres (same_layers client) (image_target client image e))
    by (intros e; unfold image_target; same).
  apply (same_try client) in H as [(d & w1 & _ & E1 & H)|[? _]]; [|done|apply T].
  apply (same_try client) in H as [(md & w2 & _ & E2 & H)|[? _]]; [|done|apply same_metadata].
  apply try_ok_inv in H as ([k o] & w3 & H3 & H).
  unfold prepare_for in H3. rewrite Hn in H3. cbv zeta in H3.
  apply bind_inv in H3 as (x & w3' & H3 & [Hx ->]%ret_inv).
  pose proof (rpc_prepare client DEFAULT_SNAPSHOTTER (snapshot_key_for id) (chain_id md) ∅ w2) as Hp.
  rewrite H3 in Hp. destruct x as [u|s]; [|done]. destruct Hp as [Hf Hp].
  apply (same_try client) in H as [(bc & w4 & _ & E4 & H)|[? _]]; [|done|apply same_bridge].
  apply try_ok_inv in H as (c' & w5 & [_ <-]%ret_inv & [_ <-]%ret_inv).
  rewrite E2, E1 in Hf, Hp. split; [done|]. exists (chain_id md). by rewrite E4, Hp.
Qed.

(** A container that is created gets a layer of its own. *)
Lemma created_layers client id name image opts w r w' :
  from_existing_snapshot opts = None ->
  create_checked client id name image opts w = (Ok r, w') ->
  layers_of client w !! layer_key (as_str id) = None /\
  exists p, layers_of client w' =
    <[layer_key (as_str id) := mkLayer p ∅ false]> (layers_of client w).
Proof.
  intros Hn. unfold create_checked. intros ([c ours] & w1 & H1 & H)%try_ok_inv.
  apply prepared_layers in H1 as (Hf & p & Hp); [|done]. split; [done|]. exists p. rewrite <-Hp.
  apply try_ok_inv in H as (u & w2 & H2 & [_ <-]%ret_inv).
  unfold register in H2. apply bind_inv in H2 as (x & w3 & H3 & H2).
  pose proof (same_rpc client client (CreateContainer (Some c)) eq_refl w1) as K. rewrite H3 in K.
  destruct x as [v|s]; [by apply ret_inv in H2 as [_ <-]|].
  destruct ours; [|by apply ret_inv in H2 as [? _]].
  apply bind_inv in H2 as (? & ? & _ & H2). by apply ret_inv in H2 as [? _].
Qed.

End created_layers.

(** ** What overlapping creations leave *)
Section overlap.
Context {E : Env} {L : Libs} {RG : Registry E}.
Abbreviation W := (World ImageMetadata).
Implicit Types (w : W) (jobs : list (Creation * Stage)).

(** The record of a creation that succeeded is there. *)
Definition left_record w (c : Creation) : Prop :=
  exists r, records_of (cr_client c) w !! as_str (cr_id c) = Some r /\ named (cr_name c) r.

Definition all_left w jobs : Prop :=
  (forall k c i, jobs !! k = Some (c, Over (Ok i)) -> i = cr_id c /\ left_record w c) /\
  (forall k k' c c' i i', k <> k' ->
     jobs !! k = Some (c, Over (Ok i)) -> jobs !! k' = Some (c', Over (Ok i')) ->
     namespace (cr_client c) = namespace (cr_client c') -> as_str i <> as_str i').

Lemma left_mono w w' c :
  records_of (cr_client c) w ⊆ records_of (cr_client c) w' -> left_record w c -> left_record w' c.
Proof. intros Hs (r & Hr & Hn). exists r. split; [|done]. by eapply lookup_weaken. Qed.

(** A step adds at most the record of its own creation, which was not there. *)
Lemma creation_step_adds c s w s' w' :
  creation_step c s w = (s', w') ->
  (forall ns, records ns (ext w) ⊆ records ns (ext w')) /\
  (forall i, s' = Over (Ok i) -> s = Over (Ok i) \/
     i = cr_id c /\ left_record w' c /\ records_of (cr_client c) w !! as_str i = None).
Proof.
  destruct s as [| |r]; cbn [creation_step].
  - intros (r & w1 & H & [<- <-]%ret_inv)%bind_inv.
    pose proof (pres_at _ _ _ _ _ (kept_check _ _) H) as K.
    split; [intros ns; by rewrite K|]. by destruct r.
  - intros (r & w1 & H & [<- <-]%ret_inv)%bind_inv.
    apply create_checked_records in H as [Ha H].
    assert (Hg : forall ns, records ns (ext w) ⊆ records ns (ext w1)).
    { intros ns. destruct (decide (ns = namespace (cr_client c))) as [->|Hn]; [|by rewrite Ha].
      fold (records_of (cr_client c) w) (records_of (cr_client c) w1). destruct r as [i|e].
      - destruct H as (_ & r & _ & _ & _ & _ & Hf & ->). by apply insert_subseteq.
      - by rewrite H. }
    split; [done|]. intros i [= ->]. right. destruct H as (-> & r & _ & Hn & _ & _ & Hf & Hr).
    split; [done|]. split; [|done]. exists r. by rewrite Hr, lookup_insert_eq.
  - intros [<- <-]%ret_inv. split; [done|]. intros i ->. by left.
Qed.

Lemma all_left_step w jobs k c s s' w' :
  all_left w jobs -> jobs !! k = Some (c, s) -> creation_step c s w = (s', w') ->
  all_left w' (<[k := (c, s')]> jobs).
Proof.
  intros [Hl Hd] Hk [Hg Hn]%creation_step_adds.
  assert (Hin : forall k' d t, <[k := (c, s')]> jobs !! k' = Some (d, t) ->
    k' = k /\ d = c /\ t = s' \/ k' <> k /\ jobs !! k' = Some (d, t)).
  { intros k' d t H. destruct (decide (k' = k)) as [->|Hne].
    - rewrite list_lookup_insert_eq in H by (by eapply lookup_lt_Some). left. by simplify_eq.
    - rewrite list_lookup_insert_ne in H by done. by right. }
  assert (Hnew : forall k' d i i', k' <> k -> s' = Over (Ok i) ->
    jobs !! k' = Some (d, Over (Ok i')) -> namespace (cr_client c) = namespace (cr_client d) ->
    as_str i <> as_str i').
  { intros k' d i i' Hne Hs' Hj Hns He. destruct (Hn i Hs') as [->|(-> & _ & Hf)].
    - by apply (Hd k k' c d i i').
    - destruct (Hl _ _ _ Hj) as (-> & r & Hr & _). unfold records_of in *.
      rewrite He, Hns in Hf. congruence. }
  split.
  - intros k' d i [(-> & -> & <-)|[Hne Hj]]%Hin.
    + destruct (Hn i eq_refl) as [->|(-> & Hr & _)]; [|done].
      destruct (Hl _ _ _ Hk) as [-> Hr]. split; [done|]. by eapply left_mono; [apply Hg|].
    + destruct (Hl _ _ _ Hj) as [-> Hr]. split; [done|]. by eapply left_mono; [apply Hg|].
  - intros k1 k2 c1 c2 i1 i2 Hne [(-> & -> & Hs1)|[H1 J1]]%Hin [(-> & -> & Hs2)|[H2 J2]]%Hin Hns.
    + done.
    + by apply (Hnew k2 c2).
    + intros He. by apply (Hnew k1 c1 i2 i1).
    + by apply (Hd k1 k2 c1 c2).
Qed.

Lemma all_left_creations sched w jobs :
  all_left w jobs -> let r := creations sched jobs w in all_left r.2 r.1.
Proof.
  intros H. cbv zeta. apply (interleave_inv creation_step all_left); [|done].
  intros w1 jobs1 k c s H1 Hk. by eapply all_left_step; [..|apply surjective_pairing].
Qed.

End overlap.

(** * Properties *)
Section properties.
Context {E : Env} {L : Libs} {RG : Registry E}.
Abbreviation W := (World ImageMetadata).
Implicit Types (w : W) (client : Client).

(** A name leads to an identifier, if the request does not fail. *)
Definition resolves_to (client : Client) (name : string) (id : ContainerId) (w : W) : Prop :=
  let r := (resolve_name client name w).1 in
  r = Ok id \/ exists s, r = Err (into_crate_error s "resolve_name").

(** C8. No two containers of a namespace ever carry the same name: if names are
    unique to begin with, they are after every history of calls of the public
    interface, by clients of any namespaces, whatever fails on the way.
    (Creations, clones and restores are the calls that add a name; each looks
    for it first.) *)
Theorem names_stay_unique (cs : list (Client * Call)) w :
  Forall (fun x => call_typed x.2) cs -> names_unique w -> names_unique (calls cs w).2.
Proof.
  intros Ht. rewrite Forall_forall in Ht. apply (calls_pres keeps_names cs).
  intros client c Hin. apply (fp_call (id := default "" (as_str <$> call_subject c)));
    [|by apply (Ht _ Hin)].
  unfold concerns. by destruct (call_subject c).
Qed.

(** C21. A created container is found by its name: whatever is done after its
    creation that leaves the records alone, [resolve_name] answers its
    identifier, unless the request fails. *)
Theorem create_then_resolve client id name image opts w i w1 w2 :
  validate_identifier (as_str id) = Ok tt ->
  create_container_with_id client id name image opts w = (Ok i, w1) ->
  same_records w1 w2 -> resolves_to client name id w2.
Proof.
  intros Hid H Hs. unfold resolves_to.
  destruct (resolve_name client name w2) as [r w3] eqn:Hr. cbn [fst]. rewrite create_halves in H. apply try_ok_inv in H as ([] & w0 & H0 & H).
  pose proof (check_valid _ _ _ _ H0) as Hv.
  apply name_check_free in H0 as [Hf Hk]. apply create_checked_records in H as (_ & -> & c & Hc & Hn & _ & _ & _ & Er).
  assert (Es : records_of client w2 = <[as_str id := c]> (records_of client w)).
  { rewrite <-(Hk (namespace client) : records_of client w0 = records_of client w), <-Er. apply Hs. }
  unfold resolve_name in Hr. apply bind_inv in Hr as (x & w' & Hl & [<- _]%ret_inv).
  pose proof (rpc_list_named client name w2 Hv) as Hn'. rewrite Hl in Hn'.
  destruct x as [l|s]; [|right; eauto]. left.
  assert (Hin : c ∈ l) by (apply Hn'; split; [exists (as_str id); by rewrite Es, lookup_insert_eq|done]).
  destruct (last l) as [c'|] eqn:Hlast; [|apply last_None in Hlast as ->; by apply elem_of_nil in Hin].
  assert (c' = c) as ->.
  { apply last_Some_elem_of in Hlast. apply Hn' in Hlast as [[j Hj] Hc']. rewrite Es in Hj.
    apply lookup_insert_Some in Hj as [[_ ?]|[_ Hj]]; [done|]. by destruct (Hf j c' Hj). }
  unfold from_existing. rewrite Hc, Hid. cbn. by destruct id.
Qed.

(** C11. Deleting a container undoes its creation: between the two anything may be
    done that leaves records and layers alone, such as starting it.  When both
    succeed, the records of every namespace are as before the creation and the
    name is free for the next one; the layers are as before, too -- unless the
    daemon refused, during the deletion, to remove the container's layer (an
    error [remove_container] only logs): then that layer stays, and no other
    change.  (As long as nobody else, containerd's garbage collector included,
    changes layers meanwhile.) *)
Theorem create_delete_roundtrip {SN : Snapshotter E} {UD : Undisturbed E} {A} client id name image opts timeout
    (m : ST W A) w i w1 w2 :
  from_existing_snapshot opts = None ->
  create_container_with_id client id name image opts w = (Ok i, w1) ->
  pres same_records m -> pres (same_layers client) m ->
  client_delete_container client id timeout (m w1).2 = (Ok tt, w2) ->
  (forall ns, records ns (ext w2) = records ns (ext w)) /\
  (layers_of client w2 = layers_of client w \/
   leaked client (as_str id) (m w1).2 w2 /\
   exists parent, layers_of client w2 =
     <[layer_key (as_str id) := mkLayer parent ∅ false]> (layers_of client w)) /\
  (name_check client name w2).1 <> Err (ContainerAlreadyExists name).
Proof.
  intros Hx H Hmr Hml Hd. rewrite create_halves in H. apply try_ok_inv in H as ([] & w0 & H0 & H).
  pose proof (check_valid _ _ _ _ H0) as Hv.
  assert (L0 : layers_of client w0 = layers_of client w)
    by apply (pres_at _ _ _ _ _ (same_check client name) H0).
  pose proof (created_layers _ _ _ _ _ _ _ _ Hx H) as (Hfl & p & Hl).
  apply name_check_free in H0 as [Hf Hk].
  apply create_checked_records in H as (Ha & -> & c & Hc & Hn & Hs & _ & Hfr & Er).
  assert (Rm : records_of client (m w1).2 = records_of client w1) by apply Hmr.
  assert (Lm : layers_of client (m w1).2 = layers_of client w1) by apply Hml.
  assert (R0 : records_of client w0 = records_of client w) by apply Hk.
  apply (client_delete_removes client (as_str id) id timeout) in Hd as ([_ O2 O3] & D & N); [|done|].
  2:{ intros c' Hc'. rewrite Rm, Er, lookup_insert_eq in Hc'. by injection Hc' as <-. }
  assert (RR : records_of client w2 = records_of client w).
  { rewrite D, Rm, Er, delete_insert_id, R0; [done|]. exact Hfr. }
  split_and!.
  - intros ns. destruct (decide (ns = namespace client)) as [->|Hns]; [exact RR|].
    by rewrite O3, Hmr, Ha, Hk.
  - rewrite Lm, Hl, L0 in O2. rewrite L0 in Hfl. destruct O2 as [O2|O2].
    + right. destruct N as [N|N]; [by rewrite O2, lookup_insert_eq in N|]. split; [done|by exists p].
    + left. rewrite O2. by apply delete_insert_id.
  - assert (Hf2 : name_free client name w2) by (unfold name_free; by rewrite RR).
    destruct (name_check client name w2) as [r w3] eqn:E3.
    by destruct (name_free_check _ _ _ _ _ Hf2 Hv E3) as [->|[s ->]].
Qed.

(** C38. The check of the name and the registration are two requests, and nothing
    holds others off in between: however creations are interleaved, each that
    succeeds leaves its record, so two of the same name in one namespace that
    both succeed leave two containers with that name. *)
Theorem overlapping_creations_share_name (cs : list Creation) sched w jobs w' k1 k2 c1 c2 i1 i2 :
  creations sched ((fun c => (c, Checking)) <$> cs) w = (jobs, w') ->
  k1 <> k2 -> jobs !! k1 = Some (c1, Over (Ok i1)) -> jobs !! k2 = Some (c2, Over (Ok i2)) ->
  namespace (cr_client c1) = namespace (cr_client c2) -> cr_name c1 = cr_name c2 ->
  left_record w' c1 /\ left_record w' c2 /\ as_str i1 <> as_str i2 /\ ~ names_unique w'.
Proof.
  intros H Hk J1 J2 Hns Hn.
  assert (H0 : all_left w ((fun c => (c, Checking)) <$> cs)).
  { assert (Hno : forall k c i, ((fun c => (c, Checking)) <$> cs) !! k <> Some (c, Over (Ok i))).
    { intros k c i Hi. apply list_lookup_fmap_Some in Hi as (d & Hd & _). done. }
    split; [intros k c i Hj|intros k k' c c' i i' _ Hj]; by apply Hno in Hj. }
  apply (all_left_creations sched) in H0. rewrite H in H0. destruct H0 as [Hl Hd]. cbn in Hl, Hd.
  destruct (Hl _ _ _ J1) as [-> L1], (Hl _ _ _ J2) as [-> L2].
  pose proof (Hd _ _ _ _ _ _ Hk J1 J2 Hns) as Hne. split_and!; [done..|].
  intros Hu. destruct L1 as (r1 & R1 & N1), L2 as (r2 & R2 & N2). apply Hne.
  unfold records_of in R1, R2. rewrite <-Hns in R2. rewrite <-Hn in N2.
  by apply (Hu _ _ _ _ _ _ R1 R2 N1).
Qed.

End properties.

(** ** Witnesses *)
Abbreviation DemoWorld := (World (E := demo_env) ImageMetadata).

Definition pulled_world : DemoWorld := demo_world demo_pulled.

Lemma pulled_unique : names_unique pulled_world.
Proof.
  intros ns i j ci cj n Hi. exfalso.
  cbn [records demo_registry pulled_world demo_world ext] in Hi.
  rewrite demo_records_lookup in Hi. vm_compute in Hi. discriminate Hi.
Qed.

Definition creating_history : list (Client * Call) :=
  [(demo_client, CCreate "db" "mongo" demo_host_opts);
   (demo_client, CCreate "db" "mongo" demo_host_opts);
   (demo_client, CCreate "cache" "mongo" demo_host_opts);
   (mkClient "other", CCreate "db" "mongo" demo_host_opts)].

Definition names_of (w : DemoWorld) : list (string * option string) :=
  (fun e => (e.1.1, c_labels e.2 !! NAME_LABEL)) <$> map_to_list (d_containers (ext w : Demo)).

(** The second "db" of the namespace is refused, the other namespace's is not. *)
Lemma names_stay_unique_witness :
  names_unique (calls creating_history pulled_world).2 /\
  names_of (calls creating_history pulled_world).2 =
    [("other", Some "db"); ("default", Some "cache"); ("default", Some "db")].
Proof.
  split; [|vm_compute; reflexivity].
  refine (names_stay_unique creating_history pulled_world _ pulled_unique).
  repeat constructor.
Defined.

Lemma create_then_resolve_witness :
  (resolve_name demo_client "db"
     (create_container_with_id demo_client demo_cid "db" "mongo" demo_host_opts pulled_world).2).1 =
    Ok demo_cid.
Proof.
  set (w1 := (create_container_with_id demo_client demo_cid "db" "mongo" demo_host_opts
    pulled_world).2).
  assert (Hok : (create_container_with_id demo_client demo_cid "db" "mongo" demo_host_opts
    pulled_world).1 = Ok demo_cid) by (vm_compute; reflexivity).
  destruct (create_then_resolve demo_client demo_cid "db" "mongo" demo_host_opts pulled_world
    demo_cid w1 w1)
    as [H|[s H]].
  - vm_compute. reflexivity.
  - exact (run_eq _ _ _ Hok).
  - intros ns. reflexivity.
  - exact H.
  - exfalso. vm_compute in H. discriminate H.
Defined.

Definition started_and_deleted : DemoWorld :=
  (client_delete_container demo_client demo_cid (from_secs 10)
    (client_start_container demo_client demo_cid
      (create_container_with_id demo_client demo_cid "db" "mongo" demo_host_opts
        pulled_world).2).2).2.

Lemma create_delete_roundtrip_witness :
  records "default" (ext started_and_deleted) = records "default" (ext pulled_world) /\
  layers_of demo_client started_and_deleted = layers_of demo_client pulled_world.
Proof.
  set (w1 := (create_container_with_id demo_client demo_cid "db" "mongo" demo_host_opts
    pulled_world).2).
  assert (Hok : (create_container_with_id demo_client demo_cid "db" "mongo" demo_host_opts
    pulled_world).1 = Ok demo_cid) by (vm_compute; reflexivity).
  assert (Hd : (client_delete_container demo_client demo_cid (from_secs 10)
    (client_start_container demo_client demo_cid w1).2).1 = Ok tt) by (vm_compute; reflexivity).
  destruct (create_delete_roundtrip demo_client demo_cid "db" "mongo" demo_host_opts
    (from_secs 10) (client_start_container demo_client demo_cid) pulled_world demo_cid w1
    started_and_deleted) as (H1 & H2 & _).
  - reflexivity.
  - exact (run_eq _ _ _ Hok).
  - apply kept_client_start.
  - apply same_client_start.
  - exact (run_eq _ _ _ Hd).
  - split; [exact (H1 "default")|]. destruct H2 as [H2|[_ [p H2]]]; [exact H2|].
    exfalso. apply (f_equal (fun m => m !! layer_key (as_str demo_cid))) in H2.
    rewrite lookup_insert_eq in H2. vm_compute in H2. discriminate H2.
Defined.

(** A daemon that refuses to remove layers: creation and deletion both succeed,
    and the layer is still there. *)
Definition no_remove_env : Env :=
  demo_answering (fun ns r d =>
    match r as r return result Status (resp_of r) * Duration * Demo with
    | RemoveSnapshot _ _ => (Err (st FailedPrecondition), from_millis 1, d)
    | r => @handle demo_env ns r d
    end).

Definition no_remove_world : @World no_remove_env ImageMetadata :=
  mkWorld (demo_pulled : @Ext no_remove_env) 0 (quiet fs_empty) [] false ∅ ∅ ∅ 0 [].

Example refused_removal_leaks :
  let created := create_container_with_id demo_client demo_cid "db" "mongo" demo_host_opts
                   no_remove_world in
  let deleted := client_delete_container demo_client demo_cid (from_secs 10) created.2 in
  created.1 = Ok demo_cid /\ deleted.1 = Ok tt /\
  is_Some (d_snaps (ext deleted.2 : Demo) !! layer_key demo_id).
Proof. vm_compute. split_and!; eauto. Qed.

Definition creation_of (id : string) : Creation :=
  mkCreation demo_client (mkContainerId id) "db" "mongo" demo_host_opts.

(** Both check, then both create. *)
Definition overlapped := creations [0; 1; 0; 1]
  ((fun c => (c, Checking)) <$> [creation_of "a"; creation_of "b"]) pulled_world.

Lemma overlapping_creations_share_name_witness :
  names_of overlapped.2 = [("default", Some "db"); ("default", Some "db")] /\
  ~ names_unique overlapped.2.
Proof.
  split; [vm_compute; reflexivity|].
  assert (H : overlapped.1 = [(creation_of "a", Over (Ok (mkContainerId "a")));
                              (creation_of "b", Over (Ok (mkContainerId "b")))])
    by (vm_compute; reflexivity).
  refine (proj2 (proj2 (proj2 (overlapping_creations_share_name
    [creation_of "a"; creation_of "b"] [0; 1; 0; 1] pulled_world _ overlapped.2 0 1
    (creation_of "a") (creation_of "b") (mkContainerId "a") (mkContainerId "b")
    (run_eq _ _ _ H) _ eq_refl eq_refl eq_refl eq_refl)))).
  discriminate.
Defined.
