(* ===== verification/StartDelete.v ===== *)
(** * Starting and deleting a container at the same time
    ([src/client.rs], [start_container] and [delete_container])

    The methods of the client go through several awaits.  The start runs the
    task, puts the tailer into the client's map and waits for the tailer it
    replaced to drain; the deletion removes the container, takes its forwards
    out of the client's list and stops one after the other, takes the tailer out
    of the map and waits for it to drain.  Cut there and interleaved, they may
    leave the tailer of a container that is gone.  ([task::start_container] and
    [task::delete_container], which touch neither the list nor the map, are one
    step each.) *)

From S2P Require Import Prelude RustText RustFmt Errors Effects FileSystem LogFiles Identifier World DemoDaemon Loops Bridge ContainerSpec Inspect ClientState Task Create ClientApi Layers Clone Snapshot Footprint Registry Names.

(** Where a start is: to start the task, to start the tailer, waiting for the
    replaced tailer, or over; where a deletion is: to delete the container, to
    take the forwards, to stop the forwards taken, to take the tailer, waiting
    for it, or over. *)
Inductive Progress : Type :=
| SBegin | STailer (t : TaskId) | SDrain (old : LogTailerHandle) (t : TaskId)
| SEnd (r : Result TaskId)
| DBegin | DForwards (r : Result unit) | DStopping (hs : list PortForwardHandle) (r : Result unit)
| DTailer (r : Result unit) | DDrain (t : LogTailerHandle) (r : Result unit)
| DEnd (r : Result unit).

Section race.
Context {E : Env} {L : Libs} {Meta : Type}.
Context (client : Client) (id : ContainerId) (timeout : Duration).
Abbreviation M := (ST (World Meta)).
Abbreviation key := (ns_key client (as_str id)).

Definition client_step (_ : unit) (p : Progress) : M Progress :=
  match p with
  | SBegin =>
      r ← start_container client (as_str id);
      mret (match r with Ok t => STailer t | Err e => SEnd (Err e) end)
  | STailer t =>
      r ← log_tailer_start (as_str id);
      match r with
      | Err e => mret (SEnd (Err e))
      | Ok tailer =>
          w ← get_st;
          _ ← modify_st (fun w => set_tailers (<[key := tailer]> (managed_tailers w)) w);
          mret (match managed_tailers w !! key with
                | Some old => SDrain old t | None => SEnd (Ok t) end)
      end
  | SDrain old t => _ ← log_tailer_stop old; mret (SEnd (Ok t))
  | DBegin => r ← delete_container client (as_str id) timeout; mret (DForwards r)
  | DForwards r =>
      w ← get_st;
      _ ← modify_st (set_handles
            (List.filter (fun h => negb (belongs (as_str id) h)) (managed_handles w)));
      mret (DStopping (List.filter (belongs (as_str id)) (managed_handles w)) r)
  | DStopping [] r => mret (DTailer r)
  | DStopping (h :: hs) r => _ ← modify_st (emit (ForwardStopped h)); mret (DStopping hs r)
  | DTailer r =>
      w ← get_st;
      match managed_tailers w !! key with
      | Some tailer =>
          _ ← modify_st (fun w => set_tailers (delete key (managed_tailers w)) w);
          mret (DDrain tailer r)
      | None => mret (DEnd r)
      end
  | DDrain tailer r => _ ← log_tailer_stop tailer; mret (DEnd r)
  | SEnd _ | DEnd _ => mret p
  end.

(** ** The steps of each in a row are the methods *)
Fixpoint row (n : nat) (p : Progress) : M Progress :=
  match n with O => mret p | S n => p ← client_step tt p; row n p end.

Lemma row_over n p w : match p with SEnd _ | DEnd _ => True | _ => False end -> row n p w = (p, w).
Proof. intros Hp. induction n as [|n IH]; [done|]. by destruct p. Qed.

Lemma start_steps_spec w :
  row 3 SBegin w = (r ← client_start_container client id; mret (SEnd r)) w.
Proof.
  unfold client_start_container, start_managed_tailer, try_st, row, client_step, mbind, ST_bind.
  destruct (start_container client (as_str id) w) as [[t|e] w1]; cbn [fst snd mret ST_ret]; [|done].
  destruct (log_tailer_start (as_str id) w1) as [[tl|e] w2]; [|done]. cbn.
  by destruct (managed_tailers w2 !! key).
Qed.

Lemma stopping_steps n hs r w :
  row (n + S (length hs)) (DStopping hs r) w =
  row n (DTailer r) (foldl (fun w h => emit (ForwardStopped h) w) w hs).
Proof.
  revert w. induction hs as [|h hs IH]; intros w; cbn [length].
  - by rewrite Nat.add_comm.
  - rewrite Nat.add_succ_r. cbn [row client_step]. unfold mbind, ST_bind. cbn. apply IH.
Qed.

Lemma tailer_steps n r w :
  row (2 + n) (DTailer r) w = (_ ← stop_managed_tailer client (as_str id); mret (DEnd r)) w.
Proof.
  cbn [row client_step Nat.add]. unfold stop_managed_tailer, mbind, ST_bind, get_st. cbn.
  destruct (managed_tailers w !! key) as [tl|] eqn:Ht; cbn; by rewrite row_over.
Qed.

(** As many steps as the container has forwards, and five. *)
Lemma delete_steps_spec n w :
  length (List.filter (belongs (as_str id)) (managed_handles w)) + 5 <= n ->
  row n DBegin w = (r ← client_delete_container client id timeout; mret (DEnd r)) w.
Proof.
  intros Hn. unfold client_delete_container.
  pose proof (keeps_delete client (as_str id) timeout w) as [_ Hh].
  destruct (delete_container client (as_str id) timeout w) as [r w1] eqn:H1. cbn [snd] in Hh.
  set (hs := List.filter (belongs (as_str id)) (managed_handles w)) in Hn.
  replace n with (S (S ((2 + (n - length hs - 5)) + S (length hs)))) by lia.
  cbn [row client_step]. unfold mbind, ST_bind. rewrite H1. cbn [fst snd mret ST_ret].
  assert (S : client_step tt (DForwards r) w1 = (DStopping hs r, set_handles
    (List.filter (fun h => negb (belongs (as_str id) h)) (managed_handles w1)) w1))
    by (unfold hs; rewrite <-Hh; reflexivity).
  rewrite S. cbn [fst snd]. rewrite stopping_steps, tailer_steps.
  unfold stop_managed_forwards, mbind, ST_bind, get_st. cbn. unfold hs. by rewrite <-Hh.
Qed.

(** A start and a deletion of the container, in the order of a schedule. *)
Definition start_and_delete (sched : list nat) : M (list (unit * Progress)) :=
  interleave client_step sched [(tt, SBegin); (tt, DBegin)].

End race.

(** ** Lemmas *)
Section lemmas.
Context {E : Env} {L : Libs} {RG : Registry E} {Meta : Type}.
Context (client : Client) (id : ContainerId) (timeout : Duration).
Abbreviation W := (World Meta).
Abbreviation step := (client_step client id timeout).
Abbreviation key := (ns_key client (as_str id)).
Implicit Types (w : W) (jobs : list (unit * Progress)).

Definition starts (p : Progress) : Prop :=
  match p with SBegin | STailer _ | SDrain _ _ | SEnd _ => True | _ => False end.

(** The start has put its tailer into the map. *)
Definition inserted (p : Progress) : bool :=
  match p with SDrain _ _ | SEnd (Ok _) => true | _ => false end.

(** The deletion has taken the tailer out, or found none. *)
Definition removed (p : Progress) : bool :=
  match p with DDrain _ _ | DEnd _ => true | _ => false end.

(** The container was deleted, says the deletion. *)
Definition deleted (p : Progress) : Prop :=
  match p with
  | DForwards (Ok _) | DStopping _ (Ok _) | DTailer (Ok _) | DDrain _ (Ok _) | DEnd (Ok _) => True
  | _ => False
  end.

Definition no_record w : Prop := records_of client w !! as_str id = None.

Lemma kept_start i : pres (same_records (Meta := Meta)) (start_container client i).
Proof. unfold start_container, get_container, record_task_start. kept. Qed.

Lemma kept_tailer i : pres (same_records (Meta := Meta)) (start_managed_tailer client i).
Proof.
  unfold start_managed_tailer, log_tailer_start, log_tailer_stop. kept.
  intros w. by repeat case_match.
Qed.

(** Only the deletion's first step touches the records. *)
Lemma step_keeps_records u p w : p <> DBegin -> same_records w (step u p w).2.
Proof.
  revert w. enough (H : p <> DBegin -> pres same_records (step u p)) by (intros w Hp; by apply H).
  intros Hp. pose proof kept_start.
  destruct p as [| | | | | |[|h hs] r| | |]; try done; cbn [client_step];
    unfold log_tailer_start, log_tailer_stop; kept.
  intros w. by repeat case_match.
Qed.

Lemma deleted_no_record t w w' :
  delete_container client (as_str id) t w = (Ok tt, w') -> no_record w'.
Proof.
  unfold delete_container. cbv zeta. intros (? & ? & _ & H)%bind_inv.
  apply bind_inv in H as (? & ? & _ & H). apply try_ok_inv in H as (? & ? & _ & H).
  apply bind_inv in H as (? & ? & _ & H). apply try_ok_inv in H as (? & ? & _ & H).
  apply bind_inv in H as (? & ? & _ & H). apply bind_inv in H as (? & ? & _ & H).
  apply try_ok_inv in H as ([] & w8 & H8 & [_ <-]%ret_inv).
  apply (poll_until_ok _ _ _ _ _ _ _ _ H8). intros w1 w2. apply phase_gone_record.
Qed.

(** A step of one of the two. *)
Lemma step_starts u s w : starts s -> starts (step u s w).1.
Proof.
  destruct s; try done; intros _; cbn [client_step]; unfold mbind, ST_bind; cbn;
    by repeat (case_match; cbn).
Qed.

Lemma step_deletes u d w : ~ starts d -> ~ starts (step u d w).1.
Proof.
  destruct d as [| | | | | |[|h hs] r| | |]; cbn [client_step starts]; unfold mbind, ST_bind; cbn;
    try tauto; by repeat (case_match; cbn).
Qed.

(** What an insertion and a removal do; no other step touches the tailers. *)
Lemma step_inserts u s w :
  starts s ->
  (inserted s = true -> inserted (step u s w).1 = true) /\
  (inserted (step u s w).1 = inserted s ->
     managed_tailers (step u s w).2 = managed_tailers w) /\
  (inserted s = false -> inserted (step u s w).1 = true ->
     is_Some (managed_tailers (step u s w).2 !! key)).
Proof.
  intros Hs. destruct s as [|t|old t|r| | | | | |]; try done; cbn [client_step].
  - pose proof (keeps_start client (as_str id) w) as [Ht _]. unfold mbind, ST_bind. cbn.
    destruct (start_container client (as_str id) w) as [[t|e] w1]; cbn in *; by split_and!.
  - unfold mbind, ST_bind, log_tailer_start. cbn.
    destruct (log_paths_for _ _) as [[o er]|e]; cbn; [|by split_and!].
    destruct (events_path_for _ _) as [ev|e]; cbn; [|by split_and!].
    split_and!; [done| |].
    + destruct (managed_tailers w !! key); cbn; discriminate.
    + intros _ _. rewrite lookup_insert_eq. eauto.
  - cbn. split_and!; [done|done|congruence].
Qed.

Lemma step_removes u d w :
  ~ starts d ->
  (removed d = true -> removed (step u d w).1 = true) /\
  (removed (step u d w).1 = removed d ->
     managed_tailers (step u d w).2 = managed_tailers w) /\
  (removed d = false -> removed (step u d w).1 = true ->
     managed_tailers (step u d w).2 !! key = None).
Proof.
  intros Hs. destruct d as [| | | | |r|[|h hs] r|r|tl r|r]; try (by destruct Hs); cbn [client_step].
  - pose proof (keeps_delete client (as_str id) timeout w) as [Ht _]. unfold mbind, ST_bind. cbn.
    destruct (delete_container client (as_str id) timeout w) as [r w1]; cbn in *; by split_and!.
  - by split_and!.
  - by split_and!.
  - by split_and!.
  - unfold mbind, ST_bind, get_st. cbn.
    destruct (managed_tailers w !! key) eqn:Ht; cbn; split_and!; try done.
    intros _ _. apply lookup_delete_eq.
  - by split_and!.
  - by split_and!.
Qed.

(** ** Invariants *)

(** The first job starts, the second deletes, and a deleted container has no
    record; [Q] says more. *)
Definition pair_inv (Q : Progress -> Progress -> W -> Prop) w jobs : Prop :=
  exists s d, jobs = [(tt, s); (tt, d)] /\ starts s /\ ~ starts d /\
    (deleted d -> no_record w) /\ Q s d w.

Lemma deleted_step d w :
  ~ starts d -> (deleted d -> no_record w) -> deleted (step tt d w).1 -> no_record (step tt d w).2.
Proof.
  intros Hs Hr Hd. assert (d = DBegin \/ d <> DBegin) as [->|Hn] by (destruct d; auto; by right).
  - cbn [client_step] in *. unfold mbind, ST_bind in *. cbn in *.
    destruct (delete_container client (as_str id) timeout w) as [[[]|e] w1] eqn:H1; [|done].
    by eapply deleted_no_record.
  - unfold no_record, records_of. rewrite (step_keeps_records tt d w Hn). apply Hr. revert Hd.
    destruct d as [| | | | |r|[|h hs] r|r|tl r|r]; try done; try (by destruct Hs);
      cbn [client_step]; unfold mbind, ST_bind; cbn; by repeat (case_match; cbn).
Qed.

Lemma pair_step (Q : Progress -> Progress -> W -> Prop) :
  (forall s d w, starts s -> Q s d w -> Q (step tt s w).1 d (step tt s w).2) ->
  (forall s d w, ~ starts d -> Q s d w -> Q s (step tt d w).1 (step tt d w).2) ->
  forall w jobs i u p, pair_inv Q w jobs -> jobs !! i = Some (u, p) ->
  pair_inv Q (step u p w).2 (<[i := (u, (step u p w).1)]> jobs).
Proof.
  intros Q1 Q2 w jobs i u p (s & d & -> & Hs & Hd & Hr & Hq) Hi.
  destruct i as [|[|i]]; cbn in Hi; [| |done]; injection Hi as <- <-.
  - exists (step tt s w).1, d. split_and!; [done|by apply step_starts|done| |by apply Q1].
    intros Hdd. unfold no_record, records_of.
    rewrite (step_keeps_records tt s w) by (by intros ->). by apply Hr.
  - exists s, (step tt d w).1.
    split_and!; [done|done|by apply step_deletes|by apply deleted_step|by apply Q2].
Qed.

(** After the removal only an insertion changes what is under the key ... *)
Definition removed_first (s d : Progress) w : Prop :=
  removed d = true /\ (inserted s = true -> is_Some (managed_tailers w !! key)).

(** ... and after the insertion only a removal. *)
Definition inserted_first (s d : Progress) w : Prop :=
  inserted s = true /\ (removed d = true -> managed_tailers w !! key = None).

Lemma removed_first_step w jobs i u p :
  pair_inv removed_first w jobs -> jobs !! i = Some (u, p) ->
  pair_inv removed_first (step u p w).2 (<[i := (u, (step u p w).1)]> jobs).
Proof.
  apply pair_step; intros s d w0 Hx [Hd Hs].
  - destruct (step_inserts tt s w0 Hx) as (_ & Hk & Hn). split; [done|]. intros Hi.
    destruct (inserted s); [rewrite Hk by done; auto|auto].
  - destruct (step_removes tt d w0 Hx) as (Hm & Hk & _). specialize (Hm Hd).
    split; [done|]. intros Hi. rewrite Hk by congruence. auto.
Qed.

Lemma inserted_first_step w jobs i u p :
  pair_inv inserted_first w jobs -> jobs !! i = Some (u, p) ->
  pair_inv inserted_first (step u p w).2 (<[i := (u, (step u p w).1)]> jobs).
Proof.
  apply pair_step; intros s d w0 Hx [Hs Hd].
  - destruct (step_inserts tt s w0 Hx) as (Hm & Hk & _). specialize (Hm Hs).
    split; [done|]. intros Hi. rewrite Hk by congruence. auto.
  - destruct (step_removes tt d w0 Hx) as (_ & Hk & Hn). split; [done|]. intros Hi.
    destruct (removed d); [rewrite Hk by done; auto|auto].
Qed.

Abbreviation run := (interleave step).
Definition trivially (s d : Progress) w : Prop := True.

Lemma trivial_run sched w jobs :
  pair_inv trivially w jobs -> pair_inv trivially (run sched jobs w).2 (run sched jobs w).1.
Proof. apply interleave_inv. by apply pair_step. Qed.

(** One of the two comes first. *)
Lemma one_comes_first sched s d w s' d' w' :
  starts s -> ~ starts d -> inserted s = false -> removed d = false ->
  run sched [(tt, s); (tt, d)] w = ([(tt, s'); (tt, d')], w') -> inserted s' = true ->
  exists s1 s2 s0 d0, sched = s1 ++ s2 /\
    (run s1 [(tt, s); (tt, d)] w).1 = [(tt, s0); (tt, d0)] /\ inserted s0 = negb (removed d0).
Proof.
  revert s d w. induction sched as [|i sched IH]; intros s d w Hs Hd Is Rd H He.
  { apply ret_inv in H as [[= -> ->] _]. congruence. }
  assert (G : forall s1 d1 w1, (forall l, run (i :: l) [(tt, s); (tt, d)] w =
        run l [(tt, s1); (tt, d1)] w1) -> starts s1 -> ~ starts d1 ->
      inserted s1 = false \/ removed d1 = false ->
      exists sa sb s0 d0, i :: sched = sa ++ sb /\
        (run sa [(tt, s); (tt, d)] w).1 = [(tt, s0); (tt, d0)] /\ inserted s0 = negb (removed d0)).
  { intros s1 d1 w1 Hrun Hs1 Hd1 Hor.
    destruct (decide (inserted s1 = negb (removed d1))) as [Hx|Hx].
    { exists [i], sched, s1, d1. rewrite (Hrun []). done. }
    destruct (IH s1 d1 w1 Hs1 Hd1) as (sa & sb & s0 & d0 & -> & Ha & Hb);
      [clear -Hor Hx; destruct (inserted s1), (removed d1); cbn in Hx; tauto || by destruct Hor..| |done|].
    { by rewrite <-Hrun. }
    exists (i :: sa), sb, s0, d0. by rewrite Hrun. }
  destruct i as [|[|i]].
  - apply (G (step tt s w).1 d (step tt s w).2); [done|by apply step_starts|done|by right].
  - apply (G s (step tt d w).1 (step tt d w).2); [done|done|by apply step_deletes|by left].
  - by apply (G s d w); auto.
Qed.

End lemmas.

(** * Property *)

(** C39. A start and a deletion of the same container that both succeed, in any
    interleaving of their steps: the container is gone, and whether its tailer
    keeps running on the client depends only on which of the two changed the
    client's map first.  One of them did; if the deletion took the tailer out
    before the start put the new one in, the new one is still there, for a
    container that no longer exists, whoever of the two finishes last; if the
    start put it in first, there is none. *)
Theorem late_start_leaves_tailer {E : Env} {L : Libs} {RG : Registry E} {Meta} client id timeout
    sched (w : World Meta) t w' :
  start_and_delete client id timeout sched w = ([(tt, SEnd (Ok t)); (tt, DEnd (Ok tt))], w') ->
  let first s1 s2 s d := sched = s1 ++ s2 /\
    (start_and_delete client id timeout s1 w).1 = [(tt, s); (tt, d)] /\
    inserted s = negb (removed d) in
  records_of client w' !! as_str id = None /\
  (exists s1 s2 s d, first s1 s2 s d) /\
  forall s1 s2 s d, first s1 s2 s d ->
    (is_Some (managed_tailers w' !! ns_key client (as_str id)) <-> removed d = true).
Proof.
  intros H first. unfold start_and_delete in *.
  assert (I0 : pair_inv client id trivially w [(tt, SBegin); (tt, DBegin)]).
  { exists SBegin, DBegin. by split_and!; [| |intros []|intros []|]. }
  split_and!.
  - pose proof (trivial_run client id timeout sched w _ I0) as I. rewrite H in I.
    destruct I as (? & ? & [= <- <-] & _ & _ & I & _). by apply I.
  - eapply (one_comes_first client id timeout sched SBegin DBegin w); by try exact H; try intros [].
  - intros s1 s2 s d (-> & H1 & Hx).
    pose proof (trivial_run client id timeout s1 w _ I0) as I.
    rewrite interleave_app in H. apply bind_inv in H as (jobs & w1 & Hr & H).
    rewrite Hr in H1, I. cbn [fst snd] in *. subst jobs.
    destruct I as (? & ? & [= <- <-] & Hs & Hd & Hn & _). destruct (removed d) eqn:Rd.
    + pose proof (interleave_inv (client_step client id timeout)
        (pair_inv client id (removed_first client id)) (removed_first_step client id timeout)
        s2 w1 [(tt, s); (tt, d)]) as I. rewrite H in I.
      destruct I as (? & ? & [= <- <-] & _ & _ & _ & _ & I).
      { exists s, d. split_and!; [done..|]. split; [done|]. intros Hi. by rewrite Hi in Hx. }
      split; [done|]. intros _. by apply I.
    + pose proof (interleave_inv (client_step client id timeout)
        (pair_inv client id (inserted_first client id)) (inserted_first_step client id timeout)
        s2 w1 [(tt, s); (tt, d)]) as I. rewrite H in I.
      destruct I as (? & ? & [= <- <-] & _ & _ & _ & _ & I).
      { exists s, d. split_and!; [done..|]. split; [done|]. congruence. }
      split; [|done]. cbn [snd] in I. rewrite I by done. by intros [? ?].
Qed.

(** ** Witness

    The daemon has the created container "c"; the task starts, the container
    is deleted altogether, then the start goes on. *)
Definition created_world : DemoWorld :=
  (create_container_with_id demo_client demo_cid "db" "mongo" demo_host_opts pulled_world).2.

Abbreviation demo_run := (start_and_delete demo_client demo_cid (from_secs 10)).

Lemma late_start_leaves_tailer_witness :
  let w' := (demo_run [0; 1; 1; 1; 1; 0] created_world).2 in
  records_of demo_client w' !! demo_id = None /\
  is_Some (managed_tailers w' !! ns_key demo_client demo_id).
Proof.
  cbv zeta.
  assert (H : (demo_run [0; 1; 1; 1; 1; 0] created_world).1 =
    [(tt, SEnd (Ok (mkTaskId demo_id 1))); (tt, DEnd (Ok tt))]) by (vm_compute; reflexivity).
  destruct (late_start_leaves_tailer demo_client demo_cid (from_secs 10) [0; 1; 1; 1; 1; 0]
    created_world (mkTaskId demo_id 1) _ (run_eq _ _ _ H)) as (H1 & _ & H2).
  split; [exact H1|].
  apply (H2 [0; 1; 1; 1; 1] [0] (STailer (mkTaskId demo_id 1)) (DEnd (Ok tt))); [|reflexivity].
  split; [reflexivity|]. split; [vm_compute; reflexivity|reflexivity].
Defined.

(** A tailer of an earlier start is still there, and the deletion is waiting
    for it when the start puts in its own: the deletion finishes last and the
    tailer stays all the same. *)
Example deletion_finishes_last :
  let w := set_tailers {[ ns_key demo_client demo_id := mkLogTailerHandle ["o"] ["e"] ["v"] ]}
             created_world in
  (demo_run [0; 1; 1; 1; 1; 0] w).1 =
    [(tt, SEnd (Ok (mkTaskId demo_id 1))); (tt, DDrain (mkLogTailerHandle ["o"] ["e"] ["v"]) (Ok tt))] /\
  (demo_run [0; 1; 1; 1; 1; 0; 1] w).1 =
    [(tt, SEnd (Ok (mkTaskId demo_id 1))); (tt, DEnd (Ok tt))] /\
  is_Some (managed_tailers (demo_run [0; 1; 1; 1; 1; 0; 1] w).2 !! ns_key demo_client demo_id).
Proof. vm_compute. split_and!; eauto. Qed.
