(* ===== verification/Lifecycle.v ===== *)
(** * The life of a task, and what the task operations promise

    Class [TaskService] is what [src/task.rs] relies on of containerd: a task
    is absent, created, running, paused or stopped; requests move it along
    these states; a living task may exit by itself at any time, and nobody
    else touches the container meanwhile.  [post] is the abstract
    specification of each operation over these states, for success and for
    failure, and the theorem shows that the operations of file Task refine it.
    The demonstration daemon is an instance of the class. *)

From S2P Require Import Prelude RustText RustFmt Errors Effects FileSystem LogFiles Identifier World DemoDaemon Loops Bridge ContainerSpec Inspect ClientState Task.

(** ** States *)
Inductive Life : Type := LAbsent | LCreated | LRunning | LPaused | LStopped (code : N).

(** The task, and whether the container has a record. *)
Record Cond : Type := mkCond { life : Life; recorded : bool }.

Definition alive (l : Life) : bool :=
  match l with LCreated | LRunning | LPaused => true | LAbsent | LStopped _ => false end.

(** What may happen by itself, or by a signal. *)
Inductive drift : Cond -> Cond -> Prop :=
| drift_same c : drift c c
| drift_exit l code rec : alive l = true -> drift (mkCond l rec) (mkCond (LStopped code) rec).

#[export] Instance drift_refl : Reflexive drift.
Proof. exact drift_same. Qed.
#[export] Instance drift_trans : Transitive drift.
Proof. intros c1 c2 c3 H1 H2. destruct H1; [done|]. by inversion H2; subst; [constructor|]. Qed.

Lemma drift_recorded c c' : drift c c' -> recorded c' = recorded c.
Proof. by intros []. Qed.

(** A state that is only there before an exit. *)
Lemma drift_to c l c' : drift c c' -> life c' = l -> alive l = true -> c = c'.
Proof. intros [] <-; done. Qed.
Lemma drift_to_absent c c' : drift c c' -> life c' = LAbsent -> c = c'.
Proof. by intros []. Qed.
Lemma drift_absent c c' : drift c c' -> life c = LAbsent -> c' = c.
Proof. by intros [|[]]. Qed.
Lemma drift_stopped c c' code : drift c c' -> life c = LStopped code -> c' = c.
Proof. by intros [|[]]. Qed.

(** What deleting may do to a task. *)
Definition decay (l l' : Life) : Prop :=
  l' = l \/ l' = LAbsent \/ (alive l = true /\ exists code, l' = LStopped code).

#[export] Instance decay_refl : Reflexive decay.
Proof. by left. Qed.
#[export] Instance decay_trans : Transitive decay.
Proof.
  intros l1 l2 l3 [->|[->|(H & c & ->)]]; [done| |].
  - intros [->|[->|[? _]]]; [by right; left..|done].
  - intros [->|[->|[? _]]]; [right; right; eauto|by right; left|done].
Qed.

Lemma drift_decay c c' : drift c c' -> decay (life c) (life c').
Proof. intros [c1|l code rec H]; [by left|]. right; right. eauto. Qed.

Lemma decay_absent l : decay LAbsent l -> l = LAbsent.
Proof. by intros [->|[->|[? _]]]. Qed.

(** What a status query shows of a task ([types::v1::Status]). *)
Definition sees (l : Life) (p : Process) : Prop :=
  match l with
  | LAbsent => False
  | LCreated => p_status p = ST_CREATED
  | LRunning => p_status p = ST_RUNNING
  | LPaused => p_status p <> ST_CREATED /\ p_status p <> ST_RUNNING /\ p_status p <> ST_STOPPED
  | LStopped code => p_status p = ST_STOPPED /\ p_exit_status p = code
  end.

(** ** The service *)
Definition moves (id : string) (r : Req) : bool :=
  match r with
  | CreateTask t => String.eqb (ct_container_id t) id
  | StartTask i x => String.eqb i id && String.eqb x ""
  | DeleteTask i | PauseTask i | ResumeTask i | DeleteContainer i => String.eqb i id
  | CreateContainer (Some c) => String.eqb (c_id c) id
  | _ => false
  end.

Class TaskService (E : Env) : Type := mkTaskService {
  cond : string -> string -> Ext -> Cond;
  drift_req : forall ns id r e, moves id r = false ->
    drift (cond ns id e) (cond ns id (handle ns r e).2);
  drift_overshoot : forall ns id d e, drift (cond ns id e) (cond ns id (overshoot d e).2);
  on_create_task : forall ns t e, let id := ct_container_id t in
    match handle ns (CreateTask t) e with
    | (Ok _, _, e') => life (cond ns id e) = LAbsent /\
        drift (mkCond LCreated (recorded (cond ns id e))) (cond ns id e')
    | (Err _, _, e') => drift (cond ns id e) (cond ns id e')
    end;
  on_start_task : forall ns id e,
    match handle ns (StartTask id "") e with
    | (Ok _, _, e') => life (cond ns id e) = LCreated /\
        drift (mkCond LRunning (recorded (cond ns id e))) (cond ns id e')
    | (Err _, _, e') => drift (cond ns id e) (cond ns id e')
    end;
  on_delete_task : forall ns id e,
    match handle ns (DeleteTask id) e with
    | (Ok _, _, e') => cond ns id e' = mkCond LAbsent (recorded (cond ns id e))
    | (Err s, _, e') => drift (cond ns id e) (cond ns id e') /\
        (code s = NotFound -> life (cond ns id e') = LAbsent)
    end;
  on_pause_task : forall ns id e,
    match handle ns (PauseTask id) e with
    | (Ok _, _, e') => life (cond ns id e) = LRunning /\
        drift (mkCond LPaused (recorded (cond ns id e))) (cond ns id e')
    | (Err _, _, e') => drift (cond ns id e) (cond ns id e')
    end;
  on_resume_task : forall ns id e,
    match handle ns (ResumeTask id) e with
    | (Ok _, _, e') => life (cond ns id e) = LPaused /\
        drift (mkCond LRunning (recorded (cond ns id e))) (cond ns id e')
    | (Err _, _, e') => drift (cond ns id e) (cond ns id e')
    end;
  on_get_task : forall ns id e,
    match handle ns (GetTask id "") e with
    | (Ok (Some p), _, e') => sees (life (cond ns id e')) p
    | (Ok None, _, e') => life (cond ns id e') = LAbsent
    | (Err s, _, e') => code s = NotFound -> life (cond ns id e') = LAbsent
    end;
  on_get_container : forall ns id e,
    match handle ns (GetContainer id) e with
    | (Ok (Some c), _, e') => c_id c = id
    | (Ok None, _, e') => recorded (cond ns id e') = false
    | (Err s, _, e') => code s = NotFound -> recorded (cond ns id e') = false
    end;
  on_delete_container : forall ns id e,
    match handle ns (DeleteContainer id) e with
    | (Ok _, _, e') => drift (mkCond (life (cond ns id e)) false) (cond ns id e')
    | (Err s, _, e') => drift (cond ns id e) (cond ns id e')
    end
}.

(** A status query only fails for a task that is not there. *)
Definition honest {E : Env} (ns id : string) : Prop := forall e,
  match handle ns (GetTask id "") e with (Err s, _, _) => code s = NotFound | _ => True end.

(** ** The abstract specification *)
Inductive Op : Type :=
| OpStart
| OpStop (timeout : Duration)
| OpDelete (timeout : Duration)
| OpPause
| OpUnpause
| OpWaitForExit (timeout : Duration).

(** Not running: gone, paused or stopped. *)
Definition settled (c : Cond) : Prop :=
  recorded c = false \/ match life c with LCreated | LRunning => False | _ => True end.

Definition post (op : Op) (r : Result (option Z)) (c c' : Cond) : Prop :=
  match op, r with
  | OpStart, Ok _ => life c = LAbsent /\ drift (mkCond LRunning (recorded c)) c'
  | OpStart, Err _ =>
      drift c c' \/ (life c = LAbsent /\ drift (mkCond LCreated (recorded c)) c')
  | OpStop _, Ok _ => drift c c' /\ settled c'
  | OpDelete _, Ok _ => c' = mkCond LAbsent false
  | OpDelete _, Err _ => decay (life c) (life c') /\
      (recorded c' = recorded c \/ life c' = LAbsent /\ recorded c' = false)
  | OpPause, Ok _ => life c = LRunning /\ drift (mkCond LPaused (recorded c)) c'
  | OpUnpause, Ok _ => life c = LPaused /\ drift (mkCond LRunning (recorded c)) c'
  | OpWaitForExit _, Ok z => drift c c' /\
      exists code, life c' = LStopped code /\ z = Some (i32_saturating code)
  | _, Err _ => drift c c'
  end.

(** ** The operations *)
Section ops.
Context {E : Env} {L : Libs} {Meta : Type}.
Abbreviation M := (ST (World Meta)).

Definition no_value {A} (m : M (Result A)) : M (Result (option Z)) :=
  m ;;? mret (Ok None).

Definition run_op (client : Client) (id : string) (op : Op) : M (Result (option Z)) :=
  match op with
  | OpStart => no_value (start_container client id)
  | OpStop timeout => no_value (stop_container client id timeout)
  | OpDelete timeout => no_value (delete_container client id timeout)
  | OpPause => no_value (pause_container client id)
  | OpUnpause => no_value (unpause_container client id)
  | OpWaitForExit timeout => z ←? wait_for_exit client id timeout; mret (Ok (Some z))
  end.

End ops.

(** * Lemmas *)
Section drifting.
Context {E : Env} {L : Libs} {TS : TaskService E} {Meta : Type} (client : Client) (id : string).
Abbreviation W := (World Meta).
Implicit Types (w : W).

Definition cond_of w : Cond := cond (namespace client) id (ext w).

Definition drifts w w' : Prop := drift (cond_of w) (cond_of w').

#[export] Instance drifts_refl : Reflexive drifts.
Proof. intros w. apply drift_same. Qed.
#[export] Instance drifts_trans : Transitive drifts.
Proof. intros w1 w2 w3 H1 H2. unfold drifts in *. by etransitivity. Qed.

Lemma drifts_rpc r : moves id r = false -> pres drifts (rpc client r).
Proof.
  intros Hr w. pose proof (drift_req (namespace client) id r (ext w) Hr) as H.
  unfold rpc, drifts, cond_of. destruct (handle _ _ _) as [[a d] e]. exact H.
Qed.

Lemma drifts_sleep d : pres drifts (sleep d).
Proof.
  intros w. pose proof (drift_overshoot (namespace client) id d (ext w)) as H.
  unfold sleep, drifts, cond_of. destruct (overshoot _ _). exact H.
Qed.

End drifting.

Ltac drift_step :=
  idtac; match goal with
  | |- pres _ (rpc ?c ?r) => exact (drifts_rpc _ _ r eq_refl)
  | |- pres _ (sleep _) => apply drifts_sleep
  end.
Ltac drifting := walk drift_step.

Section service.
Context {E : Env} {L : Libs} {TS : TaskService E} {Meta : Type} (client : Client) (id : string).
Abbreviation W := (World Meta).
Abbreviation P := (pres (drifts (Meta := Meta) client id)).
Abbreviation cond_of := (cond_of (Meta := Meta) client id).
Implicit Types (w : W).

Lemma drifts_get_container i : P (get_container client i).
Proof. unfold get_container. drifting. Qed.
Lemma drifts_task_info i : P (get_task_info client i).
Proof. unfold get_task_info. drifting. Qed.
Lemma drifts_inspect i : P (inspect_container client i).
Proof.
  pose proof drifts_get_container. pose proof drifts_task_info. unfold inspect_container. drifting.
Qed.
Lemma drifts_stop i t : P (stop_container client i t).
Proof.
  pose proof drifts_inspect. pose proof drifts_task_info.
  unfold stop_container, stop_task, kill_task, wait_for_task_stop, is_task_running,
    task_has_stopped. drifting.
Qed.
Lemma drifts_wait_for_exit i t : P (wait_for_exit client i t).
Proof. pose proof drifts_inspect. unfold wait_for_exit, wait_round. drifting. Qed.

(** What the queries tell. *)
Lemma task_info_tells w t w' :
  get_task_info client id w = (Some t, w') ->
  exists p, t = process_info i32_saturating p /\ sees (life (cond_of w')) p.
Proof.
  unfold get_task_info, rpc, mbind, ST_bind, Lifecycle.cond_of.
  pose proof (on_get_task (namespace client) id (ext w)) as H.
  destruct (handle _ _ _) as [[[[p|]|s] d] e]; cbn in *; intros [= <- <-]. by exists p.
Qed.

Lemma no_task_info_tells w w' :
  honest (namespace client) id -> get_task_info client id w = (None, w') ->
  life (cond_of w') = LAbsent.
Proof.
  intros Hh. unfold get_task_info, rpc, mbind, ST_bind, Lifecycle.cond_of.
  pose proof (on_get_task (namespace client) id (ext w)) as H. specialize (Hh (ext w)).
  destruct (handle _ _ _) as [[[[p|]|s] d] e]; cbn in *; intros [= <-]; auto.
Qed.

Lemma status_stopped p l : sees l p -> task_status_from (p_status p) = Stopped ->
  exists code, l = LStopped code /\ p_exit_status p = code.
Proof.
  unfold task_status_from, sees, ST_CREATED, ST_RUNNING, ST_STOPPED.
  destruct (p_status p =? 2)%Z eqn:E2; [done|]. destruct (p_status p =? 3)%Z eqn:E3.
  - apply Z.eqb_eq in E3. intros H _. destruct l; [done|lia|lia|lia|]. destruct H. eauto.
  - by repeat case_match.
Qed.

Lemma status_running p l : sees l p -> task_status_from (p_status p) <> Running ->
  match l with LCreated | LRunning => False | _ => True end.
Proof.
  unfold sees, ST_CREATED, ST_RUNNING. destruct l; try done; intros ->; by cbn.
Qed.

Lemma get_container_tells w r w' :
  get_container client id w = (r, w') ->
  match r with
  | Ok c => c_id c = id
  | Err (ContainerNotFound _) => recorded (cond_of w') = false
  | Err _ => True
  end.
Proof.
  unfold get_container. intros (x & w1 & H1 & [<- <-]%ret_inv)%bind_inv.
  unfold rpc, Lifecycle.cond_of in *.
  pose proof (on_get_container (namespace client) id (ext w)) as Hg.
  destruct (handle _ _ _) as [[[[c1|]|s] d] e]; injection H1 as <- <-; cbn in *; [done..|].
  unfold into_crate_error. destruct (decide (code s = NotFound)) as [Hs|Hs]; cbn; auto.
Qed.

(** The two answers of an inspection that matter. *)
Lemma inspect_tells w r w' :
  inspect_container client id w = (r, w') ->
  match r with
  | Ok info =>
      match ci_task info with
      | Some t => exists p, t = process_info i32_saturating p /\ sees (life (cond_of w')) p
      | None => honest (namespace client) id -> life (cond_of w') = LAbsent
      end
  | Err (ContainerNotFound _) => recorded (cond_of w') = false
  | Err _ => True
  end.
Proof.
  unfold inspect_container. intros [(c & w1 & H1 & H)|(e & H1 & ->)]%try_inv;
    apply get_container_tells in H1; [|done].
  apply bind_inv in H as (t & w2 & H2 & [<- <-]%ret_inv). rewrite H1 in H2.
  destruct (container_to_info_cases c t) as [(info & -> & ->)|(m & ->)]; [|done].
  destruct t as [t|]; [by apply task_info_tells in H2|]. intros Hh. by eapply no_task_info_tells.
Qed.

(** ** Stopping and waiting *)
Lemma task_stopped_tells w w' :
  honest (namespace client) id -> task_has_stopped client id w = (true, w') -> settled (cond_of w').
Proof.
  intros Hh. unfold task_has_stopped. intros (r & w1 & H1 & [Hr ->]%ret_inv)%bind_inv.
  apply inspect_tells in H1. unfold settled. destruct r as [info|e].
  - right. destruct (ci_task info) as [t|]; [|by rewrite H1].
    destruct H1 as (p & -> & Hp). cbn in Hr. apply bool_decide_eq_true in Hr.
    eapply status_running; [exact Hp|]. by rewrite Hr.
  - left. by destruct e.
Qed.

Lemma is_running_tells w w' :
  honest (namespace client) id -> is_task_running client id w = (false, w') -> settled (cond_of w').
Proof.
  intros Hh. unfold is_task_running. intros (t & w1 & H1 & [Hr ->]%ret_inv)%bind_inv.
  right. destruct t as [t|].
  - apply task_info_tells in H1 as (p & -> & Hp).
    apply bool_decide_eq_false in Hr. by eapply status_running.
  - by rewrite (no_task_info_tells _ _ Hh H1).
Qed.

Lemma stop_settles t w w' :
  honest (namespace client) id -> stop_container client id t w = (Ok tt, w') -> settled (cond_of w').
Proof.
  intros Hh. unfold stop_container. cbv zeta. intros (? & w1 & _ & H)%bind_inv.
  apply bind_inv in H as (? & w2 & _ & H). apply bind_inv in H as (b & w3 & H3 & H).
  destruct b; [|apply ret_inv in H as [_ ->]; by eapply is_running_tells].
  apply bind_inv in H as (? & w4 & _ & H). apply try_ok_inv in H as ([] & w5 & H5 & [_ <-]%ret_inv).
  unfold wait_for_task_stop in H5. apply bind_inv in H5 as (t0 & w6 & _ & H5).
  apply (poll_until_ok _ _ _ _ _ _ _ (fun w => settled (cond_of w)) H5).
  intros wa wb. by apply task_stopped_tells.
Qed.

Lemma wait_for_exit_tells t w z w' :
  wait_for_exit client id t w = (Ok z, w') ->
  exists code, life (cond_of w') = LStopped code /\ z = i32_saturating code.
Proof.
  unfold wait_for_exit. intros (t0 & w1 & H1 & H)%bind_inv.
  apply bind_inv in H as (r & w2 & H2 & [Hr ->]%ret_inv). destruct r as [r|]; [|done].
  cbn in Hr. subst r. apply (loop_answer _ _ _ _ _ _ (fun _ => True)) in H2 as (u & wa & _ & H2); [|done..].
  unfold wait_round in H2. apply bind_inv in H2 as (e & wb & _ & H2).
  destruct (_ <? _)%N; [by apply ret_inv in H2 as [? _]|].
  apply bind_inv in H2 as (x & wc & H3 & H2). unfold exit_of in H2.
  destruct x as [info|er].
  2:{ destruct er; try (by apply ret_inv in H2 as [? _]);
      by apply bind_inv in H2 as (? & ? & _ & [? _]%ret_inv). }
  apply inspect_tells in H3.
  destruct (ci_task info) as [ti|];
    [|by apply bind_inv in H2 as (? & ? & _ & [? _]%ret_inv)].
  destruct H3 as (p & -> & Hp). cbn [process_info t_status t_exit_code] in H2.
  destruct (decide (task_status_from (p_status p) = Stopped)) as [Hs|];
    [|by apply bind_inv in H2 as (? & ? & _ & [? _]%ret_inv)].
  apply ret_inv in H2 as [[= <-] ->]. destruct (status_stopped _ _ Hp Hs) as (code & Hl & <-).
  by exists (p_exit_status p).
Qed.

(** ** Deleting *)
Definition decays w w' : Prop :=
  decay (life (cond_of w)) (life (cond_of w')) /\
  (recorded (cond_of w) = false -> recorded (cond_of w') = false).

#[export] Instance decays_refl : Reflexive decays.
Proof. by intros w. Qed.
#[export] Instance decays_trans : Transitive decays.
Proof. intros w1 w2 w3 [? ?] [? ?]. split; [by etransitivity|auto]. Qed.

Lemma drifts_decays w w' : drifts client id w w' -> decays w w'.
Proof.
  intros H. split; [by apply drift_decay|]. intros Hr. by rewrite (drift_recorded _ _ H).
Qed.

Lemma decays_of {A} (m : ST W A) : P m -> pres decays m.
Proof. intros H w. by apply drifts_decays. Qed.

Lemma decays_delete_task : pres decays (delete_task client id).
Proof.
  assert (pres decays (rpc client (DeleteTask id))).
  { intros w. unfold rpc, decays, Lifecycle.cond_of.
    pose proof (on_delete_task (namespace client) id (ext w)) as H.
    destruct (handle _ _ _) as [[[u|s] d] e]; cbn in *.
    - rewrite H. cbn. split; [by right; left|done].
    - destruct H as [H _]. split; [by apply drift_decay|].
      intros Hr. by rewrite (drift_recorded _ _ H). }
  unfold delete_task, forget_task_start. walk ltac:(by intros ?).
Qed.

Lemma delete_task_tells w w' :
  delete_task client id w = (Ok tt, w') -> life (cond_of w') = LAbsent.
Proof.
  unfold delete_task. intros (r & w1 & H1 & H)%bind_inv. cbv zeta in H.
  assert (cond_of w' = cond_of w1) as ->.
  { destruct (is_ok _); [|by apply ret_inv in H as [_ ->]].
    apply bind_inv in H as (? & w2 & H2 & [_ ->]%ret_inv). by injection H2 as _ <-. }
  unfold rpc, Lifecycle.cond_of in *.
  pose proof (on_delete_task (namespace client) id (ext w)) as Hd.
  destruct (handle _ _ _) as [[[u|s] d] e]; cbn in *; injection H1 as <- <-; cbn in *.
  - by rewrite Hd.
  - destruct (decide (code s = NotFound)) as [Hn|]; [by apply Hd|]. by apply ret_inv in H as [? _].
Qed.

Lemma decays_remove : pres decays (remove_container client id).
Proof.
  assert (pres decays (rpc client (DeleteContainer id))).
  { intros w. unfold rpc, decays, Lifecycle.cond_of.
    pose proof (on_delete_container (namespace client) id (ext w)) as H.
    destruct (handle _ _ _) as [[[u|s] d] e]; cbn in *; apply drift_recorded in H as Hr;
      apply drift_decay in H; cbn in *; split; congruence || done. }
  assert (forall r, moves id r = false -> pres decays (rpc client r)).
  { intros r Hr. by apply decays_of, drifts_rpc. }
  unfold remove_container.
  walk ltac:(first [ by intros ? | match goal with
    | H : forall r, _ -> pres decays (rpc _ r) |- pres _ (rpc _ ?r) => exact (H r eq_refl) end ]).
Qed.

Lemma decays_phases :
  pres decays (phase_task_record_gone client id) /\
  pres decays (phase_container_record_gone client id).
Proof.
  pose proof decays_delete_task. pose proof decays_remove. pose proof (decays_of _ (drifts_inspect id)).
  unfold phase_task_record_gone, phase_container_record_gone. split; walk ltac:(by intros ?).
Qed.

Lemma decays_poll start timeout interval msg predicate :
  pres decays predicate -> pres decays (poll_until start timeout interval msg predicate).
Proof. intros H. apply pres_poll; [apply _..|done|]. apply decays_of, drifts_sleep. Qed.

Lemma decays_delete t : pres decays (delete_container client id t).
Proof.
  destruct decays_phases as [P2 P3]. pose proof decays_remove.
  pose proof (decays_of _ (drifts_stop id t)).
  assert (pres decays (phase_delete_task client id)).
  { pose proof decays_delete_task. unfold phase_delete_task. walk ltac:(by intros ?). }
  unfold delete_container. cbv zeta. walk ltac:(first [by apply decays_poll | by intros ?]).
  all: apply decays_of, drifts_sleep.
Qed.

(** Until the task is gone the record stays. *)
Definition same_recorded w w' : Prop := recorded (cond_of w') = recorded (cond_of w).

#[local] Instance same_recorded_refl : Reflexive same_recorded.
Proof. done. Qed.
#[local] Instance same_recorded_trans : Transitive same_recorded.
Proof. intros w1 w2 w3. unfold same_recorded. congruence. Qed.

Lemma keeps_record_delete_task : pres same_recorded (phase_delete_task client id).
Proof.
  assert (pres same_recorded (rpc client (DeleteTask id))).
  { intros w. unfold same_recorded, rpc, Lifecycle.cond_of.
    pose proof (on_delete_task (namespace client) id (ext w)) as H.
    destruct (handle _ _ _) as [[[u|s] d] e]; cbn in *; [by rewrite H|].
    destruct H as [H _]. by apply drift_recorded. }
  unfold phase_delete_task, delete_task, forget_task_start. walk ltac:(by intros ?).
Qed.

Lemma phase_delete_task_tells start t i msg w w' :
  poll_until start t i msg (phase_delete_task client id) w = (Ok tt, w') ->
  life (cond_of w') = LAbsent.
Proof.
  intros H. apply (poll_until_ok _ _ _ _ _ _ _ (fun w => life (cond_of w) = LAbsent) H).
  intros wa wb Hd. unfold phase_delete_task in Hd.
  apply bind_inv in Hd as ([[]|e] & wc & Hd & [Hr ->]%ret_inv); [|done].
  by apply delete_task_tells in Hd.
Qed.

(** A deletion takes the record only of a container whose task is gone. *)
Lemma delete_keeps_record t w r w' :
  delete_container client id t w = (r, w') ->
  recorded (cond_of w') = recorded (cond_of w) \/
  life (cond_of w') = LAbsent /\ recorded (cond_of w') = false.
Proof.
  intros Hd. destruct (pres_at _ _ _ _ _ (decays_delete t) Hd) as [_ D].
  destruct (recorded (cond_of w')) eqn:Hw'.
  { left. by destruct (recorded (cond_of w)); [|rewrite D]. }
  revert Hd. destruct decays_phases as [P2 P3]. pose proof decays_remove. unfold delete_container.
  cbv zeta. intros (? & w1 & H1 & H2)%bind_inv. apply bind_inv in H2 as (? & w2 & H2 & H3).
  injection H2 as _ <-.
  assert (R1 : recorded (cond_of w1) = recorded (cond_of w)).
  { apply drift_recorded. exact (pres_at _ _ _ _ _ (drifts_stop _ _) H1). }
  apply try_inv in H3 as [([] & w3 & H3 & H4)|(e & H3 & ->)].
  - right. split; [|done]. apply phase_delete_task_tells in H3.
    assert (decays w3 w') as [D3 _].
    { refine (pres_at _ _ _ _ _ _ H4). walk ltac:(first [by apply decays_poll | by intros ?]).
      all: apply decays_of, drifts_sleep. }
    rewrite H3 in D3. by apply decay_absent.
  - left. rewrite <-R1, <-Hw'. refine (pres_at same_recorded _ _ _ _ _ H3).
    apply pres_poll; [apply _..|exact keeps_record_delete_task|].
    intros wa. apply drift_recorded, drifts_sleep.
Qed.

Lemma delete_tells t w w' :
  delete_container client id t w = (Ok tt, w') -> cond_of w' = mkCond LAbsent false.
Proof.
  destruct decays_phases as [P2 P3]. unfold delete_container. cbv zeta.
  intros (? & w1 & _ & H)%bind_inv.
  apply bind_inv in H as (? & w2 & _ & H). apply try_ok_inv in H as ([] & w3 & H3 & H).
  apply bind_inv in H as (? & w4 & H4 & H). injection H4 as _ <-.
  apply try_ok_inv in H as ([] & w5 & H5 & H). apply bind_inv in H as (? & w6 & H6 & H).
  apply bind_inv in H as (? & w7 & H7 & H). injection H7 as _ <-.
  apply try_ok_inv in H as ([] & w8 & H8 & [_ <-]%ret_inv).
  pose proof (phase_delete_task_tells _ _ _ _ _ _ H3) as A3.
  assert (recorded (cond_of w8) = false) as R8.
  { apply (poll_until_ok _ _ _ _ _ _ _ (fun w => recorded (cond_of w) = false) H8).
    intros wa wb Hd. unfold phase_container_record_gone in Hd.
    apply bind_inv in Hd as (r & wc & Hi & Hd). apply inspect_tells in Hi.
    destruct r as [i|e]; [by apply bind_inv in Hd as (? & ? & _ & [? _]%ret_inv)|].
    by destruct e; apply ret_inv in Hd as [? <-]. }
  assert (decays w3 w8) as [D _].
  { transitivity w5; [|transitivity w6]; 
      (eapply pres_at; [|eassumption]); (apply decays_remove || by apply decays_poll). }
  rewrite A3 in D. apply decay_absent in D. destruct (cond_of w8). by cbn in *; subst.
Qed.

(** ** Starting and pausing *)
Definition start_post {A} (r : Result A) (c c' : Cond) : Prop :=
  match r with
  | Ok _ => life c = LAbsent /\ drift (mkCond LRunning (recorded c)) c'
  | Err _ => drift c c' \/ (life c = LAbsent /\ drift (mkCond LCreated (recorded c)) c')
  end.

Definition starts {A} (m : ST W (Result A)) : Prop :=
  forall w, start_post (m w).1 (cond_of w) (cond_of (m w).2).

Lemma start_post_drift {A} (r : Result A) c c1 c' :
  drift c c1 -> start_post r c1 c' -> start_post r c c'.
Proof.
  intros D. destruct r as [a|e]; cbn.
  - intros [A1 D1]. by rewrite (drift_to_absent _ _ D A1).
  - intros [D1|[A1 D1]]; [left; by etransitivity|right]. by rewrite (drift_to_absent _ _ D A1).
Qed.

Lemma starts_bind {A B} (m : ST W A) (k : A -> ST W (Result B)) :
  P m -> (forall a, starts (k a)) -> starts (m ≫= k).
Proof.
  intros Hm Hk w. unfold mbind, ST_bind. eapply start_post_drift; [apply Hm|apply Hk].
Qed.

Lemma starts_err {A} (e : Error) : starts (mret (Err e) : ST W (Result A)).
Proof. intros w. by left. Qed.

Lemma starts_try {A B} (m : ST W (Result A)) (k : A -> ST W (Result B)) :
  P m -> (forall a, starts (k a)) -> starts (try_st m k).
Proof.
  intros Hm Hk. apply starts_bind; [done|]. intros [a|e]; [apply Hk|apply starts_err].
Qed.

Lemma rpc_start_task w :
  match rpc client (StartTask id "") w with
  | (Ok _, w') => life (cond_of w) = LCreated /\
      drift (mkCond LRunning (recorded (cond_of w))) (cond_of w')
  | (Err _, w') => drift (cond_of w) (cond_of w')
  end.
Proof.
  unfold rpc, Lifecycle.cond_of. pose proof (on_start_task (namespace client) id (ext w)) as H.
  destruct (handle _ _ _) as [[[u|s] d] e]; exact H.
Qed.

(** What follows a successful [CreateTask] in [start_container]. *)
Lemma start_created pid w rec r w' :
  drift (mkCond LCreated rec) (cond_of w) ->
  (s ← rpc client (StartTask id "");
   mret (map_err (fun e => into_crate_error e "start_task") s) ;;?
   _ ← record_task_start client id;
   mret (Ok (mkTaskId id pid))) w = (r, w') ->
  match r with
  | Ok _ => drift (mkCond LRunning rec) (cond_of w')
  | Err _ => drift (mkCond LCreated rec) (cond_of w')
  end.
Proof.
  intros D (s & w1 & H1 & H)%bind_inv. pose proof (rpc_start_task w) as R. rewrite H1 in R.
  destruct s as [u|s].
  - destruct R as [A1 R]. rewrite <- (drift_to _ _ _ D A1 eq_refl) in R. by injection H as <- <-.
  - apply ret_inv in H as [<- <-]. by etransitivity.
Qed.

Lemma starts_tasks t :
  ct_container_id t = id ->
  starts (c ← rpc client (CreateTask t);
          pid ←? mret (map_err (fun e =>
             if decide (code e = AlreadyExists) then TaskAlreadyExists id
             else into_crate_error e "create_task") c);
          s ← rpc client (StartTask id "");
          mret (map_err (fun e => into_crate_error e "start_task") s) ;;?
          _ ← record_task_start client id;
          mret (Ok (mkTaskId id pid))).
Proof.
  intros Hi w. match goal with |- start_post (?m w).1 _ _ => destruct (m w) as [r w'] eqn:H end.
  cbn [fst snd].
  apply bind_inv in H as (c & w1 & H1 & H).
  assert (R : match c with
    | Ok _ => life (cond_of w) = LAbsent /\ drift (mkCond LCreated (recorded (cond_of w))) (cond_of w1)
    | Err _ => drift (cond_of w) (cond_of w1) end).
  { revert H1. unfold rpc, Lifecycle.cond_of.
    pose proof (on_create_task (namespace client) t (ext w)) as R. cbv zeta in R. rewrite Hi in R.
    destruct (handle _ _ _) as [[[u|s] d] e]; by intros [= <- <-]. }
  destruct c as [pid|s]; [|apply ret_inv in H as [<- <-]; by left].
  destruct R as [A1 R]. apply (start_created _ _ _ _ _ R) in H. destruct r; [done|by right].
Qed.

Lemma start_tells : starts (start_container client id).
Proof.
  unfold start_container. apply starts_try; [apply drifts_get_container|]. intros c.
  apply starts_bind; [drifting|]. intros m. apply starts_try; [drifting|]. intros rootfs.
  apply starts_try; [intros w; apply drift_same|]. intros [out err]. by apply starts_tasks.
Qed.

Lemma pause_tells w r w' : pause_container client id w = (r, w') ->
  match r with
  | Ok _ => life (cond_of w) = LRunning /\
      drift (mkCond LPaused (recorded (cond_of w))) (cond_of w')
  | Err _ => drift (cond_of w) (cond_of w')
  end.
Proof.
  unfold pause_container. intros (x & w1 & H1 & [<- <-]%ret_inv)%bind_inv. revert H1.
  unfold rpc, Lifecycle.cond_of. pose proof (on_pause_task (namespace client) id (ext w)) as H.
  destruct (handle _ _ _) as [[[u|s] d] e]; by intros [= <- <-].
Qed.

Lemma unpause_tells w r w' : unpause_container client id w = (r, w') ->
  match r with
  | Ok _ => life (cond_of w) = LPaused /\
      drift (mkCond LRunning (recorded (cond_of w))) (cond_of w')
  | Err _ => drift (cond_of w) (cond_of w')
  end.
Proof.
  unfold unpause_container. intros (x & w1 & H1 & [<- <-]%ret_inv)%bind_inv. revert H1.
  unfold rpc, Lifecycle.cond_of. pose proof (on_resume_task (namespace client) id (ext w)) as H.
  destruct (handle _ _ _) as [[[u|s] d] e]; by intros [= <- <-].
Qed.

Lemma no_value_inv {A} (m : ST W (Result A)) w r w' :
  no_value m w = (r, w') ->
  (exists a, m w = (Ok a, w') /\ r = Ok None) \/ (exists e, m w = (Err e, w') /\ r = Err e).
Proof.
  unfold no_value. intros [(a & w1 & H1 & [<- <-]%ret_inv)|(e & H1 & ->)]%try_inv; eauto.
Qed.

(** C10. The operations on the task of a container do what [post] says of the
    task and of the container's record: a start creates and starts an absent
    task or leaves at most a created one behind; a stop that succeeds leaves
    nothing running, provided a status query only fails for an absent task, and
    moves the task nowhere but to its exit; a deletion that succeeds leaves
    neither task nor record; one that fails leaves the task as it was, exited
    or gone, and the record as it was -- or, only when the task is gone, no
    record; pausing and resuming are the daemon's moves; waiting answers the
    code of the exit. *)
Theorem task_ops_refine_lifecycle op w r w' :
  match op with OpStop _ => honest (namespace client) id | _ => True end ->
  run_op client id op w = (r, w') ->
  post op r (cond_of w) (cond_of w').
Proof.
  intros Hh H. destruct op; cbn [run_op] in H;
    try apply no_value_inv in H as [(a & H & ->)|(e & H & ->)]; cbn.
  - pose proof (start_tells w) as S. by rewrite H in S.
  - pose proof (start_tells w) as S. by rewrite H in S.
  - destruct a. split; [|by eapply stop_settles]. exact (pres_at _ _ _ _ _ (drifts_stop _ _) H).
  - exact (pres_at _ _ _ _ _ (drifts_stop _ _) H).
  - destruct a. by apply delete_tells in H.
  - split; [|by eapply delete_keeps_record]. by apply (pres_at _ _ _ _ _ (decays_delete _)) in H as [H _].
  - by apply pause_tells in H.
  - by apply pause_tells in H.
  - by apply unpause_tells in H.
  - by apply unpause_tells in H.
  - apply try_inv in H as [(z & w1 & H & [<- <-]%ret_inv)|(e & H & ->)];
      pose proof (pres_at _ _ _ _ _ (drifts_wait_for_exit id _) H) as D; [|exact D].
    split; [exact D|]. apply wait_for_exit_tells in H as (code & Hl & ->). by exists code.
Qed.

End service.

(** * The demonstration daemon is a task service *)
Definition demo_life (p : option Process) : Life :=
  match p with
  | None => LAbsent
  | Some p =>
      if decide (p_status p = ST_CREATED) then LCreated
      else if decide (p_status p = ST_RUNNING) then LRunning
      else if decide (p_status p = ST_STOPPED) then LStopped (p_exit_status p)
      else LPaused
  end.

Definition demo_cond (ns id : string) (d : Demo) : Cond :=
  mkCond (demo_life (d_tasks d !! (ns, id))) (bool_decide (is_Some (demo_record ns id d))).

Lemma demo_life_sees p : sees (demo_life (Some p)) p.
Proof. unfold demo_life. by repeat case_decide. Qed.

Lemma demo_life_set p s code :
  demo_life (Some (set_status p s code)) =
    if decide (s = ST_CREATED) then LCreated
    else if decide (s = ST_RUNNING) then LRunning
    else if decide (s = ST_STOPPED) then LStopped code else LPaused.
Proof. done. Qed.

Lemma demo_cond_tasks ns id d k v :
  k <> (ns, id) -> demo_cond ns id (with_tasks d (<[k := v]> (d_tasks d))) = demo_cond ns id d.
Proof. intros H. unfold demo_cond. cbn. by rewrite lookup_insert_ne. Qed.

Lemma demo_cond_task ns id d v :
  demo_cond ns id (with_tasks d (<[(ns, id) := v]> (d_tasks d))) =
    mkCond (demo_life (Some v)) (recorded (demo_cond ns id d)).
Proof. unfold demo_cond. cbn [d_tasks with_tasks recorded]. by rewrite lookup_insert_eq. Qed.

Lemma demo_exits ns id p code d :
  d_tasks d !! (ns, id) = Some p -> p_status p <> ST_STOPPED ->
  drift (demo_cond ns id d)
    (demo_cond ns id (with_tasks d (<[(ns, id) := set_status p ST_STOPPED code]> (d_tasks d)))).
Proof.
  intros Hp Hs. rewrite demo_cond_task, demo_life_set. unfold demo_cond at 1. rewrite Hp. cbn.
  apply drift_exit. unfold alive. by repeat case_decide.
Qed.

Lemma demo_cond_same ns id d d' :
  d_tasks d' = d_tasks d -> demo_record ns id d' = demo_record ns id d ->
  drift (demo_cond ns id d) (demo_cond ns id d').
Proof. unfold demo_cond. intros -> ->. done. Qed.

Lemma demo_record_ext ns id d d' :
  d_containers d' !! (ns, id) = d_containers d !! (ns, id) ->
  demo_record ns id d' = demo_record ns id d.
Proof. unfold demo_record. by intros ->. Qed.

Lemma demo_drift_kill ns id i s d :
  drift (demo_cond ns id d) (demo_cond ns id (demo_kill ns i s d).2).
Proof.
  unfold demo_kill. destruct (d_tasks d !! (ns, i)) as [p|] eqn:Hp; [|done].
  case_decide; [done|]. destruct (_ && _); [done|]. cbn [snd].
  destruct (decide (i = id)) as [->|]; [by apply demo_exits|].
  rewrite demo_cond_tasks; [done|congruence].
Qed.

Lemma demo_drift_set ns id i from s d :
  i <> id -> drift (demo_cond ns id d) (demo_cond ns id (demo_set_task ns i from s d).2).
Proof.
  intros Hi. unfold demo_set_task. destruct (d_tasks d !! (ns, i)); [|done].
  case_decide; [|done]. cbn [snd]. rewrite demo_cond_tasks; [done|congruence].
Qed.

Lemma demo_cond_containers ns id d m :
  m !! (ns, id) = d_containers d !! (ns, id) ->
  drift (demo_cond ns id d) (demo_cond ns id (with_containers d m)).
Proof. intros H. apply demo_cond_same; [done|]. by apply demo_record_ext. Qed.

Lemma demo_drift ns id r d :
  moves id r = false -> drift (demo_cond ns id d) (demo_cond ns id (demo_handle ns r d).2).
Proof.
  destruct r; cbn [moves demo_handle]; intros Hr; try done;
    try (apply String.eqb_neq in Hr; try by apply demo_drift_set).
  - destruct container as [c|]; [|done]. apply String.eqb_neq in Hr.
    destruct (d_containers d !! (ns, c_id c)); [done|]. apply demo_cond_containers.
    apply lookup_insert_ne. congruence.
  - destruct (d_containers d !! _); [|done]. apply demo_cond_containers.
    apply lookup_delete_ne. congruence.
  - destruct (d_tasks d !! _); [done|]. cbn [snd].
    transitivity (demo_cond ns id (with_tasks d (<[(ns, ct_container_id r):=
      mkProcess (ct_container_id r) (d_next d) ST_CREATED 0]> (d_tasks d)))); [|done].
    rewrite demo_cond_tasks; [done|congruence].
  - destruct exec_id; [|done]. rewrite andb_true_r in Hr. apply String.eqb_neq in Hr.
    by apply demo_drift_set.
  - apply demo_drift_kill.
  - destruct (d_tasks d !! _); [|done]. case_decide; [done|]. unfold demo_cond. cbn.
    rewrite lookup_delete_ne; [done|congruence].
  - unfold demo_prepare. by repeat case_decide.
  - unfold demo_remove. by repeat case_match.
  - unfold demo_commit. by repeat case_match.
Qed.

Lemma demo_set_tells ns id from s l l' d :
  (forall p, p_status p = from -> demo_life (Some p) = l) ->
  (forall p, p_status p = s -> demo_life (Some p) = l') ->
  match demo_set_task ns id from s d with
  | (Ok _, d') => life (demo_cond ns id d) = l /\
      drift (mkCond l' (recorded (demo_cond ns id d))) (demo_cond ns id d')
  | (Err _, d') => drift (demo_cond ns id d) (demo_cond ns id d')
  end.
Proof.
  intros Hf Hs. unfold demo_set_task. destruct (d_tasks d !! (ns, id)) as [p|] eqn:Hp; [|done].
  case_decide; [|done]. rewrite demo_cond_task, (Hs (set_status _ _ _)) by done. split; [|done].
  unfold demo_cond. rewrite Hp. by apply Hf.
Qed.

Lemma demo_life_of p :
  (p_status p = ST_CREATED -> demo_life (Some p) = LCreated) /\
  (p_status p = ST_RUNNING -> demo_life (Some p) = LRunning) /\
  (p_status p = ST_PAUSED -> demo_life (Some p) = LPaused).
Proof. unfold demo_life. by split_and!; intros ->. Qed.

Lemma demo_moves ns id from s l l' (a : result Status unit) d d' :
  demo_set_task ns id from s d = (a, d') ->
  (forall p, p_status p = from -> demo_life (Some p) = l) ->
  (forall p, p_status p = s -> demo_life (Some p) = l') ->
  match (a, from_millis 1, d') with
  | (Ok _, _, e') => life (demo_cond ns id d) = l /\
      drift (mkCond l' (recorded (demo_cond ns id d))) (demo_cond ns id e')
  | (Err _, _, e') => drift (demo_cond ns id d) (demo_cond ns id e')
  end.
Proof.
  intros H Hf Hs. pose proof (demo_set_tells ns id from s l l' d Hf Hs) as T. rewrite H in T.
  by destruct a.
Qed.

#[export] Program Instance demo_tasks : TaskService demo_env := {| cond := demo_cond |}.
Next Obligation.
  intros ns id r e Hr. cbn. pose proof (demo_drift ns id r e Hr) as H.
  by destruct (demo_handle ns r e).
Qed.
Next Obligation. done. Qed.
Next Obligation.
  intros ns t e. cbn. destruct (d_tasks e !! (ns, ct_container_id t)) eqn:Hp; [done|].
  split; [done|]. match goal with |- drift ?a ?b => replace b with a; [done|] end. symmetry.
  exact (demo_cond_task ns (ct_container_id t) e
    (mkProcess (ct_container_id t) (d_next e) ST_CREATED 0)).
Qed.
Next Obligation.
  intros ns id e. cbn. destruct (demo_set_task _ _ _ _ _) as [a d'] eqn:H.
  by apply (demo_moves _ _ _ _ _ _ _ _ _ H); intros p; apply demo_life_of.
Qed.
Next Obligation.
  intros ns id e. cbn. destruct (d_tasks e !! (ns, id)) eqn:Hp.
  - case_decide; [done|]. unfold demo_cond. cbn. by rewrite lookup_delete_eq.
  - split; [done|]. intros _. unfold demo_cond. by rewrite Hp.
Qed.
Next Obligation.
  intros ns id e. cbn. destruct (demo_set_task _ _ _ _ _) as [a d'] eqn:H.
  by apply (demo_moves _ _ _ _ _ _ _ _ _ H); intros p; apply demo_life_of.
Qed.
Next Obligation.
  intros ns id e. cbn. destruct (demo_set_task _ _ _ _ _) as [a d'] eqn:H.
  by apply (demo_moves _ _ _ _ _ _ _ _ _ H); intros p; apply demo_life_of.
Qed.
Next Obligation.
  intros ns id e. cbn. destruct (d_tasks e !! (ns, id)) as [p|] eqn:Hp; cbn.
  - apply demo_life_sees.
  - done.
Qed.
Next Obligation.
  intros ns id e. cbn. destruct (demo_record ns id e) as [c|] eqn:Hc; cbn.
  - revert Hc. unfold demo_record. destruct (d_containers e !! _); [|done]. cbn.
    case_decide; [|done]. by intros [= <-].
  - done.
Qed.
Next Obligation.
  intros ns id e. cbn. destruct (d_containers e !! (ns, id)) eqn:Hc; cbn; [|done].
  unfold demo_cond, demo_record. cbn. by rewrite lookup_delete_eq.
Qed.

Lemma demo_honest ns id : honest (E := demo_env) ns id.
Proof. intros d. cbn. by destruct (d_tasks d !! (ns, id)). Qed.

Lemma task_ops_refine_lifecycle_witness :
  let w := demo_world (demo_with_task 2 true) : DemoWorld in
  let d := run_op demo_client "c" (OpDelete (from_secs 10)) w in
  let s := run_op demo_client "c" (OpStop (from_secs 10)) w in
  d.1 = Ok None /\ cond_of demo_client "c" d.2 = mkCond LAbsent false /\
  s.1 = Ok None /\ settled (cond_of demo_client "c" s.2).
Proof.
  cbv zeta.
  assert (H1 : (run_op demo_client "c" (OpDelete (from_secs 10))
    (demo_world (demo_with_task 2 true) : DemoWorld)).1 = Ok None) by (vm_compute; reflexivity).
  assert (H2 : (run_op demo_client "c" (OpStop (from_secs 10))
    (demo_world (demo_with_task 2 true) : DemoWorld)).1 = Ok None) by (vm_compute; reflexivity).
  split; [exact H1|]. split; [|split; [exact H2|]].
  - exact (task_ops_refine_lifecycle demo_client "c" (OpDelete (from_secs 10)) _ _ _ I
      (run_eq _ _ _ H1)).
  - exact (proj2 (task_ops_refine_lifecycle demo_client "c" (OpStop (from_secs 10)) _ _ _
      (demo_honest _ _) (run_eq _ _ _ H2))).
Defined.
