(* ===== verification/UnitTests.v ===== *)
(** * The unit tests of the crate, over pure functions

    Each definition is a [#[test]] of a [mod tests] under [src/src/], with the
    name it has there, its assertions translated to a boolean over the
    definitions of this development; the lemma of each group evaluates them.
    They tie the model to what the authors say the code does.  serde_json and
    oci-spec are the demonstration libraries: a test that parses JSON text
    starts from the value serde_json gives for it.  File ScenarioTests has the
    tests that need files, a follower or a client. *)

From S2P Require Import Prelude RustText RustFmt Errors Effects FileSystem Identifier LogCodec World DemoDaemon Bridge ContainerSpec Inspect ClientState Task Clone Snapshot Readiness Connect ClientMethods Exec.
From Stdlib Require Import Ascii.

(** ** Assertions *)
Definition assert_eq {A} `{EqDecision A} (a b : A) : bool := bool_decide (a = b).
Definition assert_ne {A} `{EqDecision A} (a b : A) : bool := bool_decide (a <> b).
Definition is_err {E A} (r : result E A) : bool := negb (is_ok r).

(** [str::find]: the offset of the first occurrence, and all of them. *)
Fixpoint find_all (p s : string) (at_ : nat) : list nat :=
  match s with
  | EmptyString => if starts_with p s then [at_] else []
  | String _ s' => (if starts_with p s then [at_] else []) ++ find_all p s' (S at_)
  end.

Definition contains (p s : string) : bool := match find_all p s 0 with [] => false | _ => true end.
Definition matches_count (p s : string) : nat := length (find_all p s 0).
Definition str_find (p s : string) : option nat := head (find_all p s 0).
Definition str_rfind (p s : string) : option nat := last (find_all p s 0).

Definition ends_with (p s : string) : bool :=
  bool_decide (p = String.substring (String.length s - String.length p) (String.length p) s).

Fixpoint str_repeat (s : string) (n : nat) : string :=
  match n with O => "" | S n => s +:+ str_repeat s n end.

(** ** [src/util.rs] *)
Definition accepted (s : string) : bool := is_ok (validate_identifier s).
Definition rejected (s : string) : bool := is_err (validate_identifier s).

Definition validate_accepts_simple : bool :=
  accepted "a" && accepted "abc" && accepted "ABC123".

Definition validate_accepts_internal_separators : bool :=
  accepted "my-container" && accepted "my_container" && accepted "my.container"
  && accepted "a.b-c_d".

Definition validate_rejects_empty : bool := rejected "".

Definition validate_rejects_path_traversal : bool :=
  rejected ".." && rejected "../foo" && rejected "foo/bar".

Definition validate_rejects_shell_metachars : bool :=
  rejected "foo;ls" && rejected "foo$bar" && rejected "foo`bar`" && rejected "foo bar".

Definition validate_rejects_leading_or_trailing_separator : bool :=
  rejected "-foo" && rejected "foo-" && rejected ".foo" && rejected "foo.".

Definition validate_rejects_consecutive_separators : bool :=
  rejected "foo--bar" && rejected "foo._bar".

Definition validate_rejects_too_long : bool :=
  rejected (str_repeat "a" (MAX_IDENTIFIER_LEN + 1)).

Definition validate_accepts_max_length : bool := accepted (str_repeat "a" MAX_IDENTIFIER_LEN).

Lemma util_tests :
  forallb id [validate_accepts_simple; validate_accepts_internal_separators;
    validate_rejects_empty; validate_rejects_path_traversal; validate_rejects_shell_metachars;
    validate_rejects_leading_or_trailing_separator; validate_rejects_consecutive_separators;
    validate_rejects_too_long; validate_accepts_max_length] = true.
Proof. vm_compute. reflexivity. Qed.

(** ** [src/types.rs] *)
Definition task_status_from_running : bool :=
  assert_eq (task_status_from ST_RUNNING) Running.
Definition task_status_from_stopped : bool :=
  assert_eq (task_status_from ST_STOPPED) Stopped.
Definition task_status_from_paused : bool := assert_eq (task_status_from ST_PAUSED) Paused.
Definition task_status_from_unknown : bool := assert_eq (task_status_from 99) UnknownStatus.

Definition container_id_generate_is_unique_and_hex : bool :=
  let '(u, d) := @fresh_uuid demo_env demo_empty in
  let '(v, _) := @fresh_uuid demo_env d in
  let a := generate u in
  let b := generate v in
  assert_ne a b && assert_eq (String.length (as_str a)) 32
  && forallb (fun c => in_range 48 57 c || in_range 97 102 c || in_range 65 70 c)
       (str_bytes (as_str a)).

Lemma types_tests :
  forallb id [task_status_from_running; task_status_from_stopped; task_status_from_paused;
    task_status_from_unknown; container_id_generate_is_unique_and_hex] = true.
Proof. vm_compute. reflexivity. Qed.

(** ** [src/bridge.rs] *)
Definition parse_octet_last_segment : bool :=
  assert_eq (parse_octet "10.88.1.42") (Some 42%N) && assert_eq (parse_octet "10.88.1.2") (Some 2%N)
  && assert_eq (parse_octet "10.88.1.254") (Some 254%N).

Definition parse_octet_rejects_garbage : bool :=
  assert_eq (parse_octet "") None && assert_eq (parse_octet "not-an-ip") None
  && assert_eq (parse_octet "10.88.1.999") None && assert_eq (parse_octet "10.88.1.-1") None
  && assert_eq (parse_octet "42") None && assert_eq (parse_octet "foo.42") None.

(** [IteratorRandom::choose], here by an index that changes from call to call. *)
Definition choose_at (l : list N) (x : N) : option N * N :=
  (l !! N.to_nat (x * 37 mod N.max 1 (N.of_nat (length l))), (x + 1)%N).

Fixpoint picks (n : nat) (used : gset N) (x : N) : list (Result N) :=
  match n with
  | O => []
  | S n => let '(o, x) := pick_free_octet choose_at used x in o :: picks n used x
  end.

Definition pick_free_octet_returns_in_range : bool :=
  forallb (fun r => match r with Ok o => (2 <=? o)%N && (o <=? 254)%N | Err _ => false end)
    (picks 50 ∅ 0).

Definition octets (from count : nat) : gset N := list_to_set (N.of_nat <$> seq from count).

Definition pick_free_octet_avoids_used : bool :=
  assert_eq (pick_free_octet choose_at (octets 2 252) 0%N).1 (Ok 254%N).

Definition pick_free_octet_errors_on_exhaustion : bool :=
  match (pick_free_octet choose_at (octets 2 253) 0%N).1 with
  | Err (ResourceExhausted _) => true
  | _ => false
  end.

Definition veth_name_is_15_chars_and_stable : bool :=
  let a := veth_name "my-container" in
  let b := veth_name "my-container" in
  assert_eq a b && assert_eq (String.length a) 15 && starts_with "cm" a.

Definition veth_name_distinguishes_prefix_siblings : bool :=
  assert_ne (veth_name "foo") (veth_name "foo-2")
  && assert_ne (veth_name "containerd-demo") (veth_name "containerd-demo-2").

Definition poststart_one_port_emits_one_socat : bool :=
  let script := poststart_hook_script "cid" "10.88.1.5" [(27017, 50123)%N] in
  assert_eq (matches_count "socat TCP-LISTEN" script) 1
  && contains "TCP-LISTEN:50123" script && contains "TCP:10.88.1.5:27017" script
  && contains "/tmp/socat-cid-27017.pid" script.

Definition poststart_multi_port_emits_one_socat_per_binding : bool :=
  let script := poststart_hook_script "cid" "10.88.1.5" [(27017, 50001); (8080, 50002)]%N in
  assert_eq (matches_count "socat TCP-LISTEN" script) 2
  && contains "TCP-LISTEN:50001" script && contains "TCP-LISTEN:50002" script
  && contains "TCP:10.88.1.5:27017" script && contains "TCP:10.88.1.5:8080" script
  && contains "/tmp/socat-cid-27017.pid" script && contains "/tmp/socat-cid-8080.pid" script.

Definition prestart_writes_nerdctl_network_config_when_ports_set : bool :=
  let script := prestart_hook_script "10.88.1.5" "cid" "demo-ns" [(50123, 27017)%N] in
  contains "/var/lib/nerdctl/1935db59/containers/demo-ns/cid" script
  && contains (q "HostPort" +:+ ":50123") script && contains (q "ContainerPort" +:+ ":27017") script.

Definition prestart_omits_nerdctl_section_with_no_ports : bool :=
  negb (contains "nerdctl" (prestart_hook_script "10.88.1.5" "cid" "demo-ns" [])).

Definition poststop_removes_nerdctl_config_dir : bool :=
  contains ("rm -rf " +:+ q "/var/lib/nerdctl/1935db59/containers/demo-ns/cid")
    (poststop_hook_script "cid" "demo-ns" []).

Definition poststart_no_ports_emits_no_socat : bool :=
  negb (contains "socat" (poststart_hook_script "cid" "10.88.1.5" [])).

Definition poststop_kills_each_socat_then_deletes_veth : bool :=
  let script := poststop_hook_script "cid" "test-ns" [(27017, 50001); (8080, 50002)]%N in
  assert_eq (matches_count "SOCAT_PID=$(cat" script) 2
  && assert_eq (matches_count "kill -9 $SOCAT_PID" script) 2
  && contains "/tmp/socat-cid-27017.pid" script && contains "/tmp/socat-cid-8080.pid" script
  && negb (contains "TCP-LISTEN" script) && contains "ip link delete" script
  && match str_find "ip link delete" script, str_rfind "kill -9 $SOCAT_PID" script with
     | Some veth_idx, Some last_kill_idx => last_kill_idx <? veth_idx
     | _, _ => false
     end.

Lemma bridge_tests :
  forallb id [parse_octet_last_segment; parse_octet_rejects_garbage;
    pick_free_octet_returns_in_range; pick_free_octet_avoids_used;
    pick_free_octet_errors_on_exhaustion; veth_name_is_15_chars_and_stable;
    veth_name_distinguishes_prefix_siblings; poststart_one_port_emits_one_socat;
    poststart_multi_port_emits_one_socat_per_binding;
    prestart_writes_nerdctl_network_config_when_ports_set;
    prestart_omits_nerdctl_section_with_no_ports; poststop_removes_nerdctl_config_dir;
    poststart_no_ports_emits_no_socat; poststop_kills_each_socat_then_deletes_veth] = true.
Proof. vm_compute. reflexivity. Qed.

(** ** [src/port_forward.rs] *)

(** [forwards.sort()]. *)
Definition pair_le (a b : N * N) : Prop := (a.1 < b.1 \/ a.1 = b.1 /\ a.2 <= b.2)%N.
#[export] Instance pair_le_dec a b : Decision (pair_le a b).
Proof. unfold pair_le. apply _. Defined.

Definition parse_port_binding_labels_parses_valid_entries : bool :=
  let labels : labels_map := <["containerd-manager.port.27017" := "50123"]> ∅ in
  let labels := <["containerd-manager.port.443" := "8443"]> labels in
  let labels := <["unrelated-label" := "value"]> labels in
  let forwards := merge_sort pair_le (parse_port_binding_labels labels) in
  assert_eq forwards [(8443, 443); (50123, 27017)]%N.

Definition parse_port_binding_labels_empty : bool := assert_eq (parse_port_binding_labels ∅) [].

Definition parse_port_binding_labels_ignores_malformed : bool :=
  let labels : labels_map := <["containerd-manager.port.notanumber" := "50123"]> ∅ in
  let labels := <["containerd-manager.port.27017" := "notanumber"]> labels in
  let labels := <["containerd-manager.port." := "50123"]> labels in
  assert_eq (parse_port_binding_labels labels) [].

Definition port_forward_default_target_addr_is_loopback : bool :=
  assert_eq (target_addr port_forward_opts_default) "127.0.0.1".

Lemma port_forward_tests :
  forallb id [parse_port_binding_labels_parses_valid_entries; parse_port_binding_labels_empty;
    parse_port_binding_labels_ignores_malformed;
    port_forward_default_target_addr_is_loopback] = true.
Proof. vm_compute. reflexivity. Qed.

(** ** [src/list.rs] and [src/inspect.rs] *)
Definition build_label_filter_parses_correctly : bool :=
  assert_eq (build_label_filter "app=test") (Some ("labels." +:+ q "app" +:+ "==test")).

Definition build_label_filter_handles_values_with_equals : bool :=
  assert_eq (build_label_filter "key=value=with=equals")
    (Some ("labels." +:+ q "key" +:+ "==value=with=equals")).

Definition build_label_filter_returns_none_for_invalid : bool :=
  assert_eq (build_label_filter "noequals") None.

Definition build_list_request_no_filter : bool := assert_eq (build_list_request []) [].

Definition build_list_request_with_filter : bool :=
  assert_eq (build_list_request ["app=myapp"]) ["labels." +:+ q "app" +:+ "==myapp"].

Definition build_list_request_ignores_invalid_filter : bool :=
  assert_eq (build_list_request ["invalid"]) [].

Definition build_list_request_multiple_filters_joined_as_and : bool :=
  assert_eq (build_list_request ["app=myapp"; "env=prod"])
    ["labels." +:+ q "app" +:+ "==myapp,labels." +:+ q "env" +:+ "==prod"].

Definition build_list_request_skips_invalid_keeps_valid : bool :=
  assert_eq (build_list_request ["invalid"; "app=myapp"]) ["labels." +:+ q "app" +:+ "==myapp"].

Definition parse_env_vars_splits_correctly : bool :=
  let parsed := parse_env_vars ["KEY=value"; "PATH=/usr/bin:/bin"; "EMPTY="] in
  assert_eq (size parsed) 3 && assert_eq (parsed !! "KEY") (Some "value")
  && assert_eq (parsed !! "PATH") (Some "/usr/bin:/bin") && assert_eq (parsed !! "EMPTY") (Some "").

Definition parse_env_vars_ignores_malformed : bool :=
  let parsed := parse_env_vars ["NOEQUALS"; "VALID=yes"] in
  assert_eq (size parsed) 1 && assert_eq (parsed !! "VALID") (Some "yes").

Lemma list_inspect_tests :
  forallb id [build_label_filter_parses_correctly; build_label_filter_handles_values_with_equals;
    build_label_filter_returns_none_for_invalid; build_list_request_no_filter;
    build_list_request_with_filter; build_list_request_ignores_invalid_filter;
    build_list_request_multiple_filters_joined_as_and;
    build_list_request_skips_invalid_keeps_valid; parse_env_vars_splits_correctly;
    parse_env_vars_ignores_malformed] = true.
Proof. vm_compute. reflexivity. Qed.

(** ** [src/consts.rs], [src/snapshot.rs], [src/snapshot_util.rs], [src/clone.rs] *)
Definition label_keys_pinned : bool :=
  assert_eq PORT_BINDING_LABEL_PREFIX "containerd-manager.port."
  && assert_eq BRIDGE_IP_LABEL "containerd-manager.bridge.ip"
  && assert_eq NETWORK_MODE_LABEL "containerd-manager.network.mode"
  && assert_eq NAME_LABEL "containerd-manager.name".

Definition oci_constants_pinned : bool :=
  assert_eq OCI_SPEC_VERSION "1.0.2"
  && assert_eq OCI_SPEC_TYPE_URL "types.containerd.io/opencontainers/runtime-spec/1/Spec"
  && assert_eq OCI_ROOTFS_PATH "rootfs".

Definition snapshotter_pinned : bool := assert_eq DEFAULT_SNAPSHOTTER "overlayfs".

Definition snapshot_label_keys_pinned : bool :=
  assert_eq IMAGE_LABEL "containerd-manager.snapshot.image"
  && assert_eq MANAGED_LABEL "containerd-manager.snapshot.managed"
  && assert_eq DESCRIPTION_LABEL "containerd-manager.snapshot.description".

Definition timestamp_zero_is_epoch : bool :=
  assert_eq (timestamp_to_systemtime (mkTimestamp 0 0)) (Some 0%N).

Definition timestamp_negative_seconds_returns_none : bool :=
  assert_eq (timestamp_to_systemtime (mkTimestamp (-1) 0)) None.

Definition timestamp_negative_nanos_returns_none : bool :=
  assert_eq (timestamp_to_systemtime (mkTimestamp 1 (-5))) None.

Definition label_constants_are_under_our_namespace : bool :=
  forallb (starts_with "containerd-manager.") [IMAGE_LABEL; MANAGED_LABEL; DESCRIPTION_LABEL].

Definition network_defaults_to_bridge : bool := assert_eq (network_from_labels ∅) Bridge.

Definition network_reads_host : bool :=
  assert_eq (network_from_labels (<[NETWORK_MODE_LABEL := "host"]> ∅)) Host.

Definition network_unknown_falls_back_to_bridge : bool :=
  assert_eq (network_from_labels (<[NETWORK_MODE_LABEL := "isolated"]> ∅)) Bridge.

Definition managed_label_recognises_known_keys : bool :=
  is_managed_label NETWORK_MODE_LABEL && is_managed_label BRIDGE_IP_LABEL
  && is_managed_label (PORT_BINDING_LABEL_PREFIX +:+ "27017").

Definition managed_label_passes_user_labels : bool :=
  negb (is_managed_label "com.example.team") && negb (is_managed_label "atlas-local.deployment.name")
  && negb (is_managed_label "containerd-manager.snapshot.image").

Definition default_inherits_src_ports : bool := inherit_src_ports clone_opts_default.

Definition clone_base_suffix_stable : bool :=
  assert_eq ("primed" +:+ CLONE_BASE_SUFFIX) "primed-clone-base".

Lemma label_tests :
  forallb id [label_keys_pinned; oci_constants_pinned; snapshotter_pinned;
    snapshot_label_keys_pinned; timestamp_zero_is_epoch; timestamp_negative_seconds_returns_none;
    timestamp_negative_nanos_returns_none; label_constants_are_under_our_namespace;
    network_defaults_to_bridge; network_reads_host; network_unknown_falls_back_to_bridge;
    managed_label_recognises_known_keys; managed_label_passes_user_labels;
    default_inherits_src_ports; clone_base_suffix_stable] = true.
Proof. vm_compute. reflexivity. Qed.

(** ** [src/logs.rs], the codec *)
Definition line (s : string) : bytes := str_bytes s ++ [NL].

Definition decode_one (buf : bytes) : option (LogEntry * nat) :=
  match decode_event_with_len buf with DRecord entry consumed => Some (entry, consumed) | _ => None end.

Definition encode_decode_roundtrip_with_trailing_newline : bool :=
  let entry := mkLogEntry Stdout (epoch_plus_millis 1700000000000) (line "hello") in
  let encoded := encode_event entry in
  match decode_one encoded with
  | Some (decoded, n) =>
      assert_eq n (length encoded) && assert_eq (stream decoded) Stdout
      && assert_eq (timestamp decoded) (timestamp entry) && assert_eq (data decoded) (line "hello")
  | None => false
  end.

Definition encode_decode_roundtrip_no_trailing_newline : bool :=
  let entry := mkLogEntry Stderr (epoch_plus_millis 42) (str_bytes "partial") in
  match decode_one (encode_event entry) with
  | Some (decoded, _) => assert_eq (data decoded) (str_bytes "partial")
  | None => false
  end.

Definition encode_decode_roundtrip_embedded_newlines_and_binary : bool :=
  let text := line "line1" ++ line "line2" ++ [Byte.x00; Byte.xff] in
  let entry := mkLogEntry Stdout (epoch_plus_millis 1) text in
  match decode_one (encode_event entry) with
  | Some (decoded, _) => assert_eq (data decoded) text
  | None => false
  end.

Definition decode_rejects_oversize_length_prefix : bool :=
  let buf := str_bytes "1 o " ++ dec_bytes (MAX_RECORD_BYTES + 1) ++ line " payload" in
  match decode_event_with_len buf with Malformed => true | _ => false end.

Definition decode_classifies_bad_stream_char_as_malformed : bool :=
  match decode_event_with_len (line "1 x 5 hello") with Malformed => true | _ => false end.

Definition parse_events_file_yields_entries_in_order : bool :=
  let at_ := epoch_plus_millis 1700000000000 in
  let e1 := encode_event (mkLogEntry Stdout at_ (line "one")) in
  let e2 := encode_event (mkLogEntry Stderr (at_ + epoch_plus_millis 1)%Z (line "two")) in
  let entries := parse_events_file (e1 ++ e2) in
  assert_eq (stream <$> entries) [Stdout; Stderr]
  && assert_eq (data <$> entries) [line "one"; line "two"].

Definition good_entry : LogEntry := mkLogEntry Stdout (epoch_plus_millis 1) (line "good").

Definition parse_events_file_stops_at_truncated_tail : bool :=
  let buf := encode_event good_entry ++ str_bytes "123 o 99 trunc" in
  assert_eq (data <$> parse_events_file buf) [line "good"].

Definition parse_events_file_resyncs_past_malformed_record : bool :=
  let buf := line "garbage with bad header" ++ encode_event good_entry in
  assert_eq (data <$> parse_events_file buf) [line "good"].

Lemma codec_tests :
  forallb id [encode_decode_roundtrip_with_trailing_newline;
    encode_decode_roundtrip_no_trailing_newline;
    encode_decode_roundtrip_embedded_newlines_and_binary; decode_rejects_oversize_length_prefix;
    decode_classifies_bad_stream_char_as_malformed; parse_events_file_yields_entries_in_order;
    parse_events_file_stops_at_truncated_tail;
    parse_events_file_resyncs_past_malformed_record] = true.
Proof. vm_compute. reflexivity. Qed.

(** ** [src/container.rs] *)
#[local] Instance test_libs : Libs := demo_libs_with [] [] [].

Definition test_image_config : ImageConfiguration := mkImageConfiguration None ["sha256:abc123"].

Definition test_image_config_with_entrypoint : ImageConfiguration :=
  mkImageConfiguration (Some (mkImageConfig None (Some ["/entrypoint.sh"]) (Some ["--flag"])
    (Some "/app") (Some ["PATH=/usr/bin"; "HOME=/root"]))) ["sha256:abc123"].

(** [builder().cmd(..)] and [builder().network(..)]. *)
Definition opts_cmd (c : list string) : CreateContainerOpts :=
  mkCreateContainerOpts ∅ ∅ [] Bridge (Some c) [] None.
Definition opts_network (m : NetworkMode) : CreateContainerOpts :=
  mkCreateContainerOpts ∅ ∅ [] m None [] None.

Definition build_labels_creates_hashmap : bool :=
  let opts := with_label "version" "1.0" (with_label "app" "test" create_opts_default) in
  let labels := build_labels test_image_config opts in
  assert_eq (labels !! "app") (Some "test") && assert_eq (labels !! "version") (Some "1.0").

Definition build_mounts_creates_oci_mounts : bool :=
  let opts := with_mount_ro "/host/config" "/container/config"
                (with_mount "/host/data" "/container/data" create_opts_default) in
  match build_mounts opts with
  | [m0; m1] =>
      assert_eq (m_source m0) (Some "/host/data") && assert_eq (m_destination m0) "/container/data"
      && assert_eq (m_source m1) (Some "/host/config")
      && match m_options m1 with Some o => bool_decide ("ro" ∈ o) | None => false end
  | _ => false
  end.

Definition build_args_uses_entrypoint_and_cmd : bool :=
  assert_eq (build_args test_image_config_with_entrypoint create_opts_default)
    ["/entrypoint.sh"; "--flag"].

Definition build_args_falls_back_to_shell : bool :=
  assert_eq (build_args test_image_config create_opts_default) ["/bin/sh"].

Definition build_args_cmd_override_replaces_image_args : bool :=
  assert_eq (build_args test_image_config_with_entrypoint (opts_cmd ["sleep"; "infinity"]))
    ["sleep"; "infinity"].

Definition build_args_cmd_override_on_empty_image : bool :=
  assert_eq (build_args test_image_config (opts_cmd ["/bin/my-app"; "--verbose"]))
    ["/bin/my-app"; "--verbose"].

Definition build_args_opts_without_cmd_uses_image : bool :=
  let opts := with_label "app" "test" create_opts_default in
  assert_eq (build_args test_image_config_with_entrypoint opts) ["/entrypoint.sh"; "--flag"].

Definition create_container_opts_cmd_builder : bool :=
  assert_eq (cmd (opts_cmd ["sleep"; "300"])) (Some ["sleep"; "300"]).

Definition build_cwd_uses_image_working_dir : bool :=
  assert_eq (build_cwd test_image_config_with_entrypoint) "/app".

Definition build_cwd_defaults_to_root : bool := assert_eq (build_cwd test_image_config) "/".

Definition build_merged_env_combines_image_and_opts : bool :=
  let opts := with_env "PATH" "/custom" (with_env "MY_VAR" "my_value" create_opts_default) in
  let env := build_merged_env test_image_config_with_entrypoint opts in
  bool_decide ("MY_VAR=my_value" ∈ env) && bool_decide ("HOME=/root" ∈ env)
  && assert_eq (List.filter (starts_with "PATH=") env) ["PATH=/custom"].

Definition process_of (spec : Result OciSpec) : option OciProcess := s ← ok spec; sp_process s.

Definition build_oci_spec_succeeds : bool :=
  let opts := with_env "TEST" "value" create_opts_default in
  let spec := build_oci_spec test_image_config opts None in
  match ok spec, process_of spec with
  | Some s, Some process =>
      assert_eq (sp_version s) "1.0.2"
      && match pr_env process with Some env => bool_decide ("TEST=value" ∈ env) | None => false end
  | _, _ => false
  end.

Definition build_oci_spec_uses_image_entrypoint : bool :=
  match process_of (build_oci_spec test_image_config_with_entrypoint create_opts_default None) with
  | Some process =>
      assert_eq (pr_args process) ["/entrypoint.sh"; "--flag"] && assert_eq (pr_cwd process) "/app"
  | None => false
  end.

Definition spec_to_any_serializes_correctly : bool :=
  match build_oci_spec test_image_config create_opts_default None with
  | Ok spec =>
      match spec_to_any (L := demo_libs_with [(str_bytes "spec", spec)] [] []) spec with
      | Ok any =>
          assert_eq (type_url any) "types.containerd.io/opencontainers/runtime-spec/1/Spec"
          && assert_ne (value any) []
      | Err _ => false
      end
  | Err _ => false
  end.

Definition create_container_opts_builder_works : bool :=
  let opts := with_mount "/src" "/dst" (with_label "name" "test"
                (with_env "KEY" "value" create_opts_default)) in
  assert_eq (size (env opts)) 1 && assert_eq (size (labels opts)) 1
  && assert_eq (length (mounts opts)) 1.

Definition compute_chain_id_single_layer : bool :=
  let d := "sha256:45f3ea5848e8a25ca27718b640a21ffd8c8745d342a24e1d4ddfc8c449b0a724" in
  assert_eq (compute_chain_id [d]) d.

Definition compute_chain_id_multiple_layers : bool :=
  let chain_id := compute_chain_id ["sha256:aaaa"; "sha256:bbbb"] in
  starts_with "sha256:" chain_id && assert_ne chain_id "sha256:aaaa"
  && assert_ne chain_id "sha256:bbbb".

Definition compute_chain_id_empty : bool := assert_eq (compute_chain_id []) "".

Definition network_opts_default_is_bridge : bool :=
  assert_eq (network_mode create_opts_default) Bridge.

Definition has_netns (l : list LinuxNamespaceType) : bool := bool_decide (NsNetwork ∈ l).

Definition network_mode_host_removes_network_namespace : bool :=
  negb (has_netns (build_namespaces Host)).
Definition network_mode_bridge_has_network_namespace : bool :=
  has_netns (build_namespaces Bridge).
Definition network_mode_isolated_has_network_namespace : bool :=
  has_netns (build_namespaces Isolated).

Definition create_container_opts_host_network_builder : bool :=
  assert_eq (network_mode (opts_network Host)) Host.
Definition create_container_opts_network_mode_builder : bool :=
  assert_eq (network_mode (opts_network Isolated)) Isolated.

Definition build_oci_spec_host_network_omits_netns : bool :=
  match build_oci_spec test_image_config (opts_network Host) None with
  | Ok spec => negb (has_netns (sp_namespaces spec))
  | Err _ => false
  end.

Lemma container_tests :
  forallb id [build_labels_creates_hashmap; build_mounts_creates_oci_mounts;
    build_args_uses_entrypoint_and_cmd; build_args_falls_back_to_shell;
    build_args_cmd_override_replaces_image_args; build_args_cmd_override_on_empty_image;
    build_args_opts_without_cmd_uses_image; create_container_opts_cmd_builder;
    build_cwd_uses_image_working_dir; build_cwd_defaults_to_root;
    build_merged_env_combines_image_and_opts; build_oci_spec_succeeds;
    build_oci_spec_uses_image_entrypoint; spec_to_any_serializes_correctly;
    create_container_opts_builder_works; compute_chain_id_single_layer;
    compute_chain_id_multiple_layers; compute_chain_id_empty; network_opts_default_is_bridge;
    network_mode_host_removes_network_namespace; network_mode_bridge_has_network_namespace;
    network_mode_isolated_has_network_namespace; create_container_opts_host_network_builder;
    create_container_opts_network_mode_builder; build_oci_spec_host_network_omits_netns] = true.
Proof. vm_compute. reflexivity. Qed.

(** ** [src/task.rs] *)
Definition build_create_task_request_sets_container_id : bool :=
  let req := build_create_task_request "test-container" [] "/logs/stdout" "/logs/stderr" in
  assert_eq (ct_container_id req) "test-container" && negb (ct_terminal req)
  && assert_eq (ct_stdin req) "" && assert_eq (ct_stdout req) "/logs/stdout"
  && assert_eq (ct_stderr req) "/logs/stderr".

Definition build_create_task_request_includes_rootfs : bool :=
  let mount := mkRootMount "overlay" "/some/path" ["lowerdir=/a"; "upperdir=/b"] in
  let req := build_create_task_request "test-container" [mount] "" "" in
  match ct_rootfs req with [m] => assert_eq (rm_type m) "overlay" | _ => false end.

(** ** [src/image.rs] *)
Definition build_source_sets_reference : bool :=
  let image := "docker.io/library/alpine:latest" in
  assert_eq (reference (build_source image)) image.

Definition build_destination_sets_name_and_unpacks : bool :=
  let image := "docker.io/library/alpine:latest" in
  let dest := build_destination image in
  assert_eq (is_name dest) image
  && match is_unpacks dest with
     | [unpack] =>
         assert_eq (uc_snapshotter unpack) DEFAULT_SNAPSHOTTER
         && match uc_platform unpack with
            | Some p => assert_eq (os p) "linux" && assert_eq (architecture p) oci_arch
            | None => false
            end
     | _ => false
     end.

(** On x86_64 and on aarch64. *)
Definition host_libs (arch : string) : Libs :=
  let L := demo_libs_with [] [] [] in
  mkLibs (@oci_build L) (@get_default_namespaces L) (@spec_to_vec L) (@spec_from_slice L)
    (@process_to_vec L) (@json_from_slice L) (@image_config_from_slice L) (@sha256 L) arch.

Definition arch_of_destination (d : ImageStore) : option string :=
  u ← head (is_unpacks d); architecture <$> uc_platform u.

Definition build_destination_uses_current_arch : bool :=
  assert_eq (arch_of_destination (@build_destination (host_libs "x86_64") "test:latest"))
    (Some "amd64")
  && assert_eq (arch_of_destination (@build_destination (host_libs "aarch64") "test:latest"))
       (Some "arm64").

Definition oci_arch_maps_rust_names_to_oci_names : bool :=
  forallb (fun a => assert_eq (@oci_arch (host_libs a))
    (match a with "x86_64" => "amd64" | "aarch64" => "arm64" | other => other end))
    ["x86_64"; "aarch64"; "riscv64"; "s390x"].

Lemma task_image_tests :
  forallb id [build_create_task_request_sets_container_id;
    build_create_task_request_includes_rootfs; build_source_sets_reference;
    build_destination_sets_name_and_unpacks; build_destination_uses_current_arch;
    oci_arch_maps_rust_names_to_oci_names] = true.
Proof. vm_compute. reflexivity. Qed.

(** ** [src/connect.rs]

    The file system is what a test creates: the entries of one directory, and
    the socket paths that exist.  [PathBuf::from] splits at slashes. *)
Fixpoint split_path (cur s : string) : list string :=
  match s with
  | EmptyString => if decide (cur = "") then [] else [cur]
  | String a s =>
      if Ascii.eqb a "/"%char
      then (if decide (cur = "") then [] else [cur]) ++ split_path "" s
      else split_path (cur +:+ String a EmptyString) s
  end.
Definition path_from (s : string) : path :=
  (if starts_with "/" s then ["/"] else []) ++ split_path "" s.

Definition no_dir (p : path) : option (list DirEntry) := None.
Definition default_path (pl : Platform) : path := @default_socket_path demo_env pl no_dir.
Definition resolved (pl : Platform) : option path -> option string -> path :=
  @resolve_socket_path_with demo_env pl no_dir path_from.
Definition on_platforms (f : Platform -> bool) : bool := f MacOs && f OtherUnix && f NotUnix.

Definition resolve_explicit_path_takes_precedence : bool :=
  on_platforms (fun pl => assert_eq (resolved pl (Some (path_from "/my/socket.sock")) None)
    (path_from "/my/socket.sock")).

Definition resolve_env_var_overrides_default : bool :=
  on_platforms (fun pl => assert_eq (resolved pl None (Some "/from/env.sock"))
    (path_from "/from/env.sock")).

Definition resolve_empty_env_var_falls_through : bool :=
  on_platforms (fun pl => assert_eq (resolved pl None (Some "")) (default_path pl)).

Definition resolve_unset_env_var_falls_through : bool :=
  on_platforms (fun pl => assert_eq (resolved pl None None) (default_path pl)).

Definition resolve_explicit_beats_env_var : bool :=
  on_platforms (fun pl => assert_eq
    (resolved pl (Some (path_from "/explicit.sock")) (Some "/from/env.sock"))
    (path_from "/explicit.sock")).

Definition tmp : path := path_from "/tmp/x".
Definition make_colima_profile (name : string) (with_sock : bool) : DirEntry :=
  mkDirEntry name true with_sock.

Definition find_colima_socket_returns_none_for_missing_dir : bool :=
  assert_eq (find_colima_socket_in (pjoin tmp "does-not-exist") None) None.

Definition find_colima_socket_returns_none_when_empty : bool :=
  assert_eq (find_colima_socket_in tmp (Some [])) None.

Definition find_colima_socket_returns_none_when_no_profile_has_sock : bool :=
  assert_eq (find_colima_socket_in tmp
    (Some [make_colima_profile "default" false; make_colima_profile "custom" false])) None.

Definition find_colima_socket_prefers_non_default_profile : bool :=
  match find_colima_socket_in tmp
    (Some [make_colima_profile "default" true; make_colima_profile "containerd-dev" true]) with
  | Some sock => negb (under (pjoin tmp "default") sock)
                 && assert_eq (last sock) (Some "containerd.sock")
  | None => false
  end.

Definition find_colima_socket_falls_back_to_default_when_only_option : bool :=
  assert_eq (find_colima_socket_in tmp (Some [make_colima_profile "default" true]))
    (Some (pjoin (pjoin tmp "default") "containerd.sock")).

Definition find_colima_socket_skips_profile_without_sock : bool :=
  assert_eq (find_colima_socket_in tmp
    (Some [make_colima_profile "custom" false; make_colima_profile "default" true]))
    (Some (pjoin (pjoin tmp "default") "containerd.sock")).

(** [connect(Some(path))] where the paths of [there] exist and opening a
    socket gives [answer]. *)
Definition connect_to (there : list path) (answer : io unit) (p : path) : Result Client :=
  @connect demo_env OtherUnix no_dir path_from (fun _ => None)
    (fun p => bool_decide (p ∈ there)) (fun _ => answer) (Some p).

Definition connect_socket_not_found : bool :=
  let p := path_from "/path/to/nowhere.sock" in
  match connect_to [] (Err KindNotFound) p with
  | Err (SocketNotFound q) => assert_eq q p
  | _ => false
  end.

Definition connect_happy_path : bool :=
  let sock_path := pjoin tmp "containerd.sock" in
  is_ok (connect_to [sock_path] (Ok tt) sock_path).

Definition connect_connection_refused : bool :=
  let sock_path := pjoin tmp "containerd.sock" in
  match connect_to [sock_path] (Err KindConnectionRefused) sock_path with
  | Err (ConnectionRefused p) => assert_eq p sock_path
  | _ => false
  end.

Lemma connect_tests :
  forallb id [resolve_explicit_path_takes_precedence; resolve_env_var_overrides_default;
    resolve_empty_env_var_falls_through; resolve_unset_env_var_falls_through;
    resolve_explicit_beats_env_var; find_colima_socket_returns_none_for_missing_dir;
    find_colima_socket_returns_none_when_empty;
    find_colima_socket_returns_none_when_no_profile_has_sock;
    find_colima_socket_prefers_non_default_profile;
    find_colima_socket_falls_back_to_default_when_only_option;
    find_colima_socket_skips_profile_without_sock; connect_socket_not_found; connect_happy_path;
    connect_connection_refused] = true.
Proof. vm_compute. reflexivity. Qed.

(** ** [src/readiness.rs] *)
Definition backoff_interval_growth : bool :=
  let step interval := N.min (interval * MULTIPLIER) MAX_BACKOFF in
  let steps := (fun n => Nat.iter n step INITIAL_INTERVAL) <$> seq 0 6 in
  assert_eq steps ((from_millis <$> [100; 200; 400; 800; 1600]%N) ++ [from_secs 2]).

(** [parse_healthcheck] of a text that serde_json reads as [v]. *)
Definition healthcheck_of (v : Json) : option HealthCheck :=
  parse_healthcheck (L := demo_libs_with [] [(str_bytes "json", v)] []) (str_bytes "json").

Definition jnum (n : N) : Json := JNumber_ (PosInt n).
Definition jstrs (l : list string) : Json := JArray (JString <$> l).
Definition with_healthcheck (fields : list (string * Json)) : Json :=
  JObject [("config", JObject [("Healthcheck", JObject fields)])].

Definition parse_healthcheck_cmd_format : bool :=
  match healthcheck_of (with_healthcheck
    [("Test", jstrs ["CMD"; "mongosh"; "--eval"; "db.runCommand({ping:1})"]);
     ("Interval", jnum 30000000000); ("Timeout", jnum 30000000000); ("Retries", jnum 3);
     ("StartPeriod", jnum 5000000000)]) with
  | Some hc =>
      assert_eq (hc_test hc) ["mongosh"; "--eval"; "db.runCommand({ping:1})"]
      && assert_eq (hc_interval hc) (from_secs 30) && assert_eq (hc_timeout hc) (from_secs 30)
      && assert_eq (hc_start_period hc) (from_secs 5)
  | None => false
  end.

Definition parse_healthcheck_cmd_shell_format : bool :=
  match healthcheck_of (with_healthcheck
    [("Test", jstrs ["CMD-SHELL"; "curl -f http://localhost/ || exit 1"]);
     ("Interval", jnum 10000000000)]) with
  | Some hc =>
      assert_eq (hc_test hc) ["/bin/sh"; "-c"; "curl -f http://localhost/ || exit 1"]
      && assert_eq (hc_interval hc) (from_secs 10) && assert_eq (hc_timeout hc) DEFAULT_HC_TIMEOUT
      && assert_eq (hc_start_period hc) 0%N
  | None => false
  end.

Definition no_healthcheck (v : Json) : bool :=
  match healthcheck_of v with None => true | Some _ => false end.

Definition parse_healthcheck_none_returns_none : bool :=
  no_healthcheck (with_healthcheck [("Test", jstrs ["NONE"])]).
Definition parse_healthcheck_missing_healthcheck : bool :=
  no_healthcheck (JObject [("config", JObject [])]).
Definition parse_healthcheck_missing_config : bool :=
  no_healthcheck (JObject [("architecture", JString "amd64")]).
Definition parse_healthcheck_empty_test_array : bool :=
  no_healthcheck (with_healthcheck [("Test", jstrs [])]).

Definition parse_healthcheck_defaults_applied : bool :=
  match healthcheck_of (with_healthcheck [("Test", jstrs ["CMD"; "true"])]) with
  | Some hc =>
      assert_eq (hc_test hc) ["true"] && assert_eq (hc_interval hc) DEFAULT_HC_INTERVAL
      && assert_eq (hc_timeout hc) DEFAULT_HC_TIMEOUT && assert_eq (hc_start_period hc) 0%N
  | None => false
  end.

Definition parse_healthcheck_invalid_json : bool :=
  match parse_healthcheck (L := test_libs) (str_bytes "not json") with
  | None => true | Some _ => false
  end.

Definition parse_healthcheck_cmd_shell_missing_command : bool :=
  no_healthcheck (with_healthcheck [("Test", jstrs ["CMD-SHELL"])]).

Definition poll_timing_default_uses_backoff : bool :=
  let timing := poll_timing_default in
  assert_eq (initial_interval timing) INITIAL_INTERVAL && use_backoff timing
  && assert_eq (check_timeout timing) None && assert_eq (start_period timing) 0%N.

Lemma readiness_tests :
  forallb id [backoff_interval_growth; parse_healthcheck_cmd_format;
    parse_healthcheck_cmd_shell_format; parse_healthcheck_none_returns_none;
    parse_healthcheck_missing_healthcheck; parse_healthcheck_missing_config;
    parse_healthcheck_empty_test_array; parse_healthcheck_defaults_applied;
    parse_healthcheck_invalid_json; parse_healthcheck_cmd_shell_missing_command;
    poll_timing_default_uses_backoff] = true.
Proof. vm_compute. reflexivity. Qed.
