(* ===== verification/ScenarioTests.v ===== *)
(** * The unit tests of the crate that need files, a follower or a client

    The other half of file UnitTests.  A test that sleeps so that a background
    task gets its turn runs a round of that task at that point; a temporary
    directory is a path of an empty file system; a client is the demonstration
    environment's.  Two tests of [src/log_tailer.rs] write ten megabytes: what
    they check is computed with the bytes left abstract. *)

From S2P Require Import Prelude RustText Utf8Lossy RustFmt Errors Effects FileSystem Identifier LogCodec LogFiles LogTailer LogFollower FollowHandle World DemoDaemon Bridge ContainerSpec Inspect ClientState Create Clone Snapshot Readiness ClientMethods Exec UnitTests.

(** ** [src/logs.rs], the files *)
Definition ends_in (suffix p : path) : bool :=
  bool_decide (drop (length p - length suffix) p = suffix).

Definition log_paths_for_returns_correct_structure : bool :=
  match log_paths_for demo_home "test-container" with
  | Ok (stdout, stderr) =>
      ends_in ["task-logs"; "test-container"; "stdout"] stdout
      && ends_in ["task-logs"; "test-container"; "stderr"] stderr
  | Err _ => false
  end.

(** A test over an empty file system. *)
Definition with_files (m : FsM bool) : bool := (m (quiet fs_empty)).1.

Definition prepare_and_cleanup_log_files : bool :=
  with_files (
    r ← prepare_log_files demo_home "test-logs-7";
    match r with
    | Ok (stdout, stderr) =>
        a ← path_exists stdout;
        b ← path_exists stderr;
        _ ← cleanup_log_files demo_home "test-logs-7";
        c ← path_exists stdout;
        d ← path_exists stderr;
        mret (a && b && negb c && negb d)
    | Err _ => mret false
    end).

(** ** [src/logs.rs], the follower *)
Definition events : path := ["/"; "tmp"; "cmlog"; "events.log"].

Definition append_bytes (p : path) (b : bytes) : FollowM unit :=
  on_disk (h ← fs_open_append p;
           match h with Ok h => _ ← handle_append h b; mret tt | Err _ => mret tt end).

Definition append_record (p : path) (s : LogStream) (ts_ms : N) (d : bytes) : FollowM unit :=
  append_bytes p (encode_event (mkLogEntry s (epoch_plus_millis ts_ms) d)).

(** A round of the follower's task, and a test that judges what it sent. *)
Definition follower_round : FollowM unit := _ ← poll_events_once events; mret tt.

Definition follower_test (m : FollowM unit) (expected : list (LogStream * bytes)) : bool :=
  let s := (m (mkFollow events_default chan_open (quiet fs_empty))).2 in
  assert_eq ((fun r => e ← ok r; Some (stream e, data e)) <$> sent (tx s)) (Some <$> expected).

Definition follower_reads_existing_records : bool :=
  follower_test (
    _ ← append_record events Stdout 1 (line "first");
    _ ← append_record events Stdout 2 (line "second");
    follower_round)
    [(Stdout, line "first"); (Stdout, line "second")].

Definition follower_picks_up_records_after_start : bool :=
  follower_test (
    _ ← on_disk (fs_write events []);
    _ ← follower_round;
    _ ← append_record events Stdout 1 (line "later");
    follower_round)
    [(Stdout, line "later")].

Definition follower_defers_partial_record_across_polls : bool :=
  let full := encode_event (mkLogEntry Stdout (epoch_plus_millis 1) (line "hello")) in
  let split := length full / 2 in
  follower_test (
    _ ← on_disk (fs_write events (take split full));
    _ ← follower_round;
    _ ← append_bytes events (drop split full);
    follower_round)
    [(Stdout, line "hello")].

Definition follower_emits_stdout_and_stderr_in_record_order : bool :=
  follower_test (
    _ ← append_record events Stdout 1 (line "out");
    _ ← append_record events Stderr 2 (line "err");
    follower_round)
    [(Stdout, line "out"); (Stderr, line "err")].

Definition follower_handles_missing_events_then_appears : bool :=
  follower_test (
    _ ← follower_round;
    _ ← append_record events Stdout 1 (line "appeared");
    follower_round)
    [(Stdout, line "appeared")].

Definition follower_with_stop_signal_drains_then_ends : bool :=
  let m :=
    _ ← append_record events Stdout 1 (line "before-stop");
    _ ← follower_round;
    _ ← append_record events Stdout 2 (line "after-stop");
    follow_loop events [FStop] in
  let r := m (mkFollow events_default chan_open (quiet fs_empty)) in
  match r.1 with FDone => true | FRunning => false end
  && follower_test (_ ← m; mret tt) [(Stdout, line "before-stop"); (Stdout, line "after-stop")].

Definition follower_resets_on_rotation : bool :=
  follower_test (
    _ ← append_record events Stdout 1 (line "old");
    _ ← follower_round;
    _ ← on_disk (fs_rename events (with_extension events "log.1"));
    _ ← append_record events Stdout 2 (line "new");
    follower_round)
    [(Stdout, line "old"); (Stdout, line "new")].

(** The files after [m], to start a follower on. *)
Definition files_after (m : FollowM unit) : FsSt :=
  disk (m (mkFollow events_default chan_open (quiet fs_empty))).2.

Definition follower_streams_via_stream_trait : bool :=
  let d := files_after (append_record events Stdout 1 (line "first")) in
  match (poll_next (poll_task (start events 1 d))).1 with
  | Ready (Some (Ok entry)) => assert_eq (data entry) (line "first")
  | _ => false
  end.

Definition follower_drop_aborts_task : bool :=
  let f := start events 1 (quiet fs_empty) in
  negb (is_finished (task f)) && is_finished (task (follower_drop f)).

Lemma logs_tests :
  forallb id [log_paths_for_returns_correct_structure; prepare_and_cleanup_log_files;
    follower_reads_existing_records; follower_picks_up_records_after_start;
    follower_defers_partial_record_across_polls; follower_emits_stdout_and_stderr_in_record_order;
    follower_drop_aborts_task; follower_handles_missing_events_then_appears;
    follower_with_stop_signal_drains_then_ends; follower_resets_on_rotation;
    follower_streams_via_stream_trait] = true.
Proof. vm_compute. reflexivity. Qed.

(** ** [src/log_tailer.rs] *)
Definition no_rotate_when_under_threshold : bool :=
  with_files (
    _ ← fs_write events (str_bytes "small");
    _ ← rotate_if_needed events 100;
    a ← path_exists events;
    b ← path_exists (with_extension events "log.1");
    mret (a && negb b)).

(** [vec![0u8; n]]. *)
Definition zeros (n : N) : bytes := repeat Byte.x00 (N.to_nat n).

(** [rotate_if_needed] on files that were just written. *)
Definition after_rotation (written : list (path * bytes)) (incoming : N) : bool * FS :=
  let s := foldr (fun f s => create_at f.1 f.2 s) fs_empty written in
  let r := rotate_if_needed events incoming (quiet s) in
  (is_ok r.1, fs r.2).

Definition rotate_when_threshold_exceeded : bool :=
  let '(ok, s) := after_rotation [(events, zeros (EVENTS_ROTATE_BYTES - 100))] 200 in
  ok && bool_decide (is_Some (fs_dir s !! with_extension events "log.1"))
  && bool_decide (is_Some (fs_dir s !! events))
  && assert_eq (file s events) (Some []).

Definition rotate_shifts_existing_files_up : bool :=
  let '(ok, s) := after_rotation
    [(events, zeros EVENTS_ROTATE_BYTES); (with_extension events "log.1", str_bytes "older");
     (with_extension events "log.2", str_bytes "oldest")] 1 in
  ok && assert_eq (file s (with_extension events "log.2")) (Some (str_bytes "older"))
  && assert_eq (file s (with_extension events "log.3")) (Some (str_bytes "oldest")).

(** The rotation looks only at the length of the current file. *)
Lemma after_rotation_past z older incoming :
  (EVENTS_ROTATE_BYTES < blen z + incoming)%N ->
  after_rotation ((events, z) :: older) incoming =
    (true, rotate_fs events
      (foldr (fun f s => create_at f.1 f.2 s) fs_empty ((events, z) :: older))).
Proof.
  intros H. unfold after_rotation. cbv zeta. set (s := foldr _ _ _).
  assert (E : file_or_empty s events = z).
  { unfold s, file_or_empty, file. cbn [foldr fst snd fs_dir create_at]. rewrite lookup_insert_eq.
    cbn. apply (contents_create_new events z). }
  pose proof (rotate_quiet ["/"; "tmp"; "cmlog"] incoming s) as R.
  change (["/"; "tmp"; "cmlog"] ++ ["events.log"]) with events in R. rewrite R, E.
  unfold saturating_add, U64_MAX. unfold EVENTS_ROTATE_BYTES in *.
  by rewrite (proj2 (N.leb_gt _ _)) by lia.
Qed.

Lemma blen_zeros n : blen (zeros n) = n.
Proof. unfold zeros, blen. rewrite repeat_length. lia. Qed.

Definition raw_out : path := ["/"; "tmp"; "cmlog"; "stdout"].
Definition raw_err : path := ["/"; "tmp"; "cmlog"; "stderr"].

Definition tailer_round (f : Fired) : ST (LoopState * FsSt) unit :=
  _ ← tailer_loop raw_out raw_err events [mkRound 1 1 f 2 2]; mret tt.

Definition write_raw (p : path) (b : bytes) : ST (LoopState * FsSt) unit :=
  fun s => (tt, (s.1, (fs_write p b s.2).2)).

Definition stop_drains_pending_writes : bool :=
  let m :=
    _ ← write_raw raw_out [];
    _ ← write_raw raw_err [];
    _ ← tailer_round LogTailer.Slept;
    _ ← write_raw raw_out (line "first-line");
    _ ← write_raw raw_err (line "err-line");
    _ ← tailer_round LogTailer.Slept;
    _ ← write_raw raw_out (line "first-line" ++ line "second-line");
    tailer_round StopSignal in
  let s := (m (loop_default, quiet fs_empty)).2.2 in
  let data_concat := concat (data <$> parse_events_file (file_or_empty (fs s) events)) in
  contains (bytes_str (line "first-line")) (bytes_str data_concat)
  && contains (bytes_str (line "second-line")) (bytes_str data_concat).

Lemma tailer_tests :
  forallb id [no_rotate_when_under_threshold; stop_drains_pending_writes] = true.
Proof. vm_compute. reflexivity. Qed.

Lemma rotation_tests :
  rotate_when_threshold_exceeded = true /\ rotate_shifts_existing_files_up = true.
Proof.
  unfold rotate_when_threshold_exceeded, rotate_shifts_existing_files_up.
  rewrite !after_rotation_past by (rewrite blen_zeros; unfold EVENTS_ROTATE_BYTES; lia).
  generalize (zeros (EVENTS_ROTATE_BYTES - 100)), (zeros EVENTS_ROTATE_BYTES).
  intros z1 z2. vm_compute. auto.
Qed.

(** ** [src/client.rs]

    A new client over the demonstration environment; [Client::from_parts]
    needs no daemon. *)
Abbreviation ClientM := (ST (@World demo_env ImageMetadata)).

Definition dummy_metadata : ImageMetadata :=
  mkImageMetadata "sha256:abc" (mkImageConfiguration None ["sha256:abc"]) (str_bytes "{}").

Definition client_test (m : Client -> ClientM bool) : bool :=
  (m from_parts (demo_world demo_empty)).1.

(** [c.with_namespace(ns)]; a panic fails the test. *)
Definition in_namespace (c : Client) (ns : string) (m : Client -> ClientM bool) : ClientM bool :=
  match @with_namespace demo_env c ns with Some other => m other | None => mret false end.

Definition is_some {A} (o : option A) : bool := match o with Some _ => true | None => false end.
Definition uptime_known (c : Client) (id : string) : ClientM bool :=
  t ← task_uptime c id; mret (is_some t).
Definition cached (digest : string) : ClientM bool :=
  m ← lookup_image_metadata digest; mret (is_some m).

Definition image_cache_starts_empty : bool :=
  client_test (fun c =>
    n ← image_cache_len;
    hit ← cached "sha256:abc";
    mret (assert_eq n 0 && negb hit)).

Definition image_cache_store_then_lookup : bool :=
  client_test (fun c =>
    _ ← store_image_metadata "sha256:abc" dummy_metadata;
    n ← image_cache_len;
    hit ← lookup_image_metadata "sha256:abc";
    mret (assert_eq n 1 && assert_eq (chain_id <$> hit) (Some "sha256:abc"))).

Definition image_cache_miss_for_other_digest : bool :=
  client_test (fun c =>
    _ ← store_image_metadata "sha256:abc" dummy_metadata;
    hit ← cached "sha256:def";
    mret (negb hit)).

Definition image_cache_clear_drops_all_entries : bool :=
  client_test (fun c =>
    _ ← store_image_metadata "sha256:abc" dummy_metadata;
    _ ← store_image_metadata "sha256:def" dummy_metadata;
    n ← image_cache_len;
    _ ← clear_image_cache;
    k ← image_cache_len;
    mret (assert_eq n 2 && assert_eq k 0)).

Definition image_cache_shared_with_clone_and_namespace : bool :=
  client_test (fun c => in_namespace c "other" (fun other =>
    _ ← store_image_metadata "sha256:abc" dummy_metadata;
    n ← image_cache_len;
    hit ← cached "sha256:abc";
    mret (assert_eq n 1 && hit))).

Definition task_uptime_none_until_recorded : bool :=
  client_test (fun c =>
    a ← uptime_known c "c1";
    _ ← record_task_start c "c1";
    b ← uptime_known c "c1";
    mret (negb a && b)).

Definition task_uptime_evicted_by_forget : bool :=
  client_test (fun c =>
    _ ← record_task_start c "c1";
    _ ← forget_task_start c "c1";
    a ← uptime_known c "c1";
    mret (negb a)).

Definition task_uptime_keyed_per_namespace : bool :=
  client_test (fun c =>
    _ ← record_task_start c "c1";
    in_namespace c "other" (fun other =>
      a ← uptime_known other "c1";
      _ ← record_task_start other "c1";
      b ← uptime_known other "c1";
      d ← uptime_known c "c1";
      mret (negb a && b && d))).

Definition ns_req_attaches_containerd_namespace_metadata : bool :=
  client_test (fun c => in_namespace c "attached-ns" (fun c =>
    _ ← rpc c Version;
    w ← get_st;
    mret (match last (trace w) with
          | Some (Sent ns Version) => assert_eq ns "attached-ns"
          | _ => false
          end))).

Definition bad_namespace : string := "contains" +:+ nl +:+ "newline".

Definition try_with_namespace_rejects_invalid : bool :=
  is_err (@try_with_namespace demo_env from_parts bad_namespace).

(** [should_panic]. *)
Definition with_namespace_panics_on_invalid : bool :=
  negb (is_some (@with_namespace demo_env from_parts bad_namespace)).

Definition with_namespace_shares_image_cache : bool :=
  client_test (fun c =>
    _ ← store_image_metadata "sha256:abc" dummy_metadata;
    in_namespace c "other" (fun other =>
      n ← image_cache_len;
      hit ← cached "sha256:abc";
      mret (assert_eq n 1 && hit))).

Definition with_namespace_shares_task_start_times_arc_but_keyed_per_ns : bool :=
  client_test (fun c =>
    _ ← record_task_start c "c1";
    in_namespace c "other" (fun other =>
      a ← uptime_known other "c1";
      b ← uptime_known c "c1";
      mret (negb a && b))).

Lemma client_tests :
  forallb id [image_cache_starts_empty; image_cache_store_then_lookup;
    image_cache_miss_for_other_digest; image_cache_clear_drops_all_entries;
    image_cache_shared_with_clone_and_namespace; task_uptime_none_until_recorded;
    task_uptime_evicted_by_forget; task_uptime_keyed_per_namespace;
    ns_req_attaches_containerd_namespace_metadata; try_with_namespace_rejects_invalid;
    with_namespace_panics_on_invalid; with_namespace_shares_image_cache;
    with_namespace_shares_task_start_times_arc_but_keyed_per_ns] = true.
Proof. vm_compute. reflexivity. Qed.

(** ** [src/port_forward.rs] *)

(** An environment in which another listener holds every port. *)
Definition taken_env : Env := {|
  Ext := Demo;
  handle := @handle demo_env;
  overshoot := @overshoot demo_env;
  fresh_uuid := @fresh_uuid demo_env;
  choose := @choose demo_env;
  bind_ephemeral := @bind_ephemeral demo_env;
  bind_port := fun _ d => (Err (BindFailed "address in use"), d);
  tcp_connect := @tcp_connect demo_env;
  home_dir := @home_dir demo_env;
  metadata_ok := @metadata_ok demo_env;
  process_id := @process_id demo_env;
  path_text := @path_text demo_env
|}.

Definition start_port_forward_fails_if_port_in_use : bool :=
  let w : @World taken_env unit := mkWorld (demo_empty : @Ext taken_env) 0 (quiet fs_empty) []
    false ∅ ∅ ∅ 0 [] in
  match (start_port_forward "test" 50123 80 (target_addr port_forward_opts_default) w).1 with
  | Err (PortForward _) => true
  | _ => false
  end.

(** ** [src/exec.rs] *)
Definition exec_output_str_lossy_on_non_utf8 : bool :=
  let output := mkExecOutput (str_bytes "ok" ++ [Byte.xff; Byte.xfe] ++ str_bytes "more") [] 0
    false false in
  let s := stdout_str output in
  starts_with "ok" s && ends_with "more" s && contains (bytes_str REPLACEMENT) s.

Definition read_capped_truncates_oversize : bool :=
  with_files (
    _ ← fs_write ["/"; "tmp"; "big"] (repeat Byte.x00 1024);
    r ← read_capped ["/"; "tmp"; "big"] 100;
    mret (match r with
          | Ok (buf, truncated) => assert_eq (length buf) 100 && truncated
          | Err _ => false
          end)).

Definition read_capped_passthrough_when_under_cap : bool :=
  with_files (
    _ ← fs_write ["/"; "tmp"; "small"] (str_bytes "hello");
    r ← read_capped ["/"; "tmp"; "small"] 100;
    mret (match r with
          | Ok (buf, truncated) => assert_eq buf (str_bytes "hello") && negb truncated
          | Err _ => false
          end)).

Definition generate_exec_id_is_unique : bool :=
  client_test (fun _ =>
    id1 ← generate_exec_id;
    id2 ← generate_exec_id;
    mret (assert_ne id1 id2 && starts_with "exec-" id1 && starts_with "exec-" id2)).

Definition build_exec_request_sets_fields : bool :=
  let req := build_exec_request (E := demo_env) "my-container" "exec-1" ["tmp"; "stdout"]
    ["tmp"; "stderr"] (mkAny "test" [Byte.x01; Byte.x02; Byte.x03]) in
  assert_eq (ep_container_id req) "my-container" && assert_eq (ep_exec_id req) "exec-1"
  && assert_eq (ep_stdout req) "tmp/stdout" && assert_eq (ep_stderr req) "tmp/stderr"
  && assert_eq (ep_stdin req) "" && negb (ep_terminal req) && is_some (ep_spec req).

Definition build_exec_request_empty_stdin : bool :=
  assert_eq (ep_stdin (build_exec_request (E := demo_env) "c1" "e1" ["a"; "stdout"]
    ["a"; "stderr"] (mkAny "" []))) "".

Definition there (p : path) : ClientM bool := on_files (path_exists p).

Definition create_io_dir_creates_both_files : bool :=
  client_test (fun _ =>
    r ← create_io_dir;
    match r with
    | Ok (_, stdout, stderr) => a ← there stdout; b ← there stderr; mret (a && b)
    | Err _ => mret false
    end).

Definition io_dir_guard_cleans_up_on_drop : bool :=
  client_test (fun _ =>
    r ← create_io_dir;
    match r with
    | Ok (dir_path, stdout, stderr) =>
        a ← there stdout;
        b ← there stderr;
        _ ← drop_io_dir dir_path;
        c ← there stdout;
        d ← there stderr;
        mret (a && b && negb c && negb d)
    | Err _ => mret false
    end).

Lemma exec_tests :
  forallb id [start_port_forward_fails_if_port_in_use; exec_output_str_lossy_on_non_utf8;
    read_capped_truncates_oversize;
    read_capped_passthrough_when_under_cap; generate_exec_id_is_unique;
    build_exec_request_sets_fields; build_exec_request_empty_stdin;
    create_io_dir_creates_both_files; io_dir_guard_cleans_up_on_drop] = true.
Proof. vm_compute. reflexivity. Qed.
