(* ===== verification/Examples.v ===== *)
(** * The example programs ([src/examples/])

    [main] of the examples that drive the library's own API, as programs over
    the client methods of file ClientMethods: what they print is left out, a
    panic of [with_namespace] is an error, and an answer of [wait_ready] that
    the fuel does not reach is one too.  Run on the demonstration daemon they
    exercise creation, readiness, exec, clones, snapshots and resets together;
    the lemmas say what they leave behind. *)

From S2P Require Import Prelude RustText RustFmt Errors Effects FileSystem Identifier LogCodec LogTailer World DemoDaemon Loops Bridge ContainerSpec Inspect ClientState Task Create ClientApi Clone Snapshot Exec Readiness Connect ClientMethods.

Section examples.
Context {E : Env} {L : Libs} (fuel : nat).
Abbreviation M := (ST (World ImageMetadata)).

(** [containerd_manager::connect(None)?.with_namespace(ns)]. *)
Definition connected (local : Result Client) (ns : string) : Result Client :=
  let? client := local in
  ok_or (InvalidArgument "namespace not valid") (with_namespace client ns).

(** [if let Ok(id) = client.resolve_name(name).await { let _ = delete }]. *)
Definition clean_up (client : Client) (name : string) (timeout : Duration) : M unit :=
  r ← client_resolve_name client name;
  match r with
  | Ok id => _ ← client_delete_container client id timeout; mret tt
  | Err _ => mret tt
  end.

Definition ready (client : Client) (id : ContainerId) (timeout : Duration)
    (strategy : ReadinessStrategy) : M (Result unit) :=
  r ← client_wait_ready client id timeout strategy fuel;
  mret (match r with Some r => r | None => Err NotImplemented end).

Definition IMAGE : string := "quay.io/mongodb/mongodb-atlas-local:latest".

Definition mongosh (script : string) : list string := ["mongosh"; "--quiet"; "--eval"; script].

(** [examples/clone.rs]. *)
Definition clone_main (local : Result Client) : M (Result unit) :=
  client ←? lift_res (connected local "clone-example");
  let timeout := from_secs 120 in
  _ ← clean_up client "primed" timeout;
  _ ← clean_up client "clone-of-primed" timeout;
  client_pull_image client IMAGE ;;?
  src ←? client_create_container client "primed" IMAGE create_opts_default;
  _ ←? client_start_container client src;
  ready client src timeout SImageHealthcheck ;;?
  _ ←? client_exec client src (mongosh "db.fixture.insertOne({_id: 'sentinel'})");
  dst ←? client_clone_container client src "clone-of-primed";
  _ ←? client_start_container client dst;
  ready client dst timeout SImageHealthcheck ;;?
  _ ←? client_exec client dst (mongosh "print(db.fixture.findOne({_id: 'sentinel'})?._id)");
  _ ←? client_inspect_container client dst;
  client_delete_container client dst timeout ;;?
  client_delete_container client src timeout ;;?
  mret (Ok tt).

(** [examples/snapshot.rs]. *)
Definition described (d : string) : SnapshotContainerOpts := mkSnapshotContainerOpts false (Some d).

Definition snapshot_main (local : Result Client) : M (Result unit) :=
  client ←? lift_res (connected local "snapshot-example");
  let timeout := from_secs 120 in
  let SNAPSHOT_NAME := "atlas-local-sentinel" in
  _ ← clean_up client "primed" timeout;
  _ ← clean_up client "restored" timeout;
  _ ← client_delete_snapshot client SNAPSHOT_NAME;
  client_pull_image client IMAGE ;;?
  primed_id ←? client_create_container client "primed" IMAGE create_opts_default;
  _ ←? client_start_container client primed_id;
  ready client primed_id timeout SImageHealthcheck ;;?
  _ ←? client_exec client primed_id (mongosh "db.fixture.insertOne({_id: 'sentinel'})");
  snapshot_container_with_opts client primed_id SNAPSHOT_NAME
    (described "primed fixture with sentinel doc") ;;?
  client_delete_container client primed_id timeout ;;?
  _ ←? client_list_snapshots client;
  restored_id ←? client_restore_container client SNAPSHOT_NAME "restored";
  _ ←? client_start_container client restored_id;
  ready client restored_id timeout SImageHealthcheck ;;?
  _ ←? client_exec client restored_id (mongosh "print(db.fixture.findOne({_id: 'sentinel'})?._id)");
  client_delete_container client restored_id timeout ;;?
  client_delete_snapshot client SNAPSHOT_NAME ;;?
  mret (Ok tt).

(** [examples/reset.rs]; it compares the port forwards before and after. *)
Definition reset_main (local : Result Client) : M (Result (list (N * N) * list (N * N))) :=
  client ←? lift_res (connected local "reset-example");
  let timeout := from_secs 120 in
  let SNAPSHOT := "primed-baseline" in
  _ ← clean_up client "test-runner" timeout;
  _ ← client_delete_snapshot client SNAPSHOT;
  client_pull_image client IMAGE ;;?
  cid ←? client_create_container client "test-runner" IMAGE create_opts_default;
  _ ←? client_start_container client cid;
  ready client cid timeout SImageHealthcheck ;;?
  _ ←? client_exec client cid (mongosh "db.fixture.insertOne({_id: 'sentinel'})");
  snapshot_container_with_opts client cid SNAPSHOT (described "baseline before mutation") ;;?
  _ ←? client_start_container client cid;
  ready client cid timeout SImageHealthcheck ;;?
  _ ←? client_exec client cid (mongosh ("db.fixture.deleteOne({_id: 'sentinel'}); " +:+
         "db.fixture.insertOne({_id: 'junk'})"));
  before ←? client_inspect_container client cid;
  client_reset_to_snapshot client cid SNAPSHOT ;;?
  _ ←? client_start_container client cid;
  ready client cid timeout SImageHealthcheck ;;?
  after ←? client_inspect_container client cid;
  _ ←? client_exec client cid (mongosh ("print(JSON.stringify({" +:+
         "sentinel: db.fixture.findOne({_id:'sentinel'})?._id," +:+
         "junk: db.fixture.findOne({_id:'junk'})?._id ?? null}))"));
  client_delete_container client cid timeout ;;?
  client_delete_snapshot client SNAPSHOT ;;?
  mret (Ok (ci_port_forwards before, ci_port_forwards after)).

(** [examples/bridge_networking.rs]; [http_get] is a plain TCP exchange. *)
Definition bridge_main (http_get : N -> M (Result string)) (local : Result Client) :
    M (Result unit) :=
  client ←? lift_res (connected local "bridge-demo");
  let name := "nginx-bridge-demo" in
  let image := "docker.io/library/nginx:alpine" in
  _ ← clean_up client name (from_secs 10);
  client_pull_image client image ;;?
  let opts := with_port_binding 18080 80 (with_label "app" "bridge-demo" create_opts_default) in
  id ←? client_create_container client name image opts;
  _ ←? client_start_container client id;
  ready client id (from_secs 30) (STcpPort 18080) ;;?
  _ ←? http_get 18080%N;
  client_delete_container client id (from_secs 10) ;;?
  mret (Ok tt).

(** The streaming loops: what [recv] yields until Ctrl-C, and the labels of
    the lines that are printed. *)
Fixpoint stream_logs (label : LogStream -> string) (yields : list (option (Result LogEntry))) :
    Result (list (string * bytes)) :=
  match yields with
  | [] | None :: _ => Ok []
  | Some (Err e) :: _ => Err e
  | Some (Ok entry) :: rest =>
      let? shown := stream_logs label rest in Ok ((label (stream entry), data entry) :: shown)
  end.

(** [examples/follow_logs.rs]. *)
Definition follow_logs_main (yields : list (option (Result LogEntry))) (local : Result Client) :
    M (Result (list (string * bytes))) :=
  client ←? lift_res (connected local "follow-logs-example");
  let name := "follow-logs-demo" in
  let image := "docker.io/library/busybox:latest" in
  _ ← clean_up client name (from_secs 10);
  client_pull_image client image ;;?
  let opts := mkCreateContainerOpts ∅ ∅ [] Bridge (Some ["sh"; "-c"; join nl
    ["i=0; while :; do";
     "             if [ $((i % 2)) -eq 0 ]; then echo " +:+ DQ +:+ "stdout #$i" +:+ DQ +:+ ";";
     "             else echo " +:+ DQ +:+ "stderr #$i" +:+ DQ +:+ " >&2; fi";
     "             i=$((i+1)); sleep 1";
     "           done"]]) [] None in
  id ←? client_create_container client name image opts;
  _ ←? client_start_container client id;
  _ ←? container_logs_stream id;
  shown ←? lift_res (stream_logs (fun s => match s with Stdout => "out" | Stderr => "ERR" end) yields);
  client_delete_container client id (from_secs 10) ;;?
  mret (Ok shown).

(** [examples/atlas_local.rs]. *)
Definition atlas_local_main (yields : list (option (Result LogEntry))) (local : Result Client) :
    M (Result (list (string * bytes))) :=
  let image := "docker.io/mongodb/mongodb-atlas-local:latest" in
  let name := "atlas-local-1" in
  let timeout := from_secs 30 in
  client ←? lift_res (connected local "atlas-local");
  _ ←? server_version client;
  _ ← clean_up client name timeout;
  client_pull_image client image ;;?
  let opts := mkCreateContainerOpts ∅
    (<["managed-by" := "containerd-manager"]> (<["app" := "mongodb-atlas-local"]> ∅)) [] Host None
    [] None in
  container_id ←? client_create_container client name image opts;
  _ ←? client_start_container client container_id;
  ready client container_id (from_secs 120) SImageHealthcheck ;;?
  _ ←? client_inspect_container client container_id;
  _ ←? client_exec client container_id (mongosh "db.runCommand({ping:1})");
  _ ←? container_logs_stream container_id;
  shown ←? lift_res (stream_logs
    (fun s => match s with Stdout => "stdout" | Stderr => "stderr" end) yields);
  client_delete_container client container_id timeout ;;?
  mret (Ok shown).

(** [examples/sample_data_snapshot.rs]: the number in the last line of an
    output, 0 when there is none ([lines().last()], [trim], [parse::<i64>]);
    [trim] here knows ASCII white space. *)
Definition is_space (b : Byte.byte) : bool := in_range 9 13 b || in_range 32 32 b.

Fixpoint trim_start (l : bytes) : bytes :=
  match l with b :: r => if is_space b then trim_start r else l | [] => [] end.
Definition trim (l : bytes) : bytes := rev (trim_start (rev (trim_start l))).

Definition last_line (l : bytes) : bytes :=
  let '(whole, tail) := split_lines [] l in
  match tail with [] => default (str_bytes "0") (last whole) | _ => tail end.

Definition parse_i64 (l : bytes) : option Z :=
  match l with
  | b :: r =>
      if byte_is "-"%byte b
      then
        n ← match r with [] => None | _ => parse_digits 0 r end;
        if (n <=? 2 ^ 63)%N then Some (- Z.of_N n)%Z else None
      else Z.of_N <$> parse_uint (2 ^ 63 - 1) l
  | [] => None
  end.

Definition movie_count (stdout : bytes) : Z := default 0%Z (parse_i64 (trim (last_line stdout))).

Definition count_movies : list string :=
  mongosh "print(db.getSiblingDB('sample_mflix').movies.estimatedDocumentCount())".

(** A round of [wait_for_mflix]; the message of its time-out also has the last
    count. *)
Definition mflix_round (client : Client) (cid : ContainerId) (start : N) (u : unit) :
    M (unit + Result unit) :=
  out ← client_exec client cid count_movies;
  match out with
  | Err e => mret (inr (Err e))
  | Ok out =>
      if (20000 <? movie_count (stdout out))%Z then mret (inr (Ok tt))
      else
        el ← elapsed start;
        if (from_secs 900 <? el)%N
        then mret (inr (Err (Timeout "sample data never populated")))
        else _ ← sleep (from_secs 5); mret (inl tt)
  end.

(** Every round that goes on sleeps for five seconds. *)
Definition wait_for_mflix (client : Client) (cid : ContainerId) : M (Result unit) :=
  start ← now;
  r ← loop (rounds_within (from_secs 900) (from_secs 5)) (mflix_round client cid start) tt;
  mret (default (Err (Timeout "sample data never populated")) r).

Lemma later_exec_now client id command :
  pres (later (Meta := ImageMetadata)) (exec_now client id command).
Proof.
  unfold exec_now. apply pres_bind; [apply _|apply later_exec|]. intros r. by apply pres_ret, _.
Qed.

(** The fuel is enough: the loop ends by its own conditions. *)
Lemma mflix_loop_ends client cid w :
  exists r w', loop (rounds_within (from_secs 900) (from_secs 5))
    (mflix_round client cid (clock w)) tt w = (Some r, w').
Proof.
  apply (paced_ends (clock w)); [done| |apply N.le_refl]. intros u w1 Hs.
  destruct (mflix_round client cid (clock w) u w1) as [x w2] eqn:H. destruct x as [[]|]; [|done].
  unfold mflix_round in H. apply bind_inv in H as (out & w3 & H1 & H).
  pose proof (pres_at later _ _ _ _ (later_exec_now client (as_str cid) count_movies) H1) as L1.
  destruct out as [out|e]; [|by apply ret_inv in H as [? _]].
  destruct (_ <? _)%Z; [by apply ret_inv in H as [? _]|].
  apply bind_inv in H as (el & w4 & H4 & H). injection H4 as <- <-.
  destruct (_ <? _)%N eqn:E4; [by apply ret_inv in H as [? _]|]. apply N.ltb_ge in E4.
  apply bind_inv in H as ([] & w5 & H5 & [_ <-]%ret_inv).
  pose proof (sleep_clock (from_secs 5) w3) as L5. rewrite H5 in L5. cbn in L5.
  unfold later in *. lia.
Qed.

Definition sample_data_main (local : Result Client) : M (Result unit) :=
  client ←? lift_res (connected local "sampledata-example");
  let timeout := from_secs 120 in
  let ready_timeout := from_secs 180 in
  let SNAPSHOT := "mflix-primed" in
  _ ← clean_up client "primed" timeout;
  _ ← clean_up client "restored" timeout;
  _ ← client_delete_snapshot client SNAPSHOT;
  client_pull_image client IMAGE ;;?
  let opts := with_env "MONGODB_LOAD_SAMPLE_DATA" "true" create_opts_default in
  primed ←? client_create_container client "primed" IMAGE opts;
  _ ←? client_start_container client primed;
  ready client primed ready_timeout SImageHealthcheck ;;?
  wait_for_mflix client primed ;;?
  snapshot_container_with_opts client primed SNAPSHOT
    (described "atlas-local + sample_mflix imported") ;;?
  client_delete_container client primed timeout ;;?
  restored ←? client_restore_container client SNAPSHOT "restored";
  _ ←? client_start_container client restored;
  ready client restored ready_timeout SImageHealthcheck ;;?
  _ ←? client_exec client restored count_movies;
  client_delete_container client restored timeout ;;?
  client_delete_snapshot client SNAPSHOT ;;?
  mret (Ok tt).

End examples.

(** * Runs *)

(** A daemon that has pulled the images. *)
Definition example_daemon : Demo :=
  mkDemo ∅ ∅
    {[ (DEFAULT_SNAPSHOTTER, "sha256:layer") :=
         mkSnap (mkSnapInfo "sha256:layer" "" ∅ None) true ]}
    (list_to_map ((fun i => (i, mkImage i (Some "mdig"))) <$>
       [IMAGE; "docker.io/library/nginx:alpine"; "docker.io/library/busybox:latest";
        "docker.io/mongodb/mongodb-atlas-local:latest"]))
    {[ "mdig" := str_bytes "manifest"; "cfg" := str_bytes "config" ]} 1 false.

(** The demonstration libraries, with a serializer for every spec. *)
#[local] Instance example_libs : Libs :=
  mkLibs (@oci_build demo_libs) (@get_default_namespaces demo_libs)
    (fun _ => Ok (str_bytes "a spec")) (fun _ => None) (@process_to_vec demo_libs)
    (@json_from_slice demo_libs) (@image_config_from_slice demo_libs) (@sha256 demo_libs)
    (@host_arch demo_libs).

Definition example_world : CreateWorld := demo_world example_daemon.

(** What is left: containers, tasks, snapshots besides the image's layer, and
    the client's tailers. *)
Definition leftovers (w : CreateWorld) : nat * nat * list string * nat :=
  let d : Demo := ext w in
  (size (d_containers d), size (d_tasks d),
   filter (fun k => k <> "sha256:layer") (snd <$> (map_to_list (d_snaps d)).*1),
   size (managed_tailers w)).

(** What a program answers and leaves behind. *)
Definition outcome {A} (m : Result Client -> ST CreateWorld (Result A)) :
    Result A * (nat * nat * list string * nat) :=
  let r := m (Ok demo_client) example_world in (r.1, leftovers r.2).

(** No container, task, snapshot or tailer. *)
Definition nothing : nat * nat * list string * nat := (0, 0, [], 0).

Lemma snapshot_example_leaves_nothing : outcome (snapshot_main 20) = (Ok tt, nothing).
Proof. vm_compute. reflexivity. Qed.

(** The host port and the container port are those of the creation. *)
Lemma reset_example_preserves_ports :
  outcome (reset_main 20) = (Ok ([(40002, 27017)%N], [(40002, 27017)%N]), nothing).
Proof. vm_compute. reflexivity. Qed.

Lemma bridge_example_leaves_nothing :
  outcome (bridge_main 20 (fun _ => mret (Ok "<html>"))) = (Ok tt, nothing).
Proof. vm_compute. reflexivity. Qed.

(** A closed stream ends the loop; a failed one skips the clean-up. *)
Lemma stream_examples :
  let e := Some (Ok (mkLogEntry Stderr 0 (str_bytes "x"))) in
  outcome (follow_logs_main [e; None]) = (Ok [("ERR", str_bytes "x")], nothing) /\
  outcome (atlas_local_main 20 [e]) = (Ok [("stderr", str_bytes "x")], nothing) /\
  (outcome (follow_logs_main [Some (Err NotImplemented)])).2 =
    (1, 1, ["00000000000000000000000000000001-snapshot"], 1).
Proof. vm_compute. auto. Qed.

(** The frozen base of a clone outlives both containers. *)
Lemma clone_example_leaves_base :
  outcome (clone_main 20) = (Ok tt, (0, 0, ["00000000000000000000000000000001-clone-base"], 0)).
Proof. vm_compute. reflexivity. Qed.

Lemma movie_counts :
  movie_count (str_bytes "21349" ++ [NL]) = 21349%Z /\
  movie_count (str_bytes "warning" ++ [NL] ++ str_bytes " -5 ") = (-5)%Z /\
  movie_count [] = 0%Z /\ movie_count (str_bytes "x") = 0%Z.
Proof. vm_compute. auto. Qed.

(** The demonstration daemon's exec prints nothing, so the import never shows. *)
Lemma sample_data_example_times_out :
  (outcome (sample_data_main 20)).1 = Err (Timeout "sample data never populated").
Proof. vm_compute. reflexivity. Qed.
