(* ===== verification/IntegrationTests.v ===== *)
(** * The integration tests ([src/tests/integration.rs])

    The tests of the crate against a containerd, as programs over the client
    methods.  A test is [Ok true] when its assertions hold and nothing it
    unwraps failed.  The containerd is a parameter: the programs are run on the
    demonstration daemon and, where a test needs a command that ends or fails,
    on a variation of it.  Left out are the five tests that look at what a
    process printed or at the bytes of a socket: the daemon has no processes.
    The deadline of a test is the model's clock, so none waits. *)

From S2P Require Import Prelude RustText RustFmt Errors Effects FileSystem Identifier LogCodec LogTailer World DemoDaemon Loops Bridge ContainerSpec Inspect ClientState Task Create ClientApi Clone Snapshot Exec Readiness Connect ClientMethods Examples.
From Stdlib Require Import Ascii.

Definition ALPINE : string := "docker.io/library/alpine:latest".
Definition BUSYBOX : string := "docker.io/library/busybox:latest".
Definition NAMESPACE : string := "e2e-tests".
Definition TIMEOUT : Duration := from_secs 30.

(** [.cmd(..)] and [.network(..)] of the builder. *)
Definition with_cmd (c : list string) (o : CreateContainerOpts) : CreateContainerOpts :=
  mkCreateContainerOpts (env o) (labels o) (mounts o) (network_mode o) (Some c)
    (port_bindings o) (from_existing_snapshot o).
Definition with_network (m : NetworkMode) (o : CreateContainerOpts) : CreateContainerOpts :=
  mkCreateContainerOpts (env o) (labels o) (mounts o) m (cmd o)
    (port_bindings o) (from_existing_snapshot o).

Definition sleep_300 : list string := ["sleep"; "300"].

Section tests.
Context {E : Env} {L : Libs} (fuel : nat).
Abbreviation M := (ST (World ImageMetadata)).
Implicit Types (client : Client) (name : string).

(** ** Helpers *)
Definition connect_isolated (local : Result Client) (test_tag : string) : Result Client :=
  connected local ("e2e-" +:+ test_tag).

Definition pick_free_host_port : M (Result N) :=
  r ← outside bind_ephemeral; mret (map_err (fun _ => NotImplemented) r).

(** [TcpListener::bind(("127.0.0.1", port)).is_ok()]: the port is taken while a
    forward of this process listens on it. *)
Definition port_is_free (port : N) : M bool :=
  w ← get_st;
  r ← outside (bind_port port);
  mret (match r with
        | Ok _ => forallb (fun h => negb (pf_host_port h =? port)%N) (managed_handles w)
        | Err _ => false
        end).

Definition cleanup client (id : ContainerId) : M unit :=
  _ ← client_delete_container client id TIMEOUT; mret tt.

Definition cleanup_by_name client name : M unit := clean_up client name TIMEOUT.

(** The lines most tests begin with, and the one they end with. *)
Definition with_container client name (image : string) (opts : CreateContainerOpts)
    (test : ContainerId -> M (Result bool)) : M (Result bool) :=
  _ ← cleanup_by_name client name;
  client_pull_image client image ;;?
  id ←? client_create_container client name image opts;
  b ←? test id;
  _ ← cleanup client id;
  mret (Ok b).

Definition with_started client name (opts : CreateContainerOpts)
    (test : ContainerId -> M (Result bool)) : M (Result bool) :=
  with_container client name BUSYBOX opts (fun id =>
    _ ←? client_start_container client id;
    test id).

Definition is_timeout {A} (r : Result A) : bool :=
  match r with Err (Timeout _) => true | _ => false end.
Definition is_not_found {A} (r : Result A) : bool :=
  match r with Err (ContainerNotFound _) => true | _ => false end.

Definition status_is (info : ContainerInfo) (s : TaskStatus) : bool :=
  bool_decide (t_status <$> ci_task info = Some s).

Definition labelled (value : string) : CreateContainerOpts :=
  with_cmd sleep_300 (with_label "test" value create_opts_default).

(** ** Smoke *)
Definition test_connect client : M (Result bool) :=
  version ←? server_version client;
  mret (Ok (negb (bool_decide (version = "")))).

Definition test_pull_image client : M (Result bool) :=
  client_pull_image client ALPINE ;;? mret (Ok true).

(** ** Lifecycle *)
Definition test_create_container client : M (Result bool) :=
  let name := "create-test" in
  let opts := with_label "app" "test" (with_env "MY_VAR" "hello" create_opts_default) in
  _ ← cleanup_by_name client name;
  client_pull_image client ALPINE ;;?
  _ ←? client_create_container client name ALPINE opts;
  err ← client_create_container client name ALPINE opts;
  _ ← cleanup_by_name client name;
  mret (Ok (match err with Err (ContainerAlreadyExists _) => true | _ => false end)).

Definition test_start_and_delete_container client : M (Result bool) :=
  let name := "lifecycle-test" in
  _ ← cleanup_by_name client name;
  client_pull_image client ALPINE ;;?
  id ←? client_create_container client name ALPINE (with_label "test" "lifecycle" create_opts_default);
  task_id ←? client_start_container client id;
  client_delete_container client id TIMEOUT ;;?
  client_delete_container client id TIMEOUT ;;?
  mret (Ok (bool_decide (ti_container_id task_id = as_str id) && (0 <? ti_pid task_id)%N)).

Definition test_inspect_container client : M (Result bool) :=
  let name := "inspect-test" in
  let opts := with_cmd sleep_300 (with_env "ANOTHER" "world" (with_env "MY_VAR" "hello"
    (with_label "version" "1.0" (with_label "app" "inspect-test" create_opts_default)))) in
  _ ← cleanup_by_name client name;
  client_pull_image client ALPINE ;;?
  id ←? client_create_container client name ALPINE opts;
  info ←? client_inspect_container client id;
  let before := bool_decide (ci_id info = id) && bool_decide (ci_name info = name)
    && bool_decide (ci_task info = None) && bool_decide (ci_labels info !! "app" = Some "inspect-test")
    && bool_decide (ci_env info !! "MY_VAR" = Some "hello") in
  task_id ←? client_start_container client id;
  info ←? client_inspect_container client id;
  let after := status_is info Running
    && bool_decide (t_pid <$> ci_task info = Some (ti_pid task_id)) in
  nonexistent ←? lift_res (from_existing "doesnotexistxyz");
  err ← client_inspect_container client nonexistent;
  _ ← cleanup_by_name client name;
  mret (Ok (before && after && is_not_found err)).

(** [assert_eq!(list.len(), 1); assert_eq!(list[0].id, id)]. *)
Definition lists_only (list : list ContainerInfo) (id : ContainerId) : bool :=
  bool_decide (ci_id <$> list = [id]).

Definition test_list_containers client : M (Result bool) :=
  let name1 := "list-test-1" in
  let name2 := "list-test-2" in
  let opts app := with_label "list-group" "e2e" (with_label "app" app create_opts_default) in
  _ ← cleanup_by_name client name1;
  _ ← cleanup_by_name client name2;
  client_pull_image client ALPINE ;;?
  id1 ←? client_create_container client name1 ALPINE (opts "frontend");
  id2 ←? client_create_container client name2 ALPINE (opts "backend");
  all ←? client_list_containers client [];
  frontend ←? client_list_containers client ["app=frontend"];
  backend ←? client_list_containers client ["app=backend"];
  both ←? client_list_containers client ["list-group=e2e"];
  multi ←? client_list_containers client ["app=frontend"; "list-group=e2e"];
  empty_client ←? lift_res (connected (Ok client) "does-not-exist");
  empty ←? client_list_containers empty_client [];
  _ ← cleanup_by_name client name1;
  _ ← cleanup_by_name client name2;
  mret (Ok (bool_decide (length all = 2) && lists_only frontend id1 && lists_only backend id2
    && bool_decide (length both = 2) && lists_only multi id1 && bool_decide (length empty = 0))).

Definition test_wait_for_exit client : M (Result bool) :=
  let cmd := ["sh"; "-c"; "sleep 0.2; exit 42"] in
  with_started client "wait-exit-test" (with_cmd cmd (with_label "test" "wait-exit" create_opts_default))
    (fun id => code ←? client_wait_for_exit client id (from_secs 5); mret (Ok (code =? 42)%Z)).

Definition test_wait_for_exit_timeout client : M (Result bool) :=
  with_started client "wait-exit-timeout-test" (with_cmd sleep_300 create_opts_default)
    (fun id => result ← client_wait_for_exit client id (from_secs 1); mret (Ok (is_timeout result))).

(** ** Stop, pause, unpause *)
Definition test_stop_container client : M (Result bool) :=
  with_started client "stop-only-test" (labelled "stop-only") (fun id =>
    before ←? client_inspect_container client id;
    client_stop_container client id TIMEOUT ;;?
    after ←? client_inspect_container client id;
    mret (Ok (status_is before Running && bool_decide (ci_id after = id) && status_is after Stopped))).

Definition test_pause_and_unpause client : M (Result bool) :=
  with_started client "pause-test" (labelled "pause") (fun id =>
    info1 ←? client_inspect_container client id;
    client_pause_container client id ;;?
    info2 ←? client_inspect_container client id;
    client_unpause_container client id ;;?
    info3 ←? client_inspect_container client id;
    mret (Ok (status_is info1 Running && status_is info2 Paused && status_is info3 Running))).

(** ** Readiness *)
Definition test_wait_ready_process_running client : M (Result bool) :=
  with_started client "ready-test" (labelled "ready") (fun id =>
    ready fuel client id (from_secs 10) SProcessRunning ;;? mret (Ok true)).

Definition test_wait_ready_exec_strategy client : M (Result bool) :=
  with_started client "ready-exec-test" (labelled "ready-exec") (fun id =>
    ready fuel client id (from_secs 10) (SExec ["true"]) ;;? mret (Ok true)).

Definition test_wait_ready_timeout client : M (Result bool) :=
  with_started client "ready-timeout-test" (labelled "ready-timeout") (fun id =>
    result ← ready fuel client id (from_secs 2) (SExec ["false"]); mret (Ok (is_timeout result))).

Definition test_wait_ready_image_healthcheck_fallback client : M (Result bool) :=
  with_started client "ready-imghc-test" (labelled "ready-imghc") (fun id =>
    ready fuel client id (from_secs 10) SImageHealthcheck ;;? mret (Ok true)).

Definition test_wait_ready_task_exited client : M (Result bool) :=
  let opts := with_cmd ["true"] (with_label "test" "ready-exit" create_opts_default) in
  with_started client "ready-exit-test" opts (fun id =>
    _ ← sleep (from_secs 2);
    result ← ready fuel client id (from_secs 5) SProcessRunning;
    mret (Ok (match result with Err (TaskExited _) => true | _ => false end))).

Definition test_wait_ready_tcp_port client : M (Result bool) :=
  port ←? pick_free_host_port;
  let cmd := "nc -l -p " +:+ dec_string port +:+ " & sleep 300" in
  let opts := with_cmd ["sh"; "-c"; cmd]
    (with_network Host (with_label "test" "ready-tcp" create_opts_default)) in
  with_started client "ready-tcp-test" opts (fun id =>
    ready fuel client id (from_secs 15) (STcpPort port) ;;? mret (Ok true)).

(** ** Errors, health, the image cache *)
Definition test_start_nonexistent_container_errors client : M (Result bool) :=
  id ←? lift_res (from_existing "doesnotexistxyz");
  result ← client_start_container client id;
  mret (Ok (is_not_found result)).

Definition test_probe_health_no_healthcheck client : M (Result bool) :=
  with_started client "probe-health-test" (labelled "probe-health") (fun id =>
    status ←? client_probe_health client id;
    mret (Ok (match status with NoHealthcheck => true | _ => false end))).

Definition test_image_healthcheck_busybox_has_none client : M (Result bool) :=
  client_pull_image client BUSYBOX ;;?
  hc ←? image_healthcheck client BUSYBOX;
  mret (Ok (match hc with None => true | Some _ => false end)).

Definition test_image_cache_populates_on_create client : M (Result bool) :=
  let name := "img-cache-test" in
  _ ← cleanup_by_name client name;
  _ ← clear_image_cache;
  n ← image_cache_len;
  client_pull_image client BUSYBOX ;;?
  id ←? client_create_container client name BUSYBOX (with_cmd sleep_300 create_opts_default);
  k ← image_cache_len;
  _ ← cleanup client id;
  mret (Ok (bool_decide (n = 0) && bool_decide (k = 1))).

(** ** Port forwards *)
Definition test_declared_port_binding_lifecycle client : M (Result bool) :=
  let name := "declared-fwd-test" in
  host_port ←? pick_free_host_port;
  _ ← cleanup_by_name client name;
  client_pull_image client BUSYBOX ;;?
  id ←? client_create_container client name BUSYBOX
    (with_port_binding host_port 8080 (with_cmd sleep_300 create_opts_default));
  info ←? client_inspect_container client id;
  _ ←? client_start_container client id;
  client_delete_container client id TIMEOUT ;;?
  free ← port_is_free host_port;
  mret (Ok (existsb (fun p => p.2 =? 8080)%N (ci_port_forwards info) && free)).

Definition test_dynamic_port_forward_dropped_on_delete client : M (Result bool) :=
  let name := "dynamic-fwd-test" in
  host_port ←? pick_free_host_port;
  _ ← cleanup_by_name client name;
  client_pull_image client BUSYBOX ;;?
  id ←? client_create_container client name BUSYBOX (with_cmd sleep_300 create_opts_default);
  _ ←? client_start_container client id;
  client_start_managed_port_forward id host_port 8080 port_forward_opts_default ;;?
  info ←? client_inspect_container client id;
  client_delete_container client id TIMEOUT ;;?
  free ← port_is_free host_port;
  mret (Ok (negb (existsb (fun p => p.1 =? host_port)%N (ci_port_forwards info)) && free)).

(** [connect()]: every test has a client of its own. *)
Definition in_tests (test : Client -> M (Result bool)) (local : Result Client) : M (Result bool) :=
  client ←? lift_res (connected local NAMESPACE); test client.

End tests.

(** * Runs *)

(** A daemon that has the images. *)
Definition test_daemon : Demo :=
  mkDemo ∅ ∅ (d_snaps example_daemon)
    (list_to_map ((fun i => (i, mkImage i (Some "mdig"))) <$> [ALPINE; BUSYBOX]))
    (d_blobs example_daemon) 1 false.

(** Each of the fields joined by a separator. *)
Fixpoint split_all (fuel : nat) (c : ascii) (s : string) : list string :=
  match fuel, split_once c s with
  | S fuel, Some (x, rest) => x :: split_all fuel c rest
  | _, _ => [s]
  end.

(** A spec with the given environment. *)
Definition spec_with_env (l : list string) : OciSpec :=
  let s := demo_spec_for create_opts_default (Ok None) in
  mkOciSpec (sp_version s)
    ((fun p => mkOciProcess (pr_terminal p) (pr_args p) (Some l) (pr_cwd p) (pr_capabilities p))
       <$> sp_process s)
    (sp_root s) (sp_namespaces s) (sp_mounts s) (sp_hooks s).

(** Libraries that write down the environment of a spec and nothing else, and an
    image without a healthcheck. *)
#[local] Instance test_libs : Libs :=
  mkLibs (@oci_build demo_libs) (@get_default_namespaces demo_libs)
    (fun s => Ok (str_bytes (join "," (default [] (p ← sp_process s; pr_env p)))))
    (fun b => Some (spec_with_env (split_all (length b) ","%char (bytes_str b))))
    (@process_to_vec demo_libs)
    (fun b => if decide (b = str_bytes "config") then Ok (JObject []) else @json_from_slice demo_libs b)
    (@image_config_from_slice demo_libs) (@sha256 demo_libs) (@host_arch demo_libs).

(** The filters of a listing are joined by commas: all of them must hold. *)
Definition passes_all (fs : list string) (c : Container) : bool :=
  match fs with
  | [f] => forallb (fun f => passes [f] (c_labels c)) (split_all (String.length f) ","%char f)
  | _ => true
  end.

Definition test_env : Env :=
  demo_answering (fun ns r d =>
    match r return result Status (resp_of r) * Duration * Demo with
    | ListContainers fs =>
        (Ok (filter (fun c => passes_all fs c = true) (demo_list ns [] d)), from_millis 1, d)
    | r => @handle demo_env ns r d
    end).

(** One whose tasks have exited with [code] by the end of the first sleep. *)
Definition exit_all (code : N) (d : Demo) : Demo :=
  with_tasks d ((fun p => if decide (p_status p = ST_RUNNING) then set_status p ST_STOPPED code else p)
    <$> d_tasks d).

Definition short_env (code : N) : Env :=
  mkEnv Demo (@handle test_env) (fun _ d => (0%N, exit_all code d)) (@fresh_uuid demo_env)
    (@choose demo_env) (@bind_ephemeral demo_env) (@bind_port demo_env) (@tcp_connect demo_env)
    (@home_dir demo_env) (@metadata_ok demo_env) (@process_id demo_env) (@path_text demo_env).

(** One whose commands fail. *)
Definition false_env : Env :=
  demo_answering (fun ns r d =>
    match r return result Status (resp_of r) * Duration * Demo with
    | WaitTask _ _ => (Ok 1%N, from_millis 1, d)
    | r => @handle test_env ns r d
    end).

(** The answer of a test against the daemon. *)
Definition run_test {E : Env} (daemon : Ext) (test : Client -> ST (World ImageMetadata) (Result bool)) :
    Result bool :=
  (in_tests test (Ok demo_client)
     (mkWorld daemon 0 (quiet fs_empty) [] false ∅ ∅ ∅ 0 [])).1.

Lemma tests_on_the_daemon :
  Forall (fun test => run_test (E := test_env) test_daemon test = Ok true)
    [test_connect; test_pull_image; test_create_container; test_start_and_delete_container;
     test_inspect_container; test_list_containers; test_wait_for_exit_timeout; test_stop_container;
     test_pause_and_unpause; test_wait_ready_process_running 20; test_wait_ready_exec_strategy 20;
     test_wait_ready_image_healthcheck_fallback 20; test_wait_ready_tcp_port 20;
     test_start_nonexistent_container_errors; test_probe_health_no_healthcheck;
     test_image_healthcheck_busybox_has_none; test_image_cache_populates_on_create;
     test_declared_port_binding_lifecycle; test_dynamic_port_forward_dropped_on_delete].
Proof. repeat constructor. Qed.

(** The tests whose container exits or whose command fails. *)
Lemma tests_on_other_daemons :
  run_test (E := short_env 42) test_daemon test_wait_for_exit = Ok true /\
  run_test (E := short_env 0) test_daemon (test_wait_ready_task_exited 20) = Ok true /\
  run_test (E := false_env) test_daemon (test_wait_ready_timeout 20) = Ok true.
Proof. vm_compute. auto. Qed.
