(* ===== verification/DockerExample.v ===== *)
(** * The Docker example ([src/examples/atlas_local_bollard.rs])

    The lifecycle of [examples/atlas_local.rs] over the Docker Engine API.  It
    uses the crate [bollard] and nothing of the library: [bollard] is the class
    [Docker], one operation per method the example calls, over a state of the
    engine's own that any call may move.  What is printed is the program's
    answer. *)

From S2P Require Import Prelude RustText Utf8Lossy RustFmt Effects Loops.

(** ** The engine *)

(** [bollard::models::HealthStatusEnum]; the example names two of its values. *)
Inductive HealthStatusEnum : Type := HEALTHY | UNHEALTHY | OtherHealth (name : string).

(** [bollard::container::LogOutput]; the example names two of its variants. *)
Inductive LogOutput : Type := StdOut (message : bytes) | StdErr (message : bytes) | OtherOutput.

(** What the example sets of [ContainerCreateBody] and [CreateExecOptions]; the
    rest is [Default::default()]. *)
Record ContainerCreateBody : Type := mkContainerCreateBody {
  b_image : option string;
  b_labels : gmap string string;
  b_network_mode : option string
}.
Record CreateExecOptions : Type := mkCreateExecOptions {
  x_attach_stdout : bool;
  x_attach_stderr : bool;
  x_cmd : list string
}.

Inductive DockerCall : Type :=
| DVersion
| DRemoveContainer (name : string) (force : bool)
| DCreateImage (from_image : string)
| DCreateContainer (name : string) (config : ContainerCreateBody)
| DStartContainer (name : string)
| DInspectContainer (name : string)
| DCreateExec (name : string) (opts : CreateExecOptions)
| DStartExec (id : string)
| DInspectExec (id : string)
| DLogs (name : string) (stdout stderr : bool).

(** What the example reads of [ContainerInspectResponse]. *)
Record ContainerState : Type := mkContainerState {
  s_pid : option Z;
  s_health : option (option HealthStatusEnum);
  s_running : option bool
}.

(** A stream: its items; an error is an item. *)
Definition dresp (Err : Type) (c : DockerCall) : Type :=
  match c with
  | DVersion => option string
  | DCreateImage _ => list (result Err (option string))
  | DInspectContainer _ => option ContainerState
  | DCreateExec _ _ => string
  | DStartExec _ => option (list (result Err LogOutput))
  | DInspectExec _ => option Z
  | DLogs _ _ _ => list (result Err LogOutput)
  | _ => unit
  end.

Class Docker : Type := mkDocker {
  Engine : Type;
  DockerError : Type;
  (** [Docker::connect_with_local_defaults] *)
  connect_local : result DockerError unit;
  (** a method's answer, how long it took, and the engine afterwards *)
  docker : forall c : DockerCall, Engine ->
    result DockerError (dresp DockerError c) * Duration * Engine;
  (** how much longer than asked a sleep lasts *)
  oversleep : Duration -> Engine -> Duration * Engine
}.

(** The engine, the clock and the calls made. *)
Record DockerWorld {D : Docker} : Type := mkDockerWorld {
  engine : Engine;
  dclock : N;
  called : list DockerCall
}.
Arguments DockerWorld D : clear implicits.

(** [Box<dyn std::error::Error>]. *)
Inductive BoxError {D : Docker} : Type := Bollard (e : DockerError) | Text (msg : string).

Section example.
Context {D : Docker}.
Abbreviation M := (ST (DockerWorld D)).
Abbreviation R A := (result BoxError A).

Definition call (c : DockerCall) : M (result DockerError (dresp DockerError c)) := fun w =>
  let '(a, d, e) := docker c (engine w) in
  (a, mkDockerWorld D e (dclock w + d)%N (called w ++ [c])).

(** [call.await?]. *)
Definition call_q (c : DockerCall) : M (R (dresp DockerError c)) := st_map_err Bollard (call c).

Definition dsleep (d : Duration) : M unit := fun w =>
  let '(o, e) := oversleep d (engine w) in
  (tt, mkDockerWorld D e (dclock w + d + o)%N (called w)).

Definition dnow : M N := fun w => (dclock w, w).

Definition ATLAS_IMAGE : string := "docker.io/mongodb/mongodb-atlas-local:latest".
Definition CONTAINER_NAME : string := "atlas-local-bollard".

(** [while let Some(info) = pull_stream.next().await { let info = info?; .. }]. *)
Fixpoint drain_stream {A} (items : list (result DockerError A)) : R (list A) :=
  match items with
  | [] => Ok []
  | Err e :: _ => Err (Bollard e)
  | Ok a :: items => let? rest := drain_stream items in Ok (a :: rest)
  end.

Definition docker_pull : M (R unit) :=
  items ←? call_q (DCreateImage ATLAS_IMAGE);
  mret (let? _ := drain_stream items in Ok tt).

Definition atlas_config : ContainerCreateBody :=
  mkContainerCreateBody (Some ATLAS_IMAGE)
    (<["managed-by" := "bollard-example"]> (<["app" := "mongodb-atlas-local"]> ∅))
    (Some "host").

Definition health_of (info : option ContainerState) : option HealthStatusEnum :=
  s ← info; h ← s_health s; h.

(** One round of the wait for the health check. *)
Definition health_round (start : N) (timeout : Duration) (_ : unit) : M (unit + R unit) :=
  t ← dnow;
  if (timeout <? t - start)%N then
    mret (inr (Err (Text "timed out waiting for MongoDB to become healthy")))
  else
    r ← call_q (DInspectContainer CONTAINER_NAME);
    match r with
    | Err e => mret (inr (Err e))
    | Ok info =>
        match health_of info with
        | Some HEALTHY => mret (inr (Ok tt))
        | Some UNHEALTHY => mret (inr (Err (Text "container health check failed")))
        | _ => _ ← dsleep (from_secs 2); mret (inl tt)
        end
    end.

Definition HEALTH_TIMEOUT : Duration := from_secs 120.

(** 61 rounds that sleep are past the limit. *)
Definition await_healthy : M (R unit) :=
  start ← dnow;
  r ← loop 62 (health_round start HEALTH_TIMEOUT) tt;
  mret (default (Err (Text "")) r).

Definition stdout_of (items : list LogOutput) : bytes :=
  items ≫= fun o => match o with StdOut message => message | _ => [] end.

(** The ping: what it printed on stdout and its exit code. *)
Definition docker_exec : M (R (bytes * Z)) :=
  id ←? call_q (DCreateExec CONTAINER_NAME
          (mkCreateExecOptions true true ["mongosh"; "--quiet"; "--eval"; "db.runCommand({ping:1})"]));
  started ←? call_q (DStartExec id);
  out ←? mret (match started with
               | Some items => let? os := drain_stream items in Ok (stdout_of os)
               | None => Ok []
               end);
  code ←? call_q (DInspectExec id);
  mret (Ok (out, default (-1)%Z code)).

(** The log: the first ten entries with their labels, and the count. *)
Fixpoint show_logs (items : list (result DockerError LogOutput)) (total : nat) :
    R (list (string * bytes) * nat) :=
  match items with
  | [] => Ok ([], total)
  | Err e :: _ => Err (Bollard e)
  | Ok entry :: items =>
      if total <? 10 then
        match entry with
        | StdOut m => let? (shown, n) := show_logs items (S total) in Ok (("stdout", m) :: shown, n)
        | StdErr m => let? (shown, n) := show_logs items (S total) in Ok (("stderr", m) :: shown, n)
        | OtherOutput => show_logs items total
        end
      else show_logs items (S total)
  end.

Definition docker_delete : M (R unit) := call_q (DRemoveContainer CONTAINER_NAME true).

(** What the example reports. *)
Record Report : Type := mkReport {
  rp_version : string;
  rp_pid : Z;
  rp_running : bool;
  rp_stdout : bytes;
  rp_exit_code : Z;
  rp_shown : list (string * bytes);
  rp_total : nat
}.

Definition bollard_main : M (R Report) :=
  _ ←? mret (map_err Bollard connect_local);
  version ←? call_q DVersion;
  _ ← call (DRemoveContainer CONTAINER_NAME true);
  _ ←? docker_pull;
  _ ←? call_q (DCreateContainer CONTAINER_NAME atlas_config);
  _ ←? call_q (DStartContainer CONTAINER_NAME);
  inspect ←? call_q (DInspectContainer CONTAINER_NAME);
  let pid := default 0%Z (s ← inspect; s_pid s) in
  _ ←? await_healthy;
  info ←? call_q (DInspectContainer CONTAINER_NAME);
  let running := match info with Some s => bool_decide (s_running s = Some true) | None => false end in
  '(out, code) ←? docker_exec;
  items ←? call_q (DLogs CONTAINER_NAME true true);
  '(shown, total) ←? mret (show_logs items 0);
  _ ←? docker_delete;
  mret (Ok (mkReport (default "unknown" version) pid running (from_utf8_lossy out) code shown total)).

End example.

(** * Lemmas *)
Section lemmas.
Context {D : Docker}.
Abbreviation R A := (result BoxError A).
Implicit Types (w : DockerWorld D).

Abbreviation inspection := (DInspectContainer CONTAINER_NAME).

(** A round inspects once, unless the time is up; a round that goes on takes
    two seconds at least. *)
Lemma health_round_calls start w x w' :
  health_round start HEALTH_TIMEOUT tt w = (x, w') ->
  (exists n, n <= 1 /\ called w' = called w ++ repeat inspection n) /\
  (x = inl tt -> (dclock w - start <= HEALTH_TIMEOUT)%N /\
     (dclock w + from_secs 2 <= dclock w')%N) /\
  ((HEALTH_TIMEOUT < dclock w - start)%N -> called w' = called w) /\ x <> inr (Err (Text "")).
Proof.
  unfold health_round. rewrite (run_bind dnow _ w (dclock w) w) by done.
  destruct (HEALTH_TIMEOUT <? dclock w - start)%N eqn:E; simp_eqs.
  { intros [= <- <-]. split_and!; [|done..]. exists 0. by rewrite app_nil_r; split; [lia|]. }
  intros (r & w1 & H1 & H)%bind_inv. unfold call_q, st_map_err, call in H1.
  apply bind_inv in H1 as (r0 & w0 & H0 & [<- <-]%ret_inv).
  destruct (docker inspection (engine w)) as [[a t] e] eqn:Ed. injection H0 as -> <-.
  assert (Hone : exists n, n <= 1 /\ called w ++ [inspection] = called w ++ repeat inspection n)
    by by exists 1.
  destruct r0 as [info|er]; cbn [map_err] in H; [|injection H as <- <-; split_and!; [done|done|lia|done]].
  destruct (health_of info) as [[]|];
    try (injection H as <- <-; split_and!; [done|done|lia|done]).
  all: unfold mbind, ST_bind, dsleep in H; cbn [engine dclock called] in H;
    destruct (oversleep (from_secs 2) e) as [o e']; injection H as <- <-; cbn [called dclock];
    split_and!; [done|intros _; split; lia|lia|done].
Qed.

(** Each round that goes on uses up two seconds of the limit. *)
Lemma health_loop_calls k start w :
  (start + N.of_nat k * from_secs 2 <= dclock w)%N -> k <= 61 ->
  exists r w' n, loop (62 - k) (health_round start HEALTH_TIMEOUT) tt w = (Some r, w') /\
    called w' = called w ++ repeat inspection n /\ n <= 61 - k /\ r <> Err (Text "").
Proof.
  intros Ht Hk. remember (61 - k) as m eqn:Em. revert k w Ht Hk Em.
  induction m as [|m IH]; intros k w Ht Hk Em.
  all: replace (62 - k) with (S (61 - k)) by lia; cbn [loop].
  all: destruct (health_round start HEALTH_TIMEOUT tt w) as [x w1] eqn:Er;
    rewrite (run_bind _ _ _ _ _ Er); apply health_round_calls in Er as ((n & Hn & Hc) & Hl & He & Hx).
  - assert (Hb : (HEALTH_TIMEOUT < dclock w - start)%N).
    { assert (k = 61) as -> by lia. unfold HEALTH_TIMEOUT, from_secs, NANOS_PER_SEC in *. lia. }
    specialize (He Hb). destruct x as [[]|r]; [destruct (Hl eq_refl); lia|].
    exists r, w1, 0. rewrite app_nil_r. split_and!; [done..|lia|congruence].
  - destruct x as [[]|r].
    + destruct (Hl eq_refl) as [_ H2].
      destruct (IH (S k) w1) as (r & w2 & n2 & H & Hc2 & Hn2 & Hr); [lia..|].
      replace (62 - S k) with (61 - k) in H by lia.
      exists r, w2, (n + n2). rewrite repeat_app, app_assoc, <-Hc. split_and!; [done..|lia|done].
    + exists r, w1, n. split_and!; [done..|lia|congruence].
Qed.

Lemma await_healthy_calls w :
  exists r w' n, await_healthy w = (r, w') /\ called w' = called w ++ repeat inspection n /\
    n <= 61 /\ r <> Err (Text "").
Proof.
  destruct (health_loop_calls 0 (dclock w) w) as (r & w' & n & H & Hc & Hn & Hr); [lia..|].
  exists r, w', n. split_and!; [|done..]. unfold await_healthy.
  rewrite (run_bind dnow _ w (dclock w) w) by done. by rewrite (run_bind _ _ _ _ _ H).
Qed.

Lemma call_q_inv c w r w' :
  call_q c w = (r, w') -> called w' = called w ++ [c].
Proof.
  unfold call_q, st_map_err, call. intros (r0 & w0 & H0 & [_ <-]%ret_inv)%bind_inv.
  by destruct (docker c (engine w)) as [[a t] e]; injection H0 as _ <-.
Qed.

(** The entries of the two standard streams, with their labels. *)
Definition labelled (items : list LogOutput) : list (string * bytes) :=
  items ≫= fun o => match o with
    | StdOut m => [("stdout", m)] | StdErr m => [("stderr", m)] | OtherOutput => [] end.

Lemma show_logs_shown (items : list LogOutput) total :
  exists n, show_logs (Ok <$> items : list (result DockerError LogOutput)) total =
    Ok (take (10 - total) (labelled items), n).
Proof.
  revert total. induction items as [|o items IH]; intros total.
  { exists total. by destruct (10 - total). }
  rewrite fmap_cons. cbn [show_logs]. destruct (Nat.ltb_spec total 10) as [H|H].
  - destruct o as [m|m|]; [| |apply IH].
    all: destruct (IH (S total)) as [n E]; rewrite E; exists n;
      replace (10 - total) with (S (10 - S total)) by lia; done.
  - destruct (IH (S total)) as [n E]. rewrite E. exists n.
    by replace (10 - total) with 0 by lia; replace (10 - S total) with 0 by lia.
Qed.

End lemmas.

(** * Property *)

(** A run that succeeds removes a container of an earlier run first and its
    own last, and inspects at most 61 times while it waits for the health
    check; the calls are these, in this order. *)
Theorem docker_example_calls {D : Docker} (w : DockerWorld D) rp w' :
  bollard_main w = (Ok rp, w') ->
  exists n id, n <= 61 /\
    called w' = called w ++
      [DVersion; DRemoveContainer CONTAINER_NAME true; DCreateImage ATLAS_IMAGE;
       DCreateContainer CONTAINER_NAME atlas_config; DStartContainer CONTAINER_NAME;
       DInspectContainer CONTAINER_NAME] ++ repeat (DInspectContainer CONTAINER_NAME) n ++
      [DInspectContainer CONTAINER_NAME;
       DCreateExec CONTAINER_NAME (mkCreateExecOptions true true
         ["mongosh"; "--quiet"; "--eval"; "db.runCommand({ping:1})"]);
       DStartExec id; DInspectExec id; DLogs CONTAINER_NAME true true;
       DRemoveContainer CONTAINER_NAME true].
Proof.
  unfold bollard_main. intros ([] & w0 & [_ <-]%ret_inv & H)%try_ok_inv.
  apply try_ok_inv in H as (v & w1 & C1%call_q_inv & H).
  apply bind_inv in H as (x & w2 & C2 & H).
  assert (C2' : called w2 = called w1 ++ [DRemoveContainer CONTAINER_NAME true]).
  { unfold call in C2. by destruct (docker _ _) as [[??]?]; injection C2 as _ <-. }
  apply try_ok_inv in H as (u3 & w3 & C3 & H). unfold docker_pull in C3.
  apply try_ok_inv in C3 as (it & w3' & C3%call_q_inv & [_ <-]%ret_inv).
  apply try_ok_inv in H as (u4 & w4 & C4%call_q_inv & H).
  apply try_ok_inv in H as (u5 & w5 & C5%call_q_inv & H).
  apply try_ok_inv in H as (i6 & w6 & C6%call_q_inv & H).
  apply try_ok_inv in H as (u7 & w7 & C7 & H).
  destruct (await_healthy_calls w6) as (r7 & w7' & n & E7 & C7' & Hn & _).
  rewrite E7 in C7. injection C7 as -> <-.
  apply try_ok_inv in H as (i8 & w8 & C8%call_q_inv & H).
  apply try_ok_inv in H as ([out code] & w9 & C9 & H). unfold docker_exec in C9.
  apply try_ok_inv in C9 as (id & x1 & X1%call_q_inv & C9).
  apply try_ok_inv in C9 as (st & x2 & X2%call_q_inv & C9).
  apply try_ok_inv in C9 as (os & x3 & [_ <-]%ret_inv & C9).
  apply try_ok_inv in C9 as (cd & x4 & X4%call_q_inv & [_ <-]%ret_inv).
  apply try_ok_inv in H as (ls & y1 & Y1%call_q_inv & H).
  apply try_ok_inv in H as ([sh tot] & y2 & [_ <-]%ret_inv & H).
  apply try_ok_inv in H as (u9 & y3 & Y3 & [_ <-]%ret_inv).
  apply (call_q_inv (DRemoveContainer CONTAINER_NAME true)) in Y3.
  exists n, id. split; [done|].
  rewrite Y3, Y1, X4, X2, X1, C8, C7', C6, C5, C4, C3, C2', C1, <-!app_assoc. done.
Qed.

(** ** Runs on a concrete engine

    It becomes healthy after [k] inspections; every call takes a millisecond. *)
Definition demo_docker : Docker :=
  mkDocker nat unit (Ok tt)
    (fun c k => match c return result unit (dresp unit c) * Duration * nat with
     | DVersion => (Ok (Some "27.0"), from_millis 1, k)
     | DInspectContainer _ =>
         (Ok (Some (mkContainerState (Some 42%Z)
            (Some (Some (match k with O => HEALTHY | _ => OtherHealth "starting" end))) (Some true))),
          from_millis 1, pred k)
     | DCreateImage _ => (Ok [Ok (Some "Pulling"); Ok None], from_millis 1, k)
     | DCreateExec _ _ => (Ok "exec-id", from_millis 1, k)
     | DStartExec _ => (Ok (Some [Ok (StdOut (str_bytes "{ ok: 1 }")); Ok (StdErr (str_bytes "!"))]),
                        from_millis 1, k)
     | DInspectExec _ => (Ok (Some 0%Z), from_millis 1, k)
     | DLogs _ _ _ => (Ok (repeat (Ok (StdErr (str_bytes "log"))) 12), from_millis 1, k)
     | _ => (Ok tt, from_millis 1, k)
     end)
    (fun _ k => (0%N, k)).

Lemma docker_example_healthy :
  (@bollard_main demo_docker (@mkDockerWorld demo_docker 5 0 [])).1 =
    Ok (mkReport "27.0" 42 true (str_bytes "{ ok: 1 }") 0 (repeat ("stderr", str_bytes "log") 10) 12).
Proof. vm_compute. reflexivity. Qed.

(** The health check never passes: the error leaves the container behind. *)
Lemma docker_example_times_out :
  let r := @bollard_main demo_docker (@mkDockerWorld demo_docker 500 0 []) in
  r.1 = Err (Text "timed out waiting for MongoDB to become healthy") /\
  length (called r.2) = 66 /\ last (called r.2) = Some (DInspectContainer CONTAINER_NAME).
Proof. vm_compute. auto. Qed.
